(* ===== verification/_CoqProject ===== *)
-Q . S2P
Prelude.v
CString.v
Os.v
Systemv.v
Helpers.v
Lyx.v
Dagger.v
Core.v
Inet.v
IfGen.v
IfGenFacts.v
IfGenProps.v
IfLife.v
IfAddr.v
IfDemo.v
IfLifeDemo.v
Net.v
NetOrder.v
NetProps.v
NetDemo.v
NetCycle.v
SrxVal.v
IfCand.v
IfCandKeep.v
SysConf.v
SysConfProps.v
SysNtp.v
SysStage.v
Transaction.v
SysTime.v
Confd.v
SysAuth.v
SysAuthProps.v
Dhcp.v
SysDemo.v
Statd.v
Tools.v
ProfAr.v
ProfSlots.v
ProfData.v
ProfNetif.v
ProfApp.v
ProfProps.v
ProfAlarm.v
ProfDemo.v
ProfMain.v
ProfCfg.v
ProfLog.v
ProfStart.v
ProfBoot.v
