(* ===== verification/Prelude.v ===== *)
(** * Infix: a verification development for the C programs of the repository

    Infix is a network operating system.  Its own C code is a set of sysrepo
    plugins and small programs (paths below are relative to src/src/):

    - confd (confd/src/confd, confd/src/lib) turns changes of the YANG
      datastores into files, services and scripts.  For the network it writes
      a numbered directory of scripts, a generation (dagger.c,
      ietf-interfaces.c), under the control of the transaction hooks of
      core.c; for the system it writes files of /etc (ietf-system.c) and
      Finit services (infix-dhcp.c);
    - net (net/src/main.c) applies a generation: it runs the exit actions of
      the old one in reverse order of dependency and the init actions of the
      new one in order of dependency, then commits it;
    - statd (confd/src/statd) answers requests for operational state;
    - klinfix and factory are commands of the CLI;
    - profeth (profeth/src) is a Profinet device on top of the p-net stack.

    ** The model

    C code is state passing: [M W A] with outcomes [Ret], [Exit] (exit(3)) and
    [Crash] (a NULL dereference, a failed assertion, an overflowing copy).
    Total correctness is [wp]: a theorem about [wp m Q w], or one that gives
    the equation [m w = (Ret a, w')], shows that the code returns.  Integers
    are Z with their width written out (u8, u16, u32, s32).  Strings are Coq
    strings, buffers of the C code are cut where the C code cuts them.

    What is not in the repository is a parameter: the class [Os] (what a shell
    command does, whether a file can be opened), [IfEnv] and [NetOs] (the
    kernel's interfaces, pipes, directories, realpath), [Sr] (sysrepo values),
    [Augeas] and [Exec], [Proc] (fork, exec, wait), [SrPlugin] (what a plugin is
    given at its start), [TimeOs] (strptime, mktime, settimeofday), [Pnet]
    (the p-net stack) and the sizes and codes of its headers.  What a theorem assumes of
    them is a hypothesis or a class of laws, and a witness instantiates it.

    ** Files

    - Prelude: outcomes, the monad, loops, [wp] and its rules, frames
      ([stable]: what a program leaves as it was), integer widths,
      string lemmas and the rewrite base [str].  CString: the functions of
      string.h and stdio.h on strings, numbers and fnmatch.  Os: the file
      system, errno, system(3), fopen(3).  Helpers: lib/helpers.c.  Lyx:
      lib/lyx.c and lyx.h, libyang trees.  SrxVal: srx_val.c.  Inet: inet_pton.
    - Dagger: dagger.c.  Core: core.c and core.h, the hooks.  Systemv:
      systemv.c.  Confd: the start and end of the plugin, all registrations,
      srx_module.c.
    - IfGen: the script generator of ietf-interfaces.c, from ifchange() down
      to every line; IfGenFacts, IfGenProps: its theorems; IfLife: ifchange()
      and the dagger together, the life of a generation; IfAddr: addresses;
      IfCand, IfCandKeep: the defaults in the candidate; IfDemo, IfLifeDemo:
      concrete trees and a concrete transaction.
    - Net: net/src/main.c; NetOrder: the order of activation; NetProps:
      commit, deactivation, ifup and ifdown; NetCycle: when deps() ends;
      NetDemo: a small generation.
    - SysConf, SysTime, SysAuth: ietf-system.c (files of /etc; platform and
      date; users, keys and host name); SysConfProps, SysNtp, SysAuthProps:
      their theorems; SysStage: the callbacks as participants of a transaction
      (the interface [Participant]); Transaction: a sysrepo transaction over
      them and the hooks; Dhcp: infix-dhcp.c; SysDemo: a concrete system.
    - Statd: statd/core.c.  Tools: klinfix.c and factory.c.
    - ProfAr, ProfSlots, ProfData, ProfNetif: the AR array, the slot tables,
      process data and GSDML tables, interface names; ProfApp: the
      application of sampleapp_common.c with its callbacks and main loop;
      ProfProps, ProfAlarm: its theorems; ProfMain: profeth.c; ProfCfg:
      network configuration and pnal_filetools.c; ProfLog: app_log.c and the
      texts that are logged; ProfStart: the configuration of the stack and
      app_start(); ProfBoot: main() with its output; ProfDemo.

    ** What the theorems show

    - A network change is atomic and ordered: the lock file keeps a second
      transaction out (claim_exclusive), numbers follow each other
      (claim_evolve_claim), a generation that is claimed is ended exactly once
      and applied entirely or not at all (generation_ended_once), services are reloaded once per commit
      (reload_once_per_commit), activation follows the dependencies
      (activate_in_dependency_order), commits or changes nothing
      (commit_all_or_nothing), deactivation is in reverse
      (deactivate_in_reverse), and the recursion over dependencies ends
      exactly without cycles (deps_termination).
    - The generator is total and its scripts do what the change asks for
      (gen_iface_total, init_script_layout, veth_created_once,
      bridge_fwd_mask_bits, address_diff_correct against a kernel model).
    - Defaults are inferred from names and never replace what is configured
      (vlan_inferred_from_name, configured_leaves_kept).
    - A configuration change of the system is atomic across components
      (system_transaction_atomic): every participant's file is replaced by the
      text the datastore determines and services reload once at the end, or
      nothing changes.  The plugin comes up completely or not at all
      (plugin_init_all_or_nothing), and programs run without a shell report
      their status and leave the caller's signals alone
      (systemv_silent_result).
    - System files refine a staged update (staged_files_refine), chrony.conf
      equals a reference text (change_ntp_equiv), user names are checked
      before they reach a program (users_commands), key files and host name
      are exact (keys_files_exact, hostname_renamed), dates that are read can
      be set (datetime_roundtrip), DHCP clients follow the configuration
      (dhcp_clients_follow_config).
    - profeth: every interleaving of callbacks, timer and main loop keeps the
      invariants and returns (app_runs_safely); the array loops refine
      operations on lists (handle_event_refines, event_set_refines); alarms,
      readiness, slots, parameters, LED and echo behave as documented;
      arguments fit their buffers (arguments_fit_buffers), the configuration
      of the stack is well typed (default_config_typed), logged bytes can be
      read back (log_bytes_roundtrip), and output changes nothing about what
      main() does (boot_does_run_main).
    - Theorems named after a defect (abandon_blocks_claims,
      autoconf_change_ignored, ntp_enable_inverted, pull_high_slot_fails,
      installed_module_crashes and others) prove that the code does something it should not.

    ** Bounds and fuel

    [stack] of [NetOs] bounds the recursion of deps(); theorems ask for a
    stack deeper than the longest chain, and deps_termination shows that no
    stack is enough on a cycle.  Reading a file line by line has the length
    of the text as fuel, each line being at least one character.  Iterators
    over the AR array have its length plus one.  Twenty digits hold every
    64-bit number.  Other loops follow the structure of a list.

    ** Not modelled

    Help texts; log messages of confd and of the callbacks of profeth; the raw
    terminal mode of factory; srx_get_diff(), which reads a tree out of an
    opaque structure of sysrepo and is an input of the callbacks; threads and
    timers of the OS abstraction (their expiry is an event of [step]).
    Sysrepo's order of notification is the relation [transaction]; callbacks
    that work on other state than a session (network, users, host name, DHCP)
    have their own theorems and do not take part in it. *)
From stdpp Require Export base gmap strings list.
From Stdlib Require Export ZArith Lia.
From Stdlib Require Ascii.
Export Stdlib.Strings.Ascii (ascii(..)).
Export (notations) Stdlib.Strings.Ascii.

(** ** Results of C code

    [Ret a] is a normal return, [Exit c] a call of exit(3) (or err(3)) with
    status [c], [Crash] a NULL dereference or a failed assertion. *)
Inductive outcome (A : Type) :=
| Ret (a : A)
| Exit (code : Z)
| Crash.

Arguments Ret {A} a.
Arguments Exit {A} code.
Arguments Crash {A}.

(** C code over a state [W]: state passing with the outcomes above. *)
Definition M (W A : Type) : Type := W → outcome A * W.

Definition ret {W A} (a : A) : M W A := λ w, (Ret a, w).

Definition bind {W A B} (m : M W A) (f : A → M W B) : M W B := λ w,
  match m w with
  | (Ret a, w') => f a w'
  | (Exit c, w') => (Exit c, w')
  | (Crash, w') => (Crash, w')
  end.

Definition exit {W A} (c : Z) : M W A := λ w, (Exit c, w).

Definition crash {W A} : M W A := λ w, (Crash, w).

Definition get {W} : M W W := λ w, (Ret w, w).

Definition put {W} (w : W) : M W unit := λ _, (Ret tt, w).

Definition gets {W A} (f : W → A) : M W A := λ w, (Ret (f w), w).

Definition modify {W} (f : W → W) : M W unit := λ w, (Ret tt, f w).

(** Use of a pointer that may be NULL where C requires a valid one. *)
Definition deref {W A} (p : option A) : M W A :=
  match p with Some a => ret a | None => crash end.

Declare Scope c_scope.
Delimit Scope c_scope with c.

Notation "'let*' x := m 'in' k" := (bind m (λ x, k))
  (at level 10, x pattern, m at level 100, k at level 200) : c_scope.
Notation "m ;;; k" := (bind m (λ _, k))
  (at level 100, k at level 200, right associativity) : c_scope.

Open Scope c_scope.

(** ** Loops *)

(** [for (x in l) body], every iteration runs. *)
Fixpoint foreach {W A} (l : list A) (body : A → M W unit) : M W unit :=
  match l with
  | [] => ret tt
  | x :: l' => body x ;;; foreach l' body
  end.

(** A loop that accumulates a value. *)
Fixpoint foldM {W A B} (f : B → A → M W B) (b : B) (l : list A) : M W B :=
  match l with
  | [] => ret b
  | x :: l' => let* b' := f b x in foldM f b' l'
  end.

(** [for (x in l) { err = body(x); if (err) break; }] with the last [err]. *)
Fixpoint for_until_err {W A} (l : list A) (body : A → M W Z) (err : Z) : M W Z :=
  match l with
  | [] => ret err
  | x :: l' =>
      let* e := body x in
      if decide (e = 0%Z) then for_until_err l' body e else ret e
  end.

(** GNU C's [err ? : next], [next] is evaluated only when [err] is zero. *)
Definition err_or {W} (err : Z) (next : M W Z) : M W Z :=
  if decide (err = 0%Z) then next else ret err.

(** ** Total correctness: [m] returns normally from [w] and [Q] holds. *)
Definition wp {W A} (m : M W A) (Q : A → W → Prop) (w : W) : Prop :=
  match m w with
  | (Ret a, w') => Q a w'
  | _ => False
  end.

Section WpRules.
Context {W : Type}.
Implicit Types w : W.

Lemma wp_ret {A} (a : A) Q w : Q a w → wp (ret a) Q w.
Proof. done. Qed.

Lemma wp_bind {A B} (m : M W A) (f : A → M W B) Q w :
  wp m (λ a, wp (f a) Q) w → wp (bind m f) Q w.
Proof. unfold wp, bind. by destruct (m w) as [[] ?]. Qed.

Lemma wp_mono {A} (m : M W A) (Q Q' : A → W → Prop) w :
  wp m Q w → (∀ a w', Q a w' → Q' a w') → wp m Q' w.
Proof. unfold wp. destruct (m w) as [[] ?]; naive_solver. Qed.

Lemma wp_run {A} (m : M W A) Q w : wp m Q w → ∃ a w', m w = (Ret a, w') ∧ Q a w'.
Proof. unfold wp. destruct (m w) as [[] ?]; naive_solver. Qed.

Lemma wp_eq {A} (m m' : M W A) Q w : m w = m' w → wp m' Q w → wp m Q w.
Proof. unfold wp. by intros ->. Qed.

Lemma bind_run {A B} (m : M W A) (f : A → M W B) w a w' : m w = (Ret a, w') → bind m f w = f a w'.
Proof. intros E. unfold bind. by rewrite E. Qed.

Lemma wp_gets {A} (f : W → A) Q w : Q (f w) w → wp (gets f) Q w.
Proof. done. Qed.

Lemma wp_modify (f : W → W) Q w : Q tt (f w) → wp (modify f) Q w.
Proof. done. Qed.

Lemma wp_deref {A} (p : option A) a Q w : p = Some a → Q a w → wp (deref p) Q w.
Proof. by intros ->. Qed.

Lemma wp_err_or err (m : M W Z) Q w :
  (err ≠ 0%Z → Q err w) → (err = 0%Z → wp m Q w) → wp (err_or err m) Q w.
Proof. unfold err_or. case_decide; auto using wp_ret. Qed.

(** A loop keeps an invariant that every iteration keeps. *)
Lemma wp_foreach {A} (l : list A) (body : A → M W unit) (I : W → Prop) w :
  I w → (∀ x w, x ∈ l → I w → wp (body x) (λ _, I) w) →
  wp (foreach l body) (λ _, I) w.
Proof.
  revert w. induction l as [|x l IH]; intros w HI Hb; [done|].
  apply wp_bind. eapply wp_mono; [apply Hb; [set_solver|done]|].
  intros [] w' HI'. apply IH; [done|]. intros; apply Hb; [set_solver|done].
Qed.

Lemma wp_for_until_err {A} (l : list A) (body : A → M W Z) (I : W → Prop) e w :
  I w → (∀ x w, x ∈ l → I w → wp (body x) (λ _, I) w) →
  wp (for_until_err l body e) (λ _, I) w.
Proof.
  revert e w. induction l as [|x l IH]; intros e w HI Hb; [done|].
  apply wp_bind. eapply wp_mono; [apply Hb; [set_solver|done]|].
  intros e' w' HI'. simpl. case_decide; [|done].
  apply IH; [done|]. intros; apply Hb; [set_solver|done].
Qed.

(** Monad laws, as pointwise equations on states. *)
Lemma bind_ret_l {A B} (a : A) (f : A → M W B) w : bind (ret a) f w = f a w.
Proof. done. Qed.

Lemma bind_assoc {A B C} (m : M W A) (f : A → M W B) (g : B → M W C) w :
  bind (bind m f) g w = bind m (λ a, bind (f a) g) w.
Proof. unfold bind. by destruct (m w) as [[] ?]. Qed.

Lemma foreach_app {A} (l1 l2 : list A) (body : A → M W unit) w :
  foreach (l1 ++ l2) body w = (foreach l1 body ;;; foreach l2 body) w.
Proof.
  revert w. induction l1 as [|x l1 IH]; intros w; [done|]. simpl.
  rewrite bind_assoc. unfold bind. destruct (body x w) as [[] w']; [|done..].
  apply IH.
Qed.

Lemma foldM_app {A B} (f : B → A → M W B) b (l1 l2 : list A) w :
  foldM f b (l1 ++ l2) w = (let* b' := foldM f b l1 in foldM f b' l2) w.
Proof.
  revert b w. induction l1 as [|x l1 IH]; intros b w; [done|]. simpl.
  rewrite bind_assoc. unfold bind. destruct (f b x w) as [[] w']; [|done..].
  apply IH.
Qed.
End WpRules.

(** Pushes [wp] through the control flow. *)
Ltac wp_step :=
  match goal with
  | |- wp (bind _ _) _ _ => apply wp_bind
  | |- wp (ret _) _ _ => apply wp_ret
  | |- wp (gets _) _ _ => apply wp_gets
  | |- wp (modify _) _ _ => apply wp_modify
  | |- wp (if decide _ then _ else _) _ _ => case_decide
  | |- wp (if ?b then _ else _) _ _ => destruct b eqn:?
  end.
Ltac wp_steps := repeat (wp_step; simpl).

(** ** Frames: what a program leaves as it was *)

(** Whatever [m] does, it does it within the preorder [R]. *)
Definition stable {W A} (R : W → W → Prop) (m : M W A) : Prop := ∀ s, R s (m s).2.

Section Stable.
Context {W : Type} (R : W → W → Prop) `{!PreOrder R}.

Lemma stable_ret {A} (a : A) : stable R (ret a).
Proof. intros s. simpl. reflexivity. Qed.

Lemma stable_crash {A} : stable R (@crash W A).
Proof. intros s. simpl. reflexivity. Qed.

Lemma stable_deref {A} (x : option A) : stable R (deref x).
Proof. intros s. destruct x; simpl; reflexivity. Qed.

Lemma stable_get : stable R get.
Proof. intros s. simpl. reflexivity. Qed.

Lemma stable_gets {A} (f : W → A) : stable R (gets f).
Proof. intros s. simpl. reflexivity. Qed.

Lemma stable_bind {A B} (m : M W A) (f : A → M W B) :
  stable R m → (∀ a, stable R (f a)) → stable R (bind m f).
Proof.
  intros Hm Hf s. unfold bind. specialize (Hm s).
  destruct (m s) as [[a|c|] s']; simpl in *; [|done..]. etrans; [exact Hm|apply Hf].
Qed.

(** The same with what is known of the first result. *)
Lemma stable_bind_on {A B} (P : A → Prop) (m : M W A) (f : A → M W B) :
  stable R m → (∀ s a s', m s = (Ret a, s') → P a) → (∀ a, P a → stable R (f a)) → stable R (bind m f).
Proof.
  intros Hm HP Hf s. unfold bind. specialize (Hm s).
  destruct (m s) as [[a|c|] s'] eqn:E; simpl in *; [|done..].
  etrans; [exact Hm|apply Hf; by eapply HP].
Qed.

Lemma stable_if {A} (b : bool) (m1 m2 : M W A) :
  stable R m1 → stable R m2 → stable R (if b then m1 else m2).
Proof. by destruct b. Qed.

Lemma stable_decide {A} P `{Decision P} (m1 m2 : M W A) :
  stable R m1 → stable R m2 → stable R (if decide P then m1 else m2).
Proof. by case_decide. Qed.

Lemma stable_foreach {A} (l : list A) body : (∀ x, stable R (body x)) → stable R (foreach l body).
Proof. intros Hb. induction l; [apply stable_ret|]. apply stable_bind; auto. Qed.

Lemma stable_foldM {A B} (f : B → A → M W B) b l : (∀ b x, stable R (f b x)) → stable R (foldM f b l).
Proof. intros Hf. revert b. induction l; intros b; [apply stable_ret|]. apply stable_bind; auto. Qed.

Lemma stable_for_until_err {A} (l : list A) body e : (∀ x, stable R (body x)) → stable R (for_until_err l body e).
Proof.
  intros Hb. revert e. induction l; intros e; [apply stable_ret|]. apply stable_bind; [auto|intros].
  apply stable_decide; [auto|apply stable_ret].
Qed.

Lemma stable_err_or err (m : M W Z) : stable R m → stable R (err_or err m).
Proof. intros Hm. unfold err_or. apply stable_decide; [done|apply stable_ret]. Qed.
End Stable.

(** Through the control flow; what is left are calls [auto] does not know. *)
Ltac stable_step :=
  match goal with
  | |- stable _ (bind _ _) => apply stable_bind; [apply _| |intro]
  | |- stable _ (if decide _ then _ else _) => apply stable_decide
  | |- stable _ (if ?b then _ else _) => apply stable_if
  | |- stable _ (match ?x with _ => _ end) => destruct x
  | |- stable _ (foreach _ _) => apply stable_foreach; [apply _|intro]
  | |- stable _ (foldM _ _ _) => apply stable_foldM; [apply _|intros]
  | |- stable _ (for_until_err _ _ _) => apply stable_for_until_err; [apply _|intro]
  | |- stable _ (err_or _ _) => apply stable_err_or; [apply _|]
  end.

(** ** Integers at their width *)

Definition u8 (z : Z) : Z := (z `mod` 2 ^ 8)%Z.
Definition u16 (z : Z) : Z := (z `mod` 2 ^ 16)%Z.
Definition u32 (z : Z) : Z := (z `mod` 2 ^ 32)%Z.
Definition INT_MIN : Z := (- 2 ^ 31)%Z.
Definition INT_MAX : Z := (2 ^ 31 - 1)%Z.
Definition LLONG_MIN : Z := (- 2 ^ 63)%Z.
Definition LLONG_MAX : Z := (2 ^ 63 - 1)%Z.

(** Conversion of a wider integer to a 32-bit two's complement [int]. *)
Definition s32 (z : Z) : Z := ((z + 2 ^ 31) `mod` 2 ^ 32 - 2 ^ 31)%Z.

Lemma u16_range z : (0 ≤ u16 z < 2 ^ 16)%Z.
Proof. unfold u16. apply Z.mod_pos_bound. lia. Qed.

Lemma s32_id z : (INT_MIN ≤ z ≤ INT_MAX)%Z → s32 z = z.
Proof. unfold s32, INT_MIN, INT_MAX. intros. rewrite Z.mod_small; lia. Qed.

(** ** Strings *)

Definition nl : string := String "010"%char EmptyString.

Definition dquote : string := String "034"%char EmptyString.

#[local] Arguments String.append !_ _ : simpl nomatch.

Lemma app_assoc_s (s1 s2 s3 : string) : (s1 +:+ s2) +:+ s3 = s1 +:+ (s2 +:+ s3).
Proof. induction s1 as [|c s1 IH]; simpl; [done|]. by rewrite IH. Qed.

Lemma app_nil_r_s (s : string) : s +:+ EmptyString = s.
Proof. induction s as [|c s IH]; simpl; [done|]. by rewrite IH. Qed.

Lemma app_inj_l_s (s s1 s2 : string) : s +:+ s1 = s +:+ s2 → s1 = s2.
Proof. induction s; simpl; [done|]. intros [= ?]. auto. Qed.

Lemma length_app_s (s1 s2 : string) :
  String.length (s1 +:+ s2) = String.length s1 + String.length s2.
Proof. induction s1 as [|c s1 IH]; simpl; [done|]. by rewrite IH. Qed.

Lemma app_cancel_r_s (s s1 s2 : string) : s1 +:+ s = s2 +:+ s → s1 = s2.
Proof.
  revert s2. induction s1 as [|c s1 IH]; intros [|c2 s2]; simpl; [done| | |].
  - intros E. apply (f_equal String.length) in E. simpl in E.
    rewrite length_app_s in E. lia.
  - intros E. apply (f_equal String.length) in E. simpl in E.
    rewrite length_app_s in E. lia.
  - intros [= -> ?]. f_equal. auto.
Qed.

(** All characters of a string satisfy a test. *)
Fixpoint str_all (f : ascii → bool) (s : string) : bool :=
  match s with
  | EmptyString => true
  | String c s' => f c && str_all f s'
  end.

Lemma str_all_app f s1 s2 : str_all f (s1 +:+ s2) = str_all f s1 && str_all f s2.
Proof. induction s1; simpl; [done|]. by rewrite IHs1, andb_assoc. Qed.

(** Right-nested concatenation, the normal form of generated text. *)
Create Rewrite HintDb str.
#[export] Hint Rewrite app_assoc_s app_nil_r_s : str.

Ltac str_norm := autorewrite with str in *; simpl in *.
