(* ===== verification/CString.v ===== *)
(** * C strings and number formats

    What the sources use of the C library on strings: character classes in
    the C locale, [rindex], [strstr], [strncmp], [fgets], [strtol] and
    [strtoll], the [%d] and [%02u] conversions and the [fnmatch] patterns of
    ietf-interfaces.c.  The main result is that a decimal number printed with
    [%d] is read back by [strtoll], which the generation counters of the
    dagger rely on. *)
From S2P Require Import Prelude.

#[local] Arguments String.append !_ _ : simpl nomatch.

Open Scope Z_scope.

(** ** Characters *)

Definition ord (c : ascii) : Z := Z.of_N (Stdlib.Strings.Ascii.N_of_ascii c).

Definition chr (z : Z) : ascii := Stdlib.Strings.Ascii.ascii_of_N (Z.to_N z).

Definition in_range (lo hi : Z) (c : ascii) : bool := (lo <=? ord c) && (ord c <=? hi).

Definition isdigit (c : ascii) : bool := in_range 48 57 c.

Definition isupper (c : ascii) : bool := in_range 65 90 c.

Definition islower (c : ascii) : bool := in_range 97 122 c.

Definition isalpha (c : ascii) : bool := isupper c || islower c.

Definition isalnum (c : ascii) : bool := isalpha c || isdigit c.

Definition isspace (c : ascii) : bool := (ord c =? 32) || in_range 9 13 c.

Definition tolower (c : ascii) : ascii := if isupper c then chr (ord c + 32) else c.

(** ** Searching *)

Definition streq (a b : string) : bool := bool_decide (a = b).

(** The suffix that starts at the last occurrence of a character. *)
Fixpoint rindex (s : string) (c : ascii) : option string :=
  match s with
  | EmptyString => None
  | String d s' =>
      match rindex s' c with
      | Some r => Some r
      | None => if decide (d = c) then Some s else None
      end
  end.

(** The suffix that starts at the first occurrence of a character. *)
Fixpoint strchr (s : string) (c : ascii) : option string :=
  match s with
  | EmptyString => None
  | String d s' => if decide (d = c) then Some s else strchr s' c
  end.

Fixpoint str_prefix (p s : string) : bool :=
  match p, s with
  | EmptyString, _ => true
  | String c p', String d s' => bool_decide (c = d) && str_prefix p' s'
  | _, _ => false
  end.

(** First occurrence of [p] in [s]: the text before it and the suffix that
    starts with it. *)
Fixpoint strstr (s p : string) : option (string * string) :=
  if str_prefix p s then Some (EmptyString, s)
  else match s with
       | EmptyString => None
       | String c s' =>
           match strstr s' p with
           | Some (a, b) => Some (String c a, b)
           | None => None
           end
       end.

(** [strncmp (a, b, n) == 0] *)
Fixpoint strneq (n : nat) (a b : string) : bool :=
  match n, a, b with
  | O, _, _ => true
  | S n', String c a', String d b' => bool_decide (c = d) && strneq n' a' b'
  | S _, EmptyString, EmptyString => true
  | _, _, _ => false
  end.

(** [strlcpy] into a buffer of [n] bytes: at most [n - 1] characters. *)
Fixpoint str_take (n : nat) (s : string) : string :=
  match n, s with
  | S n', String c s' => String c (str_take n' s')
  | _, _ => EmptyString
  end.

Definition strlcpy (n : nat) (s : string) : string := str_take (n - 1) s.

(** ** Reading lines: [fgets] with a buffer of [n] bytes reads at most
    [n - 1] characters and stops after a newline; [None] at end of file. *)
Fixpoint fgets_go (n : nat) (s : string) : string * string :=
  match n, s with
  | S n', String c s' =>
      if decide (c = "010"%char) then (nl, s')
      else let '(l, r) := fgets_go n' s' in (String c l, r)
  | _, _ => (EmptyString, s)
  end.

Definition fgets (n : nat) (s : string) : option (string * string) :=
  match s with
  | EmptyString => None
  | _ => Some (fgets_go (n - 1) s)
  end.

(** All the lines a [while (fgets(...))] loop reads; the fuel is the length of
    the text, as every call consumes a character when [n > 1]. *)
Fixpoint fgets_all (fuel n : nat) (s : string) : list string :=
  match fuel with
  | O => []
  | S f =>
      match fgets n s with
      | None => []
      | Some (l, r) => l :: fgets_all f n r
      end
  end.

Definition lines (n : nat) (s : string) : list string := fgets_all (String.length s) n s.

(** ** Numbers *)

Definition digit (d : Z) : string := String (chr (48 + d)) EmptyString.

Fixpoint dec_aux (fuel : nat) (n : Z) : string :=
  match fuel with
  | O => EmptyString
  | S f => if n <? 10 then digit n else dec_aux f (n / 10) +:+ digit (n mod 10)
  end.

(** [%d], [%ld], [%u]: twenty digits hold every 64-bit value. *)
Definition fmt_d (n : Z) : string :=
  if n <? 0 then "-" +:+ dec_aux 20 (- n) else dec_aux 20 n.

(** [%02u] *)
Definition fmt_02u (n : Z) : string := if n <? 10 then "0" +:+ fmt_d n else fmt_d n.

(** The value of a digit in a base, [None] when it is not one. *)
Definition digit_val (base : Z) (c : ascii) : option Z :=
  let v := if isdigit c then ord c - 48
           else if islower c then ord c - 87
           else if isupper c then ord c - 55 else 99 in
  if v <? base then Some v else None.

Fixpoint parse_digits (base acc : Z) (s : string) : Z :=
  match s with
  | EmptyString => acc
  | String c s' =>
      match digit_val base c with
      | Some v => parse_digits base (acc * base + v) s'
      | None => acc
      end
  end.

Fixpoint skip_space (s : string) : string :=
  match s with
  | String c s' => if isspace c then skip_space s' else s
  | EmptyString => EmptyString
  end.

Definition has_hex_prefix (s : string) : bool :=
  match s with
  | String c0 (String c1 (String c2 _)) =>
      bool_decide (c0 = "0"%char) && (bool_decide (c1 = "x"%char) || bool_decide (c1 = "X"%char))
      && bool_decide (is_Some (digit_val 16 c2))
  | _ => false
  end.

(** The magnitude: base 0 takes the base from the prefix, as in C. *)
Definition parse_mag (base : Z) (s : string) : Z :=
  if (base =? 0) then
    if has_hex_prefix s then
      match s with String _ (String _ s') => parse_digits 16 0 s' | _ => 0 end
    else if str_prefix "0" s then parse_digits 8 0 s
    else parse_digits 10 0 s
  else parse_digits base 0 s.

(** [strtoll (s, NULL, base)] (and [strtol] where [long] has 64 bits): the
    value and whether [errno] is set to ERANGE, the value saturated then. *)
Definition strtoll (s : string) (base : Z) : Z * bool :=
  let s := skip_space s in
  let '(neg, s) := match s with
                   | String c s' =>
                       if decide (c = "-"%char) then (true, s')
                       else if decide (c = "+"%char) then (false, s') else (false, s)
                   | EmptyString => (false, s)
                   end in
  let m := parse_mag base s in
  let v := if neg : bool then - m else m in
  if v <? LLONG_MIN then (LLONG_MIN, true)
  else if LLONG_MAX <? v then (LLONG_MAX, true) else (v, false).

(** ** Extended glob patterns (fnmatch with FNM_EXTMATCH) *)

Inductive pat :=
| PLit (c : ascii)              (* a literal character *)
| PStar                         (* "*" *)
| PPlus (f : ascii → bool).     (* "+([...])" *)

(** [+([...])] matches a non-empty run; [k] matches the rest. *)
Fixpoint match_run (f : ascii → bool) (k : string → bool) (s : string) : bool :=
  match s with
  | EmptyString => false
  | String c s' => f c && (k s' || match_run f k s')
  end.

Fixpoint match_any (k : string → bool) (s : string) : bool :=
  k s || match s with EmptyString => false | String _ s' => match_any k s' end.

Fixpoint fnmatch (p : list pat) (s : string) : bool :=
  match p with
  | [] => match s with EmptyString => true | _ => false end
  | PLit c :: p' =>
      match s with
      | String d s' => bool_decide (c = d) && fnmatch p' s'
      | EmptyString => false
      end
  | PStar :: p' => match_any (fnmatch p') s
  | PPlus f :: p' => match_run f (fnmatch p') s
  end.

Fixpoint plits (s : string) : list pat :=
  match s with
  | EmptyString => []
  | String c s' => PLit c :: plits s'
  end.

(** ** Lemmas on characters and digits *)

Lemma ord_chr z : 0 ≤ z < 256 → ord (chr z) = z.
Proof.
  intros H. unfold ord, chr. rewrite Stdlib.Strings.Ascii.N_ascii_embedding; lia.
Qed.

Lemma digit_val_digit d : 0 ≤ d < 10 → digit_val 10 (chr (48 + d)) = Some d.
Proof.
  intros H. unfold digit_val, isdigit, in_range. rewrite ord_chr by lia.
  repeat (case_match; try lia). f_equal. lia.
Qed.

Lemma digit_val_nl base : base ≤ 36 → digit_val base "010"%char = None.
Proof. intros H. unfold digit_val. simpl. case_match; [lia|done]. Qed.

(** ** Printing and reading numbers *)

Lemma parse_digits_dec_aux fuel n acc r :
  0 ≤ n < 10 ^ Z.of_nat fuel →
  parse_digits 10 acc (dec_aux fuel n +:+ r) =
  parse_digits 10 (acc * 10 ^ Z.of_nat (String.length (dec_aux fuel n)) + n) r.
Proof.
  revert n acc r. induction fuel as [|f IH]; intros n acc r Hn.
  - simpl in *. f_equal. lia.
  - rewrite Nat2Z.inj_succ, Z.pow_succ_r in Hn by lia. simpl.
    destruct (Z.ltb_spec n 10) as [Hlt|Hge].
    + simpl. rewrite digit_val_digit by lia. done.
    + rewrite app_assoc_s, IH by (split; [apply Z.div_pos; lia|apply Z.div_lt_upper_bound; lia]).
      simpl. rewrite digit_val_digit by (apply Z.mod_pos_bound; lia).
      rewrite length_app_s. simpl. f_equal.
      rewrite Nat.add_1_r, Nat2Z.inj_succ, Z.pow_succ_r by lia.
      pose proof (Z.div_mod n 10). lia.
Qed.

Lemma dec_aux_head fuel n :
  1 ≤ n < 10 ^ Z.of_nat fuel →
  ∃ c s, dec_aux fuel n = String c s ∧ 49 ≤ ord c ≤ 57.
Proof.
  revert n. induction fuel as [|f IH]; intros n Hn; [simpl in Hn; lia|].
  rewrite Nat2Z.inj_succ, Z.pow_succ_r in Hn by lia. simpl.
  destruct (Z.ltb_spec n 10) as [Hlt|Hge].
  - eexists _, _. split; [done|]. rewrite ord_chr by lia. lia.
  - destruct (IH (n / 10)) as (c & s & -> & Hc).
    { split; [apply Z.div_le_lower_bound; lia|apply Z.div_lt_upper_bound; lia]. }
    by eexists _, _.
Qed.

Lemma ord_ne c d : ord c ≠ ord d → c ≠ d.
Proof. congruence. Qed.

(** The magnitude of a printed number is read back in base 0, as its first
    digit is not 0. *)
Lemma parse_mag_dec_aux n r :
  1 ≤ n < 10 ^ 20 →
  (∀ c r', r = String c r' → digit_val 10 c = None) →
  parse_mag 0 (dec_aux 20 n +:+ r) = n.
Proof.
  intros Hn Hr. destruct (dec_aux_head 20 n Hn) as (c & s & E & Hc).
  unfold parse_mag. simpl (0 =? 0).
  assert (str_prefix "0" (dec_aux 20 n +:+ r) = false) as ->.
  { rewrite E. simpl. case_bool_decide; [|done]. subst c; change (ord "0"%char) with 48 in Hc; lia. }
  assert (has_hex_prefix (dec_aux 20 n +:+ r) = false) as ->.
  { rewrite E. simpl. case_bool_decide; [subst c; change (ord "0"%char) with 48 in Hc; lia|].
    by destruct (s +:+ r) as [|? [|? ?]]. }
  rewrite parse_digits_dec_aux by (simpl Z.of_nat; lia).
  destruct r as [|c' r']; simpl; [done|]. by rewrite (Hr c' r').
Qed.

Lemma isspace_digit c : 48 ≤ ord c ≤ 57 → isspace c = false.
Proof. unfold isspace, in_range. lia. Qed.

(** A number printed with [%d] and a newline is what [strtoll] reads. *)
Lemma strtoll_fmt_d n :
  LLONG_MIN ≤ n ≤ LLONG_MAX → strtoll (fmt_d n +:+ nl) 0 = (n, false).
Proof.
  unfold LLONG_MIN, LLONG_MAX. intros Hn.
  destruct (decide (n = 0)) as [->|Hnz]; [vm_compute; done|].
  assert (Hnl : ∀ c r', nl = String c r' → digit_val 10 c = None) by (intros ?? [= <- <-]; done).
  unfold strtoll, fmt_d. destruct (Z.ltb_spec n 0) as [Hneg|Hpos].
  - assert (parse_mag 0 (dec_aux 20 (- n) +:+ nl) = - n) as E.
    { apply parse_mag_dec_aux; [simpl; lia|done]. }
    cbn -[parse_mag dec_aux nl].
    change (isspace "-") with false. cbn -[parse_mag dec_aux nl].
    rewrite decide_True by done. rewrite E.
    unfold LLONG_MIN, LLONG_MAX.
    repeat (case_match; try lia). f_equal. lia.
  - destruct (dec_aux_head 20 n) as (c & s & E & Hc); [simpl; lia|].
    assert (parse_mag 0 (String c (s +:+ nl)) = n) as Em.
    { change (String c (s +:+ nl)) with (String c s +:+ nl). rewrite <- E.
      apply parse_mag_dec_aux; [simpl; lia|done]. }
    rewrite E. cbn -[parse_mag nl]. rewrite isspace_digit by lia.
    rewrite decide_False by (apply ord_ne; change (ord "-"%char) with 45; lia).
    rewrite decide_False by (apply ord_ne; change (ord "+"%char) with 43; lia).
    rewrite Em. unfold LLONG_MIN, LLONG_MAX. repeat (case_match; try lia). done.
Qed.

(** ** Lines *)

Definition no_nl (s : string) : bool := str_all (λ c, bool_decide (c ≠ "010"%char)) s.

Lemma fgets_go_line n s r :
  no_nl s = true → (String.length s < n)%nat →
  fgets_go n (s +:+ nl +:+ r) = (s +:+ nl, r).
Proof.
  revert s. induction n as [|n IH]; intros s Hs Hl; [lia|].
  destruct s as [|c s]; simpl; [done|].
  unfold no_nl in Hs. simpl in Hs. apply andb_true_iff in Hs as [Hc Hs].
  apply bool_decide_eq_true in Hc. rewrite decide_False by done.
  rewrite IH by (try done; simpl in *; lia). done.
Qed.

(** A line that fits the buffer is read whole, with its newline. *)
Lemma fgets_line n s r :
  no_nl s = true → (String.length s + 2 ≤ n)%nat →
  fgets n (s +:+ nl +:+ r) = Some (s +:+ nl, r).
Proof.
  intros Hs Hn. unfold fgets.
  destruct (s +:+ nl +:+ r) eqn:E; [by destruct s|].
  rewrite <- E, fgets_go_line; [done|done|lia].
Qed.

(** The text of a list of lines. *)
Fixpoint unlines (l : list string) : string :=
  match l with
  | [] => EmptyString
  | s :: l' => s +:+ nl +:+ unlines l'
  end.

Definition line_ok (n : nat) (s : string) : Prop :=
  no_nl s = true ∧ (String.length s + 2 ≤ n)%nat.

Lemma unlines_snoc l s : unlines (l ++ [s]) = unlines l +:+ s +:+ nl.
Proof.
  induction l as [|x l IH]; simpl; [done|].
  by rewrite IH, !app_assoc_s.
Qed.

(** A file of lines that fit the buffer is read back line by line. *)
Lemma fgets_all_unlines fuel n l :
  Forall (line_ok n) l → (String.length (unlines l) ≤ fuel)%nat →
  fgets_all fuel n (unlines l) = map (λ s, s +:+ nl) l.
Proof.
  revert l. induction fuel as [|f IH]; intros l Hl Hf.
  - destruct l as [|s l]; [done|]. simpl in Hf. rewrite !length_app_s in Hf. simpl in Hf. lia.
  - destruct l as [|s l]; [done|]. apply Forall_cons in Hl as [[Hs Hn] Hl].
    cbn [fgets_all unlines]. rewrite fgets_line by done. cbn [map]. f_equal.
    apply IH; [done|]. simpl in Hf. rewrite !length_app_s in Hf. simpl in Hf. lia.
Qed.

Lemma lines_unlines n l :
  Forall (line_ok n) l → lines n (unlines l) = map (λ s, s +:+ nl) l.
Proof. intros. by apply fgets_all_unlines. Qed.

(** ** Patterns *)

Lemma match_run_end f s :
  match_run f (fnmatch []) s = true ↔ s ≠ EmptyString ∧ str_all f s = true.
Proof.
  induction s as [|c s IH]; simpl; [split; [done|by intros []]|].
  rewrite andb_true_iff, orb_true_iff, IH, andb_true_iff.
  destruct s; simpl; naive_solver.
Qed.

(** "lit+([class])": the literal followed by a non-empty run of the class. *)
Lemma fnmatch_lit_plus lit f s :
  fnmatch (plits lit ++ [PPlus f]) s = true ↔
  ∃ r, s = lit +:+ r ∧ r ≠ EmptyString ∧ str_all f r = true.
Proof.
  revert s. induction lit as [|c lit IH]; intros s.
  - cbn [plits app fnmatch]. rewrite match_run_end. naive_solver.
  - cbn [plits app fnmatch]. destruct s as [|d s]; [naive_solver|].
    rewrite andb_true_iff, bool_decide_eq_true, IH. simpl. naive_solver.
Qed.

Lemma match_any_spec k s :
  match_any k s = true ↔ ∃ a b, s = a +:+ b ∧ k b = true.
Proof.
  induction s as [|c s IH]; simpl; rewrite orb_true_iff.
  - split; [intros [?|?]; [|done]; by exists EmptyString, EmptyString|].
    intros ([|] & [|] & ? & ?); simpl in *; simplify_eq; by left.
  - rewrite IH. split.
    + intros [?|(a & b & -> & ?)]; [by exists EmptyString, (String c s)|by exists (String c a), b].
    + intros ([|c' a] & b & E & ?); simpl in *; simplify_eq; [by left|right; eauto].
Qed.

(** "*.+([class])" *)
Lemma fnmatch_star_dot_plus f s :
  fnmatch (PStar :: PLit "."%char :: [PPlus f]) s = true ↔
  ∃ a r, s = a +:+ "." +:+ r ∧ r ≠ EmptyString ∧ str_all f r = true.
Proof.
  cbn [fnmatch]. rewrite match_any_spec. split.
  - intros (a & b & -> & H). destruct b as [|d b]; [done|].
    apply andb_true_iff in H as [<-%bool_decide_eq_true [??]%match_run_end]. eauto.
  - intros (a & r & -> & ? & ?). exists a, ("." +:+ r). split; [done|].
    simpl. by apply match_run_end.
Qed.

Lemma rindex_app s c r : strchr r c = None → rindex (s +:+ String c r) c = Some (String c r).
Proof.
  intros Hr. assert (rindex r c = None) as Hn.
  { induction r as [|d r IH]; simpl in *; [done|]. case_decide; [done|].
    by rewrite IH. }
  induction s as [|d s IH]; simpl; [|by rewrite IH].
  by rewrite Hn, decide_True.
Qed.

Lemma str_take_app s t : str_take (String.length s) (s +:+ t) = s.
Proof.
  induction s as [|c s IH]; [by destruct t|]. change (String c s +:+ t) with (String c (s +:+ t)).
  simpl. by rewrite IH.
Qed.

Lemma str_all_strchr f c s : str_all f s = true → f c = false → strchr s c = None.
Proof.
  intros Hs Hc. induction s as [|x s IH]; [done|]. simpl in *. apply andb_true_iff in Hs as [Hx Hs].
  rewrite decide_False by congruence. auto.
Qed.

Lemma strchr_app_none a b c : strchr (a +:+ b) c = None ↔ strchr a c = None ∧ strchr b c = None.
Proof.
  induction a as [|x a IH]; [naive_solver|]. change (String x a +:+ b) with (String x (a +:+ b)).
  cbn [strchr]. case_decide; [naive_solver|done].
Qed.

Lemma str_take_all k s : (String.length s ≤ k)%nat → str_take k s = s.
Proof.
  revert k. induction s as [|c s IH]; intros [|k] Hk; simpl in *; try done; [lia|].
  rewrite IH by lia. done.
Qed.

Lemma str_take_le k s : (String.length (str_take k s) ≤ String.length s)%nat.
Proof.
  revert k. induction s as [|c s IH]; intros [|k]; cbn [str_take String.length]; [lia..|].
  specialize (IH k). lia.
Qed.
