(* ===== verification/Os.v ===== *)
(** * The operating system as the C programs use it

    A world holds the file system (regular files, directories and symbolic
    links by absolute path), [errno] and the commands given to system(3), in
    order.  An open [FILE *] is the path it was opened with; what is written
    is appended to the file's content.  What a shell command does and whether
    the kernel lets a file be opened is not in the sources: both are
    parameters, the class [Os]. *)
From S2P Require Import Prelude CString.

Open Scope Z_scope.

Inductive fnode :=
| NFile (content : string)
| NDir
| NLink (target : string).

#[export] Instance fnode_eq_dec : EqDecision fnode.
Proof. solve_decision. Defined.

Abbreviation fs := (gmap string fnode).

Record world := World {
  w_fs : fs;
  w_errno : Z;
  w_log : list string;       (* commands run by system(3), oldest first *)
}.

Definition ENOENT : Z := 2.
Definition EIO : Z := 5.
Definition ENOMEM : Z := 12.
Definition EEXIST : Z := 17.
Definition EINVAL : Z := 22.
Definition ENOSYS : Z := 38.
Definition ERANGE : Z := 34.
Definition EUNATCH : Z := 49.

Class Os := {
  (** system(3): exit status, [errno] and file system after the command *)
  os_system : string → fs → Z * Z * fs;
  (** fopen(3) refused by the kernel for a reason of its own: [Some errno] *)
  os_fopen : string → string → fs → option Z;
  (** fchmod(2) on an open file *)
  os_fchmod : string → fs → Z;
}.

Definition set_fs (f : fs) (w : world) : world := World f (w_errno w) (w_log w).

Definition set_errno (e : Z) : M world unit := modify (λ w, World (w_fs w) e (w_log w)).

Section Libc.
Context `{Os}.

Definition system (cmd : string) : M world Z := λ w,
  let '(rc, e, f) := os_system cmd (w_fs w) in
  (Ret rc, World f e (w_log w ++ [cmd])).

Definition fopen (path mode : string) : M world (option string) := λ w,
  match os_fopen mode path (w_fs w) with
  | Some e => (Ret None, World (w_fs w) e (w_log w))
  | None =>
      match w_fs w !! path with
      | Some (NFile _) =>
          if decide (mode = "wx") then (Ret None, World (w_fs w) EEXIST (w_log w))
          else if decide (mode = "w") then
            (Ret (Some path), set_fs (<[path := NFile EmptyString]> (w_fs w)) w)
          else (Ret (Some path), w)
      | Some _ => (Ret None, World (w_fs w) EEXIST (w_log w))
      | None =>
          if decide (mode = "r") then (Ret None, World (w_fs w) ENOENT (w_log w))
          else (Ret (Some path), set_fs (<[path := NFile EmptyString]> (w_fs w)) w)
      end
  end.

(** The text of an open file. *)
Definition file_text (path : string) (f : fs) : string :=
  match f !! path with Some (NFile s) => s | _ => EmptyString end.

Definition fputs (s fp : string) : M world unit :=
  modify (λ w, set_fs (alter (λ n, match n with NFile t => NFile (t +:+ s) | _ => n end) fp (w_fs w)) w).

Definition fchmod (fp : string) : M world Z := gets (λ w, os_fchmod fp (w_fs w)).

Definition fclose (fp : string) : M world Z := ret 0.

(** The first line of an open file, as one [fgets] on it returns it. *)
Definition fgets_first (n : nat) (fp : string) : M world (option string) :=
  gets (λ w, fst <$> fgets n (file_text fp (w_fs w))).

Definition remove (path : string) : M world Z := λ w,
  match w_fs w !! path with
  | Some _ => (Ret 0, set_fs (delete path (w_fs w)) w)
  | None => (Ret (-1), World (w_fs w) ENOENT (w_log w))
  end.

Definition rename (old new : string) : M world Z := λ w,
  match w_fs w !! old with
  | Some n => (Ret 0, set_fs (<[new := n]> (delete old (w_fs w))) w)
  | None => (Ret (-1), World (w_fs w) ENOENT (w_log w))
  end.

(** access (path, F_OK) and libite's fexist() of a path that is not a link *)
Definition access (path : string) : M world Z := λ w,
  match w_fs w !! path with
  | Some _ => (Ret 0, w)
  | None => (Ret (-1), World (w_fs w) ENOENT (w_log w))
  end.

(** libite's touch(): create an empty file, keep an existing one *)
Definition touch (path : string) : M world Z := λ w,
  match os_fopen "a" path (w_fs w) with
  | Some e => (Ret (-1), World (w_fs w) e (w_log w))
  | None =>
      match w_fs w !! path with
      | Some _ => (Ret 0, w)
      | None => (Ret 0, set_fs (<[path := NFile EmptyString]> (w_fs w)) w)
      end
  end.

End Libc.

(** ** Lemmas *)

Section Lemmas.
Context `{Os}.
Implicit Types w : world.

Lemma file_text_alter p s f t :
  f !! p = Some (NFile t) →
  file_text p (alter (λ n, match n with NFile t => NFile (t +:+ s) | _ => n end) p f) = t +:+ s.
Proof. intros E. unfold file_text. by rewrite lookup_alter_eq, E. Qed.

(** Writing to an open file appends. *)
Lemma wp_fputs s p t Q w :
  w_fs w !! p = Some (NFile t) →
  Q tt (set_fs (<[p := NFile (t +:+ s)]> (w_fs w)) w) →
  wp (fputs s p) Q w.
Proof.
  intros E HQ. apply wp_modify.
  replace (alter _ p (w_fs w)) with (<[p := NFile (t +:+ s)]> (w_fs w)); [done|].
  apply map_eq. intros i. rewrite lookup_insert, lookup_alter.
  case_decide; [|done]. subst. by rewrite E.
Qed.

(** Opening for writing truncates. *)
Lemma wp_fopen_w p Q w :
  os_fopen "w" p (w_fs w) = None →
  (w_fs w !! p = None ∨ ∃ t, w_fs w !! p = Some (NFile t)) →
  Q (Some p) (set_fs (<[p := NFile EmptyString]> (w_fs w)) w) →
  wp (fopen p "w") Q w.
Proof.
  intros Ho Hp HQ. unfold wp, fopen. rewrite Ho.
  destruct Hp as [->|[t ->]]; done.
Qed.

(** Opening for reading changes nothing. *)
Lemma wp_fopen_r p t Q w :
  os_fopen "r" p (w_fs w) = None → w_fs w !! p = Some (NFile t) →
  Q (Some p) w → wp (fopen p "r") Q w.
Proof. intros Ho Hp HQ. unfold wp, fopen. by rewrite Ho, Hp. Qed.

(** [fopen] always returns: it never crashes. *)
Lemma wp_fopen_any p m Q w :
  (∀ r w', (r = None ∧ w_fs w' = w_fs w ∨
            r = Some p ∧ ∃ t, w_fs w' !! p = Some (NFile t)) → w_log w' = w_log w → Q r w') →
  wp (fopen p m) Q w.
Proof.
  intros HQ. unfold wp, fopen.
  repeat case_match; simplify_eq/=; apply HQ; simpl; rewrite ?lookup_insert_eq; eauto.
Qed.
End Lemmas.
