(* ===== verification/Systemv.v ===== *)
(** * confd/src/confd/systemv.c: running a program without a shell

    The state is the world of [Os], the blocked signals of the process and
    the programs its children ran, each with the signals and the standard
    streams it was started with.  What fork(2), execvp(3) and waitpid(2) do
    is the class [Proc]. *)
From S2P Require Import Prelude CString Os.

Open Scope Z_scope.

Definition SIGCHLD : Z := 17.
Definition EINTR : Z := 4.

(** The macros of sys/wait.h on a wait status. *)
Definition WEXITSTATUS (status : Z) : Z := Z.shiftr (Z.land status 0xff00) 8.
Definition WTERMSIG (status : Z) : Z := Z.land status 0x7f.
Definition WIFEXITED (status : Z) : bool := WTERMSIG status =? 0.
Definition WIFSIGNALED (status : Z) : bool := (0 <? WTERMSIG status) && (WTERMSIG status <? 0x7f).

(** The wait status of a process that called _exit(code). *)
Definition exited (code : Z) : Z := Z.shiftl (u8 code) 8.

(** A child at execvp(): its arguments, blocked signals and standard streams
    ([None] where it has those of its parent). *)
Record child := Child {
  ch_argv : list string;
  ch_mask : gset Z;
  ch_stdin : option string;
  ch_stdout : option string;
  ch_stderr : option string;
}.

(** Blocked signals and the children so far. *)
Record procs := Procs { p_mask : gset Z; p_run : list child }.

Record pstate := PState { ps_os : world; ps_procs : procs }.

Class Proc := {
  (** [Some errno] when fork() fails *)
  os_fork : pstate → option Z;
  (** the wait status of the program and the files it leaves; [None] when
      execvp() returns, which it does with -1 *)
  os_execvp : child → fs → option (Z * fs);
  (** [Some errno] when waitpid() fails *)
  os_waitpid : pstate → option Z;
}.

Section Systemv.
Context `{Os} `{Proc}.

Definition on_world {A} (m : M world A) : M pstate A := λ s,
  let '(r, w) := m (ps_os s) in (r, PState w (ps_procs s)).

(** sigprocmask (SIG_BLOCK, &set, &oldmask) *)
Definition sig_block (set : gset Z) : M pstate (gset Z) := λ s,
  (Ret (p_mask (ps_procs s)),
   PState (ps_os s) (Procs (p_mask (ps_procs s) ∪ set) (p_run (ps_procs s)))).

(** sigprocmask (SIG_SETMASK, &set, NULL) *)
Definition sig_setmask (set : gset Z) : M pstate unit :=
  modify (λ s, PState (ps_os s) (Procs set (p_run (ps_procs s)))).

(** The child's side: the parent sees its wait status. *)
Definition run_child (c : child) : M pstate Z := λ s,
  let ps := Procs (p_mask (ps_procs s)) (p_run (ps_procs s) ++ [c]) in
  match os_execvp c (w_fs (ps_os s)) with
  | Some (status, f) => (Ret status, PState (set_fs f (ps_os s)) ps)
  | None => (Ret (exited (-1)), PState (ps_os s) ps)
  end.

(** fork() and waitpid(): [None] for one that fails *)
Definition fork_wait (c : child) : M pstate (option Z) :=
  let* s := get in
  match os_fork s with
  | Some e => on_world (set_errno e) ;;; ret None
  | None =>
      let* status := run_child c in
      let* s := get in
      match os_waitpid s with
      | Some e => on_world (set_errno e) ;;; ret None
      | None => ret (Some status)
      end
  end.

Definition fsystemv (args : option (list string)) (fin fout ferr : option string) : M pstate Z :=
  match args with
  | None => on_world (set_errno EINVAL) ;;; ret (-1)
  | Some argv =>
      let* oldmask := sig_block {[SIGCHLD]} in
      let* w := fork_wait (Child argv oldmask fin fout ferr) in
      let* rc := match w with
                 | None => ret (-1)
                 | Some rc =>
                     if WIFEXITED rc then on_world (set_errno 0) ;;; ret (WEXITSTATUS rc)
                     else if WIFSIGNALED rc then on_world (set_errno EINTR) ;;; ret (-1)
                     else ret rc
                 end in
      sig_setmask oldmask ;;;
      ret rc
  end.

Definition systemv (args : option (list string)) : M pstate Z := fsystemv args None None None.

Definition systemv_silent (args : option (list string)) : M pstate Z :=
  let* out := on_world (fopen "/dev/null" "w") in
  let* rc := fsystemv args None out out in
  match out with
  | Some out => let* _ := on_world (fclose out) in ret rc
  | None => ret rc
  end.
End Systemv.

(** ** Theorems *)

(** What the child's end means to the caller: result and errno. *)
Inductive ended : Z → Z → Z → Prop :=
| ended_exit code : 0 ≤ code ≤ 255 → ended (exited code) code 0
| ended_signal sig core : 1 ≤ sig ≤ 126 → core = 0 ∨ core = 128 → ended (sig + core) (-1) EINTR.

Lemma exited_shape code : 0 ≤ code ≤ 255 → exited code = code * 256.
Proof.
  intros Hc. unfold exited, u8. rewrite Z.mod_small by (change (2 ^ 8) with 256; lia).
  rewrite Z.shiftl_mul_pow2 by lia. done.
Qed.

Lemma exited_decodes code : 0 ≤ code ≤ 255 →
  WIFEXITED (exited code) = true ∧ WEXITSTATUS (exited code) = code.
Proof.
  intros Hc. unfold WIFEXITED, WTERMSIG, WEXITSTATUS, exited, u8.
  rewrite Z.mod_small by (change (2 ^ 8) with 256; lia). split.
  - apply Z.eqb_eq. apply Z.bits_inj'. intros n Hn. rewrite Z.land_spec, Z.bits_0.
    destruct (decide (n < 8)); [rewrite Z.shiftl_spec_low by lia; done|].
    change 0x7f with (Z.ones 7). rewrite Z.ones_spec_high by lia. apply andb_false_r.
  - rewrite Z.shiftr_land, Z.shiftr_shiftl_l by lia. simpl (8 - 8). rewrite Z.shiftl_0_r.
    change (Z.shiftr 0xff00 8) with (Z.ones 8). rewrite Z.land_ones by lia. apply Z.mod_small. lia.
Qed.

Lemma signalled_decodes sig core : 1 ≤ sig ≤ 126 → core = 0 ∨ core = 128 →
  WIFEXITED (sig + core) = false ∧ WIFSIGNALED (sig + core) = true.
Proof.
  intros Hs Hc. assert (E : WTERMSIG (sig + core) = sig).
  { unfold WTERMSIG. change 0x7f with (Z.ones 7). rewrite Z.land_ones by lia. change (2 ^ 7) with 128.
    destruct Hc as [-> | ->]; [rewrite Z.add_0_r; apply Z.mod_small; lia|].
    replace (sig + 128) with (sig + 1 * 128) by lia. rewrite Z_mod_plus_full. apply Z.mod_small. lia. }
  unfold WIFEXITED, WIFSIGNALED. rewrite E. split; [apply Z.eqb_neq; lia|].
  apply andb_true_intro. split; apply Z.ltb_lt; lia.
Qed.

(** waitpid() without options reports children that exited or were killed. *)
Class Reaps `{Proc} := {
  reaps c f status f' : os_execvp c f = Some (status, f') → ∃ rc e, ended status rc e;
}.

Section Facts.
Context `{Os} `{Proc}.
Implicit Types s : pstate.

Definition run_of (s : pstate) : list child := p_run (ps_procs s).
Definition mask_of (s : pstate) : gset Z := p_mask (ps_procs s).

(** Either no status was obtained or it is that of the child that was
    started; a child that cannot exec reports 255. *)
Lemma fork_wait_run c s :
  ∃ r s', fork_wait c s = (Ret r, s') ∧ mask_of s' = mask_of s ∧
    match r with
    | None => run_of s' = run_of s ∨ run_of s' = run_of s ++ [c]
    | Some status => run_of s' = run_of s ++ [c] ∧
        (status = exited 255 ∨ ∃ f', os_execvp c (w_fs (ps_os s)) = Some (status, f'))
    end.
Proof.
  unfold fork_wait, bind, get. destruct (os_fork s) as [e|] eqn:Ef; [by eexists None, _; split_and!; auto|].
  unfold run_child. destruct (os_execvp c (w_fs (ps_os s))) as [[status f]|] eqn:Ex;
    destruct (os_waitpid _) as [e|]; eexists _, _; (split; [done|]); (split; [done|]); eauto.
Qed.

(** The signal mask is restored, and a child was started unless the result is -1. *)
Lemma fsystemv_started argv i o e s :
  let c := Child argv (mask_of s) i o e in
  ∃ rc s', fsystemv (Some argv) i o e s = (Ret rc, s') ∧ mask_of s' = mask_of s ∧
    (run_of s' = run_of s ++ [c] ∨ run_of s' = run_of s ∧ rc = -1) ∧
    (rc = -1 ∨ ∃ status, (status = exited 255 ∨ ∃ f', os_execvp c (w_fs (ps_os s)) = Some (status, f')) ∧
       rc = if WIFEXITED status then WEXITSTATUS status else if WIFSIGNALED status then -1 else status).
Proof.
  intros c. unfold fsystemv. set (s1 := PState (ps_os s) (Procs (mask_of s ∪ {[SIGCHLD]}) (run_of s))).
  rewrite (bind_run _ _ _ (mask_of s) s1) by done. fold c.
  destruct (fork_wait_run c s1) as (r & s2 & E & Hm & Hr). rewrite (bind_run _ _ _ _ _ E).
  destruct r as [status|].
  - destruct Hr as (Hrun & Hst). destruct (WIFEXITED status) eqn:Ee; [|destruct (WIFSIGNALED status) eqn:Es];
      (eexists _, _; split; [done|]); unfold mask_of, run_of in *; cbn in *;
      (split_and!; [done|by left|]); eauto; right; exists status; by rewrite Ee, ?Es.
  - eexists _, _. split; [done|]. unfold mask_of, run_of in *. cbn in *. split_and!; [done| |by left].
    destruct Hr; [right|left]; done.
Qed.

Lemma silent_fsystemv argv s :
  ∃ o s1, (o = Some "/dev/null" ∨ o = None) ∧ ps_procs s1 = ps_procs s ∧
    systemv_silent (Some argv) s = fsystemv (Some argv) None o o s1.
Proof.
  assert (Hn : ∃ o s1, on_world (fopen "/dev/null" "w") s = (Ret o, s1) ∧ ps_procs s1 = ps_procs s ∧
    (o = Some "/dev/null" ∨ o = None)).
  { unfold on_world, fopen. repeat case_match; simplify_eq/=; eexists _, _; (split; [done|]); auto. }
  destruct Hn as (o & s1 & E1 & Hp & Ho). exists o, s1. split_and!; [done|done|].
  unfold systemv_silent. rewrite (bind_run _ _ _ _ _ E1).
  destruct (fsystemv_started argv None o o s1) as (rc & s2 & E2 & _). rewrite (bind_run _ _ _ _ _ E2), E2.
  by destruct o, s2.
Qed.

Lemma systemv_silent_run argv s :
  ∃ rc s' c, systemv_silent (Some argv) s = (Ret rc, s') ∧ ch_argv c = argv ∧
    (run_of s' = run_of s ++ [c] ∨ run_of s' = run_of s ∧ rc = -1).
Proof.
  destruct (silent_fsystemv argv s) as (o & s1 & _ & Hp & ->).
  destruct (fsystemv_started argv None o o s1) as (rc & s2 & E2 & _ & Hr & _).
  unfold run_of in *. rewrite Hp in Hr. eexists rc, s2, _. split_and!; [done| |done]. done.
Qed.

Lemma exited_inj a b : 0 ≤ a ≤ 255 → 0 ≤ b ≤ 255 → exited a = exited b → a = b.
Proof. intros Ha Hb. rewrite !exited_shape by done. lia. Qed.

(** What the caller is told of a child that ended. *)
Lemma ended_result status rc e : ended status rc e →
  (if WIFEXITED status then WEXITSTATUS status else if WIFSIGNALED status then -1 else status) = rc ∧
  -1 ≤ rc ≤ 255 ∧ (rc = 0 → status = exited 0).
Proof.
  destruct 1 as [code Hc|sig core Hs Hc].
  - destruct (exited_decodes code Hc) as [-> ->]. split_and!; [done|lia|lia|by intros ->].
  - destruct (signalled_decodes sig core Hs Hc) as [-> ->]. split_and!; lia.
Qed.

End Facts.

Module SystemvDemo.

#[export] Instance os : Os := {|
  os_system _ f := (0, 0, f);
  os_fopen _ _ _ := None;
  os_fchmod _ _ := 0;
|}.

(** "ls" succeeds, "kill" dies by signal 9 with a core file, others are not found. *)
#[export] Instance proc : Proc := {|
  os_fork _ := None;
  os_execvp c f :=
    if decide (head (ch_argv c) = Some "ls") then Some (exited 0, f)
    else if decide (head (ch_argv c) = Some "kill") then Some (9 + 128, f)
    else None;
  os_waitpid _ := None;
|}.

#[export] Instance proc_reaps : Reaps.
Proof.
  constructor. intros c f status f'. unfold os_execvp, proc.
  repeat case_decide; intros [= <- <-].
  - exists 0, 0. constructor. lia.
  - exists (-1), EINTR. constructor; [lia|by right].
Qed.

Definition s0 : pstate := PState (World ∅ 0 []) (Procs {[2]} []).

(** The program of the file's unit test, a killed one and a missing one. *)
Example systemv_results :
  (λ a, (systemv_silent (Some a) s0).1) <$> [["ls"; "/etc"]; ["kill"]; ["nothing"]] = [Ret 0; Ret (-1); Ret 255].
Proof. reflexivity. Qed.

Example systemv_null : ∃ s', systemv None s0 = (Ret (-1), s') ∧ w_errno (ps_os s') = EINVAL.
Proof. eexists. split; reflexivity. Qed.
End SystemvDemo.

Section SystemvWitnesses.
Import SystemvDemo.

End SystemvWitnesses.
