(* ===== verification/Helpers.v ===== *)
(** * confd/src/lib/helpers.c: formatted file helpers

    Paths are built from a format and its arguments; the functions here take
    the formatted path.  The variadic front ends (readllf, readdf, writedf,
    writesf) only collect their arguments. *)
From S2P Require Import Prelude CString Os.

Open Scope Z_scope.

Section Helpers.
Context `{Os}.

(** fexistf(): true when the file exists *)
Definition fexistf (file : string) : M world bool :=
  let* rc := access file in ret (bool_decide (rc = 0)).

(** open_file() *)
Definition open_file (mode file : string) : M world (option string) := fopen file mode.

(** vreadllf(): return code and the value stored through the pointer *)
Definition vreadllf (file : string) : M world (Z * option Z) :=
  let* fp := open_file "r" file in
  match fp with
  | None => ret (-1, None)
  | Some fp =>
      let* line := fgets_first 256 fp in
      match line with
      | None => fclose fp ;;; ret (-1, None)
      | Some line =>
          fclose fp ;;;
          set_errno 0 ;;;
          let '(value, erange) := strtoll line 0 in
          (if erange : bool then set_errno ERANGE else ret tt) ;;;
          let* e := gets w_errno in
          ret (if decide (e = 0) then 0 else -1, Some value)
      end
  end.

(** readllf() *)
Definition readllf (file : string) : M world (Z * option Z) := vreadllf file.

(** readdf(): the value must fit an int *)
Definition readdf (file : string) : M world (Z * option Z) :=
  let* (rc, tmp) := vreadllf file in
  if decide (rc ≠ 0) then ret (rc, None)
  else
    let* tmp := deref tmp in
    if decide (tmp < INT_MIN ∨ tmp > INT_MAX) then ret (-1, None)
    else ret (0, Some tmp).

(** writedf() *)
Definition writedf (value : Z) (mode file : string) : M world Z :=
  let* fp := open_file mode file in
  match fp with
  | None => ret (-1)
  | Some fp => fputs (fmt_d value +:+ nl) fp ;;; fclose fp
  end.

(** writesf() *)
Definition writesf (str mode file : string) : M world Z :=
  let* fp := open_file mode file in
  match fp with
  | None => ret (-1)
  | Some fp => fputs (str +:+ nl) fp ;;; fclose fp
  end.

End Helpers.

(** ** Formatted text in memory: lib/vasprintf.c, asprintf.c, popenf() *)
Section Format.
(** malloc() of a number of bytes *)
Context (malloc : Z → bool).

(** vsnprintf (buf, size, ...) of a text of known length: the length and what
    the buffer holds; [None] when the format cannot be expanded. *)
Definition vsnprintf (size : nat) (text : option string) : Z * string :=
  match text with
  | None => (-1, EmptyString)
  | Some t => (Z.of_nat (String.length t), strlcpy size t)
  end.

(** The result and the string stored through the pointer. *)
Definition vasprintf (text : option string) : Z * option string :=
  let '(len, _) := vsnprintf 0 text in
  if decide (len < 0) then (-1, None)
  else
    let len := len + 1 in
    if negb (malloc len) then (-1, None)
    else let '(rc, str) := vsnprintf (Z.to_nat len) text in (rc, Some str).

Definition asprintf (text : option string) : Z * option string := vasprintf text.

(** popenf(): [popen] is what popen() gives for a command and a mode; the
    second component is errno when it is set. *)
Definition popenf {P} (popen : string → string → option P) (type : string) (text : option string) : option P * option Z :=
  match vasprintf text with
  | (len, Some cmd) => if decide (len < 0) then (None, Some ENOMEM) else (popen cmd type, None)
  | (_, None) => (None, Some ENOMEM)
  end.

(** The buffer holds the whole text, whose length is the result. *)
Lemma vasprintf_whole t :
  malloc (Z.of_nat (String.length t) + 1) = true →
  vasprintf (Some t) = (Z.of_nat (String.length t), Some t).
Proof.
  intros Hm. unfold vasprintf, vsnprintf. rewrite decide_False by lia. rewrite Hm. cbn [negb].
  unfold strlcpy. rewrite str_take_all by lia. done.
Qed.

Lemma popenf_runs {P} (popen : string → string → option P) type t :
  malloc (Z.of_nat (String.length t) + 1) = true → popenf popen type (Some t) = (popen t type, None).
Proof. intros Hm. unfold popenf. rewrite vasprintf_whole by done. by rewrite decide_False by lia. Qed.
End Format.

(** ** Behaviour *)

Section Facts.
Context `{Os}.
Implicit Types w : world.

(** Digits and the sign are not newlines, and 64-bit numbers are short. *)
Lemma fmt_d_line n : LLONG_MIN ≤ n ≤ LLONG_MAX → line_ok 256 (fmt_d n).
Proof.
  assert (Hd : ∀ d, 0 ≤ d < 10 → bool_decide (chr (48 + d) ≠ "010"%char) = true).
  { intros d Hd. apply bool_decide_eq_true_2, ord_ne. rewrite ord_chr by lia.
    change (ord "010") with 10. lia. }
  assert (Ha : ∀ f m, 0 ≤ m → no_nl (dec_aux f m) = true ∧ (String.length (dec_aux f m) ≤ f)%nat).
  { intros f. induction f as [|f IH]; intros m Hm; [done|]. simpl.
    destruct (Z.ltb_spec m 10).
    - unfold no_nl. simpl. rewrite Hd by lia. split; [done|lia].
    - destruct (IH (m / 10)) as [I1 I2]; [apply Z.div_pos; lia|].
      unfold no_nl in *. rewrite str_all_app, length_app_s, I1. simpl.
      rewrite Hd by (apply Z.mod_pos_bound; lia). split; [done|lia]. }
  intros Hn. unfold line_ok, fmt_d. destruct (Z.ltb_spec n 0).
  - destruct (Ha 20%nat (- n)) as [I1 I2]; [lia|]. split; [done|].
    rewrite length_app_s. change (String.length "-") with 1%nat. lia.
  - destruct (Ha 20%nat n) as [I1 I2]; [lia|]. split; [done|lia].
Qed.

(** A file that holds a printed number is read back as that number. *)
Lemma vreadllf_number p n Q w :
  os_fopen "r" p (w_fs w) = None →
  w_fs w !! p = Some (NFile (fmt_d n +:+ nl)) →
  LLONG_MIN ≤ n ≤ LLONG_MAX →
  Q (0, Some n) (World (w_fs w) 0 (w_log w)) →
  wp (vreadllf p) Q w.
Proof.
  intros Ho Hf Hn HQ. destruct (fmt_d_line n Hn) as [Hl1 Hl2].
  apply wp_bind. eapply wp_fopen_r; [done..|]. apply wp_bind, wp_gets.
  unfold file_text. rewrite Hf.
  rewrite <- (app_nil_r_s nl), (fgets_line 256 (fmt_d n) EmptyString) by done.
  simpl. apply wp_bind. apply wp_ret.
  apply wp_bind. apply wp_modify. simpl. rewrite strtoll_fmt_d by done. done.
Qed.

Lemma readdf_number p n Q w :
  os_fopen "r" p (w_fs w) = None →
  w_fs w !! p = Some (NFile (fmt_d n +:+ nl)) →
  INT_MIN ≤ n ≤ INT_MAX →
  Q (0, Some n) (World (w_fs w) 0 (w_log w)) →
  wp (readdf p) Q w.
Proof.
  unfold INT_MIN, INT_MAX. intros Ho Hf Hn HQ. apply wp_bind.
  eapply vreadllf_number; [done..|unfold LLONG_MIN, LLONG_MAX; lia|].
  simpl. apply wp_bind, wp_ret.
  unfold INT_MIN, INT_MAX. rewrite decide_False by lia. done.
Qed.

(** Reading a missing file fails and leaves the file system alone. *)
Lemma readdf_missing p Q w :
  w_fs w !! p = None →
  (∀ e, Q (-1, None) (World (w_fs w) e (w_log w))) →
  wp (readdf p) Q w.
Proof.
  intros Hf HQ. unfold wp, readdf, vreadllf, open_file, bind, fopen.
  destruct (os_fopen "r" p (w_fs w)); simpl; [apply HQ|].
  rewrite Hf. apply HQ.
Qed.

End Facts.
