(* ===== verification/Lyx.v ===== *)
(** * confd/src/lib/lyx.c, lyx.h: reading libyang data trees

    A libyang data node carries its schema name, its value (none for inner
    nodes), the LYD_DEFAULT flag, its metadata and its children.  A C pointer
    to a node gives access to the following siblings and to the ancestors, so
    a pointer is a [loc]: the node, its later siblings, its ancestors (nearest
    first).  NULL is [None].

    lyd_child(), lyd_get_value() and lyd_find_meta() are libyang's: they read
    a field of the node and accept NULL where the code passes it. *)
From S2P Require Import Prelude CString.

Open Scope Z_scope.

(** The value of a union leaf, as netdag_get_bridge_fwd_mask() reads it. *)
Inductive union_value :=
| UUint8 (v : Z)
| UEnum (v : Z).

Inductive lyd_node := LydNode {
  ln_name : string;
  ln_value : option string;
  ln_default : bool;
  ln_union : option union_value;
  ln_meta : list (string * string);
  ln_children : list lyd_node;
}.

Record loc := Loc {
  l_node : lyd_node;
  l_next : list lyd_node;
  l_up : list lyd_node;
}.

Abbreviation ptr := (option loc).

(** The pointers met by walking the sibling list [l]. *)
Fixpoint locs (l up : list lyd_node) : list loc :=
  match l with
  | [] => []
  | n :: l' => Loc n l' up :: locs l' up
  end.

Definition first (l up : list lyd_node) : ptr := head (locs l up).

(** LY_LIST_FOR(sibling, node): from the given node on. *)
Definition siblings (p : ptr) : list loc :=
  match p with
  | None => []
  | Some l => l :: locs (l_next l) (l_up l)
  end.

Definition lyd_child (p : ptr) : ptr :=
  match p with
  | None => None
  | Some l => first (ln_children (l_node l)) (l_node l :: l_up l)
  end.

Definition named (name : string) (l : loc) : bool := streq (ln_name (l_node l)) name.

(** LYX_LIST_FOR_EACH(from, iter, name) *)
Definition LYX_LIST_FOR_EACH (from : ptr) (name : string) : list loc :=
  List.filter (named name) (siblings from).

(** lydx_get_mattr() on a node: lyd_find_meta() then its value *)
Fixpoint lyd_find_meta (m : list (string * string)) (name : string) : option string :=
  match m with
  | [] => None
  | (k, v) :: m' => if streq k name then Some v else lyd_find_meta m' name
  end.

Definition node_mattr (n : lyd_node) (name : string) : option string :=
  lyd_find_meta (ln_meta n) name.

Definition lydx_get_mattr (p : ptr) (name : string) : option string :=
  match p with None => None | Some l => node_mattr (l_node l) name end.

Inductive lydx_op :=
| LYDX_OP_NONE
| LYDX_OP_CREATE
| LYDX_OP_DELETE
| LYDX_OP_REPLACE.

#[export] Instance lydx_op_eq_dec : EqDecision lydx_op.
Proof. solve_decision. Defined.

(** The loop of lydx_get_op(): the first operation found going upwards. *)
Fixpoint nearest_op (chain : list lyd_node) : option string :=
  match chain with
  | [] => None
  | n :: up =>
      match node_mattr n "yang:operation" with
      | Some s => Some s
      | None => nearest_op up
      end
  end.

Definition op_of_str (opstr : option string) : lydx_op :=
  match opstr with
  | Some s =>
      if streq s "create" then LYDX_OP_CREATE
      else if streq s "delete" then LYDX_OP_DELETE
      else if streq s "replace" then LYDX_OP_REPLACE
      else LYDX_OP_NONE
  | None => LYDX_OP_NONE
  end.

Definition lydx_get_op (p : ptr) : lydx_op :=
  op_of_str (match p with
             | None => None
             | Some l => nearest_op (l_node l :: l_up l)
             end).

Record lydx_diff := LydxDiff {
  d_op : lydx_op;
  d_modified : bool;
  d_is_default : bool;
  d_was_default : bool;
  d_old : option string;
  d_val : option string;
  d_new : option string;
}.

(** lydx_get_diff(): the filled structure; its return value is [d_modified]. *)
Definition lydx_get_diff (p : ptr) : lydx_diff :=
  match p with
  | None => LydxDiff LYDX_OP_NONE false false false None None None
  | Some l =>
      let op := lydx_get_op p in
      let val := ln_value (l_node l) in
      let dflt := ln_default (l_node l) in
      let '(old, new, is_default, was_default) :=
        match op with
        | LYDX_OP_DELETE => (val, None, false, dflt)
        | LYDX_OP_CREATE => (None, val, dflt, false)
        | _ =>
            let orig := node_mattr (l_node l) "yang:orig-value" in
            let odflt := node_mattr (l_node l) "yang:orig-default" in
            (match orig with Some o => Some o | None => val end, val, dflt,
             match odflt with Some s => streq s "true" | None => false end)
        end in
      let modified :=
        (bool_decide (is_Some old) && negb was_default)
        || (bool_decide (is_Some new) && negb is_default) in
      LydxDiff op modified is_default was_default old val new
  end.

(** lydx_diff_print(): the line it writes *)
Definition lydx_diff_print (nd : lydx_diff) : string :=
  (match d_op nd with
   | LYDX_OP_CREATE => "+" | LYDX_OP_DELETE => "-"
   | LYDX_OP_REPLACE => "|" | LYDX_OP_NONE => "%"
   end)
  +:+ (if d_modified nd then "(mod)" else EmptyString) +:+ " "
  +:+ default EmptyString (d_old nd) +:+ (if d_was_default nd then "(D)" else EmptyString)
  +:+ " ->" +:+ default EmptyString (d_new nd)
  +:+ (if d_is_default nd then "(D)" else EmptyString) +:+ nl.

Definition lydx_get_sibling (sibling : ptr) (name : string) : ptr :=
  List.find (named name) (siblings sibling).

Definition lydx_get_child (parent : ptr) (name : string) : ptr :=
  lydx_get_sibling (lyd_child parent) name.

(** lydx_get_descendant(from, names..., NULL) *)
Fixpoint descend (node from : ptr) (names : list string) : ptr :=
  match names with
  | [] => node
  | name :: names' =>
      match lydx_get_sibling from name with
      | None => None
      | Some l => descend (Some l) (lyd_child (Some l)) names'
      end
  end.

Definition lydx_get_descendant (from : ptr) (names : list string) : ptr := descend None from names.

Definition lydx_get_attr (sibling : ptr) (name : string) : option string :=
  match lydx_get_sibling sibling name with
  | None => None
  | Some l => ln_value (l_node l)
  end.

(** [name] is the formatted name, [None] when vasprintf() fails. *)
Definition lydx_get_vattrf (sibling : ptr) (name : option string) : option string :=
  match name with None => None | Some name => lydx_get_attr sibling name end.

Definition lydx_get_attrf (sibling : ptr) (name : option string) : option string := lydx_get_vattrf sibling name.

Definition lydx_get_cattr (parent : ptr) (name : string) : option string :=
  lydx_get_attr (lyd_child parent) name.

Definition lydx_is_enabled (parent : ptr) (name : string) : bool :=
  match lydx_get_cattr parent name with
  | Some attr => streq attr "true"
  | None => false
  end.

(** lyd_new_meta(ctx, node, NULL, name, value): a metadata instance is added
    at the end of the node's list. *)
Definition add_meta (l : loc) (name value : string) : loc :=
  let n := l_node l in
  Loc (LydNode (ln_name n) (ln_value n) (ln_default n) (ln_union n)
         (ln_meta n ++ [(name, value)]) (ln_children n))
      (l_next l) (l_up l).

(** ** Theorems *)

(** A child whose name occurs is found, and is the first of that name. *)
Lemma find_first {A} (f : A → bool) (l : list A) x :
  List.find f l = Some x ↔ ∃ l1 l2, l = l1 ++ x :: l2 ∧ f x = true ∧ Forall (λ y, f y = false) l1.
Proof.
  split.
  - induction l as [|y l IH]; simpl; [done|]. destruct (f y) eqn:E; intros H.
    + simplify_eq. exists [], l. auto.
    + destruct (IH H) as (l1 & l2 & -> & Hx & Hl1).
      exists (y :: l1), l2. split; [done|]. split; [done|]. by constructor.
  - intros (l1 & l2 & -> & Hx & Hl1). induction Hl1 as [|y l1 Hy _ IH]; simpl.
    + by rewrite Hx.
    + by rewrite Hy.
Qed.

(** The operation of a node is its own, or else its parent's: an operation on
    a node holds for the whole subtree that does not say otherwise. *)
Lemma lydx_get_op_inherit n next up :
  node_mattr n "yang:operation" = None →
  lydx_get_op (Some (Loc n next up)) = op_of_str (nearest_op up).
Proof. intros E. unfold lydx_get_op. simpl. by rewrite E. Qed.

Lemma lydx_get_op_own n next up s :
  node_mattr n "yang:operation" = Some s →
  lydx_get_op (Some (Loc n next up)) = op_of_str (Some s).
Proof. intros E. unfold lydx_get_op. simpl. by rewrite E. Qed.

Lemma locs_up l up x : x ∈ locs l up → l_up x = up.
Proof.
  induction l as [|n l IH]; simpl; [set_solver|].
  intros [->|?]%elem_of_cons; [done|auto].
Qed.

Lemma siblings_up p x : x ∈ siblings p → ∃ l, p = Some l ∧ l_up x = l_up l.
Proof.
  destruct p as [l|]; simpl; [|set_solver]. intros [->|Hx]%elem_of_cons; [eauto|].
  exists l. split; [done|]. by eapply locs_up.
Qed.

Lemma siblings_first l up : siblings (first l up) = locs l up.
Proof. by destruct l. Qed.

(** Every child found below [p] has [p]'s node as its parent. *)
Lemma child_up p name x :
  lydx_get_child p name = Some x →
  ∃ l, p = Some l ∧ l_up x = l_node l :: l_up l ∧ ln_name (l_node x) = name.
Proof.
  unfold lydx_get_child, lydx_get_sibling. intros Hx.
  pose proof Hx as Hf. apply List.find_some in Hx as [Hx Hn].
  apply list_elem_of_In in Hx. destruct p as [l|]; simpl in *; [|set_solver].
  rewrite siblings_first in Hx. apply locs_up in Hx. exists l.
  split; [done|]. split; [done|]. by apply bool_decide_eq_true in Hn.
Qed.
