(* ===== verification/Dagger.v ===== *)
(** * confd/src/confd/dagger.c: generations of network configuration

    A transaction claims the directory by creating [path/next], fills the next
    generation with scripts, and evolves to it or abandons it with the dagger
    runner (board/common/rootfs/sbin/dagger).  The commands given to system(3)
    are the strings of the source; what mkdir, ln and the runner do is stated
    by the class [DaggerShell]. *)
From S2P Require Import Prelude CString Os Helpers.

Open Scope Z_scope.

Record dagger := Dagger {
  dg_current : Z;
  dg_next : Z;
  dg_next_fp : option string;
  dg_path : string;
}.

Definition PATH_MAX : nat := 4096.

Definition gen_dir (path : string) (gen : Z) : string := path +:+ "/" +:+ fmt_d gen.

Definition next_file (path : string) : string := path +:+ "/next".

Definition current_file (path : string) : string := path +:+ "/current".

Definition action_dir (path : string) (gen : Z) (action node : string) : string :=
  gen_dir path gen +:+ "/action/" +:+ action +:+ "/" +:+ node.

Definition script_path (path : string) (gen : Z) (action node : string) (prio : Z)
    (script : string) : string :=
  action_dir path gen action node +:+ "/" +:+ fmt_02u prio +:+ "-" +:+ script.

(** The interpreter line written first, by the extension of the script. *)
Definition shebang (script : string) : string :=
  match rindex script "."%char with
  | Some ext =>
      if streq ext ".sh" then "#!/bin/sh" +:+ nl +:+ nl
      else if streq ext ".bridge" then "#!/sbin/bridge -batch" +:+ nl +:+ nl
      else if streq ext ".ip" then "#!/sbin/ip -batch" +:+ nl +:+ nl
      else if streq ext ".sysctl" then "#!/sbin/sysctl -p" +:+ nl +:+ nl
      else EmptyString
  | None => EmptyString
  end.

(** The commands of dagger_claim(). *)
Definition exit_cmd (path : string) (cur : Z) : string :=
  "mkdir -p " +:+ gen_dir path cur +:+ "/action/exit && ln -s ../../top-down-order "
  +:+ gen_dir path cur +:+ "/action/exit/order".

Definition init_cmd (path : string) (next : Z) : string :=
  "mkdir -p " +:+ gen_dir path next +:+ "/action/init && mkdir -p "
  +:+ gen_dir path next +:+ "/skip && ln -s ../../bottom-up-order "
  +:+ gen_dir path next +:+ "/action/init/order".

Section Dagger.
Context `{Os}.

Definition dagger_fopen (d : dagger) (gen : Z) (action node : string) (prio : Z)
    (script : string) : M world (option string) :=
  if decide (prio > 99) then set_errno ERANGE ;;; ret None
  else
    let* err := system ("mkdir -p " +:+ action_dir (dg_path d) gen action node) in
    if decide (err ≠ 0) then ret None
    else
      let* fp := fopen (script_path (dg_path d) gen action node prio script) "w" in
      match fp with
      | None => ret None
      | Some fp =>
          fputs (shebang script) fp ;;;
          let* err := fchmod fp in
          if decide (err ≠ 0) then fclose fp ;;; ret None
          else ret (Some fp)
      end.

Definition dagger_fopen_next (d : dagger) (action node : string) (prio : Z) (script : string)
    : M world (option string) :=
  dagger_fopen d (dg_next d) action node prio script.

Definition dagger_fopen_current (d : dagger) (action node : string) (prio : Z) (script : string)
    : M world (option string) :=
  if decide (dg_current d < 0) then set_errno EUNATCH ;;; ret None
  else dagger_fopen d (dg_current d) action node prio script.

Definition dagger_add_dep (d : dagger) (depender dependee : string) : M world Z :=
  system ("ln -s ../" +:+ dependee +:+ " " +:+ gen_dir (dg_path d) (dg_next d)
          +:+ "/dag/" +:+ depender).

Definition dagger_add_node (d : dagger) (node : string) : M world Z :=
  system ("mkdir -p " +:+ gen_dir (dg_path d) (dg_next d) +:+ "/dag/" +:+ node).

Definition dagger_abandon (d : dagger) : M world Z :=
  let* fp := deref (dg_next_fp d) in
  fputs (fmt_d (dg_next d) +:+ nl) fp ;;;
  fclose fp ;;;
  system ("dagger -C " +:+ dg_path d +:+ " abandon").

Definition dagger_evolve (d : dagger) : M world Z :=
  let* fp := deref (dg_next_fp d) in
  fputs (fmt_d (dg_next d) +:+ nl) fp ;;;
  fclose fp ;;;
  system ("dagger -C " +:+ dg_path d +:+ " evolve").

Definition dagger_evolve_or_abandon (d : dagger) : M world Z :=
  let* err := dagger_evolve d in
  if decide (err = 0) then ret 0
  else
    system ("dagger -C " +:+ dg_path d +:+ " abandon") ;;;
    ret err.

Definition skip_file (d : dagger) (ifname : string) : string :=
  gen_dir (dg_path d) (dg_next d) +:+ "/skip/" +:+ ifname.

Definition dagger_skip_iface (d : dagger) (ifname : string) : M world unit :=
  touch (skip_file d ifname) ;;; ret tt.

Definition dagger_should_skip (d : dagger) (ifname : string) : M world bool :=
  fexistf (skip_file d ifname).

(** dagger_claim(): the return code and the structure it fills. *)
Definition dagger_claim (path : string) : M world (Z * dagger) :=
  let d0 := Dagger 0 0 None EmptyString in
  let* err := system ("mkdir -p " +:+ path) in
  if decide (err ≠ 0) then ret (err, d0)
  else
    let* fp := fopen (next_file path) "wx" in
    match fp with
    | None => ret (-1, d0)
    | Some fp =>
        let* (rc, val) := readdf (current_file path) in
        let* (current, err) :=
          (if decide (rc ≠ 0) then ret (-1, 0)
           else
             let* cur := deref val in
             let* err := system (exit_cmd path cur) in
             ret (cur, err)) in
        if decide (err ≠ 0) then ret (err, Dagger current 0 (Some fp) EmptyString)
        else
          let next := current + 1 in
          let* err := system (init_cmd path next) in
          if decide (err ≠ 0) then ret (err, Dagger current next (Some fp) EmptyString)
          else ret (0, Dagger current next (Some fp) (strlcpy PATH_MAX path))
    end.

End Dagger.

(** ** What mkdir, ln and the dagger runner do

    [mkdir -p] and [ln -s] leave regular files and existing links alone, [ln]
    refuses a link name that is taken by a link to a file; the runner's
    [abandon] removes [next] and leaves the current generation alone, its
    [evolve] renames [next] to [current] when it succeeds. *)

Definition exit_order (path : string) (cur : Z) : string :=
  gen_dir path cur +:+ "/action/exit/order".

Definition top_down (path : string) (cur : Z) : string := gen_dir path cur +:+ "/top-down-order".

Definition sys_rc `{Os} (cmd : string) (f : fs) : Z := (os_system cmd f).1.1.

Definition sys_fs `{Os} (cmd : string) (f : fs) : fs := (os_system cmd f).2.

Definition claim_cmds (path : string) (cur : Z) : list string :=
  ["mkdir -p " +:+ path; exit_cmd path cur; init_cmd path (cur + 1)].

Class DaggerShell `{Os} (path : string) (cur : Z) := {
  ds_files cmd f p t : cmd ∈ claim_cmds path cur →
    sys_fs cmd f !! p = Some (NFile t) ↔ f !! p = Some (NFile t);
  ds_links cmd f p t : cmd ∈ claim_cmds path cur →
    f !! p = Some (NLink t) → sys_fs cmd f !! p = Some (NLink t);
  ds_dirs cmd f : cmd ∈ claim_cmds path cur →
    f !! top_down path cur ≠ Some NDir → sys_fs cmd f !! top_down path cur ≠ Some NDir;
  ds_ln_made f : sys_rc (exit_cmd path cur) f = 0 →
    ∃ t, sys_fs (exit_cmd path cur) f !! exit_order path cur = Some (NLink t);
  ds_ln_taken f t : f !! exit_order path cur = Some (NLink t) →
    f !! top_down path cur ≠ Some NDir → sys_rc (exit_cmd path cur) f ≠ 0;
  ds_abandon_keeps f p : p ∈ [exit_order path cur; top_down path cur; current_file path] →
    sys_fs ("dagger -C " +:+ path +:+ " abandon") f !! p = f !! p;
  ds_abandon_next f :
    f !! next_file path = Some (NFile (fmt_d (cur + 1) +:+ nl)) →
    sys_fs ("dagger -C " +:+ path +:+ " abandon") f !! next_file path = None;
  ds_evolve f t : sys_rc ("dagger -C " +:+ path +:+ " evolve") f = 0 →
    f !! next_file path = Some (NFile t) →
    sys_fs ("dagger -C " +:+ path +:+ " evolve") f !! next_file path = None ∧
    sys_fs ("dagger -C " +:+ path +:+ " evolve") f !! current_file path = Some (NFile t);
}.

(** No refusal by the kernel. *)
Definition may_open `{Os} : Prop := ∀ m p f, os_fopen m p f = None.

(** ** Lemmas *)

Section Facts.
Context `{Os}.
Implicit Types w : world.

Lemma system_unfold cmd w :
  ∃ e, system cmd w = (Ret (sys_rc cmd (w_fs w)), World (sys_fs cmd (w_fs w)) e (w_log w ++ [cmd])).
Proof.
  unfold system, sys_rc, sys_fs. destruct (os_system cmd (w_fs w)) as [[rc e] f]. by exists e.
Qed.

Lemma wp_system cmd Q w :
  (∀ e, Q (sys_rc cmd (w_fs w)) (World (sys_fs cmd (w_fs w)) e (w_log w ++ [cmd]))) →
  wp (system cmd) Q w.
Proof. intros HQ. unfold wp. destruct (system_unfold cmd w) as [e ->]. apply HQ. Qed.

Lemma next_ne_current path : next_file path ≠ current_file path.
Proof. unfold next_file, current_file. by intros E%app_inj_l_s. Qed.

(** [claimed path d w]: the lock is held by [d], a generation after the
    current one. *)
Definition claimed (path : string) (d : dagger) (w : world) : Prop :=
  dg_next d = dg_current d + 1 ∧ dg_next_fp d = Some (next_file path) ∧
  dg_path d = strlcpy PATH_MAX path ∧
  w_fs w !! next_file path = Some (NFile EmptyString).

Context (path : string) (cur : Z) `{!DaggerShell path cur}.

Lemma keep_file cmd f p t : cmd ∈ claim_cmds path cur →
  f !! p = Some (NFile t) → sys_fs cmd f !! p = Some (NFile t).
Proof. intros ?. by apply ds_files. Qed.

Lemma fresh_file cmd f p : cmd ∈ claim_cmds path cur →
  (∀ t, f !! p ≠ Some (NFile t)) → ∀ t, sys_fs cmd f !! p ≠ Some (NFile t).
Proof. intros ? Hn t E. apply ds_files in E; [|done]. by eapply Hn. Qed.

(** While [next] exists nobody else can claim: the call fails and the lock
    stays. *)
Lemma claim_locked t w :
  w_fs w !! next_file path = Some (NFile t) →
  wp (dagger_claim path) (λ r w', r.1 ≠ 0 ∧ w_fs w' !! next_file path = Some (NFile t)) w.
Proof.
  intros Hn. apply wp_bind, wp_system. intros e.
  assert (Hk : sys_fs ("mkdir -p " +:+ path) (w_fs w) !! next_file path = Some (NFile t))
    by (apply keep_file; [set_solver|done]).
  case_decide; [by apply wp_ret|]. apply wp_bind. unfold wp, fopen; simpl.
  destruct (os_fopen _ _ _); [done|]. by rewrite Hk.
Qed.

(** The current generation's number is read from a file that holds it. *)
Lemma claim_spec w :
  may_open →
  w_fs w !! next_file path = None →
  (∀ f, sys_fs ("mkdir -p " +:+ path) f !! next_file path = f !! next_file path) →
  w_fs w !! current_file path = Some (NFile (fmt_d cur +:+ nl)) →
  INT_MIN ≤ cur ≤ INT_MAX →
  wp (dagger_claim path) (λ r w',
    (r.1 ≠ 0 ∧ w_fs w' !! current_file path = Some (NFile (fmt_d cur +:+ nl)))
    ∨ (r.1 = 0 ∧ claimed path r.2 w' ∧ dg_current r.2 = cur ∧
       w_fs w' !! current_file path = Some (NFile (fmt_d cur +:+ nl)) ∧
       (∃ t, w_fs w' !! exit_order path cur = Some (NLink t)) ∧
       (w_fs w !! top_down path cur ≠ Some NDir → w_fs w' !! top_down path cur ≠ Some NDir))) w.
Proof.
  intros Hopen Hn Hmk Hc Hr. apply wp_bind, wp_system. intros e.
  case_decide as Hrc; [apply wp_ret; left; simpl; split; [done|apply keep_file; [set_solver|done]]|].
  assert (Hc' := keep_file ("mkdir -p " +:+ path) _ _ _ ltac:(set_solver) Hc).
  apply wp_bind. unfold wp at 1, fopen. simpl. rewrite Hopen, Hmk, Hn. simpl.
  set (f1 := <[next_file path := NFile EmptyString]> _).
  assert (Hf1n : f1 !! next_file path = Some (NFile EmptyString)) by apply lookup_insert_eq.
  assert (Hf1c : f1 !! current_file path = Some (NFile (fmt_d cur +:+ nl))).
  { unfold f1. rewrite lookup_insert_ne; [done|apply next_ne_current]. }
  apply wp_bind. eapply readdf_number; [apply Hopen|done..|]. simpl.
  apply wp_bind, wp_bind, wp_ret, wp_bind, wp_system. intros e1. apply wp_ret. simpl.
  case_decide as He1.
  { apply wp_ret. left. split; [done|]. simpl. apply keep_file; [set_solver|done]. }
  apply wp_bind, wp_system. intros e2. simpl. case_decide as He2; apply wp_ret.
  { left. split; [done|]. simpl. apply keep_file; [set_solver|]. apply keep_file; [set_solver|done]. }
  right. simpl. destruct (ds_ln_made f1) as [t Ht]; [done|].
  assert (init_cmd path (cur + 1) ∈ claim_cmds path cur) by set_solver.
  split; [done|]. split; [|split; [done|split; [|split]]].
  - split; [done|]. split; [done|]. split; [done|]. simpl.
    apply keep_file; [done|]. apply keep_file; [set_solver|done].
  - apply keep_file; [done|]. apply keep_file; [set_solver|done].
  - exists t. by apply ds_links.
  - intros Htd. apply ds_dirs; [done|]. apply ds_dirs; [set_solver|].
    unfold f1. rewrite lookup_insert. case_decide; [done|]. apply ds_dirs; [set_solver|done].
Qed.
End Facts.

(** ** A concrete shell

    Enough of mkdir, ln and the runner on [/run/net] to run transactions. *)
Module Demo.

Definition path : string := "/run/net".

Definition add_link (l t : string) (f : fs) : Z * Z * fs :=
  match f !! l with
  | None => (0, 0, <[l := NLink t]> f)
  | Some _ => (1, 0, f)
  end.

Definition run_cmd (cmd : string) (f : fs) : Z * Z * fs :=
  if decide (cmd = exit_cmd path 0) then add_link (exit_order path 0) "../../top-down-order" f
  else if decide (cmd = exit_cmd path 1) then add_link (exit_order path 1) "../../top-down-order" f
  else if decide (cmd = "dagger -C " +:+ path +:+ " abandon") then (0, 0, delete (next_file path) f)
  else if decide (cmd = "dagger -C " +:+ path +:+ " evolve") then
    match f !! next_file path with
    | Some n => (0, 0, <[current_file path := n]> (delete (next_file path) f))
    | None => (1, 0, f)
    end
  else (0, 0, f).

#[export] Instance os : Os := {|
  os_system := run_cmd;
  os_fopen _ _ _ := None;
  os_fchmod _ _ := 0;
|}.

Definition w0 : world :=
  World {[ current_file path := NFile ("0" +:+ nl) ]} 0 [].

Definition d1 : dagger := Dagger 0 1 (Some (next_file path)) path.

Definition w1 : world := (dagger_claim path w0).2.

Definition w2 : world := (dagger_evolve d1 w1).2.

Definition w3 : world := (dagger_claim path w2).2.

Definition wa : world := (dagger_abandon d1 w1).2.

End Demo.

(** ** Theorems *)

Section Theorems.
Context `{Os} (path : string) (cur : Z) `{!DaggerShell path cur}.
Implicit Types w : world.

(** The premises of a claim on an existing, unlocked directory. *)
Definition claimable w : Prop :=
  may_open ∧ w_fs w !! next_file path = None ∧
  (∀ f, sys_fs ("mkdir -p " +:+ path) f !! next_file path = f !! next_file path) ∧
  w_fs w !! current_file path = Some (NFile (fmt_d cur +:+ nl)) ∧
  INT_MIN ≤ cur < INT_MAX ∧ (String.length path < PATH_MAX)%nat.

Lemma strlcpy_fits n s : (String.length s < n)%nat → strlcpy n s = s.
Proof.
  unfold strlcpy. intros Hn. assert (Hl : (String.length s ≤ n - 1)%nat) by lia. clear Hn.
  revert s Hl. induction (n - 1)%nat as [|k IH]; intros [|c s] Hl; simpl in *; [done|lia|done|].
  f_equal. apply IH. lia.
Qed.

Lemma claim_run w r w' :
  claimable w → dagger_claim path w = (Ret r, w') → r.1 = 0 →
  claimed path r.2 w' ∧ dg_current r.2 = cur ∧
  w_fs w' !! current_file path = Some (NFile (fmt_d cur +:+ nl)) ∧
  (∃ t, w_fs w' !! exit_order path cur = Some (NLink t)) ∧
  (w_fs w !! top_down path cur ≠ Some NDir → w_fs w' !! top_down path cur ≠ Some NDir).
Proof.
  intros (Ho & Hn & Hm & Hc & Hr & _) E H0.
  pose proof (claim_spec path cur w Ho Hn Hm Hc ltac:(lia)) as Hwp.
  unfold wp in Hwp. rewrite E in Hwp. destruct Hwp as [[? _]|(_ & ?)]; [done|]. done.
Qed.

(** A claim returns, and leaves the current generation as it is. *)
Lemma claim_returns w :
  claimable w →
  ∃ err d w', dagger_claim path w = (Ret (err, d), w') ∧
    w_fs w' !! current_file path = w_fs w !! current_file path.
Proof.
  intros (Ho & Hn & Hm & Hc & Hr & _).
  destruct (wp_run _ _ _ (claim_spec path cur w Ho Hn Hm Hc ltac:(lia))) as ([err d] & w' & E & Hw').
  exists err, d, w'. split; [done|]. rewrite Hc. naive_solver.
Qed.

(** Writing the generation number into the lock, before the runner runs. *)
Lemma number_written d w :
  claimed path d w → dg_current d = cur →
  w_fs w !! current_file path = Some (NFile (fmt_d cur +:+ nl)) →
  ∃ w1, fputs (fmt_d (dg_next d) +:+ nl) (next_file path) w = (Ret tt, w1) ∧
    w_fs w1 !! next_file path = Some (NFile (fmt_d (cur + 1) +:+ nl)) ∧
    (∀ p, p ≠ next_file path → w_fs w1 !! p = w_fs w !! p).
Proof.
  intros (Hnx & _ & _ & Hl) Hcur Hc. eexists. split; [done|]. simpl. split.
  - rewrite lookup_alter_eq, Hl. simpl. by rewrite Hnx, Hcur.
  - intros p Hp. by rewrite lookup_alter_ne.
Qed.

(** dagger_abandon() and dagger_evolve() differ in the runner's command. *)
Definition runner_call (cmd : string) (d : dagger) : M world Z :=
  let* fp := deref (dg_next_fp d) in
  fputs (fmt_d (dg_next d) +:+ nl) fp ;;;
  fclose fp ;;;
  system ("dagger -C " +:+ dg_path d +:+ cmd).

Lemma dagger_abandon_runner d w : runner_call " abandon" d w = dagger_abandon d w.
Proof. done. Qed.

Lemma dagger_evolve_runner d w : runner_call " evolve" d w = dagger_evolve d w.
Proof. done. Qed.

Lemma runner_cmd cmd d w w1 :
  dg_next_fp d = Some (next_file path) → dg_path d = strlcpy PATH_MAX path →
  (String.length path < PATH_MAX)%nat →
  fputs (fmt_d (dg_next d) +:+ nl) (next_file path) w = (Ret tt, w1) →
  let c := "dagger -C " +:+ path +:+ cmd in
  ∃ e, runner_call cmd d w =
    (Ret (sys_rc c (w_fs w1)), World (sys_fs c (w_fs w1)) e (w_log w1 ++ [c])).
Proof.
  intros Hfp Hp Hpl Ea c. unfold runner_call, bind. rewrite Hfp.
  cbn [deref ret]. unfold ret. rewrite Ea. cbn [fclose].
  rewrite Hp, strlcpy_fits by done. apply system_unfold.
Qed.

(** (C8) Generations follow each other: when a claim and the evolve after it
    succeed, the next successful claim starts from the generation that was
    just applied, and takes the number after it. *)
Theorem claim_evolve_claim w r w1 w2 r' w3 :
  claimable w →
  dagger_claim path w = (Ret r, w1) → r.1 = 0 →
  dagger_evolve r.2 w1 = (Ret 0, w2) →
  DaggerShell path (cur + 1) →
  dagger_claim path w2 = (Ret r', w3) → r'.1 = 0 →
  dg_current r'.2 = cur + 1 ∧ dg_next r'.2 = cur + 2.
Proof.
  intros Hcl E1 H1 E2 Hsh E3 H3.
  destruct (claim_run _ _ _ Hcl E1 H1) as (Hd & Hcur & Hc & _ & _).
  destruct Hcl as (Ho & _ & Hm & _ & Hr & Hpl).
  destruct (number_written _ _ Hd Hcur Hc) as (wa & Ea & Hn & _).
  destruct Hd as (Hnx & Hfp & Hp & _).
  destruct (runner_cmd " evolve" _ _ _ Hfp Hp Hpl Ea) as [e Es].
  rewrite <- dagger_evolve_runner, Es in E2. injection E2 as Hrc <-.
  destruct (ds_evolve (w_fs wa) _ ltac:(done) Hn) as [Hgone Hcur'].
  assert (claim_post : dg_current r'.2 = cur + 1 ∧ claimed path r'.2 w3).
  { match type of E3 with dagger_claim _ ?w = _ =>
      pose proof (claim_spec path (cur + 1) w Ho Hgone Hm Hcur' ltac:(lia)) as Hwp end.
    unfold wp in Hwp. rewrite E3 in Hwp.
    destruct Hwp as [[? _]|(_ & ? & ? & _)]; done. }
  destruct claim_post as [Hc' (Hn' & _)]. lia.
Qed.

(** (C7) Mutual exclusion: while a transaction holds the lock a second claim
    fails, whatever it was asked to do, and does not disturb the lock. *)
Theorem claim_exclusive w r w1 :
  claimable w →
  dagger_claim path w = (Ret r, w1) → r.1 = 0 →
  ∃ r' w2, dagger_claim path w1 = (Ret r', w2) ∧ r'.1 ≠ 0 ∧
    w_fs w2 !! next_file path = w_fs w1 !! next_file path.
Proof.
  intros Hcl E1 H1. destruct (claim_run _ _ _ Hcl E1 H1) as ((_ & _ & _ & Hl) & _).
  pose proof (claim_locked path cur _ _ Hl) as Hwp. unfold wp in Hwp.
  destruct (dagger_claim path w1) as [[r'|c|] w2]; [|done..].
  exists r', w2. rewrite Hl. tauto.
Qed.

Lemma next_not_kept c :
  ¬ next_file path ∈ [exit_order path c; top_down path c; current_file path].
Proof.
  unfold next_file, exit_order, top_down, gen_dir, current_file.
  rewrite !elem_of_cons, !app_assoc_s.
  intros [E|[E|[E|[]%elem_of_nil]]]; apply app_inj_l_s in E; [..|done];
    apply (f_equal (λ s, String.length s)) in E; rewrite !length_app_s in E; simpl in E; lia.
Qed.

(** A claim whose exit order is already linked fails with the lock held. *)
Lemma claim_blocked t w :
  may_open →
  (∀ f, sys_fs ("mkdir -p " +:+ path) f !! next_file path = f !! next_file path) →
  w_fs w !! next_file path = None →
  w_fs w !! current_file path = Some (NFile (fmt_d cur +:+ nl)) →
  INT_MIN ≤ cur ≤ INT_MAX →
  w_fs w !! exit_order path cur = Some (NLink t) →
  w_fs w !! top_down path cur ≠ Some NDir →
  wp (dagger_claim path) (λ r w', r.1 ≠ 0 ∧
    (sys_rc ("mkdir -p " +:+ path) (w_fs w) = 0 →
     w_fs w' !! next_file path = Some (NFile EmptyString))) w.
Proof.
  intros Hopen Hmk Hn Hc Hr Hlk Htd. apply wp_bind, wp_system. intros e.
  case_decide as Hrc; [by apply wp_ret|].
  assert (Hin : "mkdir -p " +:+ path ∈ claim_cmds path cur) by set_solver.
  assert (Hc' := keep_file path cur _ _ _ _ Hin Hc).
  apply wp_bind. unfold wp at 1, fopen. simpl. rewrite Hopen, Hmk, Hn. simpl.
  set (f1 := <[next_file path := NFile EmptyString]> _).
  assert (Hf1 : ∀ p, p ≠ next_file path → f1 !! p = sys_fs ("mkdir -p " +:+ path) (w_fs w) !! p).
  { intros p Hp. unfold f1. by rewrite lookup_insert_ne. }
  apply wp_bind. eapply readdf_number; [apply Hopen| |done|].
  { simpl. rewrite Hf1; [done|]. intros E. by apply (next_ne_current path). }
  simpl. apply wp_bind, wp_bind, wp_ret, wp_bind, wp_system. intros e1. apply wp_ret. simpl.
  rewrite decide_True.
  - apply wp_ret. split.
    + eapply ds_ln_taken; rewrite Hf1; 
        [by apply ds_links| |by apply ds_dirs|]; intros E; apply (next_not_kept cur);
        rewrite <- E; set_solver.
    + intros _. simpl. apply (keep_file path cur); [set_solver|]. apply lookup_insert_eq.
  - eapply ds_ln_taken; rewrite Hf1; 
        [by apply ds_links| |by apply ds_dirs|]; intros E; apply (next_not_kept cur);
        rewrite <- E; set_solver.
Qed.

(** (C40) A defect: once a transaction on an existing generation has been
    abandoned, no later claim succeeds.  The claim links [action/exit/order]
    into the current generation, abandoning does not remove it, so the [ln -s]
    of the next claim fails; that claim returns with the lock [next] in place
    and so every claim after it fails too. *)
Theorem abandon_blocks_claims w r w1 rc w2 :
  claimable w → w_fs w !! top_down path cur ≠ Some NDir →
  dagger_claim path w = (Ret r, w1) → r.1 = 0 →
  dagger_abandon r.2 w1 = (Ret rc, w2) →
  ∃ r' w3, dagger_claim path w2 = (Ret r', w3) ∧ r'.1 ≠ 0 ∧
  (sys_rc ("mkdir -p " +:+ path) (w_fs w2) = 0 →
   ∃ r'' w4, dagger_claim path w3 = (Ret r'', w4) ∧ r''.1 ≠ 0).
Proof.
  intros Hcl Htd E1 H1 E2.
  destruct (claim_run _ _ _ Hcl E1 H1) as (Hd & Hcur & Hc & [t Hlk] & Htd').
  destruct Hcl as (Ho & _ & Hm & _ & Hr & Hpl).
  destruct (number_written _ _ Hd Hcur Hc) as (wa & Ea & Hn & Hoth).
  destruct Hd as (Hnx & Hfp & Hp & _).
  destruct (runner_cmd " abandon" _ _ _ Hfp Hp Hpl Ea) as [e Es].
  rewrite <- dagger_abandon_runner, Es in E2. injection E2 as Hrc <-.
  set (f2 := sys_fs ("dagger -C " +:+ path +:+ " abandon") (w_fs wa)).
  assert (Hkeep : ∀ p, p ∈ [exit_order path cur; top_down path cur; current_file path] → f2 !! p = w_fs w1 !! p).
  { intros p Hin. unfold f2. rewrite ds_abandon_keeps by done. apply Hoth.
    intros ->. by eapply next_not_kept. }
  match goal with |- ∃ _ _, dagger_claim path ?w = _ ∧ _ => set (w2 := w) end.
  assert (Hwp : wp (dagger_claim path) (λ r w', r.1 ≠ 0 ∧
    (sys_rc ("mkdir -p " +:+ path) (w_fs w2) = 0 →
     w_fs w' !! next_file path = Some (NFile EmptyString))) w2).
  { apply (claim_blocked t); [done|done|by apply ds_abandon_next|..|lia| |];
      unfold w2; simpl; fold f2; rewrite Hkeep by set_solver; auto. }
  destruct (wp_run _ _ _ Hwp) as (r' & w3 & E3 & Hne & Hlock).
  exists r', w3. split; [done|]. split; [done|]. intros Hmk0.
  destruct (wp_run _ _ _ (claim_locked path cur _ _ (Hlock Hmk0))) as (r'' & w4 & E4 & ? & _).
  by exists r'', w4.
Qed.
End Theorems.

Section Scripts.
Context `{Os}.

(** A script opened with a priority the name has room for is created
    empty but for the interpreter line its extension asks for, at
    the path the runner looks in. *)
Theorem dagger_fopen_script d gen action node prio script w :
  0 ≤ prio ≤ 99 → may_open → (∀ p f, os_fchmod p f = 0) →
  sys_rc ("mkdir -p " +:+ action_dir (dg_path d) gen action node) (w_fs w) = 0 →
  let p := script_path (dg_path d) gen action node prio script in
  let f1 := sys_fs ("mkdir -p " +:+ action_dir (dg_path d) gen action node) (w_fs w) in
  (f1 !! p = None ∨ ∃ t, f1 !! p = Some (NFile t)) →
  ∃ w', dagger_fopen d gen action node prio script w = (Ret (Some p), w') ∧
        w_fs w' !! p = Some (NFile (shebang script)).
Proof.
  intros Hp Ho Hch Hrc p f1 Hfree.
  assert (Hwp : wp (dagger_fopen d gen action node prio script)
     (λ r w', r = Some p ∧ w_fs w' !! p = Some (NFile (shebang script))) w).
  { unfold dagger_fopen. rewrite decide_False by lia. apply wp_bind, wp_system. intros e.
    rewrite Hrc. simpl. apply wp_bind. eapply wp_fopen_w; [apply Ho|done|].
    apply wp_bind. eapply wp_fputs; [apply lookup_insert_eq|].
    apply wp_bind, wp_gets. rewrite Hch. simpl. apply wp_ret. split; [done|].
    simpl. apply lookup_insert_eq. }
  destruct (wp_run _ _ _ Hwp) as (r & w' & E & -> & Hf). by exists w'.
Qed.

Lemma dagger_fopen_range d gen action node prio script w :
  99 < prio →
  dagger_fopen d gen action node prio script w = (Ret None, World (w_fs w) ERANGE (w_log w)).
Proof. intros Hp. unfold dagger_fopen. by rewrite decide_True by lia. Qed.
End Scripts.

(** Two-character decimal names compare like the numbers. *)
Lemma compare_02u :
  forallb (λ p, forallb (λ q, match String.compare (fmt_02u (Z.of_nat p)) (fmt_02u (Z.of_nat q)) with
                              | Lt => (p <? q)%nat | Eq => (p =? q)%nat | Gt => (q <? p)%nat end
                              && (String.length (fmt_02u (Z.of_nat p)) =? 2)%nat)
                      (seq 0 100)) (seq 0 100) = true.
Proof. vm_compute. reflexivity. Qed.

Lemma compare_app a b r r' :
  String.length a = String.length b → String.compare a b = Lt →
  String.compare (a +:+ r) (b +:+ r') = Lt.
Proof.
  revert b. induction a as [|c a IH]; intros [|d b] Hl Hc; simpl in *; [done..|].
  change (String c a +:+ r) with (String c (a +:+ r)).
  change (String d b +:+ r') with (String d (b +:+ r')). simpl.
  destruct (Stdlib.Strings.Ascii.compare c d); [|done..]. apply IH; [lia|done].
Qed.

Lemma script_name_order p q s s' :
  0 ≤ p < q ∧ q ≤ 99 →
  String.compare (fmt_02u p +:+ "-" +:+ s) (fmt_02u q +:+ "-" +:+ s') = Lt.
Proof.
  intros Hpq. pose proof compare_02u as HC.
  assert (HC' : ∀ a b, 0 ≤ a < 100 → 0 ≤ b < 100 →
    match String.compare (fmt_02u a) (fmt_02u b) with
    | Lt => (Z.to_nat a <? Z.to_nat b)%nat | Eq => (Z.to_nat a =? Z.to_nat b)%nat
    | Gt => (Z.to_nat b <? Z.to_nat a)%nat end = true ∧ String.length (fmt_02u a) = 2%nat).
  { intros a b Ha Hb. rewrite forallb_forall in HC.
    specialize (HC (Z.to_nat a) ltac:(apply in_seq; lia)). rewrite forallb_forall in HC.
    specialize (HC (Z.to_nat b) ltac:(apply in_seq; lia)).
    rewrite !Z2Nat.id in HC by lia. apply andb_true_iff in HC as [HC Hl].
    by apply Nat.eqb_eq in Hl. }
  destruct (HC' p q) as [Hc Hlp]; [lia..|]. destruct (HC' q p) as [_ Hlq]; [lia..|].
  apply compare_app; [congruence|].
  destruct (String.compare (fmt_02u p) (fmt_02u q)); [|done|];
    [apply Nat.eqb_eq in Hc; lia|apply Nat.ltb_lt in Hc; lia].
Qed.

Lemma compare_prefix a x y : String.compare (a +:+ x) (a +:+ y) = String.compare x y.
Proof.
  induction a as [|c a IH]; [done|]. change (String c a +:+ x) with (String c (a +:+ x)).
  change (String c a +:+ y) with (String c (a +:+ y)). simpl.
  replace (Stdlib.Strings.Ascii.compare c c) with Eq; [done|].
  unfold Stdlib.Strings.Ascii.compare. by rewrite N.compare_refl.
Qed.

(** Why priorities stop at 99: the runner executes the scripts of a node
    in the order of their paths, which for two priorities up to 99 is the
    order of the priorities, whatever the scripts are called. *)
Theorem script_order path gen action node p q s s' :
  0 ≤ p < q ∧ q ≤ 99 →
  String.compare (script_path path gen action node p s) (script_path path gen action node q s') = Lt.
Proof. intros Hpq. unfold script_path. rewrite !compare_prefix. by apply script_name_order. Qed.

(** ** Witnesses *)

Section Witnesses.
Import Demo.

Lemma add_link_laws l t f :
  (∀ p s, (add_link l t f).2 !! p = Some (NFile s) ↔ f !! p = Some (NFile s)) ∧
  (∀ p s, f !! p = Some (NLink s) → (add_link l t f).2 !! p = Some (NLink s)) ∧
  (∀ p, (add_link l t f).2 !! p = Some NDir → f !! p = Some NDir) ∧
  ((add_link l t f).1.1 = 0 → ∃ s, (add_link l t f).2 !! l = Some (NLink s)) ∧
  (∀ s, f !! l = Some (NLink s) → (add_link l t f).1.1 ≠ 0).
Proof.
  unfold add_link. destruct (f !! l) eqn:E; simpl; [naive_solver|].
  split_and!; intros; rewrite ?lookup_insert; rewrite ?lookup_insert in *;
    repeat case_decide; naive_solver.
Qed.

Ltac on_closed_cmd :=
  unfold sys_fs, sys_rc in *; simpl os_system in *; unfold run_cmd in *;
  repeat (rewrite decide_True in * by done || rewrite decide_False in * by done).

Lemma demo_shell cur : cur = 0 ∨ cur = 1 → DaggerShell path cur.
Proof.
  intros [-> | ->]; (split;
  [ intros cmd f p t Hc; unfold claim_cmds in Hc; rewrite !elem_of_cons in Hc;
    destruct Hc as [->|[->|[->|[]%elem_of_nil]]]; on_closed_cmd; [done|apply add_link_laws|done]
  | intros cmd f p t Hc; unfold claim_cmds in Hc; rewrite !elem_of_cons in Hc;
    destruct Hc as [->|[->|[->|[]%elem_of_nil]]]; on_closed_cmd; [done|apply add_link_laws|done]
  | intros cmd f Hc; unfold claim_cmds in Hc; rewrite !elem_of_cons in Hc;
    destruct Hc as [->|[->|[->|[]%elem_of_nil]]]; on_closed_cmd; [done|intros Hn E|done];
    apply Hn; by apply add_link_laws in E
  | intros f; on_closed_cmd; apply add_link_laws
  | intros f t Hl _; on_closed_cmd; by eapply add_link_laws
  | intros f p Hp; on_closed_cmd; simpl; rewrite lookup_delete_ne; [done|];
    intros <-; by eapply next_not_kept
  | intros f _; on_closed_cmd; simpl; apply lookup_delete_eq
  | intros f t; on_closed_cmd; destruct (f !! next_file path) eqn:E; simpl; [|done];
    intros _ [= ->]; rewrite lookup_insert_ne, lookup_delete_eq, lookup_insert_eq; done ]).
Qed.

Lemma demo_claimable : claimable path 0 w0.
Proof. split_and!; try done. vm_compute. lia. Qed.

(** Generation 0 is current; claiming, evolving and claiming again goes to 1. *)
Lemma claim_evolve_claim_witness : ∃ r, dagger_claim path w2 = (Ret r, w3) ∧
  dg_current r.2 = 1 ∧ dg_next r.2 = 2.
Proof.
  eexists. split; [vm_compute; reflexivity|].
  eapply (claim_evolve_claim path 0 (DaggerShell0 := demo_shell 0 ltac:(auto)) w0 (0, d1) w1 w2).
  - exact demo_claimable.
  - vm_compute. reflexivity.
  - reflexivity.
  - vm_compute. reflexivity.
  - apply demo_shell. auto.
  - vm_compute. reflexivity.
  - reflexivity.
Defined.

(** The lock of the first claim keeps a second one out. *)
Lemma claim_exclusive_witness : ∃ r' wx, dagger_claim path w1 = (Ret r', wx) ∧ r'.1 ≠ 0 ∧
    w_fs wx !! next_file path = w_fs w1 !! next_file path.
Proof.
  apply (claim_exclusive path 0 (DaggerShell0 := demo_shell 0 ltac:(auto)) w0 (0, d1)).
  - exact demo_claimable.
  - vm_compute. reflexivity.
  - reflexivity.
Defined.

(** Claim, abandon, claim: the last one fails. *)
Lemma abandon_blocks_claims_witness : ∃ r' wx, dagger_claim path wa = (Ret r', wx) ∧ r'.1 ≠ 0 ∧
  (sys_rc ("mkdir -p " +:+ path) (w_fs wa) = 0 →
   ∃ r'' wy, dagger_claim path wx = (Ret r'', wy) ∧ r''.1 ≠ 0).
Proof.
  eapply (abandon_blocks_claims path 0 (DaggerShell0 := demo_shell 0 ltac:(auto)) w0 (0, d1) w1 0 wa).
  - exact demo_claimable.
  - vm_compute. discriminate.
  - vm_compute. reflexivity.
  - reflexivity.
  - vm_compute. reflexivity.
Defined.

(** A bridge script of priority 50 in generation 1. *)
Lemma dagger_fopen_script_witness : ∃ w', dagger_fopen d1 1 "init" "br0" 50 "init.bridge" w1 =
    (Ret (Some "/run/net/1/action/init/br0/50-init.bridge"), w') ∧
  w_fs w' !! "/run/net/1/action/init/br0/50-init.bridge" =
    Some (NFile ("#!/sbin/bridge -batch" +:+ nl +:+ nl)).
Proof.
  exact (dagger_fopen_script d1 1 "init" "br0" 50 "init.bridge" w1 ltac:(lia)
           (λ m p f, eq_refl) (λ p f, eq_refl) eq_refl (or_introl eq_refl)).
Defined.

(** 09 sorts before 10. *)
Lemma script_order_witness :
  String.compare "/run/net/3/action/init/eth0/09-b.sh" "/run/net/3/action/init/eth0/10-a.sh" = Lt.
Proof. exact (script_order "/run/net" 3 "init" "eth0" 9 10 "b.sh" "a.sh" ltac:(lia)). Defined.
End Witnesses.
