(* ===== verification/Core.v ===== *)
(** * confd/src/confd/core.c, core.h: hooks around the module callbacks

    Every module registers its callback between passive hooks.  The post hook
    counts the callbacks of a changeset: sysrepo sends SR_EV_CHANGE to every
    subscription, then SR_EV_DONE to every one (or SR_EV_ABORT when one
    failed).  Sysrepo itself is outside: a subscription call is a parameter
    that says whether it succeeds. *)
From Stdlib Require Import Sorted.
From S2P Require Import Prelude CString Os.

Open Scope Z_scope.

Inductive sr_event :=
| SR_EV_UPDATE
| SR_EV_CHANGE
| SR_EV_DONE
| SR_EV_ABORT
| SR_EV_ENABLED
| SR_EV_RPC.

#[export] Instance sr_event_eq_dec : EqDecision sr_event.
Proof. solve_decision. Defined.

(** sr_error_t of sysrepo 2 *)
Definition SR_ERR_OK : Z := 0.
Definition SR_ERR_LY : Z := 2.
Definition SR_ERR_SYS : Z := 3.
Definition SR_ERR_NO_MEMORY : Z := 4.
Definition SR_ERR_EXISTS : Z := 6.
Definition SR_ERR_INTERNAL : Z := 7.
Definition SR_ERR_VALIDATION_FAILED : Z := 9.

Definition SR_SUBSCR_DEFAULT : Z := 0.
Definition SR_SUBSCR_PASSIVE : Z := 2.
Definition SR_SUBSCR_UPDATE : Z := 16.

Definition CB_PRIO_PRIMARY : Z := 65535.
Definition CB_PRIO_PASSIVE : Z := 65000.

(** The callbacks a subscription can name. *)
Inductive callback :=
| cb_module (name : string)
| cb_pre_hook
| cb_post_hook
| cb_startup_save.

(** The datastore sessions of struct confd. *)
Inductive session := S_running | S_startup | S_candidate.

Record subscription := Subscription {
  sub_session : session;
  sub_module : string;
  sub_xpath : string;
  sub_cb : callback;
  sub_prio : Z;
  sub_flags : Z;
}.

(** The static variables of core.c and the world. *)
Record core := Core {
  c_hook_prio : Z;
  c_num_changes : Z;
  c_subs : list subscription;
  c_world : world;
}.

Class Sysrepo := { sr_subscribe : subscription → Z }.

Section Core.
Context `{Os} `{Sysrepo}.

Definition sys (cmd : string) : M core Z := λ c,
  match system cmd (c_world c) with
  | (Ret rc, w) => (Ret rc, Core (c_hook_prio c) (c_num_changes c) (c_subs c) w)
  | (Exit x, w) => (Exit x, Core (c_hook_prio c) (c_num_changes c) (c_subs c) w)
  | (Crash, w) => (Crash, Core (c_hook_prio c) (c_num_changes c) (c_subs c) w)
  end.

(** core_hook_prio(): a decreasing uint32_t *)
Definition core_hook_prio : M core Z := λ c,
  (Ret (c_hook_prio c),
   Core (u32 (c_hook_prio c - 1)) (c_num_changes c) (c_subs c) (c_world c)).

Definition core_startup_save : M core Z :=
  let* rc := sys "sysrepocfg -X/cfg/startup-config.cfg -d startup -f json" in
  if decide (rc ≠ 0) then ret SR_ERR_SYS else ret SR_ERR_OK.

Definition core_pre_hook (event : sr_event) : M core Z := ret 0.

Definition set_num (n : Z) : M core unit :=
  modify (λ c, Core (c_hook_prio c) n (c_subs c) (c_world c)).

Definition runlevel_cmd : string := "runlevel >/dev/null 2>&1".

Definition reload_cmd : string := "initctl -nbq reload".

(** What the post hook does once the last callback has run. *)
Definition commit_done : M core Z :=
  let* rc := sys runlevel_cmd in
  if decide (rc ≠ 0) then ret SR_ERR_OK
  else
    let* rc := sys reload_cmd in
    if decide (rc ≠ 0) then ret SR_ERR_SYS else ret SR_ERR_OK.

Definition core_post_hook (event : sr_event) : M core Z :=
  let* n := gets c_num_changes in
  match event with
  | SR_EV_CHANGE => set_num (n + 1) ;;; ret SR_ERR_OK
  | SR_EV_ABORT => set_num 0 ;;; ret SR_ERR_OK
  | SR_EV_DONE =>
      set_num (n - 1) ;;;
      if decide (n - 1 = 0) then commit_done else ret SR_ERR_OK
  | _ => ret SR_ERR_SYS
  end.

Definition sr_module_change_subscribe (s : subscription) : M core Z := λ c,
  let rc := sr_subscribe s in
  (Ret rc, if decide (rc = 0)
           then Core (c_hook_prio c) (c_num_changes c) (c_subs c ++ [s]) (c_world c) else c).

(** register_change(): [flags] is 0 for the running datastore's callbacks. *)
Definition register_change (sess : session) (module xpath : string) (flags : Z) (cb : callback)
    : M core Z :=
  (if decide (flags = 0)
   then let* _ := sr_module_change_subscribe
          (Subscription S_running module xpath cb_pre_hook 0 SR_SUBSCR_PASSIVE) in ret tt
   else ret tt) ;;;
  let* rc := sr_module_change_subscribe
    (Subscription sess module xpath cb CB_PRIO_PRIMARY (Z.lor flags SR_SUBSCR_DEFAULT)) in
  if decide (rc ≠ 0) then ret rc
  else
    (if decide (flags = 0)
     then
       let* p := core_hook_prio in
       let* _ := sr_module_change_subscribe
         (Subscription S_running module xpath cb_post_hook p SR_SUBSCR_PASSIVE) in
       let* p := core_hook_prio in
       let* _ := sr_module_change_subscribe
         (Subscription S_startup module xpath cb_startup_save p SR_SUBSCR_PASSIVE) in
       ret tt
     else ret tt) ;;;
    ret 0.

(** The registrations of a plugin, stopping at the first failure. *)
Fixpoint register_all (l : list (session * string * string * Z * callback)) : M core Z :=
  match l with
  | [] => ret 0
  | (sess, module, xpath, flags, cb) :: l' =>
      let* rc := register_change sess module xpath flags cb in
      if decide (rc ≠ 0) then ret rc else register_all l'
  end.

(** Events of one subscription's post hook, in order. *)
Fixpoint run_events (l : list sr_event) : M core unit :=
  match l with
  | [] => ret tt
  | e :: l' => core_post_hook e ;;; run_events l'
  end.

End Core.

(** ** Theorems *)

(** A changeset: how many post hooks see it, and whether it is committed. *)
Record changeset := Changeset { cs_changes : nat; cs_aborts : nat; cs_commit : bool }.

Definition events_of (cs : changeset) : list sr_event :=
  replicate (S (cs_changes cs)) SR_EV_CHANGE ++
  (if cs_commit cs then replicate (S (cs_changes cs)) SR_EV_DONE
   else replicate (S (cs_aborts cs)) SR_EV_ABORT).

Definition count_cmd (cmd : string) (l : list string) : nat :=
  length (List.filter (streq cmd) l).

Definition commits (l : list changeset) : nat := length (List.filter cs_commit l).

Section Facts.
Context `{Os}.
Implicit Types c : core.

Lemma run_events_app l1 l2 c :
  run_events (l1 ++ l2) c = (run_events l1 ;;; run_events l2) c.
Proof.
  revert c. induction l1 as [|e l1 IH]; intros c; [done|]. cbn [run_events app].
  rewrite bind_assoc. unfold bind. destruct (core_post_hook e c) as [[] ?]; [|done..]. apply IH.
Qed.

Lemma run_events_step e l c c' r :
  core_post_hook e c = (Ret r, c') → run_events (e :: l) c = run_events l c'.
Proof. intros E. cbn [run_events]. unfold bind. by rewrite E. Qed.

Lemma run_changes k c :
  run_events (replicate k SR_EV_CHANGE) c =
  (Ret tt, Core (c_hook_prio c) (c_num_changes c + Z.of_nat k) (c_subs c) (c_world c)).
Proof.
  revert c. induction k as [|k IH]; intros c.
  - destruct c. simpl. by rewrite Z.add_0_r.
  - cbn [replicate run_events]. unfold bind at 1. simpl. rewrite IH. simpl.
    do 2 f_equal. lia.
Qed.

Lemma run_aborts k c :
  run_events (replicate (S k) SR_EV_ABORT) c =
  (Ret tt, Core (c_hook_prio c) 0 (c_subs c) (c_world c)).
Proof.
  revert c. induction k as [|k IH]; intros c; [done|].
  change (replicate (S (S k)) SR_EV_ABORT) with (SR_EV_ABORT :: replicate (S k) SR_EV_ABORT).
  erewrite run_events_step by done. by rewrite IH.
Qed.

(** The system is up: runlevel succeeds. *)
Definition booted : Prop := ∀ f, (os_system runlevel_cmd f).1.1 = 0.

Lemma commit_done_log c : booted →
  ∃ rc w, commit_done c = (Ret rc, Core (c_hook_prio c) (c_num_changes c) (c_subs c) w) ∧
    w_log w = w_log (c_world c) ++ [runlevel_cmd; reload_cmd].
Proof.
  intros Hb. specialize (Hb (w_fs (c_world c))).
  unfold commit_done, bind, sys, system.
  destruct (os_system runlevel_cmd (w_fs (c_world c))) as [[rc e] f]. simpl in *. subst rc.
  simpl. destruct (os_system reload_cmd f) as [[rc e'] f']. simpl.
  case_decide; eexists _, _; (split; [done|]); simpl; by rewrite <- app_assoc.
Qed.

Lemma run_dones k c : booted → c_num_changes c = Z.of_nat (S k) →
  ∃ w, run_events (replicate (S k) SR_EV_DONE) c =
    (Ret tt, Core (c_hook_prio c) 0 (c_subs c) w) ∧
    w_log w = w_log (c_world c) ++ [runlevel_cmd; reload_cmd].
Proof.
  intros Hb. revert c. induction k as [|k IH]; intros c Hn.
  - destruct (commit_done_log (Core (c_hook_prio c) 0 (c_subs c) (c_world c)) Hb) as (rc & w & E & Hw).
    exists w. split; [|done]. cbn [replicate].
    erewrite run_events_step; [done|]. unfold core_post_hook, bind, gets, set_num, modify.
    rewrite Hn. exact E.
  - change (replicate (S (S k)) SR_EV_DONE) with (SR_EV_DONE :: replicate (S k) SR_EV_DONE).
    erewrite run_events_step.
    2: { unfold core_post_hook, bind. simpl. by rewrite decide_False by lia. }
    destruct (IH (Core (c_hook_prio c) (c_num_changes c - 1) (c_subs c) (c_world c))) as (w & -> & Hw).
    { simpl. lia. }
    eauto.
Qed.

Lemma run_changeset cs c : booted → c_num_changes c = 0 →
  ∃ w, run_events (events_of cs) c = (Ret tt, Core (c_hook_prio c) 0 (c_subs c) w) ∧
    w_log w = w_log (c_world c) ++
      (if cs_commit cs then [runlevel_cmd; reload_cmd] else []).
Proof.
  intros Hb H0. unfold events_of. rewrite run_events_app. unfold bind. rewrite run_changes.
  destruct (cs_commit cs).
  - set (c1 := Core _ _ _ _). destruct (run_dones (cs_changes cs) c1 Hb) as (w & E & Hw).
    { unfold c1. cbn [c_num_changes]. lia. }
    rewrite E. eauto.
  - rewrite run_aborts. simpl. eexists. split; [done|]. by rewrite app_nil_r.
Qed.

Lemma count_cmd_app cmd l1 l2 : count_cmd cmd (l1 ++ l2) = (count_cmd cmd l1 + count_cmd cmd l2)%nat.
Proof. unfold count_cmd. by rewrite List.filter_app, length_app. Qed.

End Facts.

(** ** Priorities of the hooks *)
Section Priorities.
Context `{Os} `{Sysrepo}.
Implicit Types c : core.

Definition is_hook (s : subscription) : bool :=
  match sub_cb s with cb_post_hook | cb_startup_save => true | _ => false end.

Definition hook_prios (c : core) : list Z := sub_prio <$> List.filter is_hook (c_subs c).

(** The hooks registered so far have distinct priorities, above the next one. *)
Definition prios_ok (c : core) : Prop :=
  StronglySorted (λ a b, b < a) (hook_prios c) ∧
  Forall (λ p, c_hook_prio c < p ≤ CB_PRIO_PASSIVE) (hook_prios c).

Lemma snoc_sorted l x :
  StronglySorted (λ a b : Z, b < a) l → Forall (λ a, x < a) l →
  StronglySorted (λ a b : Z, b < a) (l ++ [x]).
Proof.
  induction 1 as [|a l Hs IH Ha]; intros Hx; simpl; [by repeat constructor|].
  apply Forall_cons in Hx as [Hx Hl]. constructor; [by apply IH|].
  apply Forall_app. auto.
Qed.

(** Subscribing something that is not a hook keeps the order. *)
Lemma wp_subscribe_other s (n : Z) c :
  is_hook s = false → prios_ok c → c_hook_prio c = n →
  wp (sr_module_change_subscribe s) (λ _ c', prios_ok c' ∧ c_hook_prio c' = n) c.
Proof.
  intros Hs [H1 H2] Hn. unfold wp, sr_module_change_subscribe. case_decide; [|done].
  split; [|done]. unfold prios_ok, hook_prios in *. simpl.
  rewrite List.filter_app, fmap_app. simpl. by rewrite Hs, app_nil_r.
Qed.

(** Taking a priority and subscribing a hook with it keeps the order. *)
Lemma wp_subscribe_hook sess m x cb (n : Z) (k : Z → subscription) c :
  (∀ p, k p = Subscription sess m x cb p SR_SUBSCR_PASSIVE) →
  (cb = cb_post_hook ∨ cb = cb_startup_save) →
  prios_ok c → c_hook_prio c = n → 0 < n ≤ CB_PRIO_PASSIVE →
  wp (let* p := core_hook_prio in sr_module_change_subscribe (k p))
     (λ _ c', prios_ok c' ∧ c_hook_prio c' = n - 1) c.
Proof.
  unfold CB_PRIO_PASSIVE. intros Hk Hcb [H1 H2] Hn Hb.
  unfold wp, bind, core_hook_prio, sr_module_change_subscribe.
  assert (Hu : u32 (c_hook_prio c - 1) = n - 1) by (unfold u32; rewrite Z.mod_small; lia).
  assert (H2' : Forall (λ p, n - 1 < p ≤ CB_PRIO_PASSIVE) (hook_prios c)).
  { eapply Forall_impl; [exact H2|]. simpl. intros. lia. }
  case_decide; simpl; rewrite Hu; (split; [|done]); unfold prios_ok; simpl; [|done].
  unfold hook_prios. simpl. rewrite List.filter_app, fmap_app. rewrite Hk.
  assert (is_hook (Subscription sess m x cb (c_hook_prio c) SR_SUBSCR_PASSIVE) = true) as Hh
    by (by destruct Hcb; subst).
  cbn [List.filter]. rewrite Hh. simpl. split.
  - apply snoc_sorted; [done|]. eapply Forall_impl; [exact H2|]. simpl. lia.
  - apply Forall_app. split; [done|]. constructor; [|constructor].
    unfold CB_PRIO_PASSIVE. lia.
Qed.

Lemma wp_register_change sess m x flags name n c :
  prios_ok c → c_hook_prio c = n → 2 ≤ n ≤ CB_PRIO_PASSIVE →
  wp (register_change sess m x flags (cb_module name))
     (λ _ c', prios_ok c' ∧ n - 2 ≤ c_hook_prio c' ≤ n) c.
Proof.
  intros Hp Hn Hb. unfold register_change. apply wp_bind.
  eapply (wp_mono _ (λ _ c', prios_ok c' ∧ c_hook_prio c' = n)).
  { case_decide; [|by apply wp_ret]. apply wp_bind.
    eapply wp_mono; [by eapply wp_subscribe_other|]. intros rc c' ?. by apply wp_ret. }
  intros [] c1 [Hp1 Hn1]. apply wp_bind.
  eapply wp_mono; [by eapply (wp_subscribe_other _ n)|]. intros rc c2 [Hp2 Hn2].
  case_decide; [apply wp_ret; split; [done|lia]|]. apply wp_bind.
  eapply (wp_mono _ (λ _ c', prios_ok c' ∧ n - 2 ≤ c_hook_prio c' ≤ n)).
  2: { intros [] c3 ?. by apply wp_ret. }
  case_decide; [|apply wp_ret; split; [done|lia]].
  pose proof (wp_subscribe_hook S_running m x cb_post_hook n _ c2
    (λ p, eq_refl) ltac:(auto) Hp2 Hn2 ltac:(lia)) as Hs.
  unfold wp in Hs |- *. unfold bind in Hs |- *.
  destruct (core_hook_prio c2) as [[p| |] c3]; [|done..].
  destruct (sr_module_change_subscribe _ c3) as [[r| |] c4]; [|done..].
  destruct Hs as [Hp4 Hn4].
  pose proof (wp_subscribe_hook S_startup m x cb_startup_save (n - 1) _ c4
    (λ p, eq_refl) ltac:(auto) Hp4 Hn4 ltac:(lia)) as Hs.
  unfold wp, bind in Hs. destruct (core_hook_prio c4) as [[p'| |] c5]; [|done..].
  destruct (sr_module_change_subscribe _ c5) as [[r'| |] c6]; [|done..].
  simpl. destruct Hs. split; [done|lia].
Qed.

(** The hooks a plugin registers run in a fixed order: every registration
    takes priorities below all earlier ones, so the post hook that runs last
    is the one of the last registered module. *)
Lemma wp_register_all_prios l c :
  prios_ok c → 2 * Z.of_nat (length l) ≤ c_hook_prio c ≤ CB_PRIO_PASSIVE →
  Forall (λ r, ∃ name, r.2 = cb_module name) l →
  wp (register_all l) (λ _ c', prios_ok c' ∧ c_hook_prio c - 2 * Z.of_nat (length l) ≤ c_hook_prio c' ≤ CB_PRIO_PASSIVE) c.
Proof.
  intros Hp Hb Hcb.
  induction Hcb as [|[[[[sess m] x] flags] cb] l [name Hc] _ IH] in c, Hp, Hb |- *.
  { apply wp_ret. split; [done|simpl; lia]. }
  simpl in Hc. subst cb. cbn [register_all]. apply wp_bind. cbn [length] in *.
  eapply wp_mono; [apply (wp_register_change _ _ _ _ _ (c_hook_prio c)); [done|done|lia]|].
  intros rc c' [Hp' Hn']. case_decide; [apply wp_ret; split; [done|lia]|].
  eapply wp_mono; [apply IH; [done|lia]|]. simpl. intros _ c2 [? ?]. split; [done|lia].
Qed.

(** The callbacks of the modules, as they are registered. *)
Definition is_primary (s : subscription) : bool :=
  match sub_cb s with cb_module _ => true | _ => false end.

Definition primaries (c : core) : list subscription := List.filter is_primary (c_subs c).

Definition primary_of (r : session * string * string * Z * callback) : subscription :=
  let '(sess, module, xpath, flags, cb) := r in
  Subscription sess module xpath cb CB_PRIO_PRIMARY (Z.lor flags SR_SUBSCR_DEFAULT).

Lemma wp_register_primary sess m x flags name c :
  wp (register_change sess m x flags (cb_module name)) (λ rc c', rc = 0 →
    primaries c' = primaries c ++ [primary_of (sess, m, x, flags, cb_module name)]) c.
Proof.
  unfold wp, register_change, sr_module_change_subscribe, core_hook_prio, bind, ret, primaries, primary_of.
  repeat case_decide; simpl; intros ?; rewrite ?List.filter_app; simpl; rewrite ?app_nil_r; done.
Qed.

(** A registration without error registers every callback of the list. *)
Lemma wp_register_all_primaries l c :
  Forall (λ r, ∃ name, r.2 = cb_module name) l →
  wp (register_all l) (λ rc c', rc = 0 → primaries c' = primaries c ++ (primary_of <$> l)) c.
Proof.
  induction 1 as [|[[[[sess m] x] flags] cb] l [name Hc] _ IH] in c |- *.
  { apply wp_ret. intros _. by rewrite app_nil_r. }
  simpl in Hc. subst cb. cbn [register_all]. apply wp_bind.
  eapply wp_mono; [apply wp_register_primary|]. intros rc c1 Hrc. case_decide as Hz; [by apply wp_ret|].
  eapply wp_mono; [apply IH|]. simpl. intros rc' c2 H2 ->.
  rewrite H2, Hrc by (done || by destruct (decide (rc = 0))). by rewrite <- app_assoc.
Qed.
End Priorities.

(** ** Witnesses *)

Module CoreDemo.

#[export] Instance os : Os := {|
  os_system _ f := (0, 0, f);
  os_fopen _ _ _ := None;
  os_fchmod _ _ := 0;
|}.

#[export] Instance sr : Sysrepo := {| sr_subscribe _ := 0 |}.

Definition c0 : core := Core CB_PRIO_PASSIVE 0 [] (World ∅ 0 []).

End CoreDemo.

Section CoreWitnesses.
Import CoreDemo.


End CoreWitnesses.
