(* ===== verification/Inet.v ===== *)
(** * inet_pton(3), as is_std_lo_addr() of ietf-interfaces.c uses it *)
From S2P Require Import Prelude CString.

Open Scope Z_scope.

(** The fields of a string between separators. *)
Fixpoint split_on (sep : ascii) (s : string) : list string :=
  match s with
  | EmptyString => [EmptyString]
  | String c s' =>
      if decide (c = sep) then EmptyString :: split_on sep s'
      else match split_on sep s' with
           | f :: fs => String c f :: fs
           | [] => [String c EmptyString]
           end
  end.

(** A decimal octet: one to three digits, no leading zero, at most 255. *)
Definition octet (s : string) : option Z :=
  let n := String.length s in
  if (1 <=? n)%nat && (n <=? 3)%nat && str_all isdigit s
     && negb ((1 <? n)%nat && str_prefix "0" s)
  then let v := parse_digits 10 0 s in if v <=? 255 then Some v else None
  else None.

(** AF_INET: the address in host byte order. *)
Definition inet_pton4 (s : string) : option Z :=
  match split_on "."%char s with
  | [a; b; c; d] =>
      match octet a, octet b, octet c, octet d with
      | Some a, Some b, Some c, Some d => Some (((a * 256 + b) * 256 + c) * 256 + d)
      | _, _, _, _ => None
      end
  | _ => None
  end.

Definition isxdigit (c : ascii) : bool := bool_decide (is_Some (digit_val 16 c)).

(** A group of one to four hexadecimal digits. *)
Definition hextet (s : string) : option Z :=
  let n := String.length s in
  if (1 <=? n)%nat && (n <=? 4)%nat && str_all isxdigit s
  then Some (parse_digits 16 0 s) else None.

(** Colon separated groups; the last may be a dotted quad (two groups). *)
Fixpoint groups (l : list string) : option (list Z) :=
  match l with
  | [] => Some []
  | [s] =>
      match hextet s, inet_pton4 s with
      | Some g, _ => Some [g]
      | None, Some q => Some [q / 65536; q mod 65536]
      | None, None => None
      end
  | s :: l' =>
      match hextet s, groups l' with
      | Some g, Some gs => Some (g :: gs)
      | _, _ => None
      end
  end.

Definition side (s : string) : option (list Z) :=
  match s with
  | EmptyString => Some []
  | _ => groups (split_on ":"%char s)
  end.

Definition hextets_value (l : list Z) : Z := foldl (λ acc g, acc * 65536 + g) 0 l.

(** AF_INET6: the 128-bit value.  "::" stands for one or more zero groups. *)
Definition inet_pton6 (s : string) : option Z :=
  match strstr s "::" with
  | Some (l, String _ (String _ r)) =>
      match side l, side r with
      | Some gl, Some gr =>
          let n := (length gl + length gr)%nat in
          if (n <? 8)%nat then Some (hextets_value (gl ++ replicate (8 - n) 0 ++ gr)) else None
      | _, _ => None
      end
  | _ =>
      match groups (split_on ":"%char s) with
      | Some g => if (length g =? 8)%nat then Some (hextets_value g) else None
      | None => None
      end
  end.

Example inet_lo4 : inet_pton4 "127.0.0.1" = Some 2130706433.
Proof. vm_compute. reflexivity. Qed.

Example inet_lo6 : inet_pton6 "::1" = Some 1 ∧ inet_pton6 "0:0:0:0:0:0:0:1" = Some 1
  ∧ inet_pton6 "fe80::1:2" = Some 338288524927261089654018896841347760130 ∧ inet_pton6 "1::2::3" = None.
Proof. vm_compute. auto. Qed.
