(* ===== verification/IfGen.v ===== *)
(** * confd/src/confd/ietf-interfaces.c: from a configuration diff to scripts

    [ifchange] is called by sysrepo with the new configuration and the diff;
    it claims the next generation and writes, per interface, an [exit] script
    in the current generation and an [init] script in the next one.  A [FILE *]
    is the path of the script.  A string pointer that may be NULL is an
    [option]: printing NULL gives "(null)" as in the C library, comparing NULL
    is a crash. *)
From S2P Require Import Prelude CString Os Helpers Inet Lyx Dagger Core.

Open Scope Z_scope.

(** printf's %s of a possibly NULL pointer *)
Definition pstr (s : option string) : string := default "(null)" s.

(** What the code asks of iproute2's JSON output and of the kernel. *)
Class IfEnv := {
  if_json : Type;
  (** popenf("ip -d -j link show dev %s") and json_loadf() *)
  if_link_show : string → option if_json;
  (** json_unpack(link, "[{s:s}]", "link_type", &attr) *)
  if_link_type : if_json → option string;
  (** json_unpack(link, "[{s: { s:s }}]", "linkinfo", "info_kind", &attr) *)
  if_info_kind : if_json → option string;
  if_nametoindex : string → Z;
}.

Section IfGen.
Context `{Os} `{IfEnv}.

Definition iface_is_phys (ifname : string) : bool :=
  match if_link_show ifname with
  | None => false
  | Some link =>
      match if_link_type link with
      | None => false
      | Some attr =>
          if negb (streq attr "ether") then false
          else match if_info_kind link with
               | Some _ => false
               | None => true
               end
      end
  end.

Definition netdag_exit_reload (net : dagger) : M world Z :=
  let* initctl := dagger_fopen_current net "exit" "@post" 90 "reload.sh" in
  match initctl with
  | None => ret (- EIO)
  | Some fp => fputs ("initctl -bnq reload" +:+ nl) fp ;;; fclose fp ;;; ret 0
  end.

Definition INADDR_LOOPBACK : Z := 2130706433.

Definition is_std_lo_addr (ifname : string) (ip pf : option string) : M world bool :=
  if negb (streq ifname "lo") then ret false
  else
    let* ip := deref ip in
    match inet_pton4 ip with
    | Some in4 =>
        if decide (in4 = INADDR_LOOPBACK)
        then let* pf := deref pf in ret (streq pf "8") else ret false
    | None =>
        match inet_pton6 ip with
        | Some in6 =>
            if decide (Some in6 = inet_pton6 "::1")
            then let* pf := deref pf in ret (streq pf "128") else ret false
        | None => ret false
        end
    end.

Definition addr_line (verb : string) (ip pf : option string) (ifname : string) : string :=
  "address " +:+ verb +:+ " " +:+ pstr ip +:+ "/" +:+ pstr pf +:+ " dev " +:+ ifname +:+ nl.

Definition netdag_gen_diff_addr (ip ifname : string) (addr : loc) : M world Z :=
  let op := lydx_get_op (Some addr) in
  let adr := lydx_get_child (Some addr) "ip" in
  let pfx := lydx_get_child (Some addr) "prefix-length" in
  match adr, pfx with
  | Some _, Some _ =>
      let adrd := lydx_get_diff adr in
      let pfxd := lydx_get_diff pfx in
      (if decide (op ≠ LYDX_OP_CREATE)
       then fputs (addr_line "delete" (d_old adrd) (d_old pfxd) ifname) ip
       else ret tt) ;;;
      if decide (op = LYDX_OP_DELETE) then ret 0
      else
        let* std := (if decide (op = LYDX_OP_CREATE)
                     then is_std_lo_addr ifname (d_new adrd) (d_new pfxd) else ret false) in
        fputs (addr_line (if std : bool then "replace" else "add")
                 (d_new adrd) (d_new pfxd) ifname) ip ;;;
        ret 0
  | _, _ => ret (- EINVAL)
  end.

Definition netdag_gen_diff_addrs (ip ifname : string) (ipvx : ptr) : M world Z :=
  for_until_err (LYX_LIST_FOR_EACH (lyd_child ipvx) "address")
    (netdag_gen_diff_addr ip ifname) 0.

Definition netdag_set_conf_addrs (ip ifname : string) (ipvx : ptr) : M world Z :=
  foreach (LYX_LIST_FOR_EACH (lyd_child ipvx) "address") (λ addr,
    fputs (addr_line "add" (lydx_get_cattr (Some addr) "ip")
             (lydx_get_cattr (Some addr) "prefix-length") ifname) ip) ;;;
  ret 0.

(** [proto] is "ipv4" or "ipv6"; proto[3] is the digit. *)
Definition netdag_gen_ip_addrs (ip proto : string) (cif dif : ptr) : M world Z :=
  let ipconf := lydx_get_child cif proto in
  let ipdiff := lydx_get_child dif proto in
  let ifname := lydx_get_cattr dif "name" in
  if bool_decide (ipconf = None) || negb (lydx_is_enabled ipconf "enabled") then
    let* ifname := deref ifname in
    (if decide (if_nametoindex ifname ≠ 0)
     then let* _ := system ("ip -" +:+ String.substring 3 1 proto +:+ " addr flush dev "
                            +:+ ifname +:+ nl) in ret tt
     else ret tt) ;;;
    ret 0
  else if decide (lydx_get_op (lydx_get_child ipdiff "enabled") = LYDX_OP_REPLACE)
  then netdag_set_conf_addrs ip (pstr ifname) ipconf
  else netdag_gen_diff_addrs ip (pstr ifname) ipdiff.

(** netdag_gen_ipv6_autoconf(): [Some true] is the label enable, [Some false]
    disable, [None] an early return. *)
Definition ipv6_autoconf_mode (cif dif : ptr) : option bool :=
  let ipconf := lydx_get_child cif "ipv6" in
  let ipdiff := lydx_get_child dif "ipv6" in
  if bool_decide (ipconf = None) || negb (lydx_is_enabled ipconf "enabled") then Some false
  else if decide (lydx_get_op (lydx_get_child ipdiff "enabled") = LYDX_OP_REPLACE) then
    let node := lydx_get_child ipconf "autoconf" in
    Some (bool_decide (node ≠ None) && lydx_is_enabled node "create-global-addresses")
  else
    let node := lydx_get_descendant (lydx_get_child ipdiff "autoconf") ["create-global-addresses"] in
    let nd := lydx_get_diff node in
    if bool_decide (node = None) || negb (d_modified nd) then None
    else match d_new nd with
         | None => Some true
         | Some _ => Some (bool_decide (d_val nd = Some "true"))
         end.

Definition netdag_gen_ipv6_autoconf (ip : string) (cif dif : ptr) : M world Z :=
  match ipv6_autoconf_mode cif dif with
  | None => ret 0
  | Some true => fputs " addrgenmode eui64" ip ;;; ret 0
  | Some false => fputs " addrgenmode none" ip ;;; ret 0
  end.

(** netdag_gen_ipv4_autoconf(): the branch taken, as for IPv6. *)
Definition ipv4_autoconf_mode (cif dif : ptr) : option bool :=
  let ipconf := lydx_get_child cif "ipv4" in
  let ipdiff := lydx_get_child dif "ipv4" in
  if bool_decide (ipconf = None) || negb (lydx_is_enabled ipconf "enabled") then Some false
  else if decide (lydx_get_op (lydx_get_child ipdiff "enabled") = LYDX_OP_REPLACE) then
    let node := lydx_get_child ipconf "autoconf" in
    Some (bool_decide (node ≠ None) && lydx_is_enabled node "enabled")
  else
    let node := lydx_get_descendant (lydx_get_child ipdiff "autoconf") ["enabled"] in
    let nd := lydx_get_diff node in
    if bool_decide (node = None) || negb (d_modified nd) then None
    else match d_new nd with
         | None => Some false
         | Some _ => Some (bool_decide (d_val nd = Some "true"))
         end.

Definition netdag_gen_ipv4_autoconf (net : dagger) (cif dif : ptr) : M world Z :=
  let ifname := pstr (lydx_get_cattr dif "name") in
  match ipv4_autoconf_mode cif dif with
  | None => ret 0
  | Some true =>
      let* initctl := dagger_fopen_next net "init" ifname 60 "zeroconf-up.sh" in
      match initctl with
      | None => ret (- EIO)
      | Some fp =>
          fputs ("initctl -bnq enable zeroconf@" +:+ ifname +:+ ".conf" +:+ nl) fp ;;;
          fclose fp ;;; ret 0
      end
  | Some false =>
      let* initctl := dagger_fopen_current net "exit" ifname 40 "zeroconf-down.sh" in
      match initctl with
      | None =>
          let* e := gets w_errno in
          if decide (e = EUNATCH) then ret 0 else ret (- EIO)
      | Some fp =>
          fputs ("initctl -bnq disable zeroconf@" +:+ ifname +:+ ".conf" +:+ nl) fp ;;;
          let* err := netdag_exit_reload net in
          fclose fp ;;; ret err
      end
  end.

(** netdag_gen_sysctl_bool(): [fpp] is the file shared by the calls; the
    result carries its new value. *)
Definition netdag_gen_sysctl_bool (net : dagger) (ifname : string) (fpp : option string)
    (node : ptr) (key : string) : M world (Z * option string) :=
  let nd := lydx_get_diff node in
  if bool_decide (node = None) || negb (d_modified nd) then ret (0, fpp)
  else
    let* fp := (match fpp with
                | Some fp => ret (Some fp)
                | None => dagger_fopen_next net "init" ifname 60 "init.sysctl"
                end) in
    match fp with
    | None => ret (- EIO, None)
    | Some fp =>
        fputs key fp ;;;
        fputs (" = " +:+ (if bool_decide (is_Some (d_new nd)) && bool_decide (d_val nd = Some "true")
                          then "1" else "0") +:+ nl) fp ;;;
        ret (0, Some fp)
    end.

Definition netdag_gen_sysctl (net : dagger) (dif : ptr) : M world Z :=
  let ifname := pstr (lydx_get_cattr dif "name") in
  let node := lydx_get_descendant (lyd_child dif) ["ipv4"; "forwarding"] in
  let* (err, sysctl) := netdag_gen_sysctl_bool net ifname None node
    ("net.ipv4.conf." +:+ ifname +:+ ".forwarding") in
  let node := lydx_get_descendant (lyd_child dif) ["ipv6"; "forwarding"] in
  let* (err, sysctl) :=
    (if decide (err ≠ 0) then ret (err, sysctl)
     else netdag_gen_sysctl_bool net ifname sysctl node
            ("net.ipv6.conf." +:+ ifname +:+ ".forwarding")) in
  (match sysctl with Some fp => let* _ := fclose fp in ret tt | None => ret tt end) ;;;
  ret err.

Definition netdag_gen_veth (net : dagger) (cif : ptr) (ip : string) : M world Z :=
  let ifname := pstr (lydx_get_cattr cif "name") in
  let node := lydx_get_descendant (lyd_child cif) ["veth"] in
  if decide (node = None) then ret (- EINVAL)
  else
    let peer := pstr (lydx_get_cattr node "peer") in
    let* skip := dagger_should_skip net ifname in
    if skip : bool then
      let* err := dagger_add_dep net ifname peer in
      if decide (err ≠ 0) then ret err else ret 0
    else
      dagger_skip_iface net peer ;;;
      fputs ("link add dev " +:+ ifname +:+ " down type veth peer " +:+ peer +:+ nl) ip ;;;
      ret 0.

Definition netdag_gen_vlan (net : dagger) (dif cif : ptr) (ip : string) : M world Z :=
  let parent := pstr (lydx_get_cattr cif "parent-interface") in
  let ifname := pstr (lydx_get_cattr cif "name") in
  let* err := dagger_add_dep net ifname parent in
  if decide (err ≠ 0) then ret err
  else
    let otag := lydx_get_descendant
      (lyd_child (match dif with Some _ => dif | None => cif end))
      ["encapsulation"; "dot1q-vlan"; "outer-tag"] in
    if decide (otag = None) then ret 0
    else
      fputs ("link add dev " +:+ ifname +:+ " down link " +:+ parent +:+ " type vlan") ip ;;;
      let typed := lydx_get_diff (lydx_get_child otag "tag-type") in
      let* err :=
        (if d_modified typed then
           let* new := deref (d_new typed) in
           if streq new "ieee802-dot1q-types:c-vlan" then fputs " proto 802.1Q" ip ;;; ret 0
           else if streq new "ieee802-dot1q-types:s-vlan" then fputs " proto 802.1ad" ip ;;; ret 0
           else ret (- ENOSYS)
         else ret 0) in
      if decide (err ≠ 0) then ret err
      else
        let vidd := lydx_get_diff (lydx_get_child otag "vlan-id") in
        (if d_modified vidd then fputs (" id " +:+ pstr (d_new vidd)) ip else ret tt) ;;;
        fputs nl ip ;;;
        ret 0.

(** The bit an ieee-group-forward entry selects. *)
Definition group_fwd_val (n : lyd_node) : option Z :=
  match ln_union n with
  | Some (UUint8 v) => Some v
  | Some (UEnum v) => Some v
  | None => None
  end.

Definition netdag_get_bridge_fwd_mask (cif : ptr) : Z :=
  let node := lydx_get_descendant (lyd_child cif) ["bridge"] in
  match node with
  | None => 0
  | Some _ =>
      foldl (λ mask proto,
               match group_fwd_val (l_node proto) with
               | Some val => Z.lor mask (Z.shiftl 1 val)
               | None => mask
               end)
            0 (LYX_LIST_FOR_EACH (lyd_child node) "ieee-group-forward")
  end.

Definition netdag_set_bridge (cif : ptr) (ip : string) : M world Z :=
  fputs ("link set dev " +:+ pstr (lydx_get_cattr cif "name") +:+ " type bridge group_fwd_mask "
         +:+ fmt_d (netdag_get_bridge_fwd_mask cif) +:+ nl) ip ;;;
  ret 0.

Definition netdag_gen_afspec_add (net : dagger) (cif : ptr) (ip : string) : M world Z :=
  let ifname := pstr (lydx_get_cattr cif "name") in
  let* iftype := deref (lydx_get_cattr cif "type") in
  if streq iftype "iana-if-type:bridge" then
    fputs ("link add dev " +:+ ifname +:+ " type bridge group_fwd_mask "
           +:+ fmt_d (netdag_get_bridge_fwd_mask cif) +:+ nl) ip ;;;
    ret 0
  else if streq iftype "infix-if-type:veth" then netdag_gen_veth net cif ip
  else if streq iftype "iana-if-type:l2vlan" then netdag_gen_vlan net None cif ip
  else ret (- ENOSYS).

Definition netdag_gen_afspec_set (net : dagger) (dif cif : ptr) (ip : string) : M world Z :=
  let* iftype := deref (lydx_get_cattr cif "type") in
  if streq iftype "iana-if-type:bridge" then netdag_set_bridge cif ip
  else if streq iftype "iana-if-type:l2vlan" then netdag_gen_vlan net dif cif ip
  else if streq iftype "infix-if-type:veth" then ret 0
  else ret (- ENOSYS).

Definition netdag_bridge_links (net : dagger) (cif : ptr) (ip : string) : M world Z :=
  let ifname := pstr (lydx_get_cattr cif "name") in
  let node := lydx_get_descendant (lyd_child cif) ["bridge-port"] in
  if decide (node = None) then ret 0
  else
    let brname := pstr (lydx_get_cattr node "bridge") in
    fputs (" master " +:+ brname) ip ;;;
    dagger_add_dep net ifname brname.

Definition netdag_must_del (dif cif : ptr) : M world bool :=
  let* iftype := deref (lydx_get_cattr cif "type") in
  if streq iftype "iana-if-type:bridge" then ret false
  else if streq iftype "iana-if-type:l2vlan" then
    ret (bool_decide (is_Some (lydx_get_cattr dif "parent-interface"))
         || bool_decide (is_Some (lydx_get_descendant (lyd_child dif)
                                    ["encapsulation"; "dot1q-vlan"; "outer-tag"])))
  else if streq iftype "infix-if-type:veth" then
    ret (bool_decide (is_Some (lydx_get_descendant (lyd_child dif) ["peer"])))
  else ret false.

Definition netdag_gen_iface_del (net : dagger) (dif : ptr) (fixed : bool) : M world Z :=
  let ifname := pstr (lydx_get_cattr dif "name") in
  let* ip := dagger_fopen_current net "exit" ifname 50 "exit.ip" in
  match ip with
  | None => ret (- EIO)
  | Some ip =>
      (if fixed then
         fputs ("link set dev " +:+ ifname +:+ " down" +:+ nl) ip ;;;
         fputs ("addr flush dev " +:+ ifname +:+ nl) ip
       else fputs ("link del dev " +:+ ifname +:+ nl) ip) ;;;
      fclose ip ;;;
      ret 0
  end.

(** netdag_gen_iface() from the opening of init.ip up to its closing: the
    value of [err] at the label err_close_ip. *)
Definition netdag_gen_init (net : dagger) (ifname : string) (dif cif : ptr) (op : lydx_op)
    (fixed : bool) (ip : string) : M world Z :=
  let* err := (if negb fixed && bool_decide (op = LYDX_OP_CREATE)
               then netdag_gen_afspec_add net cif ip else ret 0) in
  if decide (err ≠ 0) then ret err
  else
    fputs ("link set dev " +:+ ifname +:+ " down") ip ;;;
    let* err := netdag_gen_ipv4_autoconf net cif dif in
    let* err := err_or err (netdag_gen_ipv6_autoconf ip cif dif) in
    if decide (err ≠ 0) then ret err
    else
      let* err := netdag_bridge_links net cif ip in
      if decide (err ≠ 0) then ret err
      else
        fputs nl ip ;;;
        let* err := (if negb fixed && bool_decide (op ≠ LYDX_OP_CREATE)
                     then netdag_gen_afspec_set net dif cif ip else ret 0) in
        if decide (err ≠ 0) then ret err
        else
          let* err := netdag_gen_ip_addrs ip "ipv4" cif dif in
          let* err := err_or err (netdag_gen_ip_addrs ip "ipv6" cif dif) in
          if decide (err ≠ 0) then ret err
          else
            let attr := lydx_get_cattr cif "enabled" in
            (if bool_decide (attr = None) || bool_decide (attr = Some "true")
             then fputs ("link set dev " +:+ ifname +:+ " up" +:+ nl) ip else ret tt) ;;;
            netdag_gen_sysctl net dif.

Definition sr_result (err : Z) : Z := if decide (err = 0) then SR_ERR_OK else SR_ERR_INTERNAL.

Definition netdag_gen_iface (net : dagger) (dif cif : ptr) : M world Z :=
  let* ifname := deref (lydx_get_cattr dif "name") in
  let op := lydx_get_op dif in
  let fixed := iface_is_phys ifname || streq ifname "lo" in
  if decide (op = LYDX_OP_DELETE) then
    let* err := netdag_gen_iface_del net dif fixed in ret (sr_result err)
  else
    let* must_del := (if decide (op ≠ LYDX_OP_CREATE) then netdag_must_del dif cif else ret false) in
    let* (err, dif, cif, op) :=
      (if must_del : bool then
         let* err := netdag_gen_iface_del net dif fixed in
         if decide (err ≠ 0) then ret (err, dif, cif, op)
         else
           let* c := deref cif in
           let cif := Some (add_meta c "yang:operation" "create") in
           ret (0, cif, cif, LYDX_OP_CREATE)
       else ret (0, dif, cif, op)) in
    if decide (err ≠ 0) then ret (sr_result err)
    else
      let* ip := dagger_fopen_next net "init" ifname 50 "init.ip" in
      match ip with
      | None => ret (sr_result (- EIO))
      | Some ip =>
          let* err := netdag_gen_init net ifname dif cif op fixed ip in
          fclose ip ;;;
          ret (sr_result err)
      end.

(** One of the two loops of netdag_init(). *)
Fixpoint add_nodes (net : dagger) (ifs : list loc) : M world Z :=
  match ifs with
  | [] => ret SR_ERR_OK
  | iface :: ifs' =>
      let* rc := dagger_add_node net (pstr (lydx_get_cattr (Some iface) "name")) in
      if decide (rc ≠ 0) then ret SR_ERR_INTERNAL else add_nodes net ifs'
  end.

Definition netdag_init (net : dagger) (cifs difs : ptr) : M world Z :=
  let* rc := add_nodes net (LYX_LIST_FOR_EACH cifs "interface") in
  if decide (rc ≠ SR_ERR_OK) then ret rc
  else add_nodes net (LYX_LIST_FOR_EACH difs "interface").

(** The inner loop of ifchange(): the configuration of the interface, NULL
    when the loop runs to its end. *)
Fixpoint find_cif (name : option string) (cifs : list loc) : M world ptr :=
  match cifs with
  | [] => ret None
  | cif :: cifs' =>
      let* dn := deref name in
      let* cn := deref (lydx_get_cattr (Some cif) "name") in
      if streq dn cn then ret (Some cif) else find_cif name cifs'
  end.

(** What a session gives: the configuration and the diff, with the errors of
    sr_get_data() and srx_get_diff(). *)
Record if_session := IfSession {
  se_cfg : Z * ptr;
  se_diff : Z * ptr;
}.

Definition ifchange_gen (net : dagger) (s : if_session) : M world Z :=
  if decide ((se_cfg s).1 ≠ 0) then ret (se_cfg s).1
  else if decide ((se_diff s).1 ≠ 0) then ret (se_diff s).1
  else
    let cifs := lydx_get_descendant (se_cfg s).2 ["interfaces"; "interface"] in
    let difs := lydx_get_descendant (se_diff s).2 ["interfaces"; "interface"] in
    let* err := netdag_init net cifs difs in
    if decide (err ≠ 0) then ret err
    else
      for_until_err (LYX_LIST_FOR_EACH difs "interface") (λ dif,
        let* cif := find_cif (lydx_get_cattr (Some dif) "name")
                      (LYX_LIST_FOR_EACH cifs "interface") in
        netdag_gen_iface net (Some dif) cif) err.

(** ifchange(): the result and the netdag of struct confd after the call. *)
Definition ifchange (net : dagger) (event : sr_event) (s : if_session) : M world (Z * dagger) :=
  match event with
  | SR_EV_CHANGE =>
      let* (err, net) := dagger_claim "/run/net" in
      if decide (err ≠ 0) then ret (err, net)
      else
        let* err := ifchange_gen net s in
        (if decide (err ≠ 0) then let* _ := dagger_abandon net in ret tt else ret tt) ;;;
        ret (err, net)
  | SR_EV_ABORT => let* rc := dagger_abandon net in ret (rc, net)
  | SR_EV_DONE => let* rc := dagger_evolve_or_abandon net in ret (rc, net)
  | _ => ret (SR_ERR_OK, net)
  end.

End IfGen.
