(* ===== verification/IfGenFacts.v ===== *)
(** * Properties of the script generator (IfGen.v) *)
From S2P Require Import Prelude CString Os Helpers Inet Lyx Dagger Core IfGen.

Open Scope Z_scope.

(** ** Text only grows

    [grows p m]: with [p] open for writing, [m] returns normally and has only
    appended to [p].  It is a total correctness statement: no NULL is
    dereferenced on the way. *)
Section Grows.
Context `{Os} `{IfEnv}.
Implicit Types w : world.

Definition grows {A} (p : string) (m : M world A) : Prop :=
  ∀ w t, w_fs w !! p = Some (NFile t) →
    wp m (λ _ w', ∃ s, w_fs w' !! p = Some (NFile (t +:+ s))) w.

(** The shell commands of the generator: mkdir -p, ln -s and ip addr flush.
    They do not touch regular files (the names of interfaces and actions hold
    nothing the shell would interpret). *)
Definition gen_cmd (cmd : string) : Prop :=
  str_prefix "mkdir -p " cmd || str_prefix "ln -s " cmd || str_prefix "ip -" cmd = true.

Definition quiet_shell : Prop :=
  ∀ cmd f p t, gen_cmd cmd → f !! p = Some (NFile t) → sys_fs cmd f !! p = Some (NFile t).

Context (Hq : quiet_shell).

Lemma grows_ret {A} p (a : A) : grows p (ret a).
Proof. intros w t Hp. apply wp_ret. exists EmptyString. by rewrite app_nil_r_s. Qed.

Lemma grows_bind {A B} p (m : M world A) (f : A → M world B) :
  grows p m → (∀ a, grows p (f a)) → grows p (bind m f).
Proof.
  intros Hm Hf w t Hp. apply wp_bind. eapply wp_mono; [by apply Hm|].
  intros a w' [s Hs]. eapply wp_mono; [by apply Hf|].
  intros b w'' [s' Hs']. exists (s +:+ s'). by rewrite <- app_assoc_s.
Qed.

Lemma grows_if {A} p (b : bool) (m1 m2 : M world A) :
  (b = true → grows p m1) → (b = false → grows p m2) → grows p (if b then m1 else m2).
Proof. destruct b; auto. Qed.

Lemma grows_decide {A} p P `{Decision P} (m1 m2 : M world A) :
  (P → grows p m1) → (¬ P → grows p m2) → grows p (if decide P then m1 else m2).
Proof. case_decide; auto. Qed.

Lemma grows_deref {A} p (o : option A) : is_Some o → grows p (deref o).
Proof. intros [a ->]. apply grows_ret. Qed.

Lemma grows_gets {A} p (f : world → A) : grows p (gets f).
Proof. intros w t Hp. apply wp_gets. exists EmptyString. by rewrite app_nil_r_s. Qed.

Lemma grows_system p cmd : gen_cmd cmd → grows p (system cmd).
Proof.
  intros Hc w t Hp. apply wp_system. intros e. exists EmptyString. simpl.
  rewrite app_nil_r_s. by apply Hq.
Qed.

Lemma grows_errno p e : grows p (set_errno e).
Proof. intros w t Hp. apply wp_modify. exists EmptyString. by rewrite app_nil_r_s. Qed.

Lemma grows_fputs p q s : grows p (fputs s q).
Proof.
  intros w t Hp. apply wp_modify. simpl. destruct (decide (p = q)) as [<-|Hne].
  - exists s. by rewrite lookup_alter_eq, Hp.
  - exists EmptyString. by rewrite lookup_alter_ne, app_nil_r_s by done.
Qed.

Lemma grows_fclose p q : grows p (fclose q).
Proof. apply grows_ret. Qed.

Lemma grows_fchmod p q : grows p (fchmod q).
Proof. apply grows_gets. Qed.

Lemma grows_access p q : grows p (access q).
Proof.
  intros w t Hp. unfold wp, access. destruct (w_fs w !! q); exists EmptyString;
    by rewrite app_nil_r_s.
Qed.

Lemma grows_touch p q : grows p (touch q).
Proof.
  intros w t Hp. unfold wp, touch.
  destruct (os_fopen _ _ _); [exists EmptyString; by rewrite app_nil_r_s|].
  destruct (w_fs w !! q) eqn:Eq; exists EmptyString; rewrite app_nil_r_s; simpl; [done|].
  rewrite lookup_insert_ne; [done|]. congruence.
Qed.

Lemma grows_fopen p q m : p ≠ q → grows p (fopen q m).
Proof.
  intros Hne w t Hp. unfold wp, fopen.
  repeat case_match; simplify_eq/=; exists EmptyString; rewrite ?lookup_insert_ne, app_nil_r_s; done.
Qed.

Lemma grows_foreach {A} p (l : list A) body :
  (∀ x, x ∈ l → grows p (body x)) → grows p (foreach l body).
Proof.
  induction l as [|x l IH]; intros Hb; [apply grows_ret|].
  apply grows_bind; [apply Hb; set_solver|]. intros _. apply IH. set_solver.
Qed.

Lemma grows_for_until_err {A} p (l : list A) body e :
  (∀ x, x ∈ l → grows p (body x)) → grows p (for_until_err l body e).
Proof.
  revert e. induction l as [|x l IH]; intros e Hb; [apply grows_ret|].
  apply grows_bind; [apply Hb; set_solver|]. intros e'.
  apply grows_decide; intros _; [apply IH; set_solver|apply grows_ret].
Qed.

Lemma grows_err_or p e m : grows p m → grows p (err_or e m).
Proof. intros Hm. apply grows_decide; intros _; [done|apply grows_ret]. Qed.
End Grows.

Create HintDb grows discriminated.
#[export] Hint Resolve grows_ret grows_gets grows_system grows_errno grows_fputs grows_fclose
  grows_fchmod grows_access grows_touch : grows.
#[export] Hint Extern 1 (gen_cmd _) => reflexivity : grows.

(** Takes a program apart along its control flow. *)
Ltac grow_step :=
  match goal with
  | |- grows _ (bind _ _) => apply grows_bind; [|intro]
  | |- grows _ (if decide _ then _ else _) => apply grows_decide; intro
  | |- grows _ (if ?b then _ else _) => apply grows_if; intro
  | |- grows _ (match ?x with _ => _ end) => destruct x eqn:?
  | |- grows _ (err_or _ _) => apply grows_err_or
  | |- grows _ _ => solve [auto with grows]
  end.
Ltac grow := cbv beta zeta iota; repeat grow_step.

(** ** Scripts other than init.ip

    The scripts opened while init.ip is being written have names that end in
    another character. *)
Fixpoint last_char (c : ascii) (s : string) : ascii :=
  match s with EmptyString => c | String d s' => last_char d s' end.

Lemma last_char_app c d s s' : last_char c (s +:+ String d s') = last_char d s'.
Proof.
  revert c. induction s as [|e s IH]; intros c; [done|].
  change (String e s +:+ String d s') with (String e (s +:+ String d s')). simpl. apply IH.
Qed.

Definition is_init_ip (p : string) : Prop := last_char "/" p = "p"%char.

Lemma script_path_last path gen a n prio d s :
  last_char "/" (script_path path gen a n prio (String d s)) = last_char d s.
Proof.
  unfold script_path.
  replace (action_dir path gen a n +:+ "/" +:+ fmt_02u prio +:+ "-" +:+ String d s)
    with ((action_dir path gen a n +:+ "/" +:+ fmt_02u prio +:+ "-") +:+ String d s)
    by (by rewrite !app_assoc_s).
  apply last_char_app.
Qed.

Section Scripts.
Context `{Os} `{IfEnv} (Hq : quiet_shell).

Lemma grows_dagger_fopen p d gen a n prio c s :
  is_init_ip p → last_char c s ≠ "p"%char → grows p (dagger_fopen d gen a n prio (String c s)).
Proof.
  intros Hp Hs. unfold dagger_fopen. grow. apply grows_fopen. intros ->.
  apply Hs. by rewrite <- (script_path_last (dg_path d) gen a n prio).
Qed.

Lemma grows_fopen_next p d a n prio c s :
  is_init_ip p → last_char c s ≠ "p"%char → grows p (dagger_fopen_next d a n prio (String c s)).
Proof. apply grows_dagger_fopen. Qed.

Lemma grows_fopen_current p d a n prio c s :
  is_init_ip p → last_char c s ≠ "p"%char → grows p (dagger_fopen_current d a n prio (String c s)).
Proof.
  intros Hp Hs. unfold dagger_fopen_current. grow. by apply grows_dagger_fopen.
Qed.
End Scripts.

(** ** What exactly is appended *)
Section Emits.
Context `{Os} `{IfEnv}.
Implicit Types w : world.

(** [emits p m P]: [m] returns some [a], having appended some [s] to [p], and
    [P a s] holds. *)
Definition emits {A} (p : string) (m : M world A) (P : A → string → Prop) : Prop :=
  ∀ w t, w_fs w !! p = Some (NFile t) →
    wp m (λ a w', ∃ s, P a s ∧ w_fs w' !! p = Some (NFile (t +:+ s))) w.

Definition keeps {A} (p : string) (m : M world A) : Prop := emits p m (λ _ s, s = EmptyString).

Context (Hq : quiet_shell).

Lemma emits_bind {A B} p (m : M world A) (f : A → M world B) P Q R :
  emits p m P → (∀ a s, P a s → emits p (f a) (Q a)) →
  (∀ a s b s', P a s → Q a b s' → R b (s +:+ s')) → emits p (bind m f) R.
Proof.
  intros Hm Hf HR w t Hp. apply wp_bind. eapply wp_mono; [by apply Hm|].
  intros a w' (s & HP & Hs). eapply wp_mono; [by eapply Hf|].
  intros b w'' (s' & HQ & Hs'). exists (s +:+ s'). split; [by eapply HR|].
  by rewrite <- app_assoc_s.
Qed.

Lemma emits_ret {A} p (a : A) (P : A → string → Prop) : P a EmptyString → emits p (ret a) P.
Proof. intros HP w t Hp. apply wp_ret. exists EmptyString. by rewrite app_nil_r_s. Qed.

Lemma emits_mono {A} p (m : M world A) (P Q : A → string → Prop) :
  emits p m P → (∀ a s, P a s → Q a s) → emits p m Q.
Proof. intros Hm HPQ w t Hp. eapply wp_mono; [by apply Hm|]. naive_solver. Qed.

Lemma grows_emits {A} p (m : M world A) : grows p m → emits p m (λ _ _, True).
Proof. intros Hm w t Hp. eapply wp_mono; [by apply Hm|]. naive_solver. Qed.

Lemma keeps_bind {A B} p (m : M world A) (f : A → M world B) :
  keeps p m → (∀ a, keeps p (f a)) → keeps p (bind m f).
Proof.
  intros Hm Hf. eapply emits_bind; [exact Hm|intros; apply Hf|]. by intros ???? -> ->.
Qed.

Lemma keeps_ret {A} p (a : A) : keeps p (ret a).
Proof. by apply emits_ret. Qed.

Lemma emits_fputs p s : emits p (fputs s p) (λ _ s', s' = s).
Proof.
  intros w t Hp. apply wp_modify. exists s. split; [done|]. simpl.
  by rewrite lookup_alter_eq, Hp.
Qed.

Lemma keeps_fputs p q s : p ≠ q → keeps p (fputs s q).
Proof.
  intros Hne w t Hp. apply wp_modify. exists EmptyString. split; [done|]. simpl.
  by rewrite lookup_alter_ne, app_nil_r_s by done.
Qed.

Lemma keeps_system p cmd : gen_cmd cmd → keeps p (system cmd).
Proof.
  intros Hc w t Hp. apply wp_system. intros e. exists EmptyString. split; [done|]. simpl.
  rewrite app_nil_r_s. by apply Hq.
Qed.

Lemma keeps_gets {A} p (f : world → A) : keeps p (gets f).
Proof. intros w t Hp. apply wp_gets. exists EmptyString. by rewrite app_nil_r_s. Qed.

Lemma keeps_errno p e : keeps p (set_errno e).
Proof. intros w t Hp. apply wp_modify. exists EmptyString. by rewrite app_nil_r_s. Qed.

Lemma keeps_fclose p q : keeps p (fclose q).
Proof. apply keeps_ret. Qed.

(** Opening another file leaves [p] alone and, when it succeeds, gives it. *)
Lemma emits_fopen p q m : p ≠ q →
  emits p (fopen q m) (λ r s, s = EmptyString ∧ (r = None ∨ r = Some q)).
Proof.
  intros Hne w t Hp. unfold wp, fopen.
  repeat case_match; simplify_eq/=; exists EmptyString;
    rewrite ?lookup_insert_ne, app_nil_r_s; auto.
Qed.

Lemma keeps_decide {A} p P `{Decision P} (m1 m2 : M world A) :
  (P → keeps p m1) → (¬ P → keeps p m2) → keeps p (if decide P then m1 else m2).
Proof. case_decide; auto. Qed.

(** A dagger script other than init.ip. *)
Lemma emits_dagger_fopen p d gen a n prio c s :
  is_init_ip p → last_char c s ≠ "p"%char →
  emits p (dagger_fopen d gen a n prio (String c s))
    (λ r s, s = EmptyString ∧ ∀ q, r = Some q → p ≠ q).
Proof.
  intros Hp Hs.
  assert (Hne : p ≠ script_path (dg_path d) gen a n prio (String c s)).
  { intros ->. apply Hs. by rewrite <- (script_path_last (dg_path d) gen a n prio). }
  unfold dagger_fopen. case_decide.
  { eapply emits_bind; [apply keeps_errno|intros; by apply (emits_ret _ _ (λ r s, s = EmptyString ∧ r = None))|].
    intros ???? -> [-> ->]. done. }
  eapply emits_bind; [by apply keeps_system| |intros ???? -> HR; exact HR].
  intros err ? ->. case_decide; [by apply emits_ret|].
  eapply emits_bind; [by apply emits_fopen| |intros ???? [-> _] HR; exact HR].
  intros r ? [-> [->| ->]]; [by apply emits_ret|].
  eapply emits_bind; [by apply keeps_fputs| |intros ???? -> HR; exact HR].
  intros ? ? ->. eapply emits_bind; [apply keeps_gets| |intros ???? -> HR; exact HR].
  intros rc ? ->. case_decide; [|by apply emits_ret; split; [|intros ? [= <-]]].
  eapply emits_bind; [apply keeps_fclose| |intros ???? -> HR; exact HR].
  intros ? ? ->. by apply emits_ret.
Qed.

Lemma emits_fopen_next p d a n prio c s :
  is_init_ip p → last_char c s ≠ "p"%char →
  emits p (dagger_fopen_next d a n prio (String c s))
    (λ r s, s = EmptyString ∧ ∀ q, r = Some q → p ≠ q).
Proof. apply emits_dagger_fopen. Qed.

Lemma emits_fopen_current p d a n prio c s :
  is_init_ip p → last_char c s ≠ "p"%char →
  emits p (dagger_fopen_current d a n prio (String c s))
    (λ r s, s = EmptyString ∧ ∀ q, r = Some q → p ≠ q).
Proof.
  intros Hp Hs. unfold dagger_fopen_current. case_decide; [|by apply emits_dagger_fopen].
  eapply emits_bind; [apply keeps_errno| |intros ???? -> HR; exact HR].
  intros ? ? ->. by apply emits_ret.
Qed.

(** A script other than init.ip is opened, something is written to it. *)
Lemma keeps_script {A} p (open : M world (option string)) (k : option string → M world A) :
  emits p open (λ r s, s = EmptyString ∧ ∀ q, r = Some q → p ≠ q) →
  keeps p (k None) → (∀ q, p ≠ q → keeps p (k (Some q))) →
  keeps p (bind open k).
Proof.
  intros Ho Hn Hs.
  eapply (emits_bind _ _ _ _ (λ _ _ s, s = EmptyString)); [exact Ho| |by intros ???? [-> _] ->].
  intros [q|] ? [-> Hq']; [apply Hs; auto|done].
Qed.
End Emits.

Create HintDb keeps discriminated.
#[export] Hint Resolve keeps_ret keeps_system keeps_gets keeps_errno keeps_fclose keeps_fputs
  : keeps.
#[export] Hint Extern 1 (gen_cmd _) => reflexivity : keeps.

Ltac keep_step :=
  match goal with
  | |- keeps _ (bind (dagger_fopen_next _ _ _ _ _) _) =>
      apply keeps_script; [by apply emits_fopen_next| |intros ? ?]
  | |- keeps _ (bind (dagger_fopen_current _ _ _ _ _) _) =>
      apply keeps_script; [by apply emits_fopen_current| |intros ? ?]
  | |- keeps _ (bind _ _) => apply keeps_bind; [|intro]
  | |- keeps _ (if decide _ then _ else _) => apply keeps_decide; intro
  | |- keeps _ (match ?x with _ => _ end) => destruct x eqn:?
  | |- keeps _ _ => solve [auto with keeps]
  end.
Ltac keep := cbv beta zeta iota; repeat keep_step.

(** ** The parts of an init script *)

Definition autoconf6_text (cif dif : ptr) : string :=
  match ipv6_autoconf_mode cif dif with
  | None => EmptyString
  | Some true => " addrgenmode eui64"
  | Some false => " addrgenmode none"
  end.

Definition master_text (cif : ptr) : string :=
  let node := lydx_get_descendant (lyd_child cif) ["bridge-port"] in
  if decide (node = None) then EmptyString
  else " master " +:+ pstr (lydx_get_cattr node "bridge").

Definition up_text (ifname : string) (cif : ptr) : string :=
  let attr := lydx_get_cattr cif "enabled" in
  if bool_decide (attr = None) || bool_decide (attr = Some "true")
  then "link set dev " +:+ ifname +:+ " up" +:+ nl else EmptyString.

(** What the YANG models guarantee of the trees the generator reads: names and
    types are present, a tag type that is part of a diff has a new value, the
    key and prefix of a created address have values. *)
Definition has_new (p : ptr) : Prop :=
  d_modified (lydx_get_diff p) = true → is_Some (d_new (lydx_get_diff p)).

Definition outer_tag (p : ptr) : ptr :=
  lydx_get_descendant (lyd_child p) ["encapsulation"; "dot1q-vlan"; "outer-tag"].

Definition addr_ok (addr : loc) : Prop :=
  lydx_get_op (Some addr) = LYDX_OP_CREATE →
  ∀ leaf x, leaf ∈ ["ip"; "prefix-length"] → lydx_get_child (Some addr) leaf = Some x →
    is_Some (d_new (lydx_get_diff (Some x))).

Record trees_ok (dif cif : ptr) : Prop := {
  ok_name : is_Some (lydx_get_cattr dif "name");
  ok_type : is_Some (lydx_get_cattr cif "type");
  ok_dtag : has_new (lydx_get_child (outer_tag dif) "tag-type");
  ok_ctag : has_new (lydx_get_child (outer_tag cif) "tag-type");
  ok_addrs proto addr : proto ∈ ["ipv4"; "ipv6"] →
    addr ∈ LYX_LIST_FOR_EACH (lyd_child (lydx_get_child dif proto)) "address" → addr_ok addr;
}.

Section Parts.
Context `{Os} `{IfEnv} (Hq : quiet_shell).
Implicit Types w : world.

Lemma keeps_ipv4_autoconf p net cif dif : is_init_ip p → keeps p (netdag_gen_ipv4_autoconf net cif dif).
Proof. intros Hp. unfold netdag_gen_ipv4_autoconf, netdag_exit_reload. keep. Qed.

Lemma emits_ipv6_autoconf p cif dif :
  emits p (netdag_gen_ipv6_autoconf p cif dif) (λ rc s, rc = 0 ∧ s = autoconf6_text cif dif).
Proof.
  unfold netdag_gen_ipv6_autoconf, autoconf6_text.
  destruct (ipv6_autoconf_mode cif dif) as [[|]|]; [| |by apply emits_ret];
    (eapply emits_bind; [apply emits_fputs| |]; [intros; by apply (emits_ret _ _ (λ rc s, rc = 0 ∧ s = EmptyString))|]);
    intros ???? -> [-> ->]; by rewrite app_nil_r_s.
Qed.

Lemma emits_bridge_links p net cif :
  emits p (netdag_bridge_links net cif p) (λ _ s, s = master_text cif).
Proof.
  unfold netdag_bridge_links, master_text. case_decide; [by apply emits_ret|].
  eapply emits_bind; [apply emits_fputs|intros; by apply keeps_system|].
  intros ???? -> ->. by rewrite app_nil_r_s.
Qed.

Lemma grows_vlan p net dif cif :
  has_new (lydx_get_child (outer_tag (match dif with Some _ => dif | None => cif end)) "tag-type") →
  grows p (netdag_gen_vlan net dif cif p).
Proof.
  intros Hn. unfold netdag_gen_vlan, dagger_add_dep. grow. apply grows_deref. by apply Hn.
Qed.

Lemma grows_veth p net cif : grows p (netdag_gen_veth net cif p).
Proof. unfold netdag_gen_veth, dagger_should_skip, fexistf, dagger_add_dep, dagger_skip_iface. grow. Qed.

Lemma grows_afspec_add p net dif cif : trees_ok dif cif → grows p (netdag_gen_afspec_add net cif p).
Proof.
  intros Hok. unfold netdag_gen_afspec_add. grow.
  - apply grows_deref, (ok_type _ _ Hok).
  - apply grows_veth.
  - apply grows_vlan, (ok_ctag _ _ Hok).
Qed.

Lemma grows_afspec_set p net dif cif : trees_ok dif cif → grows p (netdag_gen_afspec_set net dif cif p).
Proof.
  intros Hok. unfold netdag_gen_afspec_set, netdag_set_bridge. grow.
  - apply grows_deref, (ok_type _ _ Hok).
  - apply grows_vlan. destruct dif; [apply (ok_dtag _ _ Hok)|apply (ok_ctag _ _ Hok)].
Qed.

Lemma grows_diff_addr p ifname addr : addr_ok addr → grows p (netdag_gen_diff_addr p ifname addr).
Proof.
  intros Hok. unfold netdag_gen_diff_addr, is_std_lo_addr. grow.
  - apply grows_deref. by eapply (Hok ltac:(done) "ip"); [set_solver|].
  - apply grows_deref. by eapply (Hok ltac:(done) "prefix-length"); [set_solver|].
  - apply grows_deref. by eapply (Hok ltac:(done) "prefix-length"); [set_solver|].
Qed.

Lemma grows_ip_addrs p proto dif cif :
  proto ∈ ["ipv4"; "ipv6"] → trees_ok dif cif → grows p (netdag_gen_ip_addrs p proto cif dif).
Proof.
  intros Hpr Hok. unfold netdag_gen_ip_addrs. grow.
  - apply grows_deref, (ok_name _ _ Hok).
  - unfold netdag_set_conf_addrs. grow. apply grows_foreach; [done|]. intros. grow.
  - apply grows_for_until_err; [done|]. intros x Hx. by eapply grows_diff_addr, ok_addrs.
Qed.

(** A sysctl file, once opened, is not init.ip. *)
Lemma emits_sysctl_bool p net ifname fpp node key :
  is_init_ip p → (∀ q, fpp = Some q → p ≠ q) →
  emits p (netdag_gen_sysctl_bool net ifname fpp node key)
    (λ r s, s = EmptyString ∧ ∀ q, r.2 = Some q → p ≠ q).
Proof.
  intros Hp Hf. unfold netdag_gen_sysctl_bool. destruct (_ || _); [by apply emits_ret|].
  eapply (emits_bind _ _ _ (λ r s, s = EmptyString ∧ ∀ q, r = Some q → p ≠ q));
    [destruct fpp; [by apply emits_ret; auto|by apply emits_fopen_next]| |intros ???? [-> _] HR; exact HR].
  intros [q|] ? [-> Hne]; [|by apply emits_ret].
  assert (p ≠ q) by auto.
  eapply emits_bind; [by apply keeps_fputs| |intros ???? -> HR; exact HR]. intros ? ? ->.
  eapply emits_bind; [by apply keeps_fputs| |intros ???? -> HR; exact HR]. intros ? ? ->.
  apply emits_ret. split; [done|]. by intros ? [= <-].
Qed.

Lemma keeps_sysctl p net dif : is_init_ip p → keeps p (netdag_gen_sysctl net dif).
Proof.
  intros Hp. unfold netdag_gen_sysctl.
  eapply (emits_bind _ _ _ _ (λ _ _ s, s = EmptyString));
    [by apply emits_sysctl_bool| |by intros ???? [-> _] ->].
  intros [err fpp] ? [-> Hne].
  eapply (emits_bind _ _ _ (λ r s, s = EmptyString ∧ ∀ q, r.2 = Some q → p ≠ q)
            (λ _ _ s, s = EmptyString)); [| |by intros ???? [-> _] ->].
  { case_decide; [|by apply emits_sysctl_bool].
    apply (emits_ret _ _ (λ r s, s = EmptyString ∧ ∀ q, r.2 = Some q → p ≠ q)). auto. }
  intros [err' fpp'] ? [-> _].
  change (keeps p (match fpp' with Some fp => fclose fp ;;; ret tt | None => ret tt end ;;; ret err')).
  keep.
Qed.

(** ** Main results *)

(** The layout of the text between two calls that only append. *)
Lemma emits_step {A} p (m : M world A) P (Q : A → world → Prop) w t :
  emits p m P → w_fs w !! p = Some (NFile t) →
  (∀ a s w', P a s → w_fs w' !! p = Some (NFile (t +:+ s)) → Q a w') → wp m Q w.
Proof.
  intros Hm Hw HQ. eapply wp_mono; [by apply Hm|]. intros a w' (s & HP & Hs). eauto.
Qed.

(** What netdag_gen_init() writes. *)
Lemma gen_init_layout net ifname dif cif op fixed ip w t :
  trees_ok dif cif → is_init_ip ip → w_fs w !! ip = Some (NFile t) →
  ∃ rc w', netdag_gen_init net ifname dif cif op fixed ip w = (Ret rc, w') ∧
    (rc = 0 → ∃ create spec addr4 addr6,
      w_fs w' !! ip = Some (NFile (t +:+ create +:+ ("link set dev " +:+ ifname +:+ " down")
        +:+ autoconf6_text cif dif +:+ master_text cif +:+ nl +:+ spec +:+ addr4 +:+ addr6
        +:+ up_text ifname cif)) ∧
      (fixed = true ∨ op ≠ LYDX_OP_CREATE → create = EmptyString) ∧
      (fixed = true ∨ op = LYDX_OP_CREATE → spec = EmptyString)).
Proof.
  intros Hok Hip Hw.
  apply (wp_run (netdag_gen_init net ifname dif cif op fixed ip) (λ rc w', rc = 0 → _)).
  unfold netdag_gen_init. apply wp_bind.
  eapply (emits_step _ _ (λ _ s, fixed = true ∨ op ≠ LYDX_OP_CREATE → s = EmptyString)); [|exact Hw|].
  { destruct (negb fixed && _) eqn:Ec; [|by apply emits_ret].
    eapply emits_mono; [by eapply grows_emits, grows_afspec_add|]. intros ? ? _ Hc.
    apply andb_true_iff in Ec as [Ef Eo%bool_decide_eq_true]. by destruct Hc, fixed. }
  intros err create w1 Hcr Hw1. case_decide; [by apply wp_ret|].
  apply wp_bind. eapply emits_step; [apply emits_fputs|exact Hw1|]. intros _ ? w2 -> Hw2.
  apply wp_bind. eapply emits_step; [by apply keeps_ipv4_autoconf|exact Hw2|].
  intros err4 ? w3 -> Hw3. rewrite app_nil_r_s in Hw3.
  apply wp_bind. apply wp_err_or; intros Herr4; [by rewrite decide_True by done; apply wp_ret|].
  eapply emits_step; [apply emits_ipv6_autoconf|exact Hw3|]. intros ? ? w4 [-> ->] Hw4. simpl.
  apply wp_bind. eapply emits_step; [by apply emits_bridge_links|exact Hw4|]. intros errb ? w5 -> Hw5.
  case_decide; [by apply wp_ret|].
  apply wp_bind. eapply emits_step; [apply emits_fputs|exact Hw5|]. intros _ ? w6 -> Hw6.
  apply wp_bind.
  eapply (emits_step _ _ (λ _ s, fixed = true ∨ op = LYDX_OP_CREATE → s = EmptyString)); [|exact Hw6|].
  { destruct (negb fixed && _) eqn:Ec; [|by apply emits_ret].
    eapply emits_mono; [by eapply grows_emits, grows_afspec_set|]. intros ? ? _ Hc.
    apply andb_true_iff in Ec as [Ef Eo%bool_decide_eq_true]. by destruct Hc, fixed. }
  intros errs spec w7 Hsp Hw7. case_decide; [by apply wp_ret|].
  apply wp_bind. eapply emits_step; [by eapply grows_emits, grows_ip_addrs; [set_solver|]|exact Hw7|].
  intros erra addr4 w8 _ Hw8.
  apply wp_bind. apply wp_err_or; intros Herra; [by rewrite decide_True by done; apply wp_ret|].
  eapply emits_step; [by eapply grows_emits, grows_ip_addrs; [set_solver|]|exact Hw8|].
  intros err6 addr6 w9 _ Hw9. case_decide; [by apply wp_ret|].
  apply wp_bind. eapply (emits_step _ _ (λ _ s, s = up_text ifname cif)); [|exact Hw9|].
  { unfold up_text. destruct (_ || _); [apply emits_fputs|by apply emits_ret]. }
  intros _ ? w10 -> Hw10. eapply emits_step; [by apply keeps_sysctl|exact Hw10|].
  intros rc ? w11 -> Hw11 _. exists create, spec, addr4, addr6.
  split; [|done]. rewrite app_nil_r_s in Hw11. by rewrite !app_assoc_s in *.
Qed.
End Parts.
