(* ===== verification/IfGenProps.v ===== *)
(** * More properties of the script generator: totality, bridge mask,
    autoconfiguration, veth pairs *)
From S2P Require Import Prelude CString Os Helpers Inet Lyx Dagger Core IfGen IfGenFacts.

Open Scope Z_scope.

(** ** Totality *)

(** [safe m]: [m] returns normally in every world. *)
Definition safe {A} (m : M world A) : Prop := ∀ w, wp m (λ _ _, True) w.

Section Safe.
Context `{Os} `{IfEnv}.
Implicit Types w : world.


Lemma safe_bind {A B} (m : M world A) (f : A → M world B) :
  safe m → (∀ a, safe (f a)) → safe (bind m f).
Proof.
  intros Hm Hf w. apply wp_bind. eapply wp_mono; [apply Hm|]. intros a w' _. apply Hf.
Qed.

Lemma safe_ret {A} (a : A) : safe (ret a).
Proof. by intros w. Qed.

Lemma safe_system cmd : safe (system cmd).
Proof. intros w. by apply wp_system. Qed.

Lemma safe_fputs s p : safe (fputs s p).
Proof. intros w. by apply wp_modify. Qed.

Lemma safe_errno e : safe (set_errno e).
Proof. intros w. by apply wp_modify. Qed.

Lemma safe_fopen p m : safe (fopen p m).
Proof. intros w. by apply wp_fopen_any. Qed.

Lemma safe_fchmod p : safe (fchmod p).
Proof. by intros w. Qed.

Lemma safe_fclose p : safe (fclose p).
Proof. by intros w. Qed.

Lemma safe_deref {A} (o : option A) : is_Some o → safe (deref o).
Proof. intros [a ->]. apply safe_ret. Qed.

Lemma safe_decide {A} P `{Decision P} (m1 m2 : M world A) :
  (P → safe m1) → (¬ P → safe m2) → safe (if decide P then m1 else m2).
Proof. case_decide; auto. Qed.

Lemma safe_dagger_fopen d gen a n prio s : safe (dagger_fopen d gen a n prio s).
Proof.
  unfold dagger_fopen. repeat first
    [ apply safe_decide; intro | apply safe_bind; [|intro] | apply safe_errno | apply safe_ret
    | apply safe_system | apply safe_fopen | apply safe_fputs | apply safe_fchmod
    | apply safe_fclose | case_match ].
Qed.

Lemma safe_fopen_current d a n prio s : safe (dagger_fopen_current d a n prio s).
Proof.
  unfold dagger_fopen_current. apply safe_decide; intro; [|apply safe_dagger_fopen].
  apply safe_bind; [apply safe_errno|intro; apply safe_ret].
Qed.

Lemma safe_iface_del net dif fixed : safe (netdag_gen_iface_del net dif fixed).
Proof.
  unfold netdag_gen_iface_del. apply safe_bind; [apply safe_fopen_current|].
  intros [ip|]; [|apply safe_ret].
  apply safe_bind; [|intro; apply safe_bind; [apply safe_fclose|intro; apply safe_ret]].
  destruct fixed; [apply safe_bind; [|intro]|]; apply safe_fputs.
Qed.

Lemma safe_must_del dif cif :
  is_Some (lydx_get_cattr cif "type") → safe (netdag_must_del dif cif).
Proof.
  intros Ht. unfold netdag_must_del. apply safe_bind; [by apply safe_deref|].
  intro. repeat case_match; apply safe_ret.
Qed.

(** A dagger script that was opened is an open file. *)
Lemma wp_fopen_next_open d a n prio s w (Q : option string → world → Prop) :
  quiet_shell →
  (∀ w', Q None w') →
  (∀ w' t, w_fs w' !! script_path (dg_path d) (dg_next d) a n prio s = Some (NFile t) →
     Q (Some (script_path (dg_path d) (dg_next d) a n prio s)) w') →
  wp (dagger_fopen_next d a n prio s) Q w.
Proof.
  intros Hq HN HS. unfold dagger_fopen_next, dagger_fopen. case_decide.
  { apply wp_bind, wp_modify, wp_ret, HN. }
  apply wp_bind, wp_system. intros e. case_decide; [apply wp_ret, HN|].
  apply wp_bind, wp_fopen_any. intros r w' Hr _.
  destruct Hr as [[-> _]|[-> [t Ht]]]; [apply wp_ret, HN|].
  apply wp_bind. eapply wp_fputs; [exact Ht|]. apply wp_bind, wp_gets. case_decide.
  - apply wp_bind, wp_ret, wp_ret, HN.
  - apply wp_ret. eapply HS. simpl. apply lookup_insert_eq.
Qed.

(** The trees of one interface, for every branch of netdag_gen_iface(). *)
Definition iface_ok (dif cif : ptr) : Prop :=
  is_Some (lydx_get_cattr dif "name") ∧
  (lydx_get_op dif ≠ LYDX_OP_DELETE →
   trees_ok dif cif ∧
   ∃ c, cif = Some c ∧
     let cif' := Some (add_meta c "yang:operation" "create") in trees_ok cif' cif').

Lemma wp_gen_iface net dif cif w :
  quiet_shell → iface_ok dif cif →
  wp (netdag_gen_iface net dif cif) (λ rc _, rc = SR_ERR_OK ∨ rc = SR_ERR_INTERNAL) w.
Proof.
  intros Hq [Hn Hok].
  assert (Hres : ∀ e w, wp (ret (sr_result e)) (λ rc _, rc = SR_ERR_OK ∨ rc = SR_ERR_INTERNAL) w).
  { intros e w0. apply wp_ret. unfold sr_result. case_decide; auto. }
  assert (Hdel : ∀ d f w, wp (netdag_gen_iface_del net d f) (λ _ _, True) w)
    by (intros; apply safe_iface_del).
  unfold netdag_gen_iface. apply wp_bind. destruct Hn as [ifname Hn].
  eapply wp_deref; [exact Hn|]. cbv zeta. case_decide as Hop.
  { apply wp_bind. eapply wp_mono; [apply Hdel|]. intros ? ? _. apply Hres. }
  destruct (Hok Hop) as [Ht (c & -> & Hc)].
  apply wp_bind. eapply (wp_mono _ (λ _ _, True)).
  { case_decide; [|done]. apply safe_must_del, (ok_type _ _ Ht). }
  intros must w1 _. apply wp_bind.
  eapply (wp_mono _ (λ r _, r.1.1.1 = 0 → trees_ok r.1.1.2 r.1.2)).
  { destruct must; [|apply wp_ret; auto].
    apply wp_bind. eapply wp_mono; [apply Hdel|]. intros err w2 _.
    case_decide; [by apply wp_ret|]. apply wp_bind, wp_ret, wp_ret. auto. }
  intros [[[err dif'] cif'] op'] w2 Htr. simpl in Htr. case_decide as He; [apply Hres|].
  apply wp_bind, wp_fopen_next_open; [done|intros; apply Hres|].
  intros w3 t Hf. apply wp_bind.
  destruct (gen_init_layout Hq net ifname dif' cif' op'
              (iface_is_phys ifname || streq ifname "lo")
              (script_path (dg_path net) (dg_next net) "init" ifname 50 "init.ip") w3 t) as (rc & w4 & E & _).
  { by apply Htr. }
  { by apply script_path_last. }
  { exact Hf. }
  unfold wp. rewrite E. apply Hres.
Qed.

(** (C12) Every interface of a changeset is processed without a NULL
    dereference or an assertion failure: netdag_gen_iface() returns, with
    SR_ERR_OK or SR_ERR_INTERNAL, in whatever state the system is. *)
Theorem gen_iface_total net dif cif w :
  quiet_shell → iface_ok dif cif →
  ∃ rc w', netdag_gen_iface net dif cif w = (Ret rc, w') ∧
    (rc = SR_ERR_OK ∨ rc = SR_ERR_INTERNAL).
Proof. intros. by apply (wp_run (netdag_gen_iface net dif cif)), wp_gen_iface. Qed.
End Safe.

(** ** The group forward mask of a bridge *)

Definition fwd_entries (cif : ptr) : list loc :=
  match lydx_get_descendant (lyd_child cif) ["bridge"] with
  | None => []
  | Some b => LYX_LIST_FOR_EACH (lyd_child (Some b)) "ieee-group-forward"
  end.

Lemma fold_mask_bits (l : list loc) mask i :
  0 ≤ i → Forall (λ p, ∀ v, group_fwd_val (l_node p) = Some v → 0 ≤ v) l →
  Z.testbit (foldl (λ mask proto,
               match group_fwd_val (l_node proto) with
               | Some val => Z.lor mask (Z.shiftl 1 val)
               | None => mask
               end) mask l) i = true ↔
  Z.testbit mask i = true ∨ ∃ p, p ∈ l ∧ group_fwd_val (l_node p) = Some i.
Proof.
  intros Hi Hl. revert mask. induction Hl as [|p l Hp _ IH]; intros mask; simpl.
  - set_solver.
  - rewrite IH. clear IH. destruct (group_fwd_val (l_node p)) as [v|] eqn:E.
    + rewrite Z.lor_spec, orb_true_iff, Z.shiftl_spec by done.
      assert (Hv : Z.testbit 1 (i - v) = true ↔ v = i).
      { specialize (Hp v eq_refl). destruct (decide (v = i)) as [->|Hne].
        - by rewrite Z.sub_diag.
        - split; [|done]. destruct (decide (i < v)); [by rewrite Z.testbit_neg_r by lia|].
          rewrite (Z.bits_above_log2 1) by (simpl; lia). done. }
      rewrite Hv. setoid_rewrite elem_of_cons. naive_solver.
    + setoid_rewrite elem_of_cons. naive_solver.
Qed.


(** ** Autoconfiguration *)

Lemma no_sibling p name :
  Forall (λ x, ln_name (l_node x) ≠ name) (siblings p) → lydx_get_sibling p name = None.
Proof.
  unfold lydx_get_sibling. induction 1 as [|x l Hx _ IH]; simpl; [done|].
  unfold named, streq. by rewrite bool_decide_eq_false_2.
Qed.

(** A defect: a change of an interface's autoconf settings alone is
    ignored.  lydx_get_descendant() searches the siblings of the node it is
    given; called on the autoconf node it never looks below it, so unless a
    sibling of autoconf carries the leaf's name, no address generation mode is
    written and no zeroconf script either, whatever the diff below autoconf
    says. *)
Theorem autoconf_change_ignored cif dif ac4 ac6 :
  (∀ proto, proto ∈ ["ipv4"; "ipv6"] → lydx_is_enabled (lydx_get_child cif proto) "enabled" = true ∧
     lydx_get_op (lydx_get_child (lydx_get_child dif proto) "enabled") ≠ LYDX_OP_REPLACE) →
  lydx_get_child (lydx_get_child dif "ipv4") "autoconf" = Some ac4 →
  lydx_get_child (lydx_get_child dif "ipv6") "autoconf" = Some ac6 →
  Forall (λ x, ln_name (l_node x) ≠ "enabled") (siblings (Some ac4)) →
  Forall (λ x, ln_name (l_node x) ≠ "create-global-addresses") (siblings (Some ac6)) →
  ipv4_autoconf_mode cif dif = None ∧ ipv6_autoconf_mode cif dif = None.
Proof.
  intros Hen E4 E6 H4 H6.
  destruct (Hen "ipv4") as [Hc4 Ho4]; [set_solver|]. destruct (Hen "ipv6") as [Hc6 Ho6]; [set_solver|].
  unfold ipv4_autoconf_mode, ipv6_autoconf_mode. rewrite Hc4, Hc6, E4, E6.
  destruct (lydx_get_child cif "ipv4") eqn:Ei4; [|done].
  destruct (lydx_get_child cif "ipv6") eqn:Ei6; [|done]. simpl.
  rewrite !decide_False by done. unfold lydx_get_descendant. cbn [descend].
  by rewrite !no_sibling by done.
Qed.

(** ** Pairs of virtual Ethernet interfaces *)
Section Veth.
Context `{Os} `{IfEnv}.
Implicit Types w : world.

Definition veth_node (cif : ptr) (name peer : string) : Prop :=
  lydx_get_cattr cif "name" = Some name ∧
  ∃ v, lydx_get_descendant (lyd_child cif) ["veth"] = Some v ∧
       lydx_get_cattr (Some v) "peer" = Some peer.

(** (C27) A veth pair is created once: when the two ends are new, the end
    that is processed first creates the link, and the other only records that
    it depends on the first; its own script stays as it was. *)
Theorem veth_created_once net a b cifa cifb ipa ipb w ta tb :
  quiet_shell → may_open →
  veth_node cifa a b → veth_node cifb b a →
  skip_file net b ≠ ipa → skip_file net b ≠ ipb → ipa ≠ ipb →
  w_fs w !! ipa = Some (NFile ta) → w_fs w !! ipb = Some (NFile tb) →
  w_fs w !! skip_file net a = None → w_fs w !! skip_file net b = None →
  ∃ w1 rc w2, netdag_gen_veth net cifa ipa w = (Ret 0, w1) ∧
    netdag_gen_veth net cifb ipb w1 = (Ret rc, w2) ∧
    w_fs w2 !! ipa = Some (NFile (ta +:+ "link add dev " +:+ a +:+ " down type veth peer " +:+ b +:+ nl)) ∧
    w_fs w2 !! ipb = Some (NFile tb) ∧
    w_log w2 = w_log w ++ ["ln -s ../" +:+ a +:+ " " +:+ gen_dir (dg_path net) (dg_next net) +:+ "/dag/" +:+ b].
Proof.
  intros Hq Ho [Hna (va & Hva & Hpa)] [Hnb (vb & Hvb & Hpb)] Hsa Hsb Hab Ha Hb Hska Hskb.
  set (line := "link add dev " +:+ a +:+ " down type veth peer " +:+ b +:+ nl).
  set (w1 := set_fs (alter (λ n, match n with NFile t => NFile (t +:+ line) | _ => n end) ipa
                       (<[skip_file net b := NFile EmptyString]> (w_fs w)))
                    (World (w_fs w) ENOENT (w_log w))).
  assert (E1 : netdag_gen_veth net cifa ipa w = (Ret 0, w1)).
  { unfold netdag_gen_veth, dagger_should_skip, fexistf, dagger_skip_iface.
    rewrite Hna, Hva. cbn [pstr default]. rewrite decide_False by done. rewrite Hpa.
    unfold bind, access, touch, ret. simpl. rewrite Hska. simpl. rewrite Ho, Hskb. simpl. done. }
  assert (Hb1 : w_fs w1 !! skip_file net b = Some (NFile EmptyString)).
  { simpl. rewrite lookup_alter_ne, lookup_insert_eq by done. done. }
  assert (Hipa : w_fs w1 !! ipa = Some (NFile (ta +:+ line))).
  { simpl. by rewrite lookup_alter_eq, lookup_insert_ne, Ha by done. }
  assert (Hipb : w_fs w1 !! ipb = Some (NFile tb)).
  { simpl. by rewrite lookup_alter_ne, lookup_insert_ne by done. }
  set (cmd := "ln -s ../" +:+ a +:+ " " +:+ gen_dir (dg_path net) (dg_next net) +:+ "/dag/" +:+ b).
  destruct (system_unfold cmd w1) as [e Es].
  assert (E2 : netdag_gen_veth net cifb ipb w1 =
    (if decide (sys_rc cmd (w_fs w1) ≠ 0) then ret (sys_rc cmd (w_fs w1)) else ret 0)
      (World (sys_fs cmd (w_fs w1)) e (w_log w1 ++ [cmd]))).
  { unfold netdag_gen_veth, dagger_should_skip, fexistf, dagger_add_dep.
    rewrite Hnb, Hvb. rewrite decide_False by done. rewrite Hpb.
    change (pstr (Some b)) with b. change (pstr (Some a)) with a. fold cmd.
    unfold bind, access, ret. rewrite Hb1. rewrite bool_decide_eq_true_2 by done.
    rewrite Es. by case_decide. }
  assert (Hend : ∃ rc, netdag_gen_veth net cifb ipb w1 =
            (Ret rc, World (sys_fs cmd (w_fs w1)) e (w_log w1 ++ [cmd]))).
  { rewrite E2. case_decide; eexists; done. }
  destruct Hend as [rc Hend]. eexists w1, rc, _. split; [done|]. split; [exact Hend|].
  cbn [w_fs w_log]. split; [by apply Hq; [reflexivity|]|]. split; [by apply Hq; [reflexivity|]|]. done.
Qed.
End Veth.
