(* ===== verification/IfLife.v ===== *)
(** * The life of a generation: ifchange() and the dagger together

    ifchange() claims a generation when a transaction starts, and evolves to
    it or abandons it when the transaction ends.  Between the two the script
    generator (IfGen.v) writes files and runs commands of its own; that it
    does so beside the marks [current] and [next], and without calling the
    runner, is shown first.  Then the callback is a client of the dagger
    (Dagger.v): every generation that is claimed is ended exactly once. *)
From S2P Require Import Prelude CString Os Helpers Inet Lyx Dagger Core IfGen IfGenFacts IfGenProps.

Open Scope Z_scope.

(** ** Beside the marks *)

Definition marks (path : string) : list string := [next_file path; current_file path].

(** From [w] to [w'] only commands of the generator were run, and the marks
    that are there stay as they are. *)
Definition beside (path : string) (w w' : world) : Prop :=
  (∃ l, w_log w' = w_log w ++ l ∧ Forall gen_cmd l) ∧
  (∀ p t, p ∈ marks path → w_fs w !! p = Some (NFile t) → w_fs w' !! p = Some (NFile t)).

#[export] Instance beside_preorder path : PreOrder (beside path).
Proof.
  split.
  - intros w. split; [exists []; by rewrite app_nil_r|done].
  - intros w1 w2 w3 [(l & E & Hl) Hf] [(l' & E' & Hl') Hf']. split; [|by eauto].
    exists (l ++ l'). by rewrite E', E, app_assoc, Forall_app.
Qed.

(** What is written to is not a mark. *)
Definition script (path fp : string) : Prop := fp ∉ marks path.

Lemma script_path_script path gen a n prio s : script path (script_path path gen a n prio s).
Proof.
  unfold script, marks, script_path, action_dir, gen_dir, next_file, current_file.
  rewrite !elem_of_cons, !app_assoc_s.
  intros [E|[E|[]%elem_of_nil]]; apply app_inj_l_s in E;
    apply (f_equal (λ s, String.length s)) in E; rewrite !length_app_s in E; simpl in E; lia.
Qed.

Section Libc.
Context `{Os} (path : string) (Hq : quiet_shell).
Implicit Types w : world.

Abbreviation steady m := (stable (beside path) m).

(** Calls that run no command: the marks are all there is to look at. *)
Lemma beside_fs {A} (m : M world A) :
  (∀ w, w_log (m w).2 = w_log w) →
  (∀ w p t, p ∈ marks path → w_fs w !! p = Some (NFile t) → w_fs (m w).2 !! p = Some (NFile t)) → steady m.
Proof. intros Hl Hf w. split; [|apply Hf]. exists []. by rewrite Hl, app_nil_r. Qed.

Lemma beside_system cmd : gen_cmd cmd → steady (system cmd).
Proof.
  intros Hc w. destruct (system_unfold cmd w) as [e ->]. split; [exists [cmd]; auto|].
  intros p t _. by apply Hq.
Qed.

Lemma beside_errno e : steady (set_errno e).
Proof. by apply beside_fs. Qed.

Lemma beside_fputs s fp : script path fp → steady (fputs s fp).
Proof.
  intros Hs. apply beside_fs; [done|]. intros w p t Hp Hf. simpl.
  rewrite lookup_alter_ne; [done|]. intros ->. by apply Hs.
Qed.

Lemma beside_fopen fp m : script path fp → steady (fopen fp m).
Proof.
  intros Hs. apply beside_fs; intros w; [unfold fopen; by repeat case_match|].
  intros p t Hp Hf. assert (fp ≠ p) by (intros ->; by apply Hs).
  unfold fopen. repeat case_match; simpl; by rewrite ?lookup_insert_ne.
Qed.

Lemma beside_fchmod fp : steady (fchmod fp).
Proof. by apply beside_fs. Qed.

Lemma beside_fclose fp : steady (fclose fp).
Proof. by apply beside_fs. Qed.

Lemma beside_access fp : steady (access fp).
Proof. apply beside_fs; intros w; unfold access; by case_match. Qed.

Lemma beside_touch fp : steady (touch fp).
Proof.
  apply beside_fs; intros w; unfold touch; [by repeat case_match|].
  intros p t Hp Hf. repeat case_match; simpl; [done..|].
  rewrite lookup_insert_ne; [done|]. intros ->. congruence.
Qed.
End Libc.

(** ** The generator is beside the marks *)

Create HintDb beside discriminated.
#[export] Hint Resolve beside_system beside_errno beside_fputs beside_fchmod beside_fclose beside_access beside_touch
  stable_deref stable_gets stable_ret beside_preorder : beside.
#[export] Hint Extern 1 (gen_cmd _) => reflexivity : beside.

Ltac beside := repeat first [solve [auto with beside] | progress cbv beta zeta | stable_step].

Section Generator.
Context `{Os} `{IfEnv} (path : string) (Hq : quiet_shell) (net : dagger) (Hnet : dg_path net = path).
Implicit Types w : world.

Abbreviation steady m := (stable (beside path) m).

Definition opened (r : option string) : Prop := ∀ fp, r = Some fp → script path fp.

Lemma fopen_result fp m w r w' : fopen fp m w = (Ret r, w') → r = None ∨ r = Some fp.
Proof. unfold fopen. repeat case_match; intros [= <- _]; auto. Qed.

Lemma opened_script r gen a n prio s :
  r = None ∨ r = Some (script_path (dg_path net) gen a n prio s) → opened r.
Proof. rewrite Hnet. intros [->| ->] fp [= <-]. apply script_path_script. Qed.

Lemma beside_dagger_fopen gen a n prio s : steady (dagger_fopen net gen a n prio s).
Proof.
  unfold dagger_fopen. apply stable_decide; [beside|]. apply stable_bind; [apply _|beside|]. intros err.
  apply stable_decide; [beside|]. apply (stable_bind_on _ opened).
  - apply beside_fopen. rewrite Hnet. apply script_path_script.
  - intros w r w' E. by eapply opened_script, fopen_result.
  - intros [fp|] Hfp; [|beside]. specialize (Hfp fp eq_refl). beside.
Qed.

Lemma dagger_fopen_result gen a n prio s w r w' : dagger_fopen net gen a n prio s w = (Ret r, w') → opened r.
Proof.
  intros E. apply (opened_script _ gen a n prio s). revert E. unfold dagger_fopen, bind, set_errno.
  case_decide; [intros [= <- _]; by left|].
  destruct (system_unfold ("mkdir -p " +:+ action_dir (dg_path net) gen a n) w) as [e ->].
  case_decide; [intros [= <- _]; by left|].
  destruct (fopen _ _ _) as [[o|c|] w1] eqn:E1; [|done..]. apply fopen_result in E1 as [->| ->].
  - intros [= <- _]; by left.
  - cbn. case_decide; intros [= <- _]; auto.
Qed.

Lemma beside_fopen_current a n prio s : steady (dagger_fopen_current net a n prio s).
Proof. unfold dagger_fopen_current. apply stable_decide; [beside|apply beside_dagger_fopen]. Qed.

Lemma fopen_current_result a n prio s w r w' : dagger_fopen_current net a n prio s w = (Ret r, w') → opened r.
Proof.
  unfold dagger_fopen_current. case_decide; [|by apply dagger_fopen_result].
  intros [= <- _]. by intros fp E.
Qed.

(** A script is opened, the rest of the program has it or NULL. *)
Lemma beside_script_next {A} a n prio s (k : option string → M world A) :
  steady (k None) → (∀ fp, script path fp → steady (k (Some fp))) → steady (bind (dagger_fopen_next net a n prio s) k).
Proof.
  intros Hn Hs. apply (stable_bind_on _ opened); [apply beside_dagger_fopen|intros ???; apply dagger_fopen_result|].
  intros [fp|] Ho; auto.
Qed.

Lemma beside_script_current {A} a n prio s (k : option string → M world A) :
  steady (k None) → (∀ fp, script path fp → steady (k (Some fp))) → steady (bind (dagger_fopen_current net a n prio s) k).
Proof.
  intros Hn Hs. apply (stable_bind_on _ opened); [apply beside_fopen_current|intros ???; apply fopen_current_result|].
  intros [fp|] Ho; auto.
Qed.

Lemma beside_add_dep a b : steady (dagger_add_dep net a b).
Proof. by apply beside_system. Qed.

Lemma beside_add_node n : steady (dagger_add_node net n).
Proof. by apply beside_system. Qed.

Lemma beside_exit_reload : steady (netdag_exit_reload net).
Proof. apply beside_script_current; intros; beside. Qed.

Lemma beside_is_std_lo_addr ifname ip pf : steady (is_std_lo_addr ifname ip pf).
Proof. unfold is_std_lo_addr. beside. Qed.

Hint Resolve beside_add_dep beside_add_node beside_exit_reload beside_is_std_lo_addr : beside.

Lemma beside_diff_addr fp ifname addr : script path fp → steady (netdag_gen_diff_addr fp ifname addr).
Proof. intros. unfold netdag_gen_diff_addr. beside. Qed.

Lemma beside_ip_addrs fp proto cif dif : script path fp → steady (netdag_gen_ip_addrs fp proto cif dif).
Proof.
  intros. unfold netdag_gen_ip_addrs, netdag_set_conf_addrs, netdag_gen_diff_addrs. 
  pose proof beside_diff_addr. beside.
Qed.

Lemma beside_ipv6_autoconf fp cif dif : script path fp → steady (netdag_gen_ipv6_autoconf fp cif dif).
Proof. intros. unfold netdag_gen_ipv6_autoconf. beside. Qed.

Lemma beside_ipv4_autoconf cif dif : steady (netdag_gen_ipv4_autoconf net cif dif).
Proof.
  unfold netdag_gen_ipv4_autoconf. destruct (ipv4_autoconf_mode cif dif) as [[]|]; [| |beside].
  - apply beside_script_next; intros; beside.
  - apply beside_script_current; intros; beside.
Qed.

(** The file of the sysctl settings, opened by the first of them. *)
Lemma sysctl_file_result ifname fpp w r w' :
  opened fpp →
  match fpp with
  | Some fp => ret (Some fp)
  | None => dagger_fopen_next net "init" ifname 60 "init.sysctl"
  end w = (Ret r, w') → opened r.
Proof. intros Ho. destruct fpp; [by intros [= <- _]|by apply dagger_fopen_result]. Qed.

Lemma beside_sysctl_bool ifname fpp node key :
  opened fpp → steady (netdag_gen_sysctl_bool net ifname fpp node key).
Proof.
  intros Ho. unfold netdag_gen_sysctl_bool. apply stable_if; [beside|].
  apply (stable_bind_on _ opened).
  - destruct fpp; [beside|apply beside_dagger_fopen].
  - intros w r w'. by apply sysctl_file_result.
  - intros [fp|] Hfp; [specialize (Hfp fp eq_refl)|]; beside.
Qed.

Lemma sysctl_bool_result ifname fpp node key w r w' :
  opened fpp → netdag_gen_sysctl_bool net ifname fpp node key w = (Ret r, w') → opened r.2.
Proof.
  intros Ho. unfold netdag_gen_sysctl_bool. case_match; [by intros [= <- _]|].
  unfold bind at 1. match goal with |- (let (_, _) := ?m in _) = _ → _ => destruct m as [[o|c|] w1] eqn:E; [|done..] end.
  apply sysctl_file_result in E; [|done].
  destruct o as [fp|]; intros [= <- _]; [done|by intros fp E3].
Qed.

Lemma beside_sysctl dif : steady (netdag_gen_sysctl net dif).
Proof.
  unfold netdag_gen_sysctl. cbv zeta.
  apply (stable_bind_on _ (λ r, opened r.2)); [by apply beside_sysctl_bool|intros ???; by apply sysctl_bool_result|].
  intros [err fpp] Ho. cbn in Ho. apply (stable_bind_on _ (λ r, opened r.2)).
  - apply stable_decide; [beside|by apply beside_sysctl_bool].
  - intros w r w'. case_decide; [by intros [= <- _]|by apply sysctl_bool_result].
  - intros [err' fpp'] _. beside.
Qed.

Lemma beside_veth cif fp : script path fp → steady (netdag_gen_veth net cif fp).
Proof.
  intros. unfold netdag_gen_veth, dagger_should_skip, fexistf, dagger_skip_iface. beside.
Qed.

Lemma beside_vlan dif cif fp : script path fp → steady (netdag_gen_vlan net dif cif fp).
Proof. intros. unfold netdag_gen_vlan. beside. Qed.

Hint Resolve beside_ip_addrs beside_ipv6_autoconf beside_ipv4_autoconf beside_sysctl beside_veth beside_vlan : beside.

Lemma beside_gen_init ifname dif cif op fixed fp :
  script path fp → steady (netdag_gen_init net ifname dif cif op fixed fp).
Proof.
  intros. unfold netdag_gen_init, netdag_gen_afspec_add, netdag_gen_afspec_set, netdag_set_bridge, netdag_bridge_links.
  beside.
Qed.

Lemma beside_iface_del dif fixed : steady (netdag_gen_iface_del net dif fixed).
Proof. apply beside_script_current; intros; beside. Qed.

Hint Resolve beside_gen_init beside_iface_del : beside.

Lemma beside_gen_iface dif cif : steady (netdag_gen_iface net dif cif).
Proof.
  unfold netdag_gen_iface, netdag_must_del.
  repeat first [solve [auto with beside] | progress cbv beta zeta
               | apply beside_script_next; [|intros] | stable_step].
Qed.

Lemma beside_find_cif name cifs : steady (find_cif name cifs).
Proof. induction cifs; simpl; beside. Qed.

Lemma beside_add_nodes ifs : steady (add_nodes net ifs).
Proof. induction ifs; simpl; beside. Qed.

Hint Resolve beside_gen_iface beside_find_cif beside_add_nodes : beside.

(** The whole of the work between the claim and the end of the callback. *)
Lemma beside_ifchange_gen s : steady (ifchange_gen net s).
Proof. unfold ifchange_gen, netdag_init. beside. Qed.
End Generator.

(** ** Claiming is beside the marks too: a lock that is there is not touched *)
Section Claim.
Context `{Os} (path : string) (Hq : quiet_shell).

Lemma beside_fopen_mode fp m : m ∈ ["wx"; "r"] → stable (beside path) (fopen fp m).
Proof.
  intros Hm. apply beside_fs; intros w; [unfold fopen; by repeat case_match|].
  intros p t _ Hf. assert (m ≠ "w") by set_solver. unfold fopen.
  destruct (os_fopen _ _ _); [done|]. destruct (decide (fp = p)) as [->|Hne].
  - rewrite Hf. by repeat case_decide.
  - repeat case_match; simpl; by rewrite ?lookup_insert_ne.
Qed.

Lemma beside_readdf fp : stable (beside path) (readdf fp).
Proof.
  unfold readdf, vreadllf, open_file, fgets_first. pose proof (beside_fopen_mode fp "r" ltac:(set_solver)). beside.
Qed.

Lemma beside_claim p : stable (beside path) (dagger_claim p).
Proof.
  unfold dagger_claim. pose proof (beside_fopen_mode (next_file p) "wx" ltac:(set_solver)).
  pose proof (beside_readdf (current_file p)). beside.
Qed.
End Claim.

(** ** The generator returns *)

(** The configuration of an interface, as find_cif() looks it up. *)
Definition conf_of (name : string) (cifs : list loc) : ptr :=
  List.find (λ cif, bool_decide (lydx_get_cattr (Some cif) "name" = Some name)) cifs.

(** What the YANG models guarantee of the trees of a session. *)
Definition session_ok (s : if_session) : Prop :=
  let cifs := LYX_LIST_FOR_EACH (lydx_get_descendant (se_cfg s).2 ["interfaces"; "interface"]) "interface" in
  let difs := LYX_LIST_FOR_EACH (lydx_get_descendant (se_diff s).2 ["interfaces"; "interface"]) "interface" in
  (∀ cif, cif ∈ cifs → is_Some (lydx_get_cattr (Some cif) "name")) ∧
  (∀ dif, dif ∈ difs → ∃ name, lydx_get_cattr (Some dif) "name" = Some name ∧
     iface_ok (Some dif) (conf_of name cifs)).

Section Total.
Context `{Os} `{IfEnv} (Hq : quiet_shell).
Implicit Types w : world.

Lemma wp_find_cif name cifs w :
  (∀ cif, cif ∈ cifs → is_Some (lydx_get_cattr (Some cif) "name")) →
  wp (find_cif (Some name) cifs) (λ r _, r = conf_of name cifs) w.
Proof.
  induction cifs as [|cif cifs IH]; intros Hn; [done|]. simpl.
  destruct (Hn cif) as [cn Ecn]; [set_solver|]. apply wp_bind, wp_ret, wp_bind.
  eapply wp_deref; [exact Ecn|]. rewrite Ecn. unfold streq.
  case_bool_decide as E; case_bool_decide as E2; try (exfalso; congruence).
  - by apply wp_ret.
  - apply IH. set_solver.
Qed.

Lemma safe_add_nodes net ifs : safe (add_nodes net ifs).
Proof.
  induction ifs as [|x l IH]; [apply safe_ret|]. apply safe_bind; [apply safe_system|intros rc].
  apply safe_decide; intros; [apply safe_ret|done].
Qed.

Lemma safe_ifchange_gen net s : session_ok s → safe (ifchange_gen net s).
Proof.
  intros [Hc Hd]. unfold ifchange_gen. repeat (apply safe_decide; intros _; [apply safe_ret|]).
  cbv zeta. apply safe_bind.
  - unfold netdag_init. apply safe_bind; [apply safe_add_nodes|intros rc].
    apply safe_decide; intros _; [apply safe_ret|apply safe_add_nodes].
  - intros err. apply safe_decide; intros _; [apply safe_ret|]. intros w.
    apply (wp_for_until_err _ _ (λ _, True)); [done|]. intros dif w' Hin _.
    destruct (Hd dif Hin) as (name & En & Hok). rewrite En. apply wp_bind.
    eapply wp_mono; [by apply wp_find_cif|]. intros ? w1 ->.
    eapply wp_mono; [by apply wp_gen_iface|]. done.
Qed.
End Total.

(** ** The marks as an abstract state *)

Inductive phase :=
| Free (gen : Z)   (* generation [gen] is applied, nobody prepares another *)
| Held (gen : Z).  (* generation [gen + 1] is being prepared *)

Definition at_phase (path : string) (ph : phase) (w : world) : Prop :=
  match ph with
  | Free gen => w_fs w !! next_file path = None ∧
      w_fs w !! current_file path = Some (NFile (fmt_d gen +:+ nl))
  | Held gen => w_fs w !! next_file path = Some (NFile EmptyString) ∧
      w_fs w !! current_file path = Some (NFile (fmt_d gen +:+ nl))
  end.

Definition abandon_cmd (path : string) : string := "dagger -C " +:+ path +:+ " abandon".
Definition evolve_cmd (path : string) : string := "dagger -C " +:+ path +:+ " evolve".

(** The calls of the runner in a log. *)
Definition runner_calls (log : list string) : list string := List.filter (str_prefix "dagger -C ") log.

(** The runner was called with [cmds] between [w] and [w']. *)
Definition called (cmds : list string) (w w' : world) : Prop :=
  runner_calls (w_log w') = runner_calls (w_log w) ++ cmds.

(** The runner ends before it moves [next] when the action of a node fails. *)
Class CarefulRunner `{Os} (path : string) := {
  evolve_fails f n c :
    sys_rc (evolve_cmd path) f ≠ 0 → f !! next_file path = Some n → f !! current_file path = Some c →
    sys_fs (evolve_cmd path) f !! next_file path = Some n ∧
    sys_fs (evolve_cmd path) f !! current_file path = Some c;
}.

Lemma gen_cmd_not_runner cmd : gen_cmd cmd → str_prefix "dagger -C " cmd = false.
Proof.
  unfold gen_cmd. destruct cmd as [|c cmd]; [done|]. simpl. intros Hc.
  destruct (decide ("d"%char = c)) as [<-|Hne]; [done|]. by rewrite bool_decide_false.
Qed.

Lemma beside_called path w w' : beside path w w' → called [] w w'.
Proof.
  intros [(l & E & Hl) _]. unfold called, runner_calls. rewrite E, List.filter_app. f_equal. clear E.
  induction Hl as [|c l Hc Hl IH]; [done|]. cbn [List.filter]. rewrite gen_cmd_not_runner by done. exact IH.
Qed.

Lemma beside_held path gen w w' : beside path w w' → at_phase path (Held gen) w → at_phase path (Held gen) w'.
Proof. intros [_ Hb] [Hn Hc]. split; (eapply Hb; [unfold marks; set_solver|done]). Qed.

Lemma called_trans c1 c2 w1 w2 w3 : called c1 w1 w2 → called c2 w2 w3 → called (c1 ++ c2) w1 w3.
Proof. unfold called. intros E1 E2. by rewrite E2, E1, app_assoc. Qed.

Lemma called_log cmds w w' :
  Forall (λ c, str_prefix "dagger -C " c = true) cmds → w_log w' = w_log w ++ cmds → called cmds w w'.
Proof.
  intros Hc E. unfold called, runner_calls. rewrite E, List.filter_app. f_equal. clear E.
  induction Hc as [|c l Hc Hl IH]; [done|]. cbn [List.filter]. rewrite Hc. by f_equal.
Qed.

(** ** The two ways a generation ends *)
Section Ends.
Context `{Os} (path : string) (cur : Z) `{!DaggerShell path cur} `{!CarefulRunner path}.
Context (Hpl : (String.length path < PATH_MAX)%nat).
Implicit Types w : world.

(** The dagger of a transaction that claimed the generation after [cur]. *)
Definition prepared (d : dagger) : Prop :=
  dg_current d = cur ∧ dg_next d = cur + 1 ∧ dg_next_fp d = Some (next_file path) ∧
  dg_path d = strlcpy PATH_MAX path.

(** The runner is called with the number of the generation in the lock. *)
Lemma runner_called cmd d w :
  prepared d → at_phase path (Held cur) w →
  let c := "dagger -C " +:+ path +:+ cmd in
  ∃ f e, runner_call cmd d w = (Ret (sys_rc c f), World (sys_fs c f) e (w_log w ++ [c])) ∧
    f !! next_file path = Some (NFile (fmt_d (cur + 1) +:+ nl)) ∧
    f !! current_file path = Some (NFile (fmt_d cur +:+ nl)).
Proof.
  intros (Hcur & Hnx & Hfp & Hp) [Hn Hc] c.
  destruct (number_written path cur d w) as (w1 & Ew & Hn1 & Ho); [|done..|].
  { split; [by rewrite Hnx, Hcur|done]. }
  destruct (runner_cmd path cmd d w w1 Hfp Hp Hpl Ew) as [e Er].
  exists (w_fs w1), e. split_and!; [|done|].
  - fold c in Er. rewrite Er. by injection Ew as <-.
  - rewrite Ho; [done|]. intros E. by apply (next_ne_current path).
Qed.

Lemma current_kept f :
  sys_fs (abandon_cmd path) f !! current_file path = f !! current_file path.
Proof. apply ds_abandon_keeps. set_solver. Qed.

Lemma abandon_ends d w :
  prepared d → at_phase path (Held cur) w →
  wp (dagger_abandon d) (λ _ w', at_phase path (Free cur) w' ∧ called [abandon_cmd path] w w') w.
Proof.
  intros Hd Hw. destruct (runner_called " abandon" d w Hd Hw) as (f & e & E & Hn & Hc).
  unfold wp. rewrite <- dagger_abandon_runner, E. split; [|by apply called_log; [repeat constructor|]].
  split; cbn [w_fs]; [by apply ds_abandon_next|by rewrite current_kept].
Qed.

Lemma evolve_or_abandon_ends d w :
  prepared d → at_phase path (Held cur) w →
  wp (dagger_evolve_or_abandon d) (λ rc w',
    if decide (rc = 0) then at_phase path (Free (cur + 1)) w' ∧ called [evolve_cmd path] w w'
    else at_phase path (Free cur) w' ∧ called [evolve_cmd path; abandon_cmd path] w w') w.
Proof.
  intros Hd Hw. destruct (runner_called " evolve" d w Hd Hw) as (f & e & E & Hn & Hc).
  unfold dagger_evolve_or_abandon. apply wp_bind. unfold wp at 1. rewrite <- dagger_evolve_runner, E.
  case_decide as Hrc.
  - apply wp_ret. rewrite decide_True by done. split; [|by apply called_log; [repeat constructor|]].
    by apply ds_evolve.
  - destruct (evolve_fails f _ _ Hrc Hn Hc) as [Hn' Hc'].
    destruct Hd as (_ & _ & _ & Hp). rewrite Hp, strlcpy_fits by done.
    apply wp_bind, wp_system. intros e'. apply wp_ret. rewrite decide_False by done. split.
    + split; cbn [w_fs]; [by apply ds_abandon_next|by rewrite current_kept].
    + apply called_log; [repeat constructor|]. simpl. by rewrite <- app_assoc.
Qed.
End Ends.

(** ** A transaction on the interfaces *)
Section Transaction.
Context `{Os} `{IfEnv} (cur : Z).
Context `{!DaggerShell "/run/net" cur} `{!CarefulRunner "/run/net"}.
Implicit Types w : world.

Abbreviation net_dir := "/run/net".

Lemma claim_prepares w r w' :
  claimable net_dir cur w → dagger_claim net_dir w = (Ret r, w') → r.1 = 0 →
  prepared net_dir cur r.2 ∧ at_phase net_dir (Held cur) w'.
Proof.
  intros Hcl E Hr. destruct (claim_run net_dir cur w r w' Hcl E Hr) as ((Hnx & Hfp & Hp & Hn) & Hcur & Hc & _).
  split; [|done]. split_and!; [done|by rewrite Hnx, Hcur|done|done].
Qed.

(** The end of a transaction whose change was accepted. *)
Definition ends_once (net : dagger) (w : world) : Prop :=
  ∀ s,
  (∃ rc w', ifchange net SR_EV_ABORT s w = (Ret (rc, net), w') ∧
     at_phase net_dir (Free cur) w' ∧ called [abandon_cmd net_dir] w w') ∧
  (∃ rc w', ifchange net SR_EV_DONE s w = (Ret (rc, net), w') ∧
     if decide (rc = 0) then at_phase net_dir (Free (cur + 1)) w' ∧ called [evolve_cmd net_dir] w w'
     else at_phase net_dir (Free cur) w' ∧ called [evolve_cmd net_dir; abandon_cmd net_dir] w w').

Lemma held_ends_once net w : prepared net_dir cur net → at_phase net_dir (Held cur) w → ends_once net w.
Proof.
  intros Hd Hw s. split.
  - destruct (wp_run _ _ _ (abandon_ends net_dir cur ltac:(by vm_compute; lia) net w Hd Hw)) as (rc & w' & E & HQ).
    exists rc, w'. split; [|done]. unfold ifchange, bind. by rewrite E.
  - destruct (wp_run _ _ _ (evolve_or_abandon_ends net_dir cur ltac:(by vm_compute; lia) net w Hd Hw)) as (rc & w' & E & HQ).
    exists rc, w'. split; [|done]. unfold ifchange, bind. by rewrite E.
Qed.

End Transaction.
