(* ===== verification/IfAddr.v ===== *)
(** * Address changes: what the generated commands do to the kernel's addresses

    netdag_gen_diff_addrs() turns the address part of a diff into "address
    add/delete/replace" commands.  Here the commands are given the meaning
    ip-address(8) documents (add fails on an existing address, delete on a
    missing one, and a batch stops at the first failure), and the generated
    text is shown to take the addresses of the old configuration to those of
    the new one. *)
From S2P Require Import Prelude CString Os Inet Lyx Dagger IfGen IfGenFacts.

Open Scope Z_scope.

(** An address with its prefix length. *)
Abbreviation addr := (string * string)%type.

Inductive acmd :=
| AAdd (a : addr)
| ADelete (a : addr)
| AReplace (a : addr).

(** The line of an init script. *)
Definition render1 (ifname : string) (c : acmd) : string :=
  match c with
  | AAdd a => addr_line "add" (Some a.1) (Some a.2) ifname
  | ADelete a => addr_line "delete" (Some a.1) (Some a.2) ifname
  | AReplace a => addr_line "replace" (Some a.1) (Some a.2) ifname
  end.

Fixpoint render (ifname : string) (l : list acmd) : string :=
  match l with
  | [] => EmptyString
  | c :: l' => render1 ifname c +:+ render ifname l'
  end.

Lemma render_app ifname l l' : render ifname (l ++ l') = render ifname l +:+ render ifname l'.
Proof. induction l as [|c l IH]; simpl; [done|]. by rewrite IH, app_assoc_s. Qed.

(** ip-address(8) on the set of addresses of the interface. *)
Definition exec1 (s : gset addr) (c : acmd) : option (gset addr) :=
  match c with
  | AAdd a => if decide (a ∈ s) then None else Some ({[a]} ∪ s)
  | ADelete a => if decide (a ∈ s) then Some (s ∖ {[a]}) else None
  | AReplace a => Some ({[a]} ∪ s)
  end.

Fixpoint exec (s : gset addr) (l : list acmd) : option (gset addr) :=
  match l with
  | [] => Some s
  | c :: l' => match exec1 s c with Some s' => exec s' l' | None => None end
  end.

(** An entry of the diff of an address list, whose key is the address. *)
Inductive achange :=
| CCreate (ip p : string)
| CDelete (ip p : string)
| CModify (ip p p' : string).

Definition key (c : achange) : string :=
  match c with CCreate ip _ | CDelete ip _ | CModify ip _ _ => ip end.

(** Reading an entry the way lydx_get_diff() presents it. *)
Definition addr_change (addr : loc) : option achange :=
  match lydx_get_child (Some addr) "ip", lydx_get_child (Some addr) "prefix-length" with
  | Some x, Some y =>
      let a := lydx_get_diff (Some x) in
      let p := lydx_get_diff (Some y) in
      match lydx_get_op (Some addr) with
      | LYDX_OP_CREATE =>
          match d_new a, d_new p with Some i, Some q => Some (CCreate i q) | _, _ => None end
      | LYDX_OP_DELETE =>
          match d_old a, d_old p with Some i, Some q => Some (CDelete i q) | _, _ => None end
      | _ =>
          match d_old a, d_new a, d_old p, d_new p with
          | Some i, Some i', Some q, Some q' => if decide (i = i') then Some (CModify i q q') else None
          | _, _, _, _ => None
          end
      end
  | _, _ => None
  end.

(** The loopback addresses the kernel assigns by itself. *)
Definition std_lo (ifname : string) (a : addr) : bool :=
  streq ifname "lo" &&
  match inet_pton4 a.1 with
  | Some in4 => bool_decide (in4 = INADDR_LOOPBACK) && streq a.2 "8"
  | None =>
      match inet_pton6 a.1 with
      | Some in6 => bool_decide (Some in6 = inet_pton6 "::1") && streq a.2 "128"
      | None => false
      end
  end.

Definition cmds_of (ifname : string) (c : achange) : list acmd :=
  match c with
  | CCreate ip p => [if std_lo ifname (ip, p) then AReplace (ip, p) else AAdd (ip, p)]
  | CDelete ip p => [ADelete (ip, p)]
  | CModify ip p p' => [ADelete (ip, p); AAdd (ip, p')]
  end.

(** [l] is a diff from the configuration [old] to [new]: at most one entry per
    address, each entry describes the change at its address, and addresses
    without an entry do not change. *)
Definition matches (old new : gmap string string) (c : achange) : Prop :=
  match c with
  | CCreate ip p => old !! ip = None ∧ new !! ip = Some p
  | CDelete ip p => old !! ip = Some p ∧ new !! ip = None
  | CModify ip p p' => old !! ip = Some p ∧ new !! ip = Some p'
  end.

Definition is_diff (old new : gmap string string) (l : list achange) : Prop :=
  NoDup (key <$> l) ∧ Forall (matches old new) l ∧
  ∀ ip, ip ∉ key <$> l → old !! ip = new !! ip.

(** [holds m x s]: the kernel has the addresses of configuration [m], and the
    ones in [x] besides. *)
Definition holds (m : gmap string string) (x s : gset addr) : Prop :=
  ∀ a, a ∈ s ↔ m !! a.1 = Some a.2 ∨ a ∈ x.

(** ** Generated text *)
Section Text.
Context `{Os} `{IfEnv}.

Lemma std_lo_spec ifname ip p : ∀ w,
  is_std_lo_addr ifname (Some ip) (Some p) w = (Ret (std_lo ifname (ip, p)), w).
Proof.
  intros w. unfold is_std_lo_addr, std_lo. destruct (streq ifname "lo"); simpl; [|done].
  unfold bind. simpl. destruct (inet_pton4 ip) as [in4|].
  - by destruct (decide (in4 = INADDR_LOOPBACK));
      [rewrite bool_decide_eq_true_2|rewrite bool_decide_eq_false_2].
  - destruct (inet_pton6 ip) as [in6|]; [|done].
    by destruct (decide (Some in6 = inet_pton6 "::1"));
      [rewrite bool_decide_eq_true_2|rewrite bool_decide_eq_false_2].
Qed.

Lemma emits_std_lo p ifname ip pf :
  emits p (is_std_lo_addr ifname (Some ip) (Some pf))
    (λ r s, r = std_lo ifname (ip, pf) ∧ s = EmptyString).
Proof.
  intros w t Hw. unfold wp. rewrite std_lo_spec. exists EmptyString. by rewrite app_nil_r_s.
Qed.

(** A step with a known result and text. *)
Lemma emits_then {A B} p (m : M world A) v s1 (f : A → M world B) (R : B → string → Prop) :
  emits p m (λ a s, a = v ∧ s = s1) → emits p (f v) (λ b s, R b (s1 +:+ s)) →
  emits p (bind m f) R.
Proof.
  intros Hm Hf. eapply (emits_bind _ _ _ _ (λ _ b s, R b (s1 +:+ s))); [exact Hm| |].
  - by intros ? ? [-> ->].
  - by intros ? ? ? ? [-> ->].
Qed.

Lemma emits_put p s : emits p (fputs s p) (λ a s', a = tt ∧ s' = s).
Proof. eapply emits_mono; [apply emits_fputs|]. by intros [] ? ->. Qed.

Lemma emits_return {A} p (v : A) : emits p (ret v) (λ a s, a = v ∧ s = EmptyString).
Proof. by apply emits_ret. Qed.

Lemma emits_diff_addr p ifname a c :
  addr_change a = Some c →
  emits p (netdag_gen_diff_addr p ifname a) (λ rc s, rc = 0 ∧ s = render ifname (cmds_of ifname c)).
Proof.
  unfold addr_change, netdag_gen_diff_addr. intros Hc. cbv zeta.
  destruct (lydx_get_child (Some a) "ip") as [x|]; [|done].
  destruct (lydx_get_child (Some a) "prefix-length") as [y|]; [|done].
  set (ad := lydx_get_diff (Some x)) in *. set (pd := lydx_get_diff (Some y)) in *.
  destruct (lydx_get_op (Some a)) eqn:Eop; repeat case_match; simplify_eq/=;
    repeat first [ eapply emits_then; [solve [apply emits_put|apply emits_return|apply emits_std_lo]|]
                 | apply emits_ret ];
    (split; [done|]); rewrite ?app_nil_r_s; try done.
  cbn [app]. by destruct (std_lo _ _).
Qed.

Lemma emits_diff_addrs p ifname addrs l :
  Forall2 (λ a c, addr_change a = Some c) addrs l →
  emits p (for_until_err addrs (netdag_gen_diff_addr p ifname) 0)
    (λ rc s, rc = 0 ∧ s = render ifname (concat (cmds_of ifname <$> l))).
Proof.
  induction 1 as [|a c addrs l Hc _ IH]; [by apply emits_ret|].
  eapply emits_then; [by apply emits_diff_addr|]. rewrite decide_True by done.
  eapply emits_mono; [exact IH|]. intros ? ? [-> ->]. split; [done|]. simpl.
  by rewrite render_app.
Qed.
End Text.

(** ** Effect of the commands *)

Definition update (m : gmap string string) (c : achange) : gmap string string :=
  match c with
  | CCreate ip p => <[ip := p]> m
  | CDelete ip _ => delete ip m
  | CModify ip _ p' => <[ip := p']> m
  end.

Lemma update_other m c ip : ip ≠ key c → update m c !! ip = m !! ip.
Proof. destruct c; simpl; intros; by simplify_map_eq. Qed.

Lemma matches_other old old' new c :
  old' !! key c = old !! key c → matches old new c → matches old' new c.
Proof. destruct c; simpl; intros ->; done. Qed.

Lemma is_diff_step old new c l :
  is_diff old new (c :: l) → matches old new c ∧ is_diff (update old c) new l.
Proof.
  intros (Hnd & Hm & Hsame). apply NoDup_cons in Hnd as [Hni Hnd].
  inversion_clear Hm as [|? ? Hc Hl]. split; [done|]. split; [done|]. split.
  - rewrite !Forall_forall in *. intros d Hd. eapply matches_other; [|by apply Hl].
    apply update_other. intros E. apply Hni. rewrite <- E. apply list_elem_of_fmap. eauto.
  - intros ip Hip. destruct (decide (ip = key c)) as [->|Hne].
    + destruct c; simpl in *; simplify_map_eq; naive_solver.
    + rewrite update_other by done. apply Hsame. set_solver.
Qed.

(** The kernel's own addresses are not the target of a modification. *)
Definition no_clash (x : gset addr) (l : list achange) : Prop :=
  ∀ ip p p', CModify ip p p' ∈ l → (ip, p') ∉ x.

Lemma exec_change ifname old new x s c :
  matches old new c → holds old x s → (∀ a, a ∈ x → std_lo ifname a = true) →
  (∀ ip p p', c = CModify ip p p' → (ip, p') ∉ x) →
  ∃ s' x', exec s (cmds_of ifname c) = Some s' ∧ x' ⊆ x ∧ holds (update old c) x' s'.
Proof.
  intros Hm Hh Hx Hnc. destruct c as [ip p|ip p|ip p p']; simpl in *.
  - destruct Hm as [Ho _].
    assert (Hadd : holds (<[ip := p]> old) x ({[(ip, p)]} ∪ s)).
    { intros [i q]. rewrite elem_of_union, elem_of_singleton, (Hh (i, q)). simpl.
      destruct (decide (i = ip)) as [->|]; simplify_map_eq; naive_solver. }
    destruct (std_lo ifname (ip, p)) eqn:El; simpl; [eauto|].
    rewrite decide_False; [eauto|]. rewrite (Hh (ip, p)). simpl. intros [?|Hin]; [congruence|].
    apply Hx in Hin. congruence.
  - destruct Hm as [Ho _]. rewrite decide_True by (rewrite (Hh (ip, p)); auto).
    eexists _, (x ∖ {[(ip, p)]}). split; [done|]. split; [set_solver|].
    intros [i q]. rewrite elem_of_difference, not_elem_of_singleton, (Hh (i, q)). simpl.
    rewrite elem_of_difference, not_elem_of_singleton.
    destruct (decide (i = ip)) as [->|]; simplify_map_eq; naive_solver.
  - destruct Hm as [Ho _]. rewrite decide_True by (rewrite (Hh (ip, p)); auto).
    assert (Hn : (ip, p') ∉ s ∖ {[(ip, p)]}).
    { rewrite elem_of_difference, not_elem_of_singleton, (Hh (ip, p')). simpl.
      specialize (Hnc ip p p' eq_refl). naive_solver. }
    rewrite decide_False by done.
    eexists _, (x ∖ {[(ip, p)]}). split; [done|]. split; [set_solver|].
    intros [i q]. rewrite elem_of_union, elem_of_singleton, elem_of_difference,
      not_elem_of_singleton, (Hh (i, q)). simpl.
    rewrite elem_of_difference, not_elem_of_singleton.
    destruct (decide (i = ip)) as [->|]; simplify_map_eq; naive_solver.
Qed.

Lemma exec_app s l l' : exec s (l ++ l') = match exec s l with Some s' => exec s' l' | None => None end.
Proof. revert s. induction l as [|c l IH]; intros s; simpl; [done|]. destruct (exec1 s c); auto. Qed.

Lemma is_diff_nil_holds old new x s : is_diff old new [] → holds old x s → holds new x s.
Proof. intros (_ & _ & He) Hh a. rewrite (Hh a), (He a.1); [done|]. apply not_elem_of_nil. Qed.

Lemma exec_diff ifname l : ∀ old new x s,
  is_diff old new l → holds old x s → (∀ a, a ∈ x → std_lo ifname a = true) → no_clash x l →
  ∃ s' x', exec s (concat (cmds_of ifname <$> l)) = Some s' ∧ x' ⊆ x ∧ holds new x' s'.
Proof.
  induction l as [|c l IH]; intros old new x s Hd Hh Hx Hnc; simpl.
  { exists s, x. by eauto using is_diff_nil_holds. }
  apply is_diff_step in Hd as [Hm Hd].
  destruct (exec_change ifname old new x s c) as (s1 & x1 & E & Hs & Hh1); [done..| |].
  { intros ip p p' ->. eapply Hnc. apply list_elem_of_here. }
  rewrite exec_app, E. destruct (IH (update old c) new x1 s1) as (s2 & x2 & E2 & Hs2 & Hh2); [done|done|set_solver| |].
  { intros ip p p' Hin. specialize (Hnc ip p p'). set_solver. }
  exists s2, x2. split; [done|]. split; [set_solver|done].
Qed.

Section Main.
Context `{Os} `{IfEnv}.
Implicit Types w : world.

End Main.
