(* ===== verification/IfDemo.v ===== *)
(** * A concrete system and concrete trees for the script generator

    The theorems of IfGenProps.v and IfAddr.v are applied here to small
    changesets: a physical interface with an address, a veth pair, a bridge. *)
From S2P Require Import Prelude CString Os Helpers Inet Lyx Dagger Core IfGen IfGenFacts IfGenProps IfAddr.

Open Scope Z_scope.

(** A shell whose commands succeed and change no file, and a kernel with one
    physical interface, eth0. *)
#[local] Instance demo_os : Os := {|
  os_system cmd f := (if str_prefix "dagger" cmd then 1 else 0, 0, f);
  os_fopen m p f := None;
  os_fchmod p f := 0;
|}.

#[local] Instance demo_env : IfEnv := {|
  if_json := unit;
  if_link_show n := if streq n "eth0" then Some tt else None;
  if_link_type _ := Some "ether";
  if_info_kind _ := None;
  if_nametoindex n := if streq n "eth0" then 2 else 0;
|}.

Lemma demo_quiet : quiet_shell.
Proof. by intros cmd f p t _ Hp. Qed.

Definition leaf (name val : string) : lyd_node := LydNode name (Some val) false None [] [].
Definition inner (name : string) (meta : list (string * string)) (l : list lyd_node) : lyd_node :=
  LydNode name None false None meta l.
Definition op (o : string) : list (string * string) := [("yang:operation", o)].
Definition root (n : lyd_node) : ptr := Some (Loc n [] []).

(** eth0 gets 192.0.2.1/24. *)
Definition addr24 (o : string) : lyd_node :=
  inner "address" (op o) [leaf "ip" "192.0.2.1"; leaf "prefix-length" "24"].
Definition eth0_dif : ptr :=
  root (inner "interface" (op "none") [leaf "name" "eth0"; inner "ipv4" [] [addr24 "create"]]).
Definition eth0_cif : ptr :=
  root (inner "interface" []
    [leaf "name" "eth0"; leaf "type" "infix-if-type:ethernet"; leaf "enabled" "true";
     inner "ipv4" [] [leaf "enabled" "true"; addr24 "create"]]).

Definition net1 : dagger := Dagger 0 1 (Some "/run/net/next") "/run/net".
Definition init_ip : string := script_path "/run/net" 1 "init" "eth0" 50 "init.ip".
Definition open_world (p : string) : world := World {[ p := NFile EmptyString ]} 0 [].

Ltac in_list H := rewrite ?elem_of_cons, ?elem_of_nil in H; naive_solver.

(** The addresses of a concrete tree are complete. *)
Ltac addrs_complete :=
  let proto := fresh in let addr := fresh in let Hp := fresh in let Ha := fresh in
  intros proto addr Hp Ha; repeat (apply elem_of_cons in Hp as [->|Hp]); [..|by apply elem_of_nil in Hp];
  vm_compute in Ha; repeat (apply elem_of_cons in Ha as [->|Ha]); try (by apply elem_of_nil in Ha);
  let l := fresh in let x := fresh in let Hl := fresh in let Hx := fresh in
  intros _ l x Hl Hx; repeat (apply elem_of_cons in Hl as [->|Hl]); [..|by apply elem_of_nil in Hl];
  vm_compute in Hx; simplify_eq; by vm_compute; eexists.
Ltac trees_complete :=
  split; [by vm_compute; eexists..|by vm_compute|by vm_compute|addrs_complete].

Lemma eth0_ok : trees_ok eth0_dif eth0_cif.
Proof. trees_complete. Qed.


Lemma eth0_iface_ok : iface_ok eth0_dif eth0_cif.
Proof.
  split; [by vm_compute; eexists|]. intros _. split; [exact eth0_ok|].
  eexists. split; [done|trees_complete].
Qed.

Lemma gen_iface_total_witness :
  ∃ rc w', netdag_gen_iface net1 eth0_dif eth0_cif (World ∅ 0 []) = (Ret rc, w').
Proof.
  destruct (gen_iface_total net1 eth0_dif eth0_cif (World ∅ 0 [])) as (rc & w' & E & _);
    [exact demo_quiet|exact eth0_iface_ok|eauto].
Defined.

(** The script of eth0, evaluated. *)
Example eth0_script :
  w_fs (netdag_gen_iface net1 eth0_dif eth0_cif (World ∅ 0 [])).2 !! init_ip =
  Some (NFile ("#!/sbin/ip -batch" +:+ nl +:+ nl +:+ "link set dev eth0 down addrgenmode none" +:+ nl
    +:+ "address add 192.0.2.1/24 dev eth0" +:+ nl +:+ "link set dev eth0 up" +:+ nl)).
Proof. vm_compute. reflexivity. Qed.

(** A bridge that forwards LLDP (by number 14) and STP (by name, value 0). *)
Definition fwd (u : union_value) : lyd_node :=
  LydNode "ieee-group-forward" None false (Some u) [] [].
Definition br0_cif : ptr :=
  root (inner "interface" [] [leaf "name" "br0"; inner "bridge" [] [fwd (UUint8 14); fwd (UEnum 0)]]).


(** Only the autoconf containers of eth0 change. *)
Definition ac_dif : ptr :=
  root (inner "interface" (op "none")
    [leaf "name" "eth0";
     inner "ipv4" [] [inner "autoconf" [] [LydNode "enabled" (Some "true") false None (op "replace") []]];
     inner "ipv6" [] [inner "autoconf" []
       [LydNode "create-global-addresses" (Some "true") false None (op "replace") []]]]).
Definition ac_cif : ptr :=
  root (inner "interface" []
    [leaf "name" "eth0";
     inner "ipv4" [] [leaf "enabled" "true"; inner "autoconf" [] [leaf "enabled" "true"]];
     inner "ipv6" [] [leaf "enabled" "true"; inner "autoconf" [] [leaf "create-global-addresses" "true"]]]).

Lemma autoconf_change_ignored_witness :
  ipv4_autoconf_mode ac_cif ac_dif = None ∧ ipv6_autoconf_mode ac_cif ac_dif = None.
Proof.
  eapply autoconf_change_ignored.
  - intros proto [->|[->|[]%not_elem_of_nil]%elem_of_cons]%elem_of_cons; by vm_compute.
  - by vm_compute.
  - by vm_compute.
  - vm_compute. by repeat constructor.
  - vm_compute. by repeat constructor.
Defined.

(** A veth pair. *)
Definition veth_cif (name peer : string) : ptr :=
  root (inner "interface" [] [leaf "name" name; inner "veth" [] [leaf "peer" peer]]).
Definition veth_world : world :=
  World {[ "/a" := NFile EmptyString; "/b" := NFile EmptyString ]} 0 [].

Lemma veth_created_once_witness :
  ∃ w1 rc w2, netdag_gen_veth net1 (veth_cif "v0" "v1") "/a" veth_world = (Ret 0, w1) ∧
    netdag_gen_veth net1 (veth_cif "v1" "v0") "/b" w1 = (Ret rc, w2) ∧
    w_fs w2 !! "/b" = Some (NFile EmptyString).
Proof.
  destruct (veth_created_once net1 "v0" "v1" (veth_cif "v0" "v1") (veth_cif "v1" "v0") "/a" "/b"
    veth_world EmptyString EmptyString) as (w1 & rc & w2 & E1 & E2 & _ & Hb & _).
  - exact demo_quiet.
  - done.
  - split; [by vm_compute|]. eexists. split; by vm_compute.
  - split; [by vm_compute|]. eexists. split; by vm_compute.
  - done.
  - done.
  - done.
  - by vm_compute.
  - by vm_compute.
  - by vm_compute.
  - by vm_compute.
  - eauto 10.
Defined.

(** lo: 127.0.0.1/8 is created explicitly, 10.0.0.1/24 gets another prefix,
    10.0.0.2/24 is removed. *)
Definition lo_addr (o ip : string) (p : lyd_node) : lyd_node :=
  inner "address" (op o) [leaf "ip" ip; p].
Definition lo_diff : ptr :=
  root (inner "ipv4" []
    [lo_addr "create" "127.0.0.1" (leaf "prefix-length" "8");
     lo_addr "none" "10.0.0.1"
       (LydNode "prefix-length" (Some "16") false None
          [("yang:operation", "replace"); ("yang:orig-value", "24")] []);
     lo_addr "delete" "10.0.0.2" (leaf "prefix-length" "24")]).
Definition lo_changes : list achange :=
  [CCreate "127.0.0.1" "8"; CModify "10.0.0.1" "24" "16"; CDelete "10.0.0.2" "24"].
Definition lo_old : gmap string string := {[ "10.0.0.1" := "24"; "10.0.0.2" := "24" ]}.
Definition lo_new : gmap string string := {[ "127.0.0.1" := "8"; "10.0.0.1" := "16" ]}.
Definition lo_auto : gset addr := {[ ("127.0.0.1", "8") ]}.
Definition lo_kernel : gset addr :=
  {[ ("10.0.0.1", "24"); ("10.0.0.2", "24"); ("127.0.0.1", "8") ]}.

Lemma lo_is_diff : is_diff lo_old lo_new lo_changes.
Proof.
  split; [by apply (bool_decide_unpack _); vm_compute|].
  split; [repeat constructor; by vm_compute|].
  intros ip Hip. simpl in Hip. rewrite !not_elem_of_cons in Hip.
  unfold lo_old, lo_new. destruct Hip as (? & ? & ? & _). by simplify_map_eq.
Qed.

Lemma lo_holds : holds lo_old lo_auto lo_kernel.
Proof.
  intros [i p]. unfold lo_kernel, lo_auto, lo_old. simpl. rewrite !elem_of_union, !elem_of_singleton.
  rewrite !lookup_insert_Some, lookup_singleton_Some. naive_solver.
Qed.

