(* ===== verification/IfLifeDemo.v ===== *)
(** * The life of a concrete generation

    The system of the dagger's demonstration, on which generation 0 is the
    current one, and a changeset that gives eth0 an address. *)
From S2P Require Import Prelude CString Os Helpers Inet Lyx Dagger Core IfGen IfGenFacts IfGenProps IfDemo IfLife.

Import Demo.

Open Scope Z_scope.

#[local] Instance life_env : IfEnv := {|
  if_json := unit;
  if_link_show n := if streq n "eth0" then Some tt else None;
  if_link_type _ := Some "ether";
  if_info_kind _ := None;
  if_nametoindex n := if streq n "eth0" then 2 else 0;
|}.

Definition interfaces (iface : ptr) : ptr :=
  root (inner "interfaces" [] (match iface with Some l => [l_node l] | None => [] end)).

Definition eth0_session : if_session := IfSession (0, interfaces eth0_cif) (0, interfaces eth0_dif).

Lemma eth0_session_ok : session_ok eth0_session.
Proof.
  split.
  - intros cif Hin. vm_compute in Hin. apply elem_of_cons in Hin as [->|Hin]; [|by apply elem_of_nil in Hin].
    by vm_compute; eexists.
  - intros dif Hin. vm_compute in Hin. apply elem_of_cons in Hin as [->|Hin]; [|by apply elem_of_nil in Hin].
    exists "eth0". split; [by vm_compute|]. split; [by vm_compute; eexists|]. intros _.
    split; [trees_complete|]. eexists. split; [by vm_compute|trees_complete].
Qed.

Lemma add_link_file l t f p s : f !! p = Some (NFile s) → (add_link l t f).2 !! p = Some (NFile s).
Proof.
  intros Hf. unfold add_link. destruct (f !! l) eqn:E; [done|]. simpl.
  rewrite lookup_insert_ne; [done|]. intros ->. congruence.
Qed.

Lemma life_quiet : quiet_shell.
Proof.
  intros cmd f p t Hc Hf. unfold sys_fs. simpl os_system. unfold run_cmd.
  repeat case_decide; subst; try (by apply add_link_file); try done; by vm_compute in Hc.
Qed.

#[local] Instance life_runner : CarefulRunner path.
Proof.
  split. intros f n c. unfold sys_rc, sys_fs, evolve_cmd. simpl os_system. unfold run_cmd.
  rewrite !decide_False, decide_True by done. intros Hrc Hn. by rewrite Hn in Hrc.
Qed.


(** The done event of that transaction makes generation 1 the current one. *)
Example eth0_applied :
  w_fs (ifchange d1 SR_EV_DONE eth0_session (ifchange d1 SR_EV_CHANGE eth0_session w0).2).2
    !! current_file path = Some (NFile ("1" +:+ nl)).
Proof. vm_compute. reflexivity. Qed.
