(* ===== verification/Net.v ===== *)
(** * net/src/main.c: activation of a network generation, ifup and ifdown

    The state is the world of Os.v with the program's static variables: the
    interface list, the counter of saved dependencies and the two pipes to
    "ip -batch -" and "bridge -batch -".  A pipe holds the text written to it;
    using it after pclose() is a [Crash].  libite's dir() and chomp(), the
    kernel's path resolution, popen() and the environment are parameters. *)
From S2P Require Import Prelude CString Os Dagger.

Open Scope Z_scope.

Inductive cmd_t := INVAL | DO | UP | DOWN.

Inductive pipe :=
| PNull
| POpen (text : string)
| PClosed (text : string).

Inductive pipe_id := Pip | Pbridge.

Record net := NetState {
  n_os : world;
  iface_list : list string;
  n_dep : Z;
  n_ip : pipe;
  n_bridge : pipe;
  n_debug : bool;
  n_verbose : bool;
}.

Definition EX_USAGE : Z := 64.
Definition EX_OSFILE : Z := 72.
Definition EX_IOERR : Z := 74.
Definition ENOTDIR : Z := 20.
Definition IFNAMSIZ : nat := 16.

Class NetOs := {
  (** the names libite's dir() offers to its filter, in order *)
  scandir : string → fs → list string;
  (** realpath(3): the resolved path or errno *)
  os_realpath : string → fs → string + Z;
  os_popen : string → bool;
  getenv : string → option string;
  (** libite's makedir() *)
  os_makedir : string → fs → Z * fs;
  (** libite's chomp(): the line without its newline *)
  chomp : string → string;
  (** how deep deps() may recurse before the stack is exhausted *)
  stack : nat;
}.

Section Net.
Context `{Os} `{NetOs}.

(** A call of libc or the kernel. *)
Definition os {A} (m : M world A) : M net A := λ n,
  let '(r, w) := m (n_os n) in
  (r, NetState w (iface_list n) (n_dep n) (n_ip n) (n_bridge n) (n_debug n) (n_verbose n)).

Definition set_ifs (l : list string) : M net unit := modify (λ n,
  NetState (n_os n) l (n_dep n) (n_ip n) (n_bridge n) (n_debug n) (n_verbose n)).

Definition set_pipe (id : pipe_id) (p : pipe) : M net unit := modify (λ n,
  NetState (n_os n) (iface_list n) (n_dep n)
    (match id with Pip => p | Pbridge => n_ip n end)
    (match id with Pip => n_bridge n | Pbridge => p end) (n_debug n) (n_verbose n)).

Definition get_pipe (id : pipe_id) (n : net) : pipe :=
  match id with Pip => n_ip n | Pbridge => n_bridge n end.

Definition addif (ifname : string) : M net unit :=
  let* l := gets iface_list in
  set_ifs (l ++ [strlcpy IFNAMSIZ ifname]).

Definition findif (ifname : string) : M net bool :=
  gets (λ n, existsb (λ e, streq e ifname) (iface_list n)).

Definition freeifs : M net unit := set_ifs [].

(** basename(3) and dirname(3) of a path with a slash that does not end in one *)
Definition basename (path : string) : string :=
  match rindex path "/"%char with
  | Some (String _ s) => s
  | _ => path
  end.

Definition dirname (path : string) : string :=
  match rindex path "/"%char with
  | Some s => str_take (String.length path - String.length s) path
  | None => "."
  end.

Definition inc_dep : M net unit := modify (λ n,
  NetState (n_os n) (iface_list n) (n_dep n + 1) (n_ip n) (n_bridge n) (n_debug n) (n_verbose n)).

Definition savedep (ipath : string) : M net unit :=
  let ifname := basename ipath in
  let path := dirname ipath in
  let* fp := os (fopen (path +:+ "/deps") "a+") in
  match fp with
  | None => ret tt
  | Some fp =>
      let* text := gets (λ n, file_text fp (w_fs (n_os n))) in
      if existsb (λ line, streq (chomp line) ifname) (lines 20 text) then
        os (fclose fp) ;;; ret tt
      else
        inc_dep ;;;
        os (fputs (ifname +:+ nl) fp) ;;;
        os (fclose fp) ;;; ret tt
  end.

Definition save_rdeps (path gen : string) : M net Z :=
  os (system ("sed '1!G;h;$!d' < " +:+ path +:+ "/" +:+ gen +:+ "/deps >"
              +:+ path +:+ "/" +:+ gen +:+ "/rdeps")).

(** The pipe for an action, NULL when it is a shell script. *)
Definition pipep (action : string) : M net (option pipe_id) :=
  let open id := gets (λ n, match get_pipe id n with PNull => None | _ => Some id end) in
  match rindex action "."%char with
  | None => ret None
  | Some ptr =>
      if streq ptr ".ip" then open Pip
      else if streq ptr ".bridge" then open Pbridge
      else ret None
  end.

Definition pipe_puts (id : pipe_id) (s : string) : M net unit :=
  let* p := gets (get_pipe id) in
  match p with
  | POpen t => set_pipe id (POpen (t +:+ s))
  | _ => crash
  end.

Definition pclose (id : pipe_id) : M net unit :=
  let* p := gets (get_pipe id) in
  match p with
  | POpen t => set_pipe id (PClosed t)
  | _ => crash
  end.

Definition pipeit (pp : pipe_id) (action : string) : M net Z :=
  let* fp := os (fopen action "r") in
  match fp with
  | None => ret 0
  | Some fp =>
      let* text := gets (λ n, file_text fp (w_fs (n_os n))) in
      foreach (lines 256 text) (λ line, pipe_puts pp (chomp line +:+ nl)) ;;;
      os (fclose fp)
  end.

Definition run (action : string) : M net Z :=
  let* pp := pipep action in
  match pp with
  | Some pp => pipeit pp action
  | None => let* _ := os (system action) in ret 0
  end.

Definition dir_filter (file : string) : bool :=
  negb (existsb (streq file) ["deps"; "rdeps"; "admin-state"]).

(** dir(path, NULL, dir_filter, &files, 0); an error is no file. *)
Definition dir (path : string) : M net (list string) :=
  gets (λ n, List.filter dir_filter (scandir path (w_fs (n_os n)))).

Definition realpath (path : string) : M net (option string) := λ n,
  match os_realpath path (w_fs (n_os n)) with
  | inl p => (Ret (Some p), n)
  | inr e => os (set_errno e ;;; ret None) n
  end.

(** The buffers are sized after [ipath] and the names, nothing is cut off. *)
Fixpoint deps_go (fuel : nat) (ipath ifname action : string) : M net Z :=
  match fuel with
  | O => crash
  | S fuel =>
      let path := ipath +:+ "/deps" in
      let* files := dir path in
      foreach files (λ ifnm,
        let* rp := realpath (path +:+ "/" +:+ ifnm) in
        match rp with
        | None => ret tt
        | Some rp => let* _ := deps_go fuel rp ifnm action in ret tt
        end) ;;;
      savedep ipath ;;;
      let* found := findif ifname in
      if found : bool then ret 0
      else
        let no_action := gets (λ n, if decide (w_errno (n_os n) = ENOENT ∨ w_errno (n_os n) = ENOTDIR)
                                    then 0 else -1) in
        let* rc := (let* cmd := realpath (ipath +:+ "/" +:+ action) in
                    match cmd with
                    | None => no_action
                    | Some cmd =>
                        let* a := os (access cmd) in
                        if decide (a ≠ 0) then no_action else run cmd
                    end) in
        addif ifname ;;;
        ret rc
  end.

Definition deps : string → string → string → M net Z := deps_go stack.

(** [len] is the size of the caller's buffer, reused for [ipath]. *)
Definition iter (path : string) (len : nat) (action : string) : M net Z :=
  let* files := dir path in
  let* rc := foldM (λ rc ifname,
               let ipath := strlcpy len (path +:+ "/" +:+ ifname) in
               let* r := deps ipath ifname action in
               ret (rc + r)) 0 files in
  freeifs ;;;
  let* pp := pipep action in
  match pp with
  | Some pp => pclose pp ;;; ret rc
  | None => ret rc
  end.

Definition rdeps (path action : string) : M net Z :=
  let* fp := os (fopen (path +:+ "/rdeps") "r") in
  match fp with
  | None => ret 0
  | Some fp =>
      let* text := gets (λ n, file_text fp (w_fs (n_os n))) in
      foldM (λ rc ifname,
        let cmd := path +:+ "/" +:+ chomp ifname +:+ "/" +:+ action in
        let* a := os (access cmd) in
        if decide (a ≠ 0) then ret rc
        else let* r := run cmd in ret (rc + r)) 0 (lines 20 text)
  end.

Definition exit_actions : list string := ["exit.bridge"; "exit.ip"; "exit-ethtool.sh"].

Definition deactivate (net gen : string) : M (Net.net) Z :=
  let path := net +:+ "/" +:+ gen in
  foldM (λ rc action, let* r := rdeps path action in ret (rc + r)) 0 exit_actions.

Definition init_actions : list string := ["init-ethtool.sh"; "init.ip"; "init.bridge"].

Definition activate (net gen : string) : M (Net.net) Z :=
  let path := net +:+ "/" +:+ gen in
  let len := (String.length net + String.length gen + 5 + IFNAMSIZ)%nat in
  foldM (λ rc action, let* r := iter path len action in ret (rc + r)) 0 init_actions.

(** The return code and, when it is 0, the buffer. *)
Definition load_gen (net gen : string) (len : nat) : M (Net.net) (Z * string) :=
  let* fp := os (fopen (net +:+ "/" +:+ gen) "r") in
  match fp with
  | None => ret (EX_OSFILE, EmptyString)
  | Some fp =>
      let* line := os (fgets_first len fp) in
      match line with
      | None => ret (EX_IOERR, EmptyString)
      | Some buf => os (fclose fp) ;;; ret (0, chomp buf)
      end
  end.

Definition save_gen (net gen buf : string) : M (Net.net) Z :=
  let* fp := os (fopen (net +:+ "/" +:+ gen) "w") in
  match fp with
  | None => ret (-1)
  | Some fp => os (fputs (buf +:+ nl) fp) ;;; os (fclose fp) ;;; ret 0
  end.

Definition pipe_init : M net unit :=
  (if os_popen "ip -batch -" then set_pipe Pip (POpen EmptyString) else exit 1) ;;;
  (if os_popen "bridge -batch -" then set_pipe Pbridge (POpen EmptyString) else exit 1).

Definition getnet : M net string :=
  let net := default "/run/net" (getenv "NET_DIR") in
  let* a := os (access net) in
  if decide (a ≠ 0) then
    let* rc := (λ n, let '(rc, f) := os_makedir net (w_fs (n_os n)) in
                     os (λ w, (Ret rc, set_fs f w)) n) in
    if decide (rc ≠ 0) then exit 1 else ret net
  else ret net.

Definition atoi (s : string) : Z := s32 (strtoll s 10).1.

Definition getpath : M net string :=
  let* net := getnet in
  let* fp := os (fopen (net +:+ "/gen") "r") in
  match fp with
  | None => exit 1
  | Some fp =>
      let* line := os (fgets_first 40 fp) in
      match line with
      | None => exit 1
      | Some buf => os (fclose fp) ;;; ret (net +:+ "/" +:+ fmt_d (atoi buf))
      end
  end.

Definition getifs : M net unit :=
  let* path := getpath in
  let* files := dir path in
  foreach files addif.

(** The buffer of 128 bytes. *)
Definition ifadmin (ifname : string) : M net string :=
  let* path := getpath in
  ret (strlcpy 128 (path +:+ "/" +:+ ifname +:+ "/admin-state")).

Definition allowed (ifname : string) : M net bool :=
  let* buf := ifadmin ifname in
  let* fp := os (fopen buf "r") in
  match fp with
  | None => ret true
  | Some fp =>
      let* line := os (fgets_first 128 fp) in
      os (fclose fp) ;;;
      ret (match line with
           | Some l => negb (streq (chomp l) "disabled")
           | None => true
           end)
  end.

(** One iteration of ifupdown(), the value added to [rc]. *)
Definition ifupdown_one (action ifname : string) : M net Z :=
  let* ok := allowed ifname in
  if negb ok then ret 0
  else
    let* result := os (system ("ip link set " +:+ ifname +:+ " " +:+ action)) in
    (if decide (result = 0) then
       let* buf := ifadmin ifname in
       let* fp := os (fopen buf "w") in
       match fp with
       | None => ret tt
       | Some fp => os (fputs (action +:+ nl) fp) ;;; os (fclose fp) ;;; ret tt
       end
     else ret tt) ;;;
    ret result.

Definition ifupdown (updown : bool) : M net Z :=
  let action := if updown then "up" else "down" in
  let* l := gets iface_list in
  (if decide (l = []) then getifs else ret tt) ;;;
  let* l := gets iface_list in
  foldM (λ rc ifname, let* r := ifupdown_one action ifname in ret (rc + r)) 0 l.

Definition activate_next : M net Z :=
  let* net := getnet in
  pipe_init ;;;
  let* (rc, next) := load_gen net "next" 512 in
  if decide (rc ≠ 0) then exit 0
  else
    let* (rc, curr) := load_gen net "gen" 512 in
    (if decide (rc ≠ 0) then (if decide (rc = EX_IOERR) then exit rc else ret tt)
     else
       let* rc := deactivate net curr in
       if decide (rc ≠ 0) then exit 1 else ret tt) ;;;
    let* rc := activate net next in
    if decide (rc ≠ 0) then exit 1
    else
      let* dep := gets n_dep in
      (if decide (dep ≠ 0) then
         let* rc := save_rdeps net next in
         if decide (rc ≠ 0) then exit 1 else ret tt
       else ret tt) ;;;
      let* rc := save_gen net "gen" next in
      if decide (rc ≠ 0) then exit 1
      else
        let* rc := os (remove (net +:+ "/next")) in
        if decide (rc ≠ 0) then exit 1 else ret 0.

Definition act (cmd : cmd_t) : M net Z :=
  match cmd with
  | DO => activate_next
  | UP => ifupdown true
  | DOWN => ifupdown false
  | INVAL => freeifs ;;; ret EX_USAGE
  end.

Definition transform (arg0 : string) : cmd_t :=
  let prognm := match rindex arg0 "/"%char with Some (String _ s) => s | _ => arg0 end in
  if streq prognm "ifup" then UP
  else if streq prognm "ifdown" then DOWN
  else INVAL.

(** The option loop of main(): [Some code] is an early return. *)
Fixpoint options (opts : list ascii) : M net (option Z) :=
  match opts with
  | [] => ret None
  | c :: opts' =>
      if decide (c = "a"%char) then options opts'
      else if decide (c = "d"%char) then
        modify (λ n, NetState (n_os n) (iface_list n) (n_dep n) (n_ip n) (n_bridge n) true (n_verbose n)) ;;;
        options opts'
      else if decide (c = "h"%char) then ret (Some 0)
      else if decide (c = "v"%char) then
        modify (λ n, NetState (n_os n) (iface_list n) (n_dep n) (n_ip n) (n_bridge n) (n_debug n) true) ;;;
        options opts'
      else ret (Some 1)
  end.

(** The argument loop: the command word, then interfaces. *)
Fixpoint arguments (cmd : cmd_t) (args : list string) : M net cmd_t :=
  match args with
  | [] => ret cmd
  | arg :: args' =>
      match cmd with
      | INVAL =>
          let cmd := if streq "do" arg || streq "apply" arg then DO else cmd in
          let cmd := if streq "up" arg then UP else cmd in
          let cmd := if streq "down" arg then DOWN else cmd in
          arguments cmd args'
      | _ => addif arg ;;; arguments cmd args'
      end
  end.

(** main(), with what getopt(3) makes of argv: the option characters in order
    and the remaining arguments. *)
Definition main (argv0 : string) (opts : list ascii) (args : list string) : M net Z :=
  let cmd := transform argv0 in
  let* early := options opts in
  match early with
  | Some code => ret code
  | None =>
      let* cmd := arguments cmd args in
      match cmd with
      | INVAL => ret EX_USAGE
      | _ => act cmd
      end
  end.

End Net.
