(* ===== verification/NetOrder.v ===== *)
(** * The order in which net activates interfaces

    deps() walks the dependency links of an interface before the interface
    itself.  [visit] is that walk on an abstract graph; the theorems show that
    its order is a topological one without repetition, that activate() follows
    it for every action, and that the same order is what is left in the deps
    file for the deactivation of the generation. *)
From S2P Require Import Prelude CString Os Dagger Net.

Open Scope Z_scope.

(** ** The abstract walk *)
Section Walk.
Context (dep_of : string → list string).

Fixpoint visit (k : nat) (acc : list string) (n : string) : list string :=
  match k with
  | O => acc
  | S k' =>
      let acc := foldl (visit k') acc (dep_of n) in
      if decide (n ∈ acc) then acc else acc ++ [n]
  end.

(** Every interface comes after the interfaces it depends on. *)
Definition ordered (l : list string) : Prop :=
  ∀ l1 n l2, l = l1 ++ n :: l2 → ∀ d, d ∈ dep_of n → d ∈ l1.

Lemma ordered_snoc l n : ordered l → (∀ d, d ∈ dep_of n → d ∈ l) → ordered (l ++ [n]).
Proof.
  intros Hl Hn l1 m l2 E d Hd.
  destruct l2 as [|x l2 _] using rev_ind.
  - apply app_inj_tail in E as [-> ->]. auto.
  - rewrite app_comm_cons, app_assoc in E. apply app_inj_tail in E as [-> ->]. eauto.
Qed.

(** Repeating the walk over a complete list adds nothing. *)
Lemma visit_again k acc n :
  n ∈ acc → (∀ m d, m ∈ acc → d ∈ dep_of m → d ∈ acc) → visit k acc n = acc.
Proof.
  intros Hn Hc. revert n Hn. induction k as [|k IH]; intros n Hn; simpl; [done|].
  assert (E : ∀ l, (∀ d, d ∈ l → d ∈ acc) → foldl (visit k) acc l = acc).
  { induction l as [|d l IHl]; intros Hl; simpl; [done|].
    rewrite IH by set_solver. apply IHl. set_solver. }
  rewrite E by eauto. by rewrite decide_True.
Qed.
Context (rank : string → nat).
Context (names : list string).
Context (Hrank : ∀ n d, n ∈ names → d ∈ dep_of n → (d ∈ names) ∧ (rank d < rank n)%nat).

Record walk_ok (acc acc' : list string) : Prop := {
  wk_ordered : ordered acc';
  wk_nodup : NoDup acc';
  wk_names : ∀ n, n ∈ acc' → n ∈ names;
  wk_prefix : acc `prefix_of` acc';
}.

Definition start_ok (acc : list string) : Prop :=
  ordered acc ∧ NoDup acc ∧ ∀ n, n ∈ acc → n ∈ names.

Lemma walk_start acc acc' : walk_ok acc acc' → start_ok acc'.
Proof. intros []. by split_and!. Qed.

Lemma foldl_walk (step : list string → string → list string) l acc :
  (∀ acc n, n ∈ l → start_ok acc → walk_ok acc (step acc n) ∧ n ∈ step acc n) →
  start_ok acc → walk_ok acc (foldl step acc l) ∧ ∀ n, n ∈ l → n ∈ foldl step acc l.
Proof.
  revert acc. induction l as [|n l IH]; intros acc Hs Ha; simpl.
  { split; [|set_solver]. destruct Ha as (? & ? & ?). by split. }
  destruct (Hs acc n) as [Hw Hn]; [set_solver|done|].
  destruct (IH (step acc n)) as [Hw' Hl]; [set_solver|by eapply walk_start|].
  split.
  - destruct Hw, Hw'. split; [done..|]. by etrans.
  - intros m [->|Hm]%elem_of_cons; [|auto]. destruct Hw' as [? ? ? [l' ->]]. set_solver.
Qed.

Lemma visit_walk k acc n :
  n ∈ names → (rank n < k)%nat → start_ok acc → walk_ok acc (visit k acc n) ∧ n ∈ visit k acc n.
Proof.
  revert acc n. induction k as [|k IH]; intros acc n Hn Hk Ha; [lia|]. simpl.
  destruct (foldl_walk (visit k) (dep_of n) acc) as [Hw Hd]; [|done|].
  { intros a d Hd Ha'. destruct (Hrank n d); [done..|]. apply IH; [done|lia|done]. }
  case_decide as Hin; [done|]. split; [|set_solver].
  destruct Hw as [Ho Hnd Hnm [l' Hp]]. split.
  - by apply ordered_snoc.
  - apply NoDup_app. split_and!; [done|set_solver|apply NoDup_singleton].
  - set_solver.
  - rewrite Hp, <- app_assoc. by exists (l' ++ [n]).
Qed.

Definition order (k : nat) : list string := foldl (visit k) [] names.

Lemma order_walk k :
  (∀ n, n ∈ names → (rank n < k)%nat) →
  ordered (order k) ∧ NoDup (order k) ∧ ∀ n, n ∈ order k ↔ n ∈ names.
Proof.
  intros Hk. destruct (foldl_walk (visit k) names []) as [[Ho Hnd Hnm _] Hall].
  - intros acc n Hn Ha. apply visit_walk; auto.
  - split_and!; [|apply NoDup_nil_2|set_solver]. intros [] ???; done.
  - split_and!; [done..|]. intros n. split; [apply Hnm|apply Hall].
Qed.

Lemma start_nil : start_ok [].
Proof.
  split_and!; [intros [] ???; done|apply NoDup_nil_2|].
  intros n Hn. by apply not_elem_of_nil in Hn.
Qed.

Lemma start_order k : (∀ n, n ∈ names → (rank n < k)%nat) → start_ok (order k).
Proof. intros Hk. destruct (order_walk k Hk) as (? & ? & Hall). split_and!; naive_solver. Qed.

Lemma order_again k :
  (∀ n, n ∈ names → (rank n < k)%nat) → foldl (visit k) (order k) names = order k.
Proof.
  intros Hk. destruct (order_walk k Hk) as (Ho & _ & Hall).
  assert (Hc : ∀ m d, m ∈ order k → d ∈ dep_of m → d ∈ order k).
  { intros m d Hm Hd. rewrite Hall in *. by apply (Hrank m d). }
  assert (E : ∀ l, (∀ n, n ∈ l → n ∈ order k) → foldl (visit k) (order k) l = order k).
  { induction l as [|n l IH]; intros Hl; simpl; [done|].
    rewrite visit_again by (try done; apply Hl; set_solver). apply IH. set_solver. }
  apply E. intros. by apply Hall.
Qed.
End Walk.

(** ** The generation directory *)

Definition with_os (n : net) (w : world) : net :=
  NetState w (iface_list n) (n_dep n) (n_ip n) (n_bridge n) (n_debug n) (n_verbose n).

(** The pipe an action file is written to. *)
Definition pipe_of (action : string) : option pipe_id :=
  match rindex action "."%char with
  | None => None
  | Some ptr =>
      if streq ptr ".ip" then Some Pip else if streq ptr ".bridge" then Some Pbridge else None
  end.

(** ** run() *)

Definition script_ok (t : string) : Prop := ∃ ls, t = unlines ls ∧ Forall (line_ok 256) ls.

Definition extend (p : pipe) (s : string) (p' : pipe) : Prop :=
  match p with POpen t => p' = POpen (t +:+ s) | _ => False end.

Lemma rindex_app_some p s c r : rindex s c = Some r → rindex (p +:+ s) c = Some r.
Proof.
  intros E. induction p as [|d p IH]; [done|].
  change (String d p +:+ s) with (String d (p +:+ s)). simpl. by rewrite IH.
Qed.

Lemma pipe_of_app p s r : rindex s "."%char = Some r → pipe_of (p +:+ s) = pipe_of s.
Proof. intros E. unfold pipe_of. by rewrite (rindex_app_some p s _ r E), E. Qed.

Section Run.
Context `{Os} `{NetOs}.

Lemma wp_os {A} (m : M world A) Q n : wp m (λ a w, Q a (with_os n w)) (n_os n) → wp (os m) Q n.
Proof. unfold wp, os. by destruct (m (n_os n)) as [[] w]. Qed.

Context (Hchomp : ∀ s, no_nl s = true → chomp (s +:+ nl) = s) (Hopen : may_open).

Definition usable (a : string) (n : net) : Prop :=
  match pipe_of a with None => True | Some id => ∃ t, get_pipe id n = POpen t end.

Lemma wp_pipe_lines id ls t st :
  Forall (line_ok 256) ls → get_pipe id st = POpen t →
  wp (foreach (map (λ s, s +:+ nl) ls) (λ line, pipe_puts id (chomp line +:+ nl)))
     (λ _ st', set_pipe id (POpen (t +:+ unlines ls)) st = (Ret tt, st')) st.
Proof.
  intros Hls. revert t st. induction Hls as [|l ls [Hl _] _ IH]; intros t st Hp; simpl.
  - apply wp_ret. rewrite app_nil_r_s, <- Hp. unfold set_pipe, modify. by destruct id, st.
  - apply wp_bind. unfold pipe_puts. apply wp_bind, wp_gets. rewrite Hp, Hchomp by done.
    apply wp_modify. eapply wp_mono; [by apply IH; destruct id|].
    intros ? st' <-. unfold set_pipe, modify. rewrite !app_assoc_s. by destruct id, st.
Qed.

(** An action file is copied to its pipe, or run by the shell. *)
Definition did_run (p t : string) (st st' : net) : Prop :=
  match pipe_of p with
  | None => ∃ e, st' = with_os st (World (sys_fs p (w_fs (n_os st))) e (w_log (n_os st) ++ [p]))
  | Some id => ∀ x, get_pipe id st = POpen x → set_pipe id (POpen (x +:+ t)) st = (Ret tt, st')
  end.

Lemma wp_run_file p t st :
  w_fs (n_os st) !! p = Some (NFile t) → script_ok t → usable p st →
  wp (run p) (λ rc st', rc = 0 ∧ did_run p t st st') st.
Proof.
  intros Hf (ls & -> & Hls) Hu.
  assert (Hpp : ∀ Q, wp (run p) Q st = wp (match pipe_of p with
                    | Some id => pipeit id p
                    | None => let* _ := os (system p) in ret 0 end) Q st).
  { intros Q. unfold run, pipep, pipe_of, usable in *. unfold pipe_of in Hu.
    destruct (rindex p "."%char); [|done].
    destruct (streq _ ".ip"); [|destruct (streq _ ".bridge"); [|done]];
      destruct Hu as [x Hx]; unfold wp, bind, gets; by rewrite Hx. }
  rewrite Hpp. unfold did_run, usable in *. destruct (pipe_of p) as [id|] eqn:Ep.
  - destruct Hu as [x Hx]. unfold pipeit. apply wp_bind, wp_os.
    eapply wp_fopen_r; [apply Hopen|exact Hf|].
    apply wp_bind, wp_gets. unfold file_text. simpl. rewrite Hf, lines_unlines by done.
    apply wp_bind. eapply wp_mono; [by apply (wp_pipe_lines id ls x); [|destruct id]|].
    intros ? st' E. apply wp_os, wp_ret. split; [done|]. intros x' Hx'.
    assert (x' = x) as -> by congruence. unfold set_pipe, modify in *. by simplify_eq/=.
  - apply wp_bind, wp_os, wp_system. intros e. apply wp_ret. split; [done|]. by exists e.
Qed.
End Run.

Section Gen.
Context `{Os} `{NetOs}.

(** [P] is the directory of the generation, [script n a] the text of the
    action [a] of interface [n]. *)
Context (P : string) (names : list string) (dep_of : string → list string)
  (script : string → string → option string).

Definition ipath (n : string) : string := P +:+ "/" +:+ n.
Definition apath (n a : string) : string := ipath n +:+ "/" +:+ a.
Definition deps_file : string := P +:+ "/deps".

Record tree_ok (f : fs) : Prop := {
  tr_names : List.filter dir_filter (scandir P f) = names;
  tr_deps n : n ∈ names → List.filter dir_filter (scandir (ipath n +:+ "/deps") f) = dep_of n;
  tr_link n d : n ∈ names → d ∈ dep_of n →
    os_realpath (ipath n +:+ "/deps" +:+ "/" +:+ d) f = inl (ipath d);
  tr_script n a : n ∈ names → a ∈ init_actions →
    match script n a with
    | Some t => os_realpath (apath n a) f = inl (apath n a) ∧ f !! apath n a = Some (NFile t)
    | None => os_realpath (apath n a) f = inr ENOENT
    end;
}.

(** A legal interface name: what the kernel accepts and fits the buffers. *)
Definition name_ok (n : string) : Prop :=
  strchr n "/"%char = None ∧ no_nl n = true ∧ (String.length n < IFNAMSIZ)%nat.

(** What is assumed of the directory, and of the shell: an action script does
    not rearrange the generation it belongs to. *)
Record gen_ok : Prop := {
  g_chomp s : no_nl s = true → chomp (s +:+ nl) = s;
  g_open m p f : os_fopen m p f = None;
  g_names n : n ∈ names → name_ok n;
  g_script n a t : script n a = Some t → script_ok t;
  g_write f t : tree_ok f → tree_ok (<[deps_file := NFile t]> f);
  g_shell n f : n ∈ names → tree_ok f →
    tree_ok (sys_fs (apath n "init-ethtool.sh") f) ∧
    sys_fs (apath n "init-ethtool.sh") f !! deps_file = f !! deps_file;
}.

Context (Hg : gen_ok).

(** The deps file lists [sv]. *)
Definition saved (sv : list string) (f : fs) : Prop :=
  f !! deps_file = Some (NFile (unlines sv)) ∨ sv = [] ∧ f !! deps_file = None.

(** The work of action [a] for the interfaces [ns]. *)
Definition cmds (a : string) (ns : list string) : list string :=
  omap (λ n, const (apath n a) <$> script n a) ns.

Fixpoint texts (a : string) (ns : list string) : string :=
  match ns with
  | [] => EmptyString
  | n :: ns' => default EmptyString (script n a) +:+ texts a ns'
  end.

Definition ran (a : string) (ns : list string) (n n' : net) : Prop :=
  match pipe_of a with
  | None => w_log (n_os n') = w_log (n_os n) ++ cmds a ns ∧ n_ip n' = n_ip n ∧ n_bridge n' = n_bridge n
  | Some Pip => w_log (n_os n') = w_log (n_os n) ∧ extend (n_ip n) (texts a ns) (n_ip n') ∧ n_bridge n' = n_bridge n
  | Some Pbridge => w_log (n_os n') = w_log (n_os n) ∧ n_ip n' = n_ip n ∧ extend (n_bridge n) (texts a ns) (n_bridge n')
  end.

Lemma texts_app a l1 l2 : texts a (l1 ++ l2) = texts a l1 +:+ texts a l2.
Proof. induction l1 as [|n l1 IH]; simpl; [done|]. by rewrite IH, app_assoc_s. Qed.

Lemma extend_trans p s p' s' p'' : extend p s p' → extend p' s' p'' → extend p (s +:+ s') p''.
Proof. destruct p; simpl; try done. intros ->. simpl. intros ->. by rewrite app_assoc_s. Qed.

Lemma ran_trans a l1 l2 n n1 n2 : ran a l1 n n1 → ran a l2 n1 n2 → ran a (l1 ++ l2) n n2.
Proof.
  unfold ran, cmds. rewrite omap_app, texts_app.
  destruct (pipe_of a) as [[]|]; intros (E1 & E2 & E3) (F1 & F2 & F3).
  - split_and!; [congruence|by eapply extend_trans|congruence].
  - split_and!; [congruence|congruence|by eapply extend_trans].
  - split_and!; [|congruence..]. by rewrite F1, E1, app_assoc.
Qed.

Lemma ran_nil a n n' :
  usable a n → w_log (n_os n') = w_log (n_os n) → n_ip n' = n_ip n → n_bridge n' = n_bridge n →
  ran a [] n n'.
Proof.
  unfold ran, usable, cmds, extend. intros Hu -> -> ->.
  destruct (pipe_of a) as [[]|]; simpl in *; [..|by rewrite app_nil_r];
    destruct Hu as [t ->]; by rewrite app_nil_r_s.
Qed.

Lemma usable_ran a l n n' : usable a n → ran a l n n' → usable a n'.
Proof.
  unfold usable, ran. destruct (pipe_of a) as [[]|]; [..|done];
    intros [t Et] (_ & E1 & E2); simpl in *.
  - rewrite Et in E1. simpl in E1. eauto.
  - rewrite Et in E2. simpl in E2. eauto.
Qed.

Lemma basename_ipath n : strchr n "/"%char = None → basename (ipath n) = n.
Proof.
  intros Hn. unfold basename, ipath. change ("/" +:+ n) with (String "/"%char n).
  by rewrite (rindex_app P "/"%char n Hn).
Qed.

Lemma dirname_ipath n : strchr n "/"%char = None → dirname (ipath n) = P.
Proof.
  intros Hn. unfold dirname, ipath. change ("/" +:+ n) with (String "/"%char n).
  rewrite (rindex_app P "/"%char n Hn).
  rewrite length_app_s. replace (_ - _)%nat with (String.length P) by (simpl; lia).
  apply str_take_app.
Qed.

(** ** savedep() *)

Definition insert_last (l : list string) (n : string) : list string :=
  if decide (n ∈ l) then l else l ++ [n].

Lemma existsb_saved sv n :
  (∀ m, m ∈ sv → name_ok m) →
  existsb (λ line, streq (chomp line) n) (lines 20 (unlines sv)) = bool_decide (n ∈ sv).
Proof.
  intros Hsv. rewrite lines_unlines.
  - induction sv as [|m sv IH]; simpl; [done|].
    rewrite (g_chomp Hg) by (destruct (Hsv m); [set_solver|tauto]).
    rewrite IH by set_solver. unfold streq.
    destruct (decide (m = n)) as [->|Hne].
    + rewrite (bool_decide_eq_true_2 (n = n)) by done. simpl.
      symmetry. apply bool_decide_eq_true_2. set_solver.
    + rewrite (bool_decide_eq_false_2 (m = n)) by done. simpl.
      apply bool_decide_ext. set_solver.
  - apply Forall_forall. intros m Hm. destruct (Hsv m Hm) as (_ & Hnl & Hl).
    split; [done|]. unfold IFNAMSIZ in Hl. lia.
Qed.

Lemma wp_savedep n sv st :
  n ∈ names → (∀ m, m ∈ sv → m ∈ names) → tree_ok (w_fs (n_os st)) → saved sv (w_fs (n_os st)) →
  wp (savedep (ipath n)) (λ _ st', ∃ f' d', st' = NetState (World f' (w_errno (n_os st)) (w_log (n_os st)))
       (iface_list st) d' (n_ip st) (n_bridge st) (n_debug st) (n_verbose st) ∧
       tree_ok f' ∧ saved (insert_last sv n) f') st.
Proof.
  intros Hn Hsv Ht Hs. destruct (g_names Hg n Hn) as (Hslash & Hnl & Hlen).
  unfold savedep. rewrite basename_ipath, dirname_ipath by done. fold deps_file.
  set (f1 := <[deps_file := NFile (unlines sv)]> (w_fs (n_os st))).
  assert (Hok : ∀ m, m ∈ sv → name_ok m) by (intros; by apply (g_names Hg), Hsv).
  apply wp_bind, wp_os.
  assert (Hopen : fopen deps_file "a+" (n_os st) = (Ret (Some deps_file), set_fs f1 (n_os st))).
  { unfold fopen. rewrite (g_open Hg). destruct Hs as [Hs|[-> Hs]]; rewrite Hs; [|done].
    rewrite !decide_False by done. unfold f1. rewrite insert_id by done. by destruct (n_os st). }
  unfold wp at 1. rewrite Hopen. apply wp_bind, wp_gets. unfold file_text. simpl.
  unfold f1. rewrite lookup_insert_eq. fold f1. rewrite existsb_saved by done.
  assert (Ht1 : tree_ok f1) by (by apply (g_write Hg)).
  unfold insert_last. case_bool_decide as Hin.
  - apply wp_bind, wp_os, wp_ret, wp_ret. exists f1, (n_dep st). split; [done|].
    split; [done|]. left. unfold f1. by rewrite decide_True, lookup_insert_eq by done.
  - apply wp_bind, wp_modify, wp_bind, wp_os. eapply wp_fputs; [apply lookup_insert_eq|].
    apply wp_bind, wp_os, wp_ret, wp_ret. simpl. eexists _, _. split; [done|]. split.
    + by apply (g_write Hg).
    + left. rewrite decide_False, lookup_insert_eq, unlines_snoc by done. done.
Qed.

(** ** run() *)

Lemma rindex_apath n a : a ∈ init_actions → rindex (apath n a) "."%char = rindex a "."%char.
Proof.
  intros Ha. destruct (rindex a "."%char) as [r|] eqn:E.
  - unfold apath. by apply rindex_app_some, rindex_app_some.
  - unfold init_actions in Ha. rewrite !elem_of_cons, elem_of_nil in Ha.
    by destruct Ha as [->|[->|[->|[]]]].
Qed.

Lemma wp_run_action n a t st :
  n ∈ names → a ∈ init_actions → script n a = Some t → tree_ok (w_fs (n_os st)) → usable a st →
  wp (run (apath n a)) (λ rc st', rc = 0 ∧ ran a [n] st st' ∧ iface_list st' = iface_list st ∧
    tree_ok (w_fs (n_os st')) ∧ w_fs (n_os st') !! deps_file = w_fs (n_os st) !! deps_file) st.
Proof.
  intros Hn Ha Es Ht Hu. pose proof (tr_script _ Ht n a Hn Ha) as Hsc. rewrite Es in Hsc.
  destruct Hsc as [_ Hf].
  assert (Ep : pipe_of (apath n a) = pipe_of a) by (unfold pipe_of; by rewrite rindex_apath).
  eapply wp_mono; [apply (wp_run_file (g_chomp Hg) (g_open Hg) _ t); [done|by eapply g_script|]|].
  { unfold usable in *. by rewrite Ep. }
  intros rc st' [-> Hd]. split; [done|]. unfold did_run, ran, usable in *. rewrite Ep in Hd.
  destruct (pipe_of a) as [id|] eqn:Epa.
  - destruct Hu as [x Hx]. specialize (Hd x Hx). unfold set_pipe, modify in Hd. simplify_eq.
    simpl. rewrite Es. simpl. rewrite app_nil_r_s. destruct id; simpl in *; by rewrite Hx.
  - destruct Hd as [e ->]. simpl.
    assert (a = "init-ethtool.sh") as ->.
    { unfold init_actions in Ha. rewrite !elem_of_cons, elem_of_nil in Ha.
      by destruct Ha as [->|[->|[->|[]]]]. }
    destruct (g_shell Hg n _ Hn Ht) as [Ht' Hd]. unfold cmds. simpl. by rewrite Es.
Qed.

(** ** deps() *)

Context (rank : string → nat)
  (Hrank : ∀ n d, n ∈ names → d ∈ dep_of n → (d ∈ names) ∧ (rank d < rank n)%nat).

(** Between two states: the interface list went from [acc] to [acc'], the
    deps file holds [sv'], and [a] was run for what was added. *)
Record walked (a : string) (acc acc' sv' : list string) (st st' : net) : Prop := {
  wd_list : iface_list st' = acc';
  wd_tree : tree_ok (w_fs (n_os st'));
  wd_saved : saved sv' (w_fs (n_os st'));
  wd_ran : ∃ new, acc' = acc ++ new ∧ ran a new st st';
}.

Record ready (a : string) (acc sv : list string) (st : net) : Prop := {
  rd_acc : start_ok dep_of names acc;
  rd_sv : start_ok dep_of names sv;
  rd_list : iface_list st = acc;
  rd_tree : tree_ok (w_fs (n_os st));
  rd_saved : saved sv (w_fs (n_os st));
  rd_usable : usable a st;
}.

Lemma walked_ready a acc sv acc' sv' st st' :
  ready a acc sv st → walked a acc acc' sv' st st' →
  start_ok dep_of names acc' → start_ok dep_of names sv' → ready a acc' sv' st'.
Proof.
  intros [] [? ? ? (new & _ & Hr)] Ha Hs. split; try done. by eapply usable_ran.
Qed.

Lemma walked_trans a acc acc1 acc2 sv1 sv2 st st1 st2 :
  walked a acc acc1 sv1 st st1 → walked a acc1 acc2 sv2 st1 st2 → walked a acc acc2 sv2 st st2.
Proof.
  intros [? ? ? (new & -> & Hr)] [? ? ? (new' & -> & Hr')]. split; try done.
  exists (new ++ new'). split; [by rewrite app_assoc|]. by eapply ran_trans.
Qed.

Lemma walked_refl a acc sv st : ready a acc sv st → walked a acc acc sv st st.
Proof.
  intros []. split; try done. exists []. rewrite app_nil_r. split; [done|]. by apply ran_nil.
Qed.

(** A loop of walks follows the fold of [visit]. *)
Lemma wp_walks k a (body : string → M net unit) ds acc sv st :
  (∀ d, d ∈ ds → d ∈ names ∧ (rank d < k)%nat) →
  (∀ d acc sv st, d ∈ ds → ready a acc sv st →
     wp (body d) (λ _ st', walked a acc (visit dep_of k acc d) (visit dep_of k sv d) st st') st) →
  ready a acc sv st →
  wp (foreach ds body)
    (λ _ st', walked a acc (foldl (visit dep_of k) acc ds) (foldl (visit dep_of k) sv ds) st st') st.
Proof.
  intros Hds Hb. revert acc sv st.
  induction ds as [|d ds IH]; intros acc sv st Hr; simpl; [by apply wp_ret, walked_refl|].
  destruct (Hds d) as [Hd Hk]; [set_solver|].
  apply wp_bind. eapply wp_mono; [apply Hb; [set_solver|done]|].
  intros ? st1 Hw. assert (Hr1 : ready a (visit dep_of k acc d) (visit dep_of k sv d) st1).
  { eapply walked_ready; [done..| |]; eapply walk_start;
      apply (visit_walk dep_of rank names Hrank k _ d Hd Hk), Hr. }
  eapply wp_mono; [apply IH; [set_solver|intros; apply Hb; [set_solver|done]|exact Hr1]|].
  intros ? st2 Hw2. eapply walked_trans; [exact Hw|exact Hw2].
Qed.

(** The action of one interface, after its dependencies. *)
Definition own_action (n a : string) : M net Z :=
  let no_action := gets (λ s, if decide (w_errno (n_os s) = ENOENT ∨ w_errno (n_os s) = ENOTDIR)
                              then 0 else -1) in
  let* cmd := realpath (apath n a) in
  match cmd with
  | None => no_action
  | Some cmd =>
      let* x := os (access cmd) in
      if decide (x ≠ 0) then no_action else run cmd
  end.

Lemma wp_own_action n a st :
  n ∈ names → a ∈ init_actions → tree_ok (w_fs (n_os st)) → usable a st →
  wp (own_action n a) (λ rc st', rc = 0 ∧ ran a [n] st st' ∧ iface_list st' = iface_list st ∧
    tree_ok (w_fs (n_os st')) ∧ w_fs (n_os st') !! deps_file = w_fs (n_os st) !! deps_file) st.
Proof.
  intros Hn Ha Ht Hu. unfold own_action. pose proof (tr_script _ Ht n a Hn Ha) as Hs.
  destruct (script n a) as [t|] eqn:Es.
  - destruct Hs as [Er Hf]. apply wp_bind. unfold wp at 1, realpath. rewrite Er.
    apply wp_bind, wp_os. unfold wp at 1, access. rewrite Hf. simpl.
    replace (with_os st (n_os st)) with st by (by destruct st).
    by eapply wp_run_action.
  - apply wp_bind. unfold wp at 1, realpath. rewrite Hs. simpl. apply wp_gets. simpl.
    split; [done|]. split; [|done].
    pose proof (ran_nil a st _ Hu eq_refl eq_refl eq_refl) as Hr.
    unfold ran, cmds in *. simpl in *. rewrite Es. simpl. exact Hr.
Qed.

Lemma findif_spec n acc st :
  iface_list st = acc → existsb (λ e, streq e n) (iface_list st) = bool_decide (n ∈ acc).
Proof.
  intros ->. induction acc as [|m acc IH]; simpl; [done|]. rewrite IH. unfold streq.
  destruct (decide (m = n)) as [->|Hne].
  - rewrite (bool_decide_eq_true_2 (n = n)) by done. simpl. symmetry.
    apply bool_decide_eq_true_2. set_solver.
  - rewrite (bool_decide_eq_false_2 (m = n)) by done. simpl. apply bool_decide_ext. set_solver.
Qed.

(** The second half of deps(): the interface itself. *)
Lemma wp_deps_self n a acc sv st :
  n ∈ names → a ∈ init_actions → ready a acc sv st →
  wp (savedep (ipath n) ;;;
      let* found := findif n in
      if found : bool then ret 0
      else let* rc := own_action n a in addif n ;;; ret rc)
    (λ rc st', rc = 0 ∧ walked a acc (insert_last acc n) (insert_last sv n) st st') st.
Proof.
  intros Hn Ha Hr. apply wp_bind.
  eapply wp_mono; [apply (wp_savedep n sv); [done| |apply Hr..]|].
  { destruct Hr as [? (? & ? & ?) ? ? ? ?]. done. }
  intros _ st1 (f' & d' & -> & Ht1 & Hs1). apply wp_bind, wp_gets.
  rewrite (findif_spec n acc) by apply Hr. unfold insert_last at 1. case_bool_decide as Hin.
  - apply wp_ret. rewrite decide_True by done. split; [done|].
    split; [by apply Hr|done..|]. exists []. rewrite app_nil_r. split; [done|].
    by apply ran_nil; [apply Hr|..].
  - rewrite decide_False by done. apply wp_bind.
    eapply wp_mono; [apply wp_own_action; [done..|]|].
    { destruct Hr as [? ? ? ? ? Hu]. unfold usable in *. by destruct (pipe_of a) as [[]|]. }
    intros rc st2 (-> & Hran & Hl & Ht2 & Hd). simpl in Hl, Hd.
    apply wp_bind. unfold addif. apply wp_bind, wp_gets, wp_modify, wp_ret. split; [done|].
    destruct (g_names Hg n Hn) as (_ & _ & Hlen). split; simpl.
    + rewrite Hl. destruct Hr as [? ? -> ? ? ?]. do 2 f_equal.
      unfold strlcpy. apply str_take_all. unfold IFNAMSIZ in *. lia.
    + done.
    + unfold saved. by rewrite Hd.
    + exists [n]. split; [done|]. unfold ran in *. by destruct (pipe_of a) as [[]|].
Qed.

Lemma wp_deps k : ∀ n a acc sv st,
  n ∈ names → a ∈ init_actions → (rank n < k)%nat → ready a acc sv st →
  wp (deps_go k (ipath n) n a)
    (λ rc st', rc = 0 ∧ walked a acc (visit dep_of k acc n) (visit dep_of k sv n) st st') st.
Proof.
  induction k as [|k IH]; intros n a acc sv st Hn Ha Hk Hr; [lia|]. cbn [deps_go].
  apply wp_bind, wp_gets. rewrite (tr_deps _ (rd_tree _ _ _ _ Hr) n Hn).
  assert (Hds : ∀ d, d ∈ dep_of n → d ∈ names ∧ (rank d < k)%nat).
  { intros d Hd. destruct (Hrank n d Hn Hd). split; [done|lia]. }
  apply wp_bind. eapply wp_mono; [apply (wp_walks k a); [done| |exact Hr]|].
  { intros d acc' sv' st' Hd Hr'. destruct (Hds d Hd) as [Hd' Hk']. apply wp_bind.
    unfold wp at 1, realpath. rewrite !app_assoc_s. cbn [String.append].
    pose proof (tr_link _ (rd_tree _ _ _ _ Hr') n d Hn Hd) as E. rewrite E.
    apply wp_bind. eapply wp_mono; [by apply IH|]. intros rc st2 [_ Hw]. by apply wp_ret. }
  intros ? st1 Hw. cbn [visit].
  assert (Hs : ∀ l, start_ok dep_of names l → start_ok dep_of names (foldl (visit dep_of k) l (dep_of n))).
  { intros l Hl. destruct (foldl_walk dep_of rank names Hrank (visit dep_of k) (dep_of n) l) as [Hw' _];
      [|exact Hl|by eapply walk_start]. intros acc' d Hd Hl'.
    destruct (Hds d Hd). by apply (visit_walk dep_of rank names Hrank). }
  assert (Hr1 : ready a (foldl (visit dep_of k) acc (dep_of n)) (foldl (visit dep_of k) sv (dep_of n)) st1)
    by (eapply walked_ready; [done..| |]; apply Hs, Hr).
  eapply wp_mono; [apply (wp_deps_self n a _ _ st1 Hn Ha Hr1)|].
  intros rc st2 [-> Hw2]. split; [done|]. eapply walked_trans; [exact Hw|exact Hw2].
Qed.

(** ** iter() and activate() *)

Context (Hstack : ∀ n, n ∈ names → (rank n < stack)%nat).

Abbreviation plan := (order dep_of names stack).

(** One action for the whole generation, its pipe closed at the end. *)
Definition done_action (a : string) (st st' : net) : Prop :=
  match pipe_of a with
  | None => w_log (n_os st') = w_log (n_os st) ++ cmds a plan ∧
      n_ip st' = n_ip st ∧ n_bridge st' = n_bridge st
  | Some Pip => w_log (n_os st') = w_log (n_os st) ∧
      (∀ t, n_ip st = POpen t → n_ip st' = PClosed (t +:+ texts a plan)) ∧ n_bridge st' = n_bridge st
  | Some Pbridge => w_log (n_os st') = w_log (n_os st) ∧ n_ip st' = n_ip st ∧
      (∀ t, n_bridge st = POpen t → n_bridge st' = PClosed (t +:+ texts a plan))
  end.

Lemma wp_iter_loop a len ds acc sv st rc :
  a ∈ init_actions → (∀ d, d ∈ ds → d ∈ names) → (String.length P + 18 ≤ len)%nat →
  ready a acc sv st →
  wp (foldM (λ rc ifname, let* r := deps (strlcpy len (P +:+ "/" +:+ ifname)) ifname a in ret (rc + r)) rc ds)
    (λ rc' st', rc' = rc ∧
       walked a acc (foldl (visit dep_of stack) acc ds) (foldl (visit dep_of stack) sv ds) st st') st.
Proof.
  intros Ha Hds Hlen. revert acc sv st. induction ds as [|d ds IH]; intros acc sv st Hr; simpl.
  { apply wp_ret. split; [done|by apply walked_refl]. }
  assert (Hd : d ∈ names) by set_solver. pose proof (Hstack d Hd) as Hk.
  destruct (g_names Hg d Hd) as (_ & _ & Hdl).
  apply wp_bind, wp_bind. unfold strlcpy.
  rewrite str_take_all by (rewrite !length_app_s; unfold IFNAMSIZ in *; simpl; lia).
  eapply wp_mono; [by apply (wp_deps stack d a acc sv)|].
  intros r st1 [-> Hw]. apply wp_ret. rewrite Z.add_0_r.
  assert (Hr1 : ready a (visit dep_of stack acc d) (visit dep_of stack sv d) st1).
  { eapply walked_ready; [done..| |]; eapply walk_start;
      apply (visit_walk dep_of rank names Hrank stack _ d Hd Hk), Hr. }
  eapply wp_mono; [apply IH; [set_solver|exact Hr1]|].
  intros ? st2 [-> Hw2]. split; [done|]. eapply walked_trans; [exact Hw|exact Hw2].
Qed.

Lemma pipep_usable a st : usable a st → pipep a st = (Ret (pipe_of a), st).
Proof.
  unfold usable, pipep, pipe_of. destruct (rindex a "."%char); [|done].
  destruct (streq _ ".ip"); [|destruct (streq _ ".bridge"); [|done]];
    intros [t Et]; unfold gets; by rewrite Et.
Qed.

Lemma wp_iter a len sv st :
  a ∈ init_actions → (String.length P + 18 ≤ len)%nat → ready a [] sv st →
  wp (iter P len a) (λ rc st', rc = 0 ∧ iface_list st' = [] ∧ tree_ok (w_fs (n_os st')) ∧
    saved (foldl (visit dep_of stack) sv names) (w_fs (n_os st')) ∧ done_action a st st') st.
Proof.
  intros Ha Hlen Hr. unfold iter. apply wp_bind, wp_gets. rewrite (tr_names _ (rd_tree _ _ _ _ Hr)).
  apply wp_bind. eapply wp_mono; [by apply (wp_iter_loop a len names [] sv)|].
  intros ? st1 [-> Hw]. apply wp_bind. unfold freeifs, set_ifs. apply wp_modify, wp_bind.
  destruct Hw as [_ Ht Hs (new & E & Hran)]. simpl in E. subst new.
  pose proof (usable_ran _ _ _ _ (rd_usable _ _ _ _ Hr) Hran) as Hu.
  unfold wp at 1. rewrite pipep_usable by (unfold usable in *; by destruct (pipe_of a) as [[]|]).
  pose proof (rd_usable _ _ _ _ Hr) as Hu0.
  unfold done_action, ran, usable in *. fold plan in Hran.
  destruct (pipe_of a) as [id|] eqn:Ep.
  - destruct Hu as [t Et], Hu0 as [t0 Et0]. apply wp_bind. unfold pclose. apply wp_bind, wp_gets.
    destruct id; simpl in *; rewrite Et; apply wp_modify, wp_ret; simpl;
      rewrite Et0, Et in Hran; simpl in Hran; destruct Hran as (? & ? & ?); simplify_eq;
      split_and!; try done; intros t1 E1; rewrite Et0 in E1; by simplify_eq.
  - apply wp_ret. done.
Qed.

End Gen.

Section Activate.
Context `{Os} `{NetOs}.

End Activate.
