(* ===== verification/NetProps.v ===== *)
(** * net: commit of a generation, deactivation, ifup and ifdown, arguments *)
From S2P Require Import Prelude CString Os Dagger Net NetOrder.

Open Scope Z_scope.

(** ** Files a program leaves alone, whatever its outcome *)
Section Frame.
Context `{Os} `{NetOs}.

Definition frames {A} (q : string) (m : M net A) : Prop :=
  ∀ n, w_fs (n_os (m n).2) !! q = w_fs (n_os n) !! q.

(** Paths that end in "deps" are the only ones the walk writes. *)
Context (q : string) (Hq : ∀ p, q ≠ p +:+ "/deps") (Hsys : ∀ cmd f, sys_fs cmd f !! q = f !! q).

Lemma frames_bind {A B} (m : M net A) (f : A → M net B) :
  frames q m → (∀ a, frames q (f a)) → frames q (bind m f).
Proof.
  intros Hm Hf n. unfold bind. specialize (Hm n). destruct (m n) as [[a|c|] n1]; simpl in *; [|done..].
  by rewrite (Hf a n1).
Qed.

Lemma frames_ret {A} (a : A) : frames q (ret a).
Proof. done. Qed.

Lemma frames_crash {A} : frames q (@crash net A).
Proof. done. Qed.

Lemma frames_exit {A} c : frames q (@exit net A c).
Proof. done. Qed.

Lemma frames_gets {A} (f : net → A) : frames q (gets f).
Proof. done. Qed.

Lemma frames_ifs l : frames q (set_ifs l).
Proof. done. Qed.

Lemma frames_pipe id p : frames q (set_pipe id p).
Proof. done. Qed.

Lemma frames_dep : frames q inc_dep.
Proof. done. Qed.

Lemma frames_system cmd : frames q (os (system cmd)).
Proof.
  intros n. unfold os, system. specialize (Hsys cmd (w_fs (n_os n))). unfold sys_fs in Hsys.
  by destruct (os_system _ _) as [[]].
Qed.

Lemma frames_open_r p : frames q (os (fopen p "r")).
Proof. intros n. unfold os, fopen. repeat case_match; simplify_eq/=; done. Qed.

Lemma frames_open p m : q ≠ p → frames q (os (fopen p m)).
Proof.
  intros Hne n. unfold os, fopen.
  repeat case_match; simplify_eq/=; rewrite ?lookup_insert_ne by done; done.
Qed.

Lemma frames_fputs s p : q ≠ p → frames q (os (fputs s p)).
Proof. intros Hne n. simpl. by rewrite lookup_alter_ne. Qed.

Lemma frames_fclose p : frames q (os (fclose p)).
Proof. done. Qed.

Lemma frames_access p : frames q (os (access p)).
Proof. intros n. unfold os, access. by destruct (w_fs (n_os n) !! p). Qed.

Lemma frames_fgets k p : frames q (os (fgets_first k p)).
Proof. done. Qed.

Lemma frames_realpath p : frames q (realpath p).
Proof. intros n. unfold realpath. by destruct (os_realpath _ _). Qed.

Lemma frames_if {A} (b : bool) (m1 m2 : M net A) :
  frames q m1 → frames q m2 → frames q (if b then m1 else m2).
Proof. by destruct b. Qed.

Lemma frames_decide {A} P `{Decision P} (m1 m2 : M net A) :
  frames q m1 → frames q m2 → frames q (if decide P then m1 else m2).
Proof. by case_decide. Qed.

Lemma frames_foreach {A} (l : list A) body :
  (∀ x, frames q (body x)) → frames q (foreach l body).
Proof. intros Hb. induction l; [done|]. apply frames_bind; auto. Qed.

Lemma frames_foldM {A B} (f : B → A → M net B) b l :
  (∀ b x, frames q (f b x)) → frames q (foldM f b l).
Proof. intros Hb. revert b. induction l; intros b; [done|]. apply frames_bind; auto. Qed.
End Frame.

Create HintDb frames discriminated.
#[export] Hint Resolve frames_ret frames_crash frames_exit frames_gets frames_ifs frames_pipe
  frames_dep frames_system frames_open_r frames_open frames_fputs frames_fclose frames_access
  frames_realpath frames_fgets : frames.

Ltac frame_step :=
  match goal with
  | |- frames _ (bind _ _) => apply frames_bind; [|intro]
  | |- frames _ (if decide _ then _ else _) => apply frames_decide
  | |- frames _ (if ?b then _ else _) => apply frames_if
  | |- frames _ (match ?x with _ => _ end) => destruct x eqn:?
  | |- frames _ (foreach _ _) => apply frames_foreach; intro
  | |- frames _ (foldM _ _ _) => apply frames_foldM; intros ? ?
  | |- frames _ _ => solve [auto with frames]
  end.
Ltac frame := cbv beta zeta iota; repeat frame_step.

Section Walk.
Context `{Os} `{NetOs}.
Context (q : string) (Hq : ∀ p, q ≠ p +:+ "/deps") (Hsys : ∀ cmd f, sys_fs cmd f !! q = f !! q).

Lemma frames_pipep a : frames q (pipep a).
Proof. unfold pipep. frame. Qed.

Lemma frames_pipe_puts id s : frames q (pipe_puts id s).
Proof. unfold pipe_puts. frame. Qed.

Lemma frames_run a : frames q (run a).
Proof.
  unfold run, pipeit. apply frames_bind; [apply frames_pipep|]. intro. frame.
  apply frames_pipe_puts.
Qed.

Lemma emits_os_fopen p m st r st' :
  os (fopen p m) st = (Ret (Some r), st') → r = p.
Proof. unfold os, fopen. repeat case_match; naive_solver. Qed.

Lemma frames_savedep p : frames q (savedep p).
Proof.
  intros n. unfold savedep. set (file := dirname p +:+ "/deps").
  assert (Hne : q ≠ file) by apply Hq.
  pose proof (frames_open q file "a+" Hne n) as Ho. unfold bind at 1.
  destruct (os (fopen file "a+") n) as [[[fp|]|c|] n1] eqn:E; simpl in Ho; [|done..].
  apply emits_os_fopen in E as ->.
  match goal with |- w_fs (n_os (?m n1).2) !! q = _ => assert (Hm : frames q m) by frame end.
  by rewrite (Hm n1).
Qed.

Lemma frames_deps k ipath ifname a : frames q (deps_go k ipath ifname a).
Proof.
  revert ipath ifname. induction k as [|k IH]; intros ipath ifname; [done|]. cbn [deps_go].
  unfold dir, findif, addif. frame; [apply frames_savedep|apply frames_run].
Qed.

Lemma frames_deactivate net gen : frames q (deactivate net gen).
Proof. unfold deactivate, rdeps. frame. apply frames_run. Qed.

Lemma frames_activate net gen : frames q (activate net gen).
Proof.
  unfold activate, iter, dir, freeifs, deps, pclose. frame; [apply frames_deps|apply frames_pipep].
Qed.
End Walk.

(** ** The commit of a generation *)

(** Two paths with different last components of the same length. *)
Lemma app_ne_suffix (p p' s s' : string) :
  String.length s = String.length s' → s ≠ s' → p +:+ s ≠ p' +:+ s'.
Proof.
  intros Hl Hne E. apply Hne. revert p' E.
  induction p as [|c p IH]; intros [|c' p'] E.
  - done.
  - apply (f_equal String.length) in E. change (String c' p' +:+ s') with (String c' (p' +:+ s')) in E.
    change (EmptyString +:+ s) with s in E. simpl in E. rewrite length_app_s in E. lia.
  - apply (f_equal String.length) in E. change (String c p +:+ s) with (String c (p +:+ s)) in E.
    change (EmptyString +:+ s') with s' in E. simpl in E. rewrite length_app_s in E. lia.
  - change (String c p +:+ s) with (String c (p +:+ s)) in E.
    change (String c' p' +:+ s') with (String c' (p' +:+ s')) in E. simplify_eq. eauto.
Qed.

Section Commit.
Context `{Os} `{NetOs}.

Definition netdir : string := default "/run/net" (getenv "NET_DIR").
Definition next_path : string := netdir +:+ "/next".
Definition gen_path : string := netdir +:+ "/gen".

Definition marks (n : net) : option fnode * option fnode :=
  (w_fs (n_os n) !! next_path, w_fs (n_os n) !! gen_path).

Definition keeps_marks {A} (m : M net A) : Prop := ∀ n, marks (m n).2 = marks n.

Context (Hsys : ∀ cmd f q, q = next_path ∨ q = gen_path → sys_fs cmd f !! q = f !! q).

Lemma next_ne_gen : next_path ≠ gen_path.
Proof. unfold next_path, gen_path. intros E%app_inj_l_s. done. Qed.

Lemma next_ne_deps p : next_path ≠ p +:+ "/deps".
Proof. by apply app_ne_suffix. Qed.

Lemma gen_ne_deps p : gen_path ≠ p +:+ "/deps".
Proof.
  unfold gen_path. change "/gen" with ("/ge" +:+ "n"). change "/deps" with ("/dep" +:+ "s").
  rewrite <- !app_assoc_s. by apply app_ne_suffix.
Qed.

Lemma keeps_marks_frames {A} (m : M net A) :
  frames next_path m → frames gen_path m → keeps_marks m.
Proof. intros H1 H2 n. unfold marks. by rewrite (H1 n), (H2 n). Qed.

Lemma keeps_marks_activate net gen : keeps_marks (activate net gen).
Proof.
  apply keeps_marks_frames; apply frames_activate; auto using next_ne_deps, gen_ne_deps.
Qed.

Lemma keeps_marks_deactivate net gen : keeps_marks (deactivate net gen).
Proof.
  apply keeps_marks_frames; apply frames_deactivate; auto using next_ne_deps, gen_ne_deps.
Qed.

Lemma keeps_marks_rdeps net gen : keeps_marks (save_rdeps net gen).
Proof. apply keeps_marks_frames; apply frames_system; auto. Qed.

Lemma keeps_marks_load net gen len : keeps_marks (load_gen net gen len).
Proof. apply keeps_marks_frames; unfold load_gen; frame. Qed.

Lemma keeps_marks_pipes : keeps_marks pipe_init.
Proof. apply keeps_marks_frames; unfold pipe_init; frame. Qed.

(** The part of activate_next() before save_gen() changes no mark. *)
Lemma keeps_marks_deact net rc curr :
  keeps_marks (if decide (rc ≠ 0) then (if decide (rc = EX_IOERR) then exit rc else ret tt)
     else let* rc := deactivate net curr in if decide (rc ≠ 0) then exit 1 else ret tt).
Proof.
  apply keeps_marks_frames; frame; apply frames_deactivate; auto using next_ne_deps, gen_ne_deps.
Qed.

Lemma keeps_marks_save dep net next :
  keeps_marks (if decide (dep ≠ 0) then
         let* rc := save_rdeps net next in
         if decide (rc ≠ 0) then exit 1 else ret tt
       else ret tt).
Proof. apply keeps_marks_frames; unfold save_rdeps; frame; apply frames_system; auto. Qed.

(** What load_gen() found. *)
Lemma load_gen_file net gen len n rc buf n1 :
  load_gen net gen len n = (Ret (rc, buf), n1) → rc = 0 →
  ∃ t l r, w_fs (n_os n) !! (net +:+ "/" +:+ gen) = Some (NFile t) ∧ fgets len t = Some (l, r) ∧ buf = chomp l.
Proof.
  unfold load_gen, bind, os, fopen, fgets_first, gets, file_text. intros E ->.
  destruct (os_fopen "r" _ _); [done|].
  destruct (w_fs (n_os n) !! _) as [[t| |]|] eqn:Et; simpl in E; try done.
  rewrite Et in E. destruct (fgets len t) as [[l r]|] eqn:Ef; [|done].
  unfold ret in E. simplify_eq/=. eauto 10.
Qed.

Definition committed (m0 : option fnode * option fnode) (r : outcome Z) (n : net) : Prop :=
  r = Ret 0 ∧ ∃ t l rest, m0.1 = Some (NFile t) ∧ fgets 512 t = Some (l, rest) ∧
    marks n = (None, Some (NFile (chomp l +:+ nl))).

Definition kept (m0 : option fnode * option fnode) (r : outcome Z) (n : net) : Prop :=
  (∀ a, r ≠ Ret a) ∧ marks n = m0.

(** A step that keeps the marks either fails or hands over. *)
Lemma commit_step {A} (m : M net A) (f : A → M net Z) (C : outcome Z → net → Prop) m0 n :
  keeps_marks m → marks n = m0 →
  (∀ a n1, m n = (Ret a, n1) → marks n1 = m0 → C (f a n1).1 (f a n1).2 ∨ kept m0 (f a n1).1 (f a n1).2) →
  C (bind m f n).1 (bind m f n).2 ∨ kept m0 (bind m f n).1 (bind m f n).2.
Proof.
  intros Hk Hm Hf. unfold bind. specialize (Hk n). destruct (m n) as [[a|c|] n1] eqn:E; simpl in *.
  - apply Hf; [done|congruence].
  - right. split; [done|congruence].
  - right. split; [done|congruence].
Qed.

Lemma bind_known {A B} (m : M net A) (f : A → M net B) n a n1 :
  m n = (Ret a, n1) → bind m f n = f a n1.
Proof. unfold bind. by intros ->. Qed.

(** The last two steps: gen is written, next is removed. *)
Lemma finish_commit next n t l r m0 :
  marks n = m0 → m0.1 = Some (NFile t) → fgets 512 t = Some (l, r) → next = chomp l →
  let m := (let* rc := save_gen netdir "gen" next in
            if decide (rc ≠ 0) then exit 1
            else let* rc := os (remove (netdir +:+ "/next")) in
                 if decide (rc ≠ 0) then exit 1 else ret 0) in
  committed m0 (m n).1 (m n).2 ∨ kept m0 (m n).1 (m n).2.
Proof.
  intros Hm Hn Hf ->. cbv zeta. unfold save_gen, bind, os, fopen, remove.
  fold next_path. change (netdir +:+ "/" +:+ "gen") with gen_path.
  assert (Hn' : w_fs (n_os n) !! next_path = Some (NFile t)) by (rewrite <- Hn, <- Hm; done).
  assert (Hdone : ∀ f0 : fs, f0 !! next_path = Some (NFile t) → f0 !! gen_path = Some (NFile EmptyString) →
    let f1 := alter (λ nd, match nd with NFile t0 => NFile (t0 +:+ (chomp l +:+ nl)) | _ => nd end) gen_path f0 in
    f1 !! next_path = Some (NFile t) ∧
    delete next_path f1 !! gen_path = Some (NFile (chomp l +:+ nl))).
  { intros f0 E1 E2. simpl. rewrite lookup_alter_ne by apply not_eq_sym, next_ne_gen.
    split; [done|]. rewrite lookup_delete_ne by apply next_ne_gen.
    by rewrite lookup_alter_eq, E2. }
  assert (Hd := Hdone (<[gen_path := NFile EmptyString]> (w_fs (n_os n)))).
  rewrite lookup_insert_ne, lookup_insert_eq in Hd by apply not_eq_sym, next_ne_gen.
  specialize (Hd Hn' eq_refl) as [Hd1 Hd2].
  destruct (os_fopen "w" gen_path _); simpl; [right; by split|].
  destruct (w_fs (n_os n) !! gen_path) as [[]|] eqn:Eg; simpl; try (right; by split);
    rewrite Hd1; simpl; left; (split; [done|]); exists t, l, r; (split; [done|]); (split; [done|]);
    unfold marks; simpl; by rewrite lookup_delete_eq, Hd2.
Qed.

End Commit.

(** ** Deactivation *)
Section Deactivate.
Context `{Os} `{NetOs}.
Context (P : string) (l : list string) (script : string → string → option string).

(** The rdeps file lists [l]; [script] gives the exit actions that exist. *)
Record exits_ok (f : fs) : Prop := {
  ex_rdeps : f !! (P +:+ "/rdeps") = Some (NFile (unlines l));
  ex_script n a : n ∈ l → a ∈ exit_actions → f !! apath P n a = NFile <$> script n a;
}.

Record leave_ok : Prop := {
  lv_chomp s : no_nl s = true → chomp (s +:+ nl) = s;
  lv_open : may_open;
  lv_names n : n ∈ l → name_ok n;
  lv_script n a t : script n a = Some t → script_ok t;
  lv_shell n f : n ∈ l → exits_ok f → exits_ok (sys_fs (apath P n "exit-ethtool.sh") f);
}.

Context (Hlv : leave_ok).

Lemma exit_pipe n a : a ∈ exit_actions → pipe_of (apath P n a) = pipe_of a.
Proof.
  unfold exit_actions. rewrite !elem_of_cons, elem_of_nil.
  intros [->|[->|[->|[]]]]; unfold apath; erewrite pipe_of_app;
    (reflexivity || (erewrite pipe_of_app; reflexivity)).
Qed.

Lemma wp_exit_action n a st :
  n ∈ l → a ∈ exit_actions → exits_ok (w_fs (n_os st)) → usable a st →
  wp (let* x := os (access (apath P n a)) in
      if decide (x ≠ 0) then ret 0 else let* r := run (apath P n a) in ret (0 + r))
    (λ rc st', rc = 0 ∧ ran P script a [n] st st' ∧ exits_ok (w_fs (n_os st'))) st.
Proof.
  intros Hn Ha Hx Hu. pose proof (ex_script _ Hx n a Hn Ha) as Hf.
  apply wp_bind, wp_os. unfold wp at 1, access. destruct (script n a) as [t|] eqn:Es; simpl in Hf.
  - rewrite Hf. simpl. replace (with_os st (n_os st)) with st by (by destruct st).
    apply wp_bind. pose proof (exit_pipe n a Ha) as Ep.
    eapply wp_mono; [apply (wp_run_file (lv_chomp Hlv) (lv_open Hlv) _ t); [done|by eapply lv_script|]|].
    { unfold usable in *. by rewrite Ep. }
    intros rc st' [-> Hd]. apply wp_ret. split; [done|]. unfold did_run, ran, usable in *. rewrite Ep in Hd.
    destruct (pipe_of a) as [id|] eqn:Epa.
    + destruct Hu as [x Hxx]. specialize (Hd x Hxx). unfold set_pipe, modify in Hd. simplify_eq.
      simpl. rewrite Es. simpl. rewrite app_nil_r_s. destruct id; simpl in *; by rewrite Hxx.
    + destruct Hd as [e ->]. simpl. assert (a = "exit-ethtool.sh") as ->.
      { unfold exit_actions in Ha. rewrite !elem_of_cons, elem_of_nil in Ha.
        by destruct Ha as [->|[->|[->|[]]]]. }
      unfold cmds. simpl. rewrite Es. split; [done|]. by apply (lv_shell Hlv).
  - rewrite Hf. simpl. apply wp_ret. split; [done|]. split; [|done].
    pose proof (ran_nil P script a st (with_os st (World (w_fs (n_os st)) ENOENT (w_log (n_os st))))
                  Hu eq_refl eq_refl eq_refl) as Hr.
    unfold ran, cmds in *. simpl in *. rewrite Es. simpl. exact Hr.
Qed.

Lemma wp_rdeps_loop a ns st :
  a ∈ exit_actions → (∀ n, n ∈ ns → n ∈ l) → exits_ok (w_fs (n_os st)) → usable a st →
  wp (foldM (λ rc ifname,
        let cmd := P +:+ "/" +:+ chomp ifname +:+ "/" +:+ a in
        let* x := os (access cmd) in
        if decide (x ≠ 0) then ret rc
        else let* r := run cmd in ret (rc + r)) 0 (map (λ s, s +:+ nl) ns))
    (λ rc st', rc = 0 ∧ ran P script a ns st st' ∧ exits_ok (w_fs (n_os st'))) st.
Proof.
  intros Ha. revert st. induction ns as [|n ns IH]; intros st Hns Hx Hu; simpl.
  { apply wp_ret. split; [done|]. split; [by apply ran_nil|done]. }
  assert (Hn : n ∈ l) by set_solver. apply wp_bind.
  rewrite (lv_chomp Hlv) by apply (lv_names Hlv n Hn).
  replace (P +:+ "/" +:+ n +:+ "/" +:+ a) with (apath P n a)
    by (unfold apath, ipath; by rewrite !app_assoc_s).
  eapply wp_mono; [by apply wp_exit_action|]. intros rc st1 (-> & Hr & Hx1).
  eapply wp_mono; [apply IH; [set_solver|done|by eapply usable_ran]|].
  intros rc st2 (-> & Hr2 & Hx2). split; [done|]. split; [|done].
  by apply (ran_trans P script a [n] ns st st1 st2).
Qed.

Lemma wp_rdeps a st :
  a ∈ exit_actions → exits_ok (w_fs (n_os st)) → usable a st →
  wp (rdeps P a) (λ rc st', rc = 0 ∧ ran P script a l st st' ∧ exits_ok (w_fs (n_os st'))) st.
Proof.
  intros Ha Hx Hu. unfold rdeps. apply wp_bind, wp_os.
  eapply wp_fopen_r; [apply (lv_open Hlv)|apply (ex_rdeps _ Hx)|].
  apply wp_bind, wp_gets. unfold file_text. simpl. rewrite (ex_rdeps _ Hx).
  replace (with_os st (n_os st)) with st by (by destruct st).
  rewrite lines_unlines; [by apply wp_rdeps_loop|].
  apply Forall_forall. intros n Hn. destruct (lv_names Hlv n Hn) as (_ & Hnl & Hl).
  split; [done|]. unfold IFNAMSIZ in Hl. lia.
Qed.
End Deactivate.

Section Leave.
Context `{Os} `{NetOs}.

End Leave.

(** ** ifup and ifdown *)
Section UpDown.
Context `{Os} `{NetOs}.

(** The generation that is current, from the text of the gen file. *)
Context (tg lg rg : string) (Hlg : fgets 40 tg = Some (lg, rg)).

Definition gen_dir_path : string := netdir +:+ "/" +:+ fmt_d (atoi lg).
Definition admin (j : string) : string := gen_dir_path +:+ "/" +:+ j +:+ "/admin-state".
Definition link_cmd (action j : string) : string := "ip link set " +:+ j +:+ " " +:+ action.

Context (l : list string).

(** The current generation is readable; admin-state is a file or missing. *)
Definition current_ok (f : fs) : Prop :=
  is_Some (f !! netdir) ∧ f !! gen_path = Some (NFile tg) ∧
  ∀ j, j ∈ l → f !! admin j = None ∨ ∃ t, f !! admin j = Some (NFile t).

(** The verdict of allowed() on the content of the admin-state file. *)
Definition eligible (f : fs) (j : string) : bool :=
  match f !! admin j with
  | Some (NFile t) =>
      match fgets 128 t with
      | Some (line, _) => negb (streq (chomp line) "disabled")
      | None => true
      end
  | _ => true
  end.

Context (Hopen : may_open).
Context (Hshort : ∀ j, j ∈ l → (String.length (admin j) < 128)%nat).
Context (Hip : ∀ a j f, j ∈ l → sys_fs (link_cmd a j) f = f).

Lemma admin_ne_gen j : admin j ≠ gen_path.
Proof.
  unfold admin, gen_path. change "/gen" with ("/ge" +:+ "n").
  change "/admin-state" with ("/admin-stat" +:+ "e"). rewrite <- !app_assoc_s.
  by apply app_ne_suffix.
Qed.

Lemma admin_ne_net j : admin j ≠ netdir.
Proof.
  unfold admin, gen_dir_path. intros E%(f_equal String.length). rewrite !length_app_s in E. simpl in E. lia.
Qed.

Lemma admin_inj j k : admin j = admin k → j = k.
Proof.
  unfold admin. rewrite <- !app_assoc_s. intros E%app_cancel_r_s%app_inj_l_s. done.
Qed.

Lemma wp_getpath st Q : current_ok (w_fs (n_os st)) → Q gen_dir_path st → wp getpath Q st.
Proof.
  intros ([nd Hd] & Hgen & _) HQ. unfold wp, getpath, getnet, bind, os, access, fopen, fgets_first, gets.
  fold netdir. rewrite Hd. simpl. rewrite (Hopen "r"). fold gen_path. rewrite Hgen. simpl.
  unfold file_text. rewrite Hgen, Hlg. simpl. fold gen_dir_path. by destruct st.
Qed.

Lemma wp_ifadmin j st Q : j ∈ l → current_ok (w_fs (n_os st)) → Q (admin j) st → wp (ifadmin j) Q st.
Proof.
  intros Hj Hc HQ. unfold ifadmin. apply wp_bind, wp_getpath; [done|]. apply wp_ret.
  unfold strlcpy. fold (admin j). rewrite str_take_all; [done|]. specialize (Hshort j Hj). lia.
Qed.

Lemma wp_allowed j st Q :
  j ∈ l → current_ok (w_fs (n_os st)) →
  (∀ st', st' = st ∨ st' = with_os st (World (w_fs (n_os st)) ENOENT (w_log (n_os st))) →
          Q (eligible (w_fs (n_os st)) j) st') →
  wp (allowed j) Q st.
Proof.
  intros Hj Hc HQ. unfold allowed. apply wp_bind, wp_ifadmin; [done..|].
  apply wp_bind, wp_os. unfold wp at 1, fopen. rewrite Hopen. unfold eligible in HQ.
  destruct (w_fs (n_os st) !! admin j) as [[t| |t]|] eqn:E.
  - simpl. unfold wp, bind, os, fgets_first, gets, file_text. simpl. rewrite E.
    destruct (fgets 128 t) as [[line r]|]; simpl; apply HQ; by left; destruct st.
  - destruct Hc as (_ & _ & Hf). specialize (Hf j Hj). naive_solver.
  - destruct Hc as (_ & _ & Hf). specialize (Hf j Hj). naive_solver.
  - simpl. apply wp_ret. apply HQ. by right.
Qed.

(** What one iteration changes: a command is run exactly for an eligible
    interface, and no admin-state but its own is written. *)
Lemma wp_updown_one a j st :
  j ∈ l → current_ok (w_fs (n_os st)) →
  wp (ifupdown_one a j) (λ _ st', iface_list st' = iface_list st ∧
     w_log (n_os st') = w_log (n_os st) ++ (if eligible (w_fs (n_os st)) j then [link_cmd a j] else []) ∧
     current_ok (w_fs (n_os st')) ∧
     (∀ k, k ≠ j ∨ eligible (w_fs (n_os st)) j = false →
        w_fs (n_os st') !! admin k = w_fs (n_os st) !! admin k)) st.
Proof.
  intros Hj Hc. unfold ifupdown_one. apply wp_bind, wp_allowed; [done..|].
  intros st1 Hst1.
  assert (E1 : w_fs (n_os st1) = w_fs (n_os st) ∧ w_log (n_os st1) = w_log (n_os st) ∧ iface_list st1 = iface_list st)
    by (destruct Hst1 as [->| ->]; done).
  destruct E1 as (F1 & L1 & I1). clear Hst1.
  destruct (eligible (w_fs (n_os st)) j); simpl.
  2: { apply wp_ret. rewrite F1, L1, app_nil_r. done. }
  apply wp_bind, wp_os, wp_system. intros e. fold (link_cmd a j). rewrite Hip, F1, L1 by done.
  set (st2 := with_os st1 _). assert (Hc2 : current_ok (w_fs (n_os st2))) by done.
  apply wp_bind. case_decide as Hrc; [|by apply wp_ret, wp_ret].
  apply wp_bind, wp_ifadmin; [done..|]. apply wp_bind, wp_os, wp_fopen_w; [apply Hopen| |].
  { by apply Hc2. }
  apply wp_bind, wp_os. eapply wp_fputs; [apply lookup_insert_eq|]. simpl.
  apply wp_bind, wp_os, wp_ret, wp_ret, wp_ret. simpl. split; [done|]. split; [done|]. split.
  - destruct Hc as (Hd & Hgn & Hf).
    split_and!; [by rewrite !lookup_insert_ne by apply admin_ne_net
                |by rewrite !lookup_insert_ne by apply admin_ne_gen|].
    intros k Hk. destruct (decide (k = j)) as [->|Hne]; [right; rewrite lookup_insert_eq; eauto|].
    rewrite !lookup_insert_ne by (intros E; by apply Hne, eq_sym, admin_inj). auto.
  - intros k [Hk|?]; [|done]. by rewrite !lookup_insert_ne by (intros E; by apply Hk, eq_sym, admin_inj).
Qed.

Lemma wp_updown_loop a js rc st :
  NoDup js → (∀ j, j ∈ js → j ∈ l) → current_ok (w_fs (n_os st)) →
  wp (foldM (λ rc ifname, let* r := ifupdown_one a ifname in ret (rc + r)) rc js)
    (λ _ st', w_log (n_os st') =
       w_log (n_os st) ++ map (link_cmd a) (List.filter (eligible (w_fs (n_os st))) js) ∧
     (∀ k, k ∉ js ∨ eligible (w_fs (n_os st)) k = false →
        w_fs (n_os st') !! admin k = w_fs (n_os st) !! admin k)) st.
Proof.
  intros Hnd. revert rc st. induction Hnd as [|j js Hj Hnd IH]; intros rc st Hl Hc.
  { apply wp_ret. simpl. by rewrite app_nil_r. }
  apply wp_bind, wp_bind. eapply wp_mono; [apply (wp_updown_one a j); [set_solver|done]|].
  intros r st1 (_ & L1 & Hc1 & Hk1). apply wp_ret.
  assert (He : ∀ k, k ≠ j → eligible (w_fs (n_os st1)) k = eligible (w_fs (n_os st)) k)
    by (intros k Hk; unfold eligible; by rewrite Hk1 by auto).
  eapply wp_mono; [apply IH; [set_solver|done]|]. intros r' st2 (L2 & Hk2). split.
  - assert (Ef : List.filter (eligible (w_fs (n_os st1))) js = List.filter (eligible (w_fs (n_os st))) js).
    { clear -He Hj. induction js as [|k js IH]; simpl; [done|].
      rewrite He, IH by set_solver. done. }
    rewrite L2, L1, Ef, <- app_assoc. simpl. by destruct (eligible (w_fs (n_os st)) j).
  - intros k Hk. destruct (decide (k = j)) as [->|Hne].
    + destruct Hk as [Hk|Hk]; [set_solver|]. rewrite Hk2 by auto. by apply Hk1; right.
    + rewrite Hk2; [by apply Hk1; left|]. rewrite He by done. set_solver.
Qed.

(** (C24) ifup and ifdown on a list of interfaces: "ip link set" is run, in
    order, for exactly those that are not administratively disabled in the
    current generation; the state recorded for a disabled interface, or for
    one that is not in the list, is not touched. *)
Theorem ifupdown_skips_disabled (updown : bool) st :
  NoDup l → l ≠ [] → iface_list st = l → current_ok (w_fs (n_os st)) →
  ∃ rc st', ifupdown updown st = (Ret rc, st') ∧
    w_log (n_os st') = w_log (n_os st) ++
      map (link_cmd (if updown then "up" else "down")) (List.filter (eligible (w_fs (n_os st))) l) ∧
    (∀ k, k ∉ l ∨ eligible (w_fs (n_os st)) k = false →
       w_fs (n_os st') !! admin k = w_fs (n_os st) !! admin k).
Proof.
  intros Hnd Hne Hl Hc. apply (wp_run (ifupdown updown)). unfold ifupdown.
  apply wp_bind, wp_gets. rewrite Hl, decide_False by done. apply wp_bind, wp_ret, wp_bind, wp_gets.
  rewrite Hl. by apply wp_updown_loop.
Qed.
End UpDown.
