(* ===== verification/NetDemo.v ===== *)
(** * A small generation for net: a bridge br0 that depends on its port eth0 *)
From S2P Require Import Prelude CString Os Dagger Net NetOrder NetProps.

Open Scope Z_scope.

#[local] Instance demo_os : Os := {|
  os_system cmd f := (0, 0, f);
  os_fopen m p f := None;
  os_fchmod p f := 0;
|}.

Fixpoint chomp1 (s : string) : string :=
  match s with
  | EmptyString => EmptyString
  | String c s' => if decide (s = nl) then EmptyString else String c (chomp1 s')
  end.

#[local] Instance demo_net : NetOs := {|
  scandir p f := if streq p "/run/net/1" then ["br0"; "deps"; "eth0"; "rdeps"]
                 else if streq p "/run/net/1/br0/deps" then ["eth0"] else [];
  os_realpath p f :=
    if streq p "/run/net/1/br0/deps/eth0" then inl "/run/net/1/eth0"
    else if existsb (streq p) ["/run/net/1/br0/init.ip"; "/run/net/1/eth0/init-ethtool.sh"]
    then inl p else inr ENOENT;
  os_popen _ := true;
  getenv _ := None;
  os_makedir _ f := (0, f);
  chomp := chomp1;
  stack := 100;
|}.

Lemma chomp1_line s : no_nl s = true → chomp1 (s +:+ nl) = s.
Proof.
  induction s as [|c s IH]; [done|]. intros Hs. unfold no_nl in Hs. cbn [str_all] in Hs.
  apply andb_true_iff in Hs as [_ Hs]. change (String c s +:+ nl) with (String c (s +:+ nl)).
  cbn [chomp1]. rewrite decide_False; [by rewrite IH|]. intros E. injection E as _ E.
  apply (f_equal String.length) in E. rewrite length_app_s in E. simpl in E. lia.
Qed.

Definition P : string := "/run/net/1".
Definition dep_of (n : string) : list string := if streq n "br0" then ["eth0"] else [].
Definition rank (n : string) : nat := if streq n "br0" then 1 else 0.
Definition br0_ip : string := "link add dev br0 type bridge" +:+ nl.
Definition eth0_sh : string := "ethtool -s eth0 autoneg on" +:+ nl.

Definition script (n a : string) : option string :=
  if streq n "br0" && streq a "init.ip" then Some br0_ip
  else if streq n "eth0" && streq a "init-ethtool.sh" then Some eth0_sh
  else None.

Ltac by_names H := rewrite !elem_of_cons, elem_of_nil in H; repeat destruct H as [->|H]; [..|done].

Lemma demo_tree f :
  f !! "/run/net/1/br0/init.ip" = Some (NFile br0_ip) →
  f !! "/run/net/1/eth0/init-ethtool.sh" = Some (NFile eth0_sh) →
  tree_ok P ["br0"; "eth0"] dep_of script f.
Proof.
  intros H1 H2. split.
  - done.
  - intros n Hn. by_names Hn; done.
  - intros n d Hn Hd. by_names Hn; [|by apply elem_of_nil in Hd].
    change (dep_of "br0") with ["eth0"] in Hd. by_names Hd. done.
  - intros n a Hn Ha. unfold init_actions in Ha. by_names Hn; by_names Ha; done.
Qed.

Lemma demo_gen : gen_ok P ["br0"; "eth0"] dep_of script.
Proof.
  split.
  - exact chomp1_line.
  - done.
  - intros n Hn. by_names Hn; (split; [done|]; split; [done|]; simpl; unfold IFNAMSIZ; lia).
  - intros n a t Hs. unfold script in Hs. repeat case_match; simplify_eq.
    + exists ["link add dev br0 type bridge"]. split; [done|]. constructor; [|done].
      split; [done|]. simpl. lia.
    + exists ["ethtool -s eth0 autoneg on"]. split; [done|]. constructor; [|done].
      split; [done|]. simpl. lia.
  - intros f t Ht. apply demo_tree; rewrite lookup_insert_ne by done.
    + apply (tr_script _ _ _ _ _ Ht "br0" "init.ip"); unfold init_actions; set_solver.
    + apply (tr_script _ _ _ _ _ Ht "eth0" "init-ethtool.sh"); unfold init_actions; set_solver.
  - done.
Qed.

Lemma demo_rank n d :
  n ∈ ["br0"; "eth0"] → d ∈ dep_of n → (d ∈ ["br0"; "eth0"]) ∧ (rank d < rank n)%nat.
Proof.
  intros Hn Hd. by_names Hn; [|by apply elem_of_nil in Hd].
  change (dep_of "br0") with ["eth0"] in Hd. by_names Hd. split; [set_solver|]. vm_compute. lia.
Qed.

Definition files : fs :=
  {[ "/run/net" := NDir; "/run/net/next" := NFile ("1" +:+ nl);
     "/run/net/1/br0/init.ip" := NFile br0_ip;
     "/run/net/1/eth0/init-ethtool.sh" := NFile eth0_sh ]}.

Definition start : net :=
  NetState (World files 0 []) [] 0 (POpen EmptyString) (POpen EmptyString) false false.


(** The whole run, evaluated: eth0 comes before br0. *)
Example demo_run :
  let n := (activate_next start).2 in
  (activate_next start).1 = Ret 0 ∧
  w_log (n_os n) = ["/run/net/1/eth0/init-ethtool.sh";
                    "sed '1!G;h;$!d' < /run/net/1/deps >/run/net/1/rdeps"] ∧
  n_ip n = PClosed br0_ip ∧
  w_fs (n_os n) !! "/run/net/1/deps" = Some (NFile (unlines ["eth0"; "br0"])) ∧
  w_fs (n_os n) !! "/run/net/gen" = Some (NFile ("1" +:+ nl)) ∧
  w_fs (n_os n) !! "/run/net/next" = None.
Proof. vm_compute. repeat split. Qed.


Definition exits (n a : string) : option string :=
  if streq n "br0" && streq a "exit.ip" then Some ("link del dev br0" +:+ nl) else None.

Definition leaving : net :=
  NetState (World {[ "/run/net/1/rdeps" := NFile (unlines ["br0"; "eth0"]);
                     "/run/net/1/br0/exit.ip" := NFile ("link del dev br0" +:+ nl) ]} 0 [])
    [] 0 (POpen EmptyString) (POpen EmptyString) false false.


Definition updown_state : net :=
  NetState (World {[ "/run/net" := NDir; "/run/net/gen" := NFile ("1" +:+ nl);
                     "/run/net/1/eth1/admin-state" := NFile ("disabled" +:+ nl) ]} 0 [])
    ["eth0"; "eth1"] 0 PNull PNull false false.

Lemma ifupdown_skips_disabled_witness :
  ∃ rc st', ifupdown true updown_state = (Ret rc, st') ∧
    w_log (n_os st') = ["ip link set eth0 up"].
Proof.
  destruct (ifupdown_skips_disabled ("1" +:+ nl) ("1" +:+ nl) EmptyString eq_refl
    ["eth0"; "eth1"]) with (updown := true) (st := updown_state) as (rc & st' & E & HL & _).
  - done.
  - intros j Hj. by_names Hj; vm_compute; lia.
  - done.
  - by apply (bool_decide_unpack _); vm_compute.
  - done.
  - done.
  - split; [by exists NDir|]. split; [done|]. intros j Hj. by_names Hj; [by left|right; by eexists].
  - exists rc, st'. split; [exact E|]. rewrite HL. by vm_compute.
Defined.
