(* ===== verification/NetCycle.v ===== *)
(** * deps() of net/src/main.c: when the recursion ends

    The recursion over the links of a generation has no test for interfaces
    it is already in.  It ends exactly where the links have no cycle. *)
From S2P Require Import Prelude CString Os Dagger Net NetOrder NetDemo.

Open Scope Z_scope.

(** ** Partial correctness

    [m] started in a state of [I] returns in one, or never returns. *)
Definition stays {W A} (I : W → Prop) (m : M W A) : Prop := ∀ st, I st →
  match m st with (Ret _, st') => I st' | (Exit _, _) => False | (Crash, _) => True end.

Lemma stays_ret {W A} (I : W → Prop) (a : A) : stays I (ret a).
Proof. by intros st. Qed.

Lemma stays_bind {W A B} (I : W → Prop) (m : M W A) (f : A → M W B) :
  stays I m → (∀ a, stays I (f a)) → stays I (bind m f).
Proof.
  intros Hm Hf st Hst. specialize (Hm st Hst). unfold bind. destruct (m st) as [[a|c|] st']; try done. by apply Hf.
Qed.

Lemma stays_wp {W A} (I : W → Prop) (m : M W A) : (∀ st, I st → wp m (λ _, I) st) → stays I m.
Proof. intros Hm st Hst. specialize (Hm st Hst). unfold wp in Hm. by destruct (m st) as [[] ?]. Qed.

Lemma stays_foreach {W A} (I : W → Prop) (l : list A) body :
  (∀ x, x ∈ l → stays I (body x)) → stays I (foreach l body).
Proof.
  induction l as [|x l IH]; intros Hb; [apply stays_ret|]. apply stays_bind; [apply Hb; set_solver|].
  intros _. apply IH. intros y Hy. apply Hb. set_solver.
Qed.

Lemma bind_crash {W A B} (m : M W A) (f : A → M W B) st : (m st).1 = Crash → (bind m f st).1 = Crash.
Proof. unfold bind. destruct (m st) as [[] ?]; by intros [= ]. Qed.

(** A loop does not return when one of its iterations does not. *)
Lemma foreach_crash {W A} (I : W → Prop) (l : list A) body x st :
  (∀ y, y ∈ l → stays I (body y)) → x ∈ l → (∀ st, I st → (body x st).1 = Crash) → I st →
  (foreach l body st).1 = Crash.
Proof.
  revert st. induction l as [|y l IH]; intros st Hb Hx Hc Hst; [by apply elem_of_nil in Hx|].
  assert (Hy : stays I (body y)) by (apply Hb; set_solver). specialize (Hy st Hst). simpl. unfold bind.
  destruct (body y st) as [[u|c|] st'] eqn:E; [|done|done].
  apply elem_of_cons in Hx as [->|Hx]; [by specialize (Hc st Hst); rewrite E in Hc|].
  apply IH; [intros; apply Hb; set_solver|done..].
Qed.

Section Cycle.
Context `{Os} `{NetOs}.
Context (P : string) (names : list string) (dep_of : string → list string)
  (script : string → string → option string).
Context (Hg : gen_ok P names dep_of script).
Context (Hclosed : ∀ n d, n ∈ names → d ∈ dep_of n → d ∈ names).
Context (a : string) (Ha : a ∈ init_actions).

(** What every state of a run has. *)
Definition going (st : net) : Prop :=
  tree_ok P names dep_of script (w_fs (n_os st)) ∧ usable a st ∧
  ∃ sv, (∀ m, m ∈ sv → m ∈ names) ∧ saved P sv (w_fs (n_os st)).

Lemma going_self n :
  n ∈ names →
  stays going (savedep (ipath P n) ;;;
    let* found := findif n in
    if found : bool then ret 0 else let* rc := own_action P n a in addif n ;;; ret rc).
Proof.
  intros Hn. apply stays_bind; [apply stays_wp|intros _; apply stays_bind; [by intros st|intros [|]; [apply stays_ret|]]].
  - intros st (Ht & Hu & sv & Hsv & Hs). eapply wp_mono; [by apply (wp_savedep P names dep_of script Hg n sv)|].
    intros [] st' (f' & d' & -> & Ht' & Hs'). split; [done|]. split; [unfold usable in *; by destruct (pipe_of a) as [[]|]|].
    eexists. split; [|exact Hs']. unfold insert_last. intros m. case_decide; set_solver.
  - apply stays_bind.
    + apply stays_wp. intros st (Ht & Hu & sv & Hsv & Hs).
      eapply wp_mono; [by apply (wp_own_action P names dep_of script Hg n a)|].
      intros rc st' (_ & Hran & _ & Ht' & Hd). split; [done|]. split; [by eapply usable_ran|].
      exists sv. split; [done|]. unfold saved. by rewrite Hd.
    + intros rc. apply stays_bind; [|intros; apply stays_ret]. intros st (Ht & Hu & Hs). split; [done|].
      split; [unfold usable in *; by destruct (pipe_of a) as [[]|]|done].
Qed.

(** The loop over the links, as deps() has it. *)
Definition links (k : nat) (n d : string) : M net unit :=
  let* rp := realpath ((ipath P n +:+ "/deps") +:+ "/" +:+ d) in
  match rp with None => ret tt | Some rp => let* _ := deps_go k rp d a in ret tt end.

Lemma deps_links k n st :
  n ∈ names → going st →
  deps_go (S k) (ipath P n) n a st =
  (foreach (dep_of n) (links k n) ;;; savedep (ipath P n) ;;;
   let* found := findif n in
   if found : bool then ret 0 else let* rc := own_action P n a in addif n ;;; ret rc) st.
Proof.
  intros Hn Hst. cbn [deps_go]. unfold bind at 1, dir, gets at 1. by rewrite (tr_deps _ _ _ _ _ (proj1 Hst) n Hn).
Qed.

Lemma links_step k n d st :
  n ∈ names → d ∈ dep_of n → going st →
  links k n d st = (let* _ := deps_go k (ipath P d) d a in ret tt) st.
Proof.
  intros Hn Hd (Ht & _). unfold links. rewrite app_assoc_s. unfold bind at 1, realpath.
  by rewrite (tr_link _ _ _ _ _ Ht n d Hn Hd).
Qed.

Lemma going_links k n d :
  (∀ m, m ∈ names → stays going (deps_go k (ipath P m) m a)) → n ∈ names → d ∈ dep_of n →
  stays going (links k n d).
Proof.
  intros Hk Hn Hd st Hst. rewrite links_step by done. revert st Hst.
  apply stays_bind; [by apply Hk; eapply Hclosed|intros; apply stays_ret].
Qed.

Lemma going_deps k n : n ∈ names → stays going (deps_go k (ipath P n) n a).
Proof.
  revert n. induction k as [|k IH]; intros n Hn; [by intros st|].
  intros st Hst. rewrite deps_links by done. revert st Hst.
  apply stays_bind; [|intros _; by apply going_self]. apply stays_foreach. intros d Hd. by apply going_links.
Qed.

Lemma cycle_crash (C : list string) k n st :
  (∀ m, m ∈ C → m ∈ names ∧ ∃ d, d ∈ dep_of m ∧ d ∈ C) → n ∈ C → going st →
  (deps_go k (ipath P n) n a st).1 = Crash.
Proof.
  intros HC. revert n st. induction k as [|k IH]; intros n st Hn Hst; [done|].
  destruct (HC n Hn) as [Hnn (d & Hd & Hdc)]. rewrite deps_links by done. apply bind_crash.
  apply (foreach_crash going _ _ d); [|done| |done].
  - intros y Hy. apply going_links; [intros; by apply going_deps|done..].
  - intros st' Hst'. rewrite links_step by done. apply bind_crash. by apply IH.
Qed.

(** (C10) The recursion of deps() ends exactly where it should: on a
    generation whose links decrease a rank it returns, with a stack as deep
    as the rank; from an interface in a set where every member links to
    another member, a cycle, it never returns, whatever the stack. *)
Theorem deps_termination st :
  tree_ok P names dep_of script (w_fs (n_os st)) → saved P [] (w_fs (n_os st)) → iface_list st = [] → usable a st →
  (∀ rank k n, (∀ m d, m ∈ names → d ∈ dep_of m → (d ∈ names) ∧ (rank d < rank m)%nat) →
     n ∈ names → (rank n < k)%nat → ∃ st', deps_go k (ipath P n) n a st = (Ret 0, st')) ∧
  (∀ (C : list string) k n, (∀ m, m ∈ C → m ∈ names ∧ ∃ d, d ∈ dep_of m ∧ d ∈ C) → n ∈ C →
     (deps_go k (ipath P n) n a st).1 = Crash).
Proof.
  intros Ht Hs Hl Hu. split.
  - intros rank k n Hrank Hn Hk.
    assert (Hs0 : start_ok dep_of names []).
    { split_and!; [|apply NoDup_nil_2|by intros m Hm%elem_of_nil]. by intros [] ? ? ?. }
    assert (Hr : ready P names dep_of script a [] [] st) by by split.
    destruct (wp_run _ _ _ (wp_deps P names dep_of script Hg rank Hrank k n a [] [] st Hn Ha Hk Hr))
      as (rc & st' & E & -> & _). by exists st'.
  - intros C k n HC Hn. apply (cycle_crash C); [done..|]. split_and!; [done..|]. exists []. split; [|done].
    by intros m Hm%elem_of_nil.
Qed.
End Cycle.

(** ** Two interfaces that link to each other *)
Module CycleDemo.
#[local] Instance demo_os : Os := {|
  os_system cmd f := (0, 0, f);
  os_fopen m p f := None;
  os_fchmod p f := 0;
|}.

Definition other (n : string) : list string := if streq n "va" then ["vb"] else ["va"].

#[local] Instance demo_net : NetOs := {|
  scandir p f := if streq p "/run/net/1" then ["va"; "vb"; "deps"]
                 else if streq p "/run/net/1/va/deps" then ["vb"]
                 else if streq p "/run/net/1/vb/deps" then ["va"] else [];
  os_realpath p f := if streq p "/run/net/1/va/deps/vb" then inl "/run/net/1/vb"
                     else if streq p "/run/net/1/vb/deps/va" then inl "/run/net/1/va" else inr ENOENT;
  os_popen _ := true;
  getenv _ := None;
  os_makedir _ f := (0, f);
  chomp := NetDemo.chomp1;
  stack := 100;
|}.

Lemma cycle_tree f : tree_ok "/run/net/1" ["va"; "vb"] other (λ _ _, None) f.
Proof.
  split; [done|..].
  - intros n Hn. by_names Hn; done.
  - intros n d Hn Hd. by_names Hn; unfold other in Hd; simpl in Hd; by_names Hd; done.
  - intros n a Hn Ha. unfold init_actions in Ha. by_names Hn; by_names Ha; done.
Qed.

Lemma cycle_gen : gen_ok "/run/net/1" ["va"; "vb"] other (λ _ _, None).
Proof.
  split; [exact NetDemo.chomp1_line|done| |done|intros; apply cycle_tree|intros; split; [apply cycle_tree|done]].
  intros n Hn. by_names Hn; (split; [done|]; split; [done|]; simpl; unfold IFNAMSIZ; lia).
Qed.

Lemma other_closed n d : n ∈ ["va"; "vb"] → d ∈ other n → d ∈ ["va"; "vb"].
Proof. intros Hn Hd. by_names Hn; unfold other in Hd; simpl in Hd; by_names Hd; set_solver. Qed.

Definition start : net :=
  NetState (World ∅ 0 []) [] 0 (POpen EmptyString) (POpen EmptyString) false false.

Lemma deps_termination_witness :
  (deps_go 1000 "/run/net/1/va" "va" "init.ip" start).1 = Crash.
Proof.
  destruct (deps_termination "/run/net/1" ["va"; "vb"] other (λ _ _, None) cycle_gen other_closed "init.ip"
    ltac:(unfold init_actions; set_solver) start) as [_ Hc].
  - apply cycle_tree.
  - by right.
  - done.
  - by exists EmptyString.
  - apply (Hc ["va"; "vb"] 1000%nat "va"); [|set_solver].
    intros m Hm. split; [done|]. by_names Hm; [exists "vb"|exists "va"]; unfold other; simpl; set_solver.
Defined.
End CycleDemo.
