(* ===== verification/SrxVal.v ===== *)
(** * confd/src/confd/srx_val.c: typed access to sysrepo values

    The state of a callback is the datastore its session works on and the
    operating system.  What sysrepo answers is the class [Sr]: the values an
    xpath selects, and the datastore after a leaf was set.  The variadic
    functions take the formatted xpath. *)
From S2P Require Import Prelude CString Os.

Open Scope Z_scope.

(** The types of sr_val_t the code looks at. *)
Inductive sr_data :=
| SR_BOOL_T (b : bool)
| SR_STRING_T (s : string)
| SR_INT8_T (z : Z) | SR_UINT8_T (z : Z)
| SR_INT16_T (z : Z) | SR_UINT16_T (z : Z)
| SR_INT32_T (z : Z) | SR_UINT32_T (z : Z)
| SR_INT64_T (z : Z) | SR_UINT64_T (z : Z)
| SR_OTHER_T (tag : Z) (text : string).

Record sr_val := SrVal { v_xpath : string; v_data : sr_data }.

(** [SrUnknown] is SR_UNKNOWN_T, "any type". *)
Inductive sr_type := SrUnknown | SrBool | SrUint8 | SrUint32.

Definition has_type (t : sr_type) (v : sr_val) : bool :=
  match t, v_data v with
  | SrUnknown, _ => true
  | SrBool, SR_BOOL_T _ => true
  | SrUint8, SR_UINT8_T _ => true
  | SrUint32, SR_UINT32_T _ => true
  | _, _ => false
  end.

Definition ENODATA : Z := 61.
Definition EOVERFLOW : Z := 75.

Class Sr := {
  ds : Type;
  (** sr_get_items(): result, values, and errno if the call changes it *)
  sr_get_items : ds → string → Z * list sr_val * option Z;
  (** sr_set_item_str() and sr_set_item() with a string *)
  sr_set_item_str : ds → string → string → Z * ds;
  sr_val_to_str : sr_data → string;
}.

Section SrxVal.
Context `{Sr}.

Record sess := Sess { se_ds : ds; se_os : world }.

Definition os {A} (m : M world A) : M sess A := λ s,
  let '(r, w) := m (se_os s) in (r, Sess (se_ds s) w).

Definition get_items (xpath : string) : M sess (Z * list sr_val) :=
  let* s := get in
  let '(rc, vals, e) := sr_get_items (se_ds s) xpath in
  (match e with Some e => os (set_errno e) | None => ret tt end) ;;;
  ret (rc, vals).

(** srx_set_item() with a string value, srx_set_str() *)
Definition srx_set_str (str xpath : string) : M sess Z := λ s,
  let '(rc, d) := sr_set_item_str (se_ds s) xpath str in (Ret rc, Sess d (se_os s)).

Definition srx_set_item (str xpath : string) : M sess Z := srx_set_str str xpath.

(** The result, and the values (their number is the count). *)
Definition srx_vaget (xpath : string) (type : sr_type) : M sess (Z * list sr_val) :=
  let* (rc, vals) := get_items xpath in
  if decide (rc ≠ 0) then ret (-1, vals)
  else
    match vals with
    | [] => os (set_errno ENODATA) ;;; ret (-1, vals)
    | [v] =>
        if has_type type v then ret (0, vals)
        else os (set_errno EINVAL) ;;; ret (-1, vals)
    | _ => os (set_errno EOVERFLOW) ;;; ret (-1, vals)
    end.

(** The result and, when it is 0, the value. *)
Definition get_vabool (xpath : string) : M sess (Z * option bool) :=
  let* (rc, vals) := srx_vaget xpath SrBool in
  if decide (rc ≠ 0) then ret (rc, None)
  else
    match vals with
    | SrVal _ (SR_BOOL_T b) :: _ => ret (0, Some b)
    | _ => crash
    end.

Definition srx_get_bool (xpath : string) : M sess (Z * option bool) := get_vabool xpath.

Definition srx_enabled (xpath : string) : M sess bool :=
  let* (rc, v) := get_vabool xpath in
  ret (if decide (rc ≠ 0) then false else default false v).

(** An int of the C program: the assignment keeps the low 32 bits. *)
Definition int_val (d : sr_data) : option Z :=
  match d with
  | SR_INT8_T z | SR_UINT8_T z | SR_INT16_T z | SR_UINT16_T z
  | SR_INT32_T z | SR_UINT32_T z | SR_INT64_T z | SR_UINT64_T z => Some (s32 z)
  | _ => None
  end.

Definition srx_get_int (type : sr_type) (xpath : string) : M sess (Z * option Z) :=
  let* (rc, vals) := srx_vaget xpath type in
  if decide (rc ≠ 0) then ret (rc, None)
  else
    match vals with
    | v :: _ => ret (match int_val (v_data v) with Some z => (0, Some z) | None => (-1, None) end)
    | [] => crash
    end.

Definition srx_get_str (xpath : string) : M sess (option string) :=
  let* (rc, vals) := srx_vaget xpath SrUnknown in
  if decide (rc ≠ 0) then ret None
  else match vals with v :: _ => ret (Some (sr_val_to_str (v_data v))) | [] => crash end.

(** The result and the count. *)
Definition srx_nitems (xpath : string) : M sess (Z * nat) :=
  os (set_errno 0) ;;;
  let* (rc, vals) := srx_vaget xpath SrUnknown in
  if decide (rc ≠ 0) then
    let* e := gets (λ s, w_errno (se_os s)) in
    ret (if decide (e ≠ 0) then 0 else rc, length vals)
  else ret (0, length vals).

(** ** Facts *)

(** A datastore in which every leaf has at most one value, read without errors. *)
Definition reads (d : ds) (xpath : string) (v : option string) : Prop :=
  match v with
  | Some t => ∃ x, sr_get_items d xpath = (0, [x], None) ∧ sr_val_to_str (v_data x) = t
  | None => sr_get_items d xpath = (0, [], None)
  end.

(** Only the datastore matters for what follows; errno does not. *)
Definition on_ds {A} (m : M sess A) (d : ds) (a : A) (d' : ds) : Prop :=
  ∀ w, ∃ w', m (Sess d w) = (Ret a, Sess d' w') ∧ w_fs w' = w_fs w ∧ w_log w' = w_log w.

Lemma on_bind {A B} (m : M sess A) (f : A → M sess B) d a d1 b d2 :
  on_ds m d a d1 → on_ds (f a) d1 b d2 → on_ds (bind m f) d b d2.
Proof.
  intros Hm Hf w. destruct (Hm w) as (w1 & E1 & F1 & L1). destruct (Hf w1) as (w2 & E2 & F2 & L2).
  exists w2. unfold bind. rewrite E1. split; [done|]. split; congruence.
Qed.

Lemma on_ret {A} (a : A) d : on_ds (ret a) d a d.
Proof. intros w. by exists w. Qed.

Lemma on_get_str d xpath v : reads d xpath v → on_ds (srx_get_str xpath) d v d.
Proof.
  intros Hr w. unfold srx_get_str, srx_vaget, get_items, bind, get. destruct v as [t|]; simpl in *.
  - destruct Hr as (x & E & T). rewrite E. simpl. rewrite T. by exists w.
  - rewrite Hr. simpl. by eexists.
Qed.

Lemma on_nitems d xpath v :
  reads d xpath v → on_ds (srx_nitems xpath) d (0, if v is Some _ then 1%nat else 0%nat) d.
Proof.
  intros Hr w. unfold srx_nitems, srx_vaget, get_items, bind, get. destruct v as [t|]; simpl in *.
  - destruct Hr as (x & E & _). rewrite E. simpl. by eexists.
  - rewrite Hr. simpl. by eexists.
Qed.

Lemma on_set_str d xpath str d' : sr_set_item_str d xpath str = (0, d') → on_ds (srx_set_str str xpath) d 0 d'.
Proof. intros E w. unfold srx_set_str. simpl. rewrite E. by exists w. Qed.
End SrxVal.
