(* ===== verification/IfCand.v ===== *)
(** * confd/src/confd/ietf-interfaces.c: defaults in the candidate datastore

    When the candidate configuration changes, the type of an interface, the
    other end of a veth pair and the settings of a VLAN are inferred from the
    interface's name where they are missing. *)
From S2P Require Import Prelude CString Os SrxVal Lyx Dagger Core IfGen.

Open Scope Z_scope.

Inductive sr_change_oper := SR_OP_CREATED | SR_OP_MODIFIED | SR_OP_DELETED | SR_OP_MOVED.

Definition IF_XPATH : string := "/ietf-interfaces:interfaces/interface".

(** The part of the path up to the first "]" that is followed by a slash. *)
Definition iface_xpath (xpath : string) : option string :=
  match strstr xpath "]/" with
  | None => None
  | Some (before, _) => Some (before +:+ "]")
  end.

(** "[0-9a-z_-]" *)
Definition veth_char (c : ascii) : bool :=
  isdigit c || islower c || bool_decide (c = "_"%char) || bool_decide (c = "-"%char).

Definition pat_vlan_sub : list pat := [PStar; PLit "."%char; PPlus isdigit].

(** The name up to its last dot and what follows the dot. *)
Definition split_name (ifname : string) : option (string * string) :=
  match rindex ifname "."%char with
  | None => None
  | Some EmptyString => None
  | Some (String _ vidstr) => Some (str_take (String.length ifname - S (String.length vidstr)) ifname, vidstr)
  end.

Section IfCand.
Context `{Sr} `{IfEnv}.

Definition parent_leaf (xpath : string) : string := xpath +:+ "/ietf-if-extensions:parent-interface".

Definition tag_leaf (xpath leaf : string) : string :=
  xpath +:+ "/ietf-if-extensions:encapsulation/ietf-if-vlan-encapsulation:dot1q-vlan/outer-tag/" +:+ leaf.

Definition name_count_xpath (ifname : string) : string := "/interfaces/interface[name='" +:+ ifname +:+ "']/name".

Definition peer_xpath (peer leaf : string) : string := IF_XPATH +:+ "[name='" +:+ peer +:+ "']/" +:+ leaf.

Definition ifchange_cand_infer_veth (path : string) : M sess Z :=
  match iface_xpath path with
  | None => ret SR_ERR_SYS
  | Some xpath =>
      let* type := srx_get_str (xpath +:+ "/type") in
      match type with
      | None => ret SR_ERR_OK
      | Some type =>
          if negb (streq type "infix-if-type:veth") then ret SR_ERR_OK
          else
            let* ifname := srx_get_str (xpath +:+ "/name") in
            match ifname with
            | None => ret SR_ERR_OK
            | Some ifname =>
                let* peer := srx_get_str (xpath +:+ "/veth/peer") in
                match peer with
                | None => ret SR_ERR_OK
                | Some peer =>
                    let* (err, cnt) := srx_nitems (name_count_xpath peer) in
                    if decide (err ≠ 0 ∨ cnt ≠ 0%nat) then ret err
                    else
                      let* err := srx_set_str "infix-if-type:veth" (peer_xpath peer "type") in
                      if decide (err ≠ 0) then ret err
                      else srx_set_str ifname (peer_xpath peer "infix-interfaces:veth/peer")
                end
            end
      end
  end.

(** Set a leaf that has no value and go on; only a failure to set it ends
    the inference. *)
Definition infer_leaf (xpath value : string) (k : Z → M sess Z) : M sess Z :=
  let* (err, cnt) := srx_nitems xpath in
  if decide (err = 0 ∧ cnt = 0%nat) then
    let* err := srx_set_item value xpath in
    if decide (err ≠ 0) then ret err else k err
  else k err.

Definition ifchange_cand_infer_vlan (path : string) : M sess Z :=
  match iface_xpath path with
  | None => ret SR_ERR_SYS
  | Some xpath =>
      let* type := srx_get_str (xpath +:+ "/type") in
      match type with
      | None => ret SR_ERR_OK
      | Some type =>
          if negb (streq type "iana-if-type:l2vlan") then ret SR_ERR_OK
          else
            let* ifname := srx_get_str (xpath +:+ "/name") in
            match ifname with
            | None => ret SR_ERR_OK
            | Some ifname =>
                if negb (fnmatch pat_vlan_sub ifname) then ret SR_ERR_OK
                else
                  match split_name ifname with
                  | None => ret SR_ERR_OK
                  | Some (ifname, vidstr) =>
                      let vid := (strtoll vidstr 10).1 in
                      if decide (vid < 1 ∨ 4095 < vid) then ret SR_ERR_OK
                      else
                        let* (err, cnt) := srx_nitems (name_count_xpath ifname) in
                        if decide (err ≠ 0 ∨ cnt = 0%nat) then ret err
                        else
                          infer_leaf (parent_leaf xpath) ifname (λ _,
                          infer_leaf (tag_leaf xpath "tag-type") "ieee802-dot1q-types:c-vlan" (λ _,
                          infer_leaf (tag_leaf xpath "vlan-id") vidstr (λ err, ret err)))
                  end
            end
      end
  end.

(** The type inferred from the name, if any. *)
Definition inferred_type (ifname : string) : option string :=
  if iface_is_phys ifname then Some "iana-if-type:ethernetCsmacd"
  else if fnmatch (plits "br" ++ [PPlus isdigit]) ifname then Some "iana-if-type:bridge"
  else if fnmatch (plits "lag" ++ [PPlus isdigit]) ifname then Some "iana-if-type:ieee8023adLag"
  else if fnmatch (plits "veth" ++ [PPlus veth_char]) ifname then Some "infix-if-type:veth"
  else if fnmatch (plits "vlan" ++ [PPlus isdigit]) ifname then Some "iana-if-type:l2vlan"
  else if fnmatch pat_vlan_sub ifname then Some "iana-if-type:l2vlan"
  else None.

(** The NULL check is on [path], so a path without "]/" is printed as "(null)". *)
Definition ifchange_cand_infer_type (path : string) : M sess Z :=
  let xpath := pstr (iface_xpath path) in
  let* type := srx_get_str (xpath +:+ "/type") in
  match type with
  | Some _ => ret SR_ERR_OK
  | None =>
      let* ifname := srx_get_str (xpath +:+ "/name") in
      match ifname with
      | None => ret SR_ERR_INTERNAL
      | Some ifname =>
          match inferred_type ifname with
          | Some t => srx_set_item t (xpath +:+ "/type")
          | None => ret SR_ERR_OK
          end
      end
  end.

(** One round of the loop. *)
Definition cand_change (path : string) : M sess Z :=
  let* err := ifchange_cand_infer_type path in
  if decide (err ≠ 0) then ret err
  else
    let* err := ifchange_cand_infer_veth path in
    if decide (err ≠ 0) then ret err else ifchange_cand_infer_vlan path.

(** The loop over the changes: it ends at the first error. *)
Fixpoint cand_changes (l : list (sr_change_oper * string)) : M sess unit :=
  match l with
  | [] => ret tt
  | (op, path) :: l' =>
      match op with
      | SR_OP_CREATED | SR_OP_MODIFIED =>
          let* err := cand_change path in
          if decide (err ≠ 0) then ret tt else cand_changes l'
      | _ => cand_changes l'
      end
  end.

(** [iter] is what sr_dup_changes_iter() gives: an error or the changes. *)
Definition ifchange_cand (event : sr_event) (iter : Z * list (sr_change_oper * string)) : M sess Z :=
  match event with
  | SR_EV_UPDATE | SR_EV_CHANGE =>
      if decide (iter.1 ≠ 0) then ret iter.1
      else cand_changes iter.2 ;;; ret SR_ERR_OK
  | _ => ret SR_ERR_OK
  end.
End IfCand.

(** ** Facts *)

Section Facts.
Context `{Sr} `{IfEnv}.

Lemma on_infer_unset d xpath value k d1 r d2 :
  reads d xpath None → sr_set_item_str d xpath value = (0, d1) → on_ds (k 0) d1 r d2 →
  on_ds (infer_leaf xpath value k) d r d2.
Proof.
  intros Hr Es Hk. eapply on_bind; [by apply on_nitems|]. cbn beta iota. rewrite decide_True by done.
  eapply on_bind; [by apply on_set_str|]. by rewrite decide_False by lia.
Qed.

Lemma on_infer_set d xpath value k t r d2 :
  reads d xpath (Some t) → on_ds (k 0) d r d2 → on_ds (infer_leaf xpath value k) d r d2.
Proof.
  intros Hr Hk. eapply on_bind; [by eapply on_nitems|]. cbn beta iota. by rewrite decide_False by naive_solver.
Qed.

(** *** Names of sub-interfaces *)

Lemma split_name_sub parent vid :
  str_all isdigit vid = true → split_name (parent +:+ "." +:+ vid) = Some (parent, vid).
Proof.
  intros Hv. unfold split_name. change ("." +:+ vid) with (String "."%char vid).
  rewrite rindex_app by (by eapply str_all_strchr). f_equal. f_equal.
  rewrite length_app_s. cbn [String.length].
  replace (String.length parent + S (String.length vid) - S (String.length vid))%nat with (String.length parent) by lia.
  apply str_take_app.
Qed.

Lemma sub_matches parent vid :
  str_all isdigit vid = true → vid ≠ EmptyString → fnmatch pat_vlan_sub (parent +:+ "." +:+ vid) = true.
Proof. intros Hv Hne. apply fnmatch_star_dot_plus. eauto. Qed.

(** A name with a dot is none of the other kinds. *)
Lemma dotted_no_match lit f a b :
  strchr lit "."%char = None → f "."%char = false →
  fnmatch (plits lit ++ [PPlus f]) (a +:+ "." +:+ b) = false.
Proof.
  intros Hl Hf. apply not_true_iff_false. intros (r & E & _ & Hr)%fnmatch_lit_plus.
  assert (Hn : strchr (a +:+ "." +:+ b) "."%char = None).
  { rewrite E. apply strchr_app_none. split; [done|]. by eapply str_all_strchr. }
  by apply strchr_app_none in Hn as [_ [? _]%strchr_app_none].
Qed.

Lemma inferred_sub parent vid :
  iface_is_phys (parent +:+ "." +:+ vid) = false → str_all isdigit vid = true → vid ≠ EmptyString →
  inferred_type (parent +:+ "." +:+ vid) = Some "iana-if-type:l2vlan".
Proof.
  intros Hp Hv Hne. unfold inferred_type. rewrite Hp.
  rewrite !(dotted_no_match _ _ parent vid) by done. by rewrite sub_matches.
Qed.
End Facts.

(** ** What sysrepo promises for the leaves of an interface *)

(** The leaves of an interface the inference looks at. *)
Definition leaves (xpath : string) : list string :=
  [xpath +:+ "/name"; xpath +:+ "/type"; xpath +:+ "/veth/peer"; parent_leaf xpath;
   tag_leaf xpath "tag-type"; tag_leaf xpath "vlan-id"].

(** Setting a leaf other than the key of an interface that exists succeeds, gives the leaf that
    value, and changes neither its other leaves nor the set of interfaces. *)
Class SrLeaves `{Sr} (xpath : string) := {
  set_leaf d leaf v : leaf ∈ leaves xpath → leaf ≠ xpath +:+ "/name" →
    ∃ d', sr_set_item_str d leaf v = (0, d') ∧ reads d' leaf (Some v) ∧
      (∀ other u, other ∈ leaves xpath → other ≠ leaf → reads d other u → reads d' other u) ∧
      (∀ n u, (∃ t, reads d (xpath +:+ "/name") (Some t)) →
         reads d (name_count_xpath n) u → reads d' (name_count_xpath n) u);
}.

Section Theorems.
Context `{Sr} `{IfEnv}.

Lemma streq_refl a : streq a a = true.
Proof. by apply bool_decide_eq_true. Qed.

Lemma leaf_ne (xpath a b : string) : a ≠ b → xpath +:+ a ≠ xpath +:+ b.
Proof. intros Hne E. by apply app_inj_l_s in E. Qed.

(** One inferred leaf, with what stays as it was. *)
Lemma infer_missing xpath (HL : SrLeaves xpath) d leaf v k r (Q : ds → Prop) :
  leaf ∈ leaves xpath → leaf ≠ xpath +:+ "/name" → reads d leaf None → (∃ t, reads d (xpath +:+ "/name") (Some t)) →
  (∀ d', reads d' leaf (Some v) →
     (∀ other u, other ∈ leaves xpath → other ≠ leaf → reads d other u → reads d' other u) →
     (∀ n u, reads d (name_count_xpath n) u → reads d' (name_count_xpath n) u) →
     ∃ d2, on_ds (k 0) d' r d2 ∧ Q d2) →
  ∃ d2, on_ds (infer_leaf leaf v k) d r d2 ∧ Q d2.
Proof.
  intros Hin Hkey Hr Hname Hk. destruct (set_leaf d leaf v Hin Hkey) as (d1 & Es & Hv & Hother & Hn).
  destruct (Hk d1 Hv Hother) as (d2 & Hd2 & HQ); [by auto|].
  exists d2. split; [by eapply on_infer_unset|done].
Qed.

Ltac leaf_in := unfold leaves; rewrite !elem_of_cons; tauto.
Ltac leaf_diff :=
  unfold parent_leaf, tag_leaf; apply leaf_ne; apply (bool_decide_unpack _); vm_compute; reflexivity.

Definition is_sub (parent vid : string) : Prop :=
  str_all isdigit vid = true ∧ vid ≠ EmptyString ∧ 1 ≤ (strtoll vid 10).1 ≤ 4095.

(** The VLAN part of the inference. *)
Lemma infer_vlan_sub xpath (HL : SrLeaves xpath) path d parent vid :
  iface_xpath path = Some xpath → is_sub parent vid →
  reads d (xpath +:+ "/type") (Some "iana-if-type:l2vlan") →
  reads d (xpath +:+ "/name") (Some (parent +:+ "." +:+ vid)) →
  reads d (name_count_xpath parent) (Some parent) →
  reads d (parent_leaf xpath) None → reads d (tag_leaf xpath "tag-type") None →
  reads d (tag_leaf xpath "vlan-id") None →
  ∃ d', on_ds (ifchange_cand_infer_vlan path) d 0 d' ∧
    reads d' (xpath +:+ "/type") (Some "iana-if-type:l2vlan") ∧
    reads d' (parent_leaf xpath) (Some parent) ∧
    reads d' (tag_leaf xpath "tag-type") (Some "ieee802-dot1q-types:c-vlan") ∧
    reads d' (tag_leaf xpath "vlan-id") (Some vid).
Proof.
  intros Ex (Hdig & Hne & Hvid) Ht Hn Hc Hp Htag Hid. unfold ifchange_cand_infer_vlan. rewrite Ex.
  assert (Hgo : ∃ d', on_ds (infer_leaf (parent_leaf xpath) parent (λ _,
      infer_leaf (tag_leaf xpath "tag-type") "ieee802-dot1q-types:c-vlan" (λ _,
      infer_leaf (tag_leaf xpath "vlan-id") vid (λ err, ret err)))) d 0 d' ∧
    (reads d' (xpath +:+ "/type") (Some "iana-if-type:l2vlan") ∧
    reads d' (parent_leaf xpath) (Some parent) ∧
    reads d' (tag_leaf xpath "tag-type") (Some "ieee802-dot1q-types:c-vlan") ∧
    reads d' (tag_leaf xpath "vlan-id") (Some vid))).
  { apply (infer_missing xpath HL); [leaf_in|leaf_diff|done|eauto|]. intros d1 R1 O1 C1.
    apply (infer_missing xpath HL); [leaf_in|leaf_diff| | |].
    { apply O1; [leaf_in|leaf_diff|done]. }
    { exists (parent +:+ "." +:+ vid). apply O1; [leaf_in|leaf_diff|done]. }
    intros d2 R2 O2 C2. apply (infer_missing xpath HL); [leaf_in|leaf_diff| | |].
    { apply O2; [leaf_in|leaf_diff|].
      apply O1; [leaf_in|leaf_diff|done]. }
    { exists (parent +:+ "." +:+ vid). apply O2; [leaf_in|leaf_diff|].
      apply O1; [leaf_in|leaf_diff|done]. }
    intros d3 R3 O3 C3. exists d3. split; [apply on_ret|].
    repeat split; try done;
      repeat first [eassumption|leaf_in|leaf_diff|apply O3|apply O2|apply O1]. }
  destruct Hgo as (d' & Hon & HQ). exists d'. split; [|exact HQ].
  eapply on_bind; [by apply on_get_str|]. cbn beta iota. rewrite streq_refl. change (negb true) with false. cbn iota.
  eapply on_bind; [by apply on_get_str|]. cbn beta iota. rewrite sub_matches by done. change (negb true) with false. cbn iota.
  rewrite split_name_sub by done. cbn iota. rewrite decide_False by lia.
  eapply on_bind; [by eapply on_nitems|]. cbn beta iota. rewrite decide_False by naive_solver. exact Hon.
Qed.

Lemma streq_ne a b : a ≠ b → streq a b = false.
Proof. intros. by apply bool_decide_eq_false. Qed.

Lemma infer_type_known path xpath d t :
  iface_xpath path = Some xpath → reads d (xpath +:+ "/type") (Some t) →
  on_ds (ifchange_cand_infer_type path) d 0 d.
Proof.
  intros Ex Ht. unfold ifchange_cand_infer_type. rewrite Ex.
  eapply on_bind; [by apply on_get_str|]. apply on_ret.
Qed.

Lemma infer_veth_other path xpath d t :
  iface_xpath path = Some xpath → reads d (xpath +:+ "/type") (Some t) → t ≠ "infix-if-type:veth" →
  on_ds (ifchange_cand_infer_veth path) d 0 d.
Proof.
  intros Ex Ht Hne. unfold ifchange_cand_infer_veth. rewrite Ex.
  eapply on_bind; [by apply on_get_str|]. cbn beta iota. rewrite streq_ne by done. apply on_ret.
Qed.

(** The three inferences of one change, in order. *)
Lemma on_cand_change path d d1 d2 d3 :
  on_ds (ifchange_cand_infer_type path) d 0 d1 → on_ds (ifchange_cand_infer_veth path) d1 0 d2 →
  on_ds (ifchange_cand_infer_vlan path) d2 0 d3 → on_ds (cand_change path) d 0 d3.
Proof.
  intros H1 H2 H3. unfold cand_change. eapply on_bind; [exact H1|]. rewrite decide_False by lia.
  eapply on_bind; [exact H2|]. by rewrite decide_False by lia.
Qed.


(** An interface with nothing left to infer. *)
Definition complete (d : ds) (xpath : string) : Prop :=
  ∃ type name, reads d (xpath +:+ "/type") (Some type) ∧ reads d (xpath +:+ "/name") (Some name) ∧
    (type = "infix-if-type:veth" → ∃ peer, reads d (xpath +:+ "/veth/peer") (Some peer) ∧
       reads d (name_count_xpath peer) (Some peer)) ∧
    (type = "iana-if-type:l2vlan" → ∀ parent vid, split_name name = Some (parent, vid) →
       (∃ u, reads d (name_count_xpath parent) u) ∧
       ∀ leaf, leaf ∈ [parent_leaf xpath; tag_leaf xpath "tag-type"; tag_leaf xpath "vlan-id"] →
         ∃ v, reads d leaf (Some v)).

Lemma infer_veth_complete path xpath d :
  iface_xpath path = Some xpath → complete d xpath → on_ds (ifchange_cand_infer_veth path) d 0 d.
Proof.
  intros Ex (type & name & Ht & Hn & Hveth & _). unfold ifchange_cand_infer_veth. rewrite Ex.
  eapply on_bind; [by apply on_get_str|]. cbn beta iota.
  destruct (streq type "infix-if-type:veth") eqn:E; [|apply on_ret].
  destruct (Hveth (bool_decide_eq_true_1 _ E)) as (peer & Hp & Hc). change (negb true) with false. cbn iota.
  eapply on_bind; [by apply on_get_str|]. cbn beta iota.
  eapply on_bind; [by apply on_get_str|]. cbn beta iota.
  eapply on_bind; [by eapply on_nitems|]. cbn beta iota. rewrite decide_True by (right; lia). apply on_ret.
Qed.

Lemma infer_vlan_complete path xpath d :
  iface_xpath path = Some xpath → complete d xpath → on_ds (ifchange_cand_infer_vlan path) d 0 d.
Proof.
  intros Ex (type & name & Ht & Hn & _ & Hvlan). unfold ifchange_cand_infer_vlan. rewrite Ex.
  eapply on_bind; [by apply on_get_str|]. cbn beta iota.
  destruct (streq type "iana-if-type:l2vlan") eqn:E; [|apply on_ret].
  specialize (Hvlan (bool_decide_eq_true_1 _ E)). change (negb true) with false. cbn iota.
  eapply on_bind; [by apply on_get_str|]. cbn beta iota.
  destruct (fnmatch pat_vlan_sub name); [|apply on_ret]. change (negb true) with false. cbn iota.
  destruct (split_name name) as [[parent vid]|]; [|apply on_ret].
  destruct (Hvlan parent vid eq_refl) as [[u Hu] Hl]. case_decide; [apply on_ret|].
  eapply on_bind; [by eapply on_nitems|]. cbn beta iota. case_decide; [apply on_ret|].
  destruct (Hl (parent_leaf xpath)) as [v1 R1]; [rewrite !elem_of_cons; tauto|].
  destruct (Hl (tag_leaf xpath "tag-type")) as [v2 R2]; [rewrite !elem_of_cons; tauto|].
  destruct (Hl (tag_leaf xpath "vlan-id")) as [v3 R3]; [rewrite !elem_of_cons; tauto|].
  eapply on_infer_set; [exact R1|]. eapply on_infer_set; [exact R2|]. eapply on_infer_set; [exact R3|]. apply on_ret.
Qed.

(** What the user configured is never overridden: when the interfaces
    that changed have a type, an existing veth peer, and for sub-interfaces a
    parent, tag type and VLAN id, whatever their values, the callback leaves
    the candidate as it is. *)
Theorem inference_keeps_configuration event l d :
  Forall (λ c, c.1 = SR_OP_CREATED ∨ c.1 = SR_OP_MODIFIED →
               ∃ xpath, iface_xpath c.2 = Some xpath ∧ complete d xpath) l →
  on_ds (ifchange_cand event (0, l)) d SR_ERR_OK d.
Proof.
  intros Hl.
  assert (Hloop : on_ds (cand_changes l) d tt d).
  { induction Hl as [|[op path] l Hc _ IH]; [apply on_ret|]. cbn [cand_changes fst snd] in *.
    assert (Hone : (op = SR_OP_CREATED ∨ op = SR_OP_MODIFIED) → on_ds (cand_change path) d 0 d).
    { intros Ho. destruct (Hc Ho) as (xpath & Ex & Hcomp).
      eapply on_cand_change; [|by eapply infer_veth_complete|by eapply infer_vlan_complete].
      destruct Hcomp as (t & n & Ht & _). by eapply infer_type_known. }
    destruct op; try exact IH; (eapply on_bind; [by apply Hone; auto|]); by rewrite decide_False by lia. }
  destruct event; cbn [ifchange_cand fst snd]; try apply on_ret; rewrite decide_False by lia;
    (eapply on_bind; [exact Hloop|apply on_ret]).
Qed.
End Theorems.

(** ** A concrete datastore *)

Module CandDemo.
(** Leaves by their xpath. *)
#[local] Instance demo_sr : Sr := {|
  ds := gmap string string;
  sr_get_items d x := match d !! x with Some t => (0, [SrVal x (SR_STRING_T t)], None) | None => (0, [], None) end;
  sr_set_item_str d x v := (0, <[x := v]> d);
  sr_val_to_str v := match v with SR_STRING_T t => t | _ => EmptyString end;
|}.

#[local] Instance demo_if : IfEnv := {|
  if_json := unit; if_link_show n := if streq n "eth0" then Some tt else None;
  if_link_type _ := Some "ether"; if_info_kind _ := None; if_nametoindex _ := 1;
|}.

Definition vlan10 : string := IF_XPATH +:+ "[name='eth0.10']".

Lemma demo_reads (d : gmap string string) x u : d !! x = u → reads d x u.
Proof. intros E. unfold reads. destruct u as [t|]; simpl; rewrite E; [by eexists|done]. Qed.

Lemma reads_demo (d : gmap string string) x u : reads d x u → d !! x = u.
Proof.
  unfold reads. destruct u as [t|]; simpl; destruct (d !! x) as [t'|]; try done.
  - intros (v & E & T). by simplify_eq/=.
  - by intros (v & E & T).
Qed.

Lemma demo_leaves : SrLeaves vlan10.
Proof.
  constructor. intros d leaf v Hin Hne. change (gmap string string) in d. exists (<[leaf := v]> d : gmap string string). split; [done|].
  split; [apply demo_reads, lookup_insert_eq|]. split.
  - intros other u _ Ho Hr%reads_demo. apply demo_reads. by rewrite lookup_insert_ne.
  - intros n u _ Hr%reads_demo. apply demo_reads. rewrite lookup_insert_ne; [done|]. intros ->.
    unfold leaves in Hin. rewrite !elem_of_cons, elem_of_nil in Hin. naive_solver.
Qed.

Definition cand : ds :=
  ({[ vlan10 +:+ "/name" := "eth0.10"; name_count_xpath "eth0" := "eth0" ]} : gmap string string).


(** A bridge called like a physical interface keeps the type it was given. *)
Definition eth1 : string := IF_XPATH +:+ "[name='eth1']".
Definition given : ds :=
  ({[ eth1 +:+ "/name" := "eth1"; eth1 +:+ "/type" := "iana-if-type:bridge" ]} : gmap string string).

Lemma inference_keeps_configuration_witness :
  on_ds (ifchange_cand SR_EV_CHANGE (0, [(SR_OP_MODIFIED, eth1 +:+ "/type")])) given SR_ERR_OK given.
Proof.
  apply (inference_keeps_configuration SR_EV_CHANGE [(SR_OP_MODIFIED, eth1 +:+ "/type")] given).
  constructor; [|constructor]. intros _. exists eth1. split; [vm_compute; reflexivity|].
  exists "iana-if-type:bridge", "eth1". split; [apply demo_reads; vm_compute; reflexivity|].
  split; [apply demo_reads; vm_compute; reflexivity|]. split; intros ?; discriminate.
Defined.
End CandDemo.
