(* ===== verification/IfCandKeep.v ===== *)
(** * The inference of defaults never overrides the user

    For any datastore that behaves like a tree of leaves, any changeset and
    any failure of sysrepo to set a leaf: what had a value keeps it. *)
From S2P Require Import Prelude CString Os SrxVal Lyx Dagger Core IfGen IfCand.

Open Scope Z_scope.

(** What sysrepo promises for xpaths of single leaves.  Two xpaths may name
    the same leaf; an edit that fails changes nothing that had a value. *)
Class SrTree `{Sr} := {
  good : ds → Prop;
  leaf_path : string → Prop;
  same_leaf : string → string → Prop;
  good_reads d x : good d → leaf_path x → ∃ v, reads d x v;
  same_reads d x y v : good d → same_leaf x y → reads d x v → reads d y v;
  set_good d x v : good d → good (sr_set_item_str d x v).2;
  set_keeps d x v y u : good d → ¬ same_leaf x y → reads d y (Some u) → reads (sr_set_item_str d x v).2 y (Some u);
  (** an interface that is not in the list has no leaves *)
  no_orphans d p leaf : good d → leaf ∈ ["type"; "infix-interfaces:veth/peer"] →
    reads d (name_count_xpath p) None → reads d (peer_xpath p leaf) None;
  name_leaf p : leaf_path (name_count_xpath p);
}.

Section Keep.
Context `{Sr} `{IfEnv} `{!SrTree}.
Context (y u : string).

Definition kept (s : sess) : Prop := good (se_ds s) ∧ reads (se_ds s) y (Some u).

(** A leaf without a value is another one. *)
Lemma unset_other d x : good d → reads d y (Some u) → reads d x None → ¬ same_leaf x y.
Proof.
  intros Hg Hy Hx Hs. apply (same_reads d x y None Hg Hs) in Hx. simpl in *. destruct Hy as (v & E & _). congruence.
Qed.

Lemma wp_get_str x Q s :
  leaf_path x → kept s → (∀ v s', kept s' → se_ds s' = se_ds s → reads (se_ds s) x v → Q v s') → wp (srx_get_str x) Q s.
Proof.
  intros Hx [Hg Hy] HQ. destruct (good_reads _ x Hg Hx) as [v Hv]. destruct s as [d w]. simpl in *.
  destruct (on_get_str d x v Hv w) as (w' & E & _). unfold wp. rewrite E. by apply HQ.
Qed.

Lemma wp_nitems x Q s :
  leaf_path x → kept s →
  (∀ v s', kept s' → se_ds s' = se_ds s → reads (se_ds s) x v → Q (0, if v is Some _ then 1%nat else 0%nat) s') →
  wp (srx_nitems x) Q s.
Proof.
  intros Hx [Hg Hy] HQ. destruct (good_reads _ x Hg Hx) as [v Hv]. destruct s as [d w]. simpl in *.
  destruct (on_nitems d x v Hv w) as (w' & E & _). unfold wp. rewrite E. by apply HQ.
Qed.

Lemma wp_set x v Q s : kept s → ¬ same_leaf x y → (∀ rc s', kept s' → Q rc s') → wp (srx_set_str v x) Q s.
Proof.
  intros [Hg Hy] Hx HQ. unfold wp, srx_set_str. pose proof (set_good (se_ds s) x v Hg) as Hg'.
  pose proof (set_keeps (se_ds s) x v y u Hg Hx Hy) as Hy'. destruct (sr_set_item_str (se_ds s) x v) as [rc d'].
  apply HQ. by split.
Qed.

Abbreviation keeps m := (∀ s, kept s → wp m (λ _, kept) s).

Lemma keeps_type path xpath :
  iface_xpath path = Some xpath → Forall leaf_path (leaves xpath) → keeps (ifchange_cand_infer_type path).
Proof.
  intros Ex Hl s Hs. rewrite Forall_forall in Hl. unfold ifchange_cand_infer_type. rewrite Ex. cbn [pstr default].
  apply wp_bind, wp_get_str; [apply Hl; set_solver|done|]. intros t s1 Hs1 E1 Ht. destruct t as [t|]; [by apply wp_ret|].
  apply wp_bind, wp_get_str; [apply Hl; set_solver|done|]. intros n s2 Hs2 E2 _. destruct n as [n|]; [|by apply wp_ret].
  destruct (inferred_type n) as [ty|]; [|by apply wp_ret].
  apply wp_set; [done| |done]. apply (unset_other (se_ds s2)); [apply Hs2..|]. by rewrite E2, E1.
Qed.

Lemma keeps_veth path xpath :
  iface_xpath path = Some xpath → Forall leaf_path (leaves xpath) → keeps (ifchange_cand_infer_veth path).
Proof.
  intros Ex Hl s Hs. rewrite Forall_forall in Hl. unfold ifchange_cand_infer_veth. rewrite Ex.
  apply wp_bind, wp_get_str; [apply Hl; set_solver|done|]. intros t s1 Hs1 _ _. destruct t as [t|]; [|by apply wp_ret].
  destruct (streq t "infix-if-type:veth"); [|by apply wp_ret]. change (negb true) with false. cbn iota.
  apply wp_bind, wp_get_str; [apply Hl; set_solver|done|]. intros n s2 Hs2 _ _. destruct n as [n|]; [|by apply wp_ret].
  apply wp_bind, wp_get_str; [apply Hl; set_solver|done|]. intros p s3 Hs3 _ _. destruct p as [p|]; [|by apply wp_ret].
  apply wp_bind, wp_nitems; [apply name_leaf|done|]. intros c s4 Hs4 E4 Hc. destruct c as [c|].
  { rewrite decide_True by (right; lia). by apply wp_ret. }
  rewrite decide_False by lia.
  assert (Hother : ∀ leaf, leaf ∈ ["type"; "infix-interfaces:veth/peer"] → ¬ same_leaf (peer_xpath p leaf) y).
  { intros leaf Hin. apply (unset_other (se_ds s3)); [apply Hs3..|]. apply no_orphans; [apply Hs3|done|done]. }
  apply wp_bind, wp_set; [done|apply Hother; set_solver|]. intros rc s5 Hs5. case_decide; [by apply wp_ret|].
  apply wp_set; [done|apply Hother; set_solver|done].
Qed.

Lemma keeps_leaf x v k : leaf_path x → (∀ e, keeps (k e)) → keeps (infer_leaf x v k).
Proof.
  intros Hx Hk s Hs. unfold infer_leaf. apply wp_bind, wp_nitems; [done..|]. intros c s1 Hs1 E1 Hc.
  destruct c as [c|]; [rewrite decide_False by lia; by apply Hk|]. rewrite decide_True by done.
  apply wp_bind, wp_set; [done| |].
  - apply (unset_other (se_ds s1)); [apply Hs1..|]. by rewrite E1.
  - intros rc s2 Hs2. case_decide; [by apply wp_ret|by apply Hk].
Qed.

Lemma keeps_vlan path xpath :
  iface_xpath path = Some xpath → Forall leaf_path (leaves xpath) → keeps (ifchange_cand_infer_vlan path).
Proof.
  intros Ex Hl s Hs. rewrite Forall_forall in Hl. unfold ifchange_cand_infer_vlan. rewrite Ex.
  apply wp_bind, wp_get_str; [apply Hl; set_solver|done|]. intros t s1 Hs1 _ _. destruct t as [t|]; [|by apply wp_ret].
  destruct (streq t "iana-if-type:l2vlan"); [|by apply wp_ret]. change (negb true) with false. cbn iota.
  apply wp_bind, wp_get_str; [apply Hl; set_solver|done|]. intros n s2 Hs2 _ _. destruct n as [n|]; [|by apply wp_ret].
  destruct (fnmatch pat_vlan_sub n); [|by apply wp_ret]. change (negb true) with false. cbn iota.
  destruct (split_name n) as [[parent vid]|]; [|by apply wp_ret]. case_decide; [by apply wp_ret|].
  apply wp_bind, wp_nitems; [apply name_leaf|done|]. intros c s3 Hs3 _ _. case_decide; [by apply wp_ret|].
  revert s3 Hs3. apply keeps_leaf; [apply Hl; set_solver|]. intros _.
  apply keeps_leaf; [apply Hl; set_solver|]. intros _. apply keeps_leaf; [apply Hl; set_solver|]. done.
Qed.

Lemma keeps_change path xpath :
  iface_xpath path = Some xpath → Forall leaf_path (leaves xpath) → keeps (cand_change path).
Proof.
  intros Ex Hl s Hs. unfold cand_change. apply wp_bind. eapply wp_mono; [by eapply keeps_type|].
  intros e s1 Hs1. cbn beta. case_decide; [by apply wp_ret|]. apply wp_bind. eapply wp_mono; [by eapply keeps_veth|].
  intros e' s2 Hs2. cbn beta. case_decide; [by apply wp_ret|]. by eapply keeps_vlan.
Qed.

Lemma keeps_changes l :
  (∀ op path, (op, path) ∈ l → ∃ xpath, iface_xpath path = Some xpath ∧ Forall leaf_path (leaves xpath)) →
  keeps (cand_changes l).
Proof.
  induction l as [|[op path] l IH]; intros Hl s Hs; [by apply wp_ret|].
  assert (Hl' : ∀ op path, (op, path) ∈ l → ∃ xpath, iface_xpath path = Some xpath ∧ Forall leaf_path (leaves xpath))
    by (intros; eapply Hl; by apply elem_of_cons; right).
  destruct (Hl op path) as (xpath & Ex & Hx); [by left|].
  assert (Hdo : wp (let* err := cand_change path in if decide (err ≠ 0) then ret tt else cand_changes l) (λ _, kept) s).
  { apply wp_bind. eapply wp_mono; [by eapply keeps_change|]. intros e s1 Hs1. cbn beta.
    case_decide; [by apply wp_ret|by apply IH]. }
  cbn [cand_changes]. destruct op; try exact Hdo; by apply IH.
Qed.
End Keep.

Section KeepTheorem.
Context `{Sr} `{IfEnv} `{!SrTree}.

(** (C17) What is configured is never overridden: whatever the changeset and
    whether or not sysrepo accepts the edits, after the inference every leaf
    that had a value still has it, and the callback succeeds. *)
Theorem configured_leaves_kept event l d w y u :
  good d →
  (∀ op path, (op, path) ∈ l → ∃ xpath, iface_xpath path = Some xpath ∧ Forall leaf_path (leaves xpath)) →
  reads d y (Some u) →
  ∃ d' w', ifchange_cand event (0, l) (Sess d w) = (Ret SR_ERR_OK, Sess d' w') ∧ reads d' y (Some u).
Proof.
  intros Hg Hl Hy.
  destruct (wp_run _ _ _ (keeps_changes y u l Hl (Sess d w) (conj Hg Hy))) as ([] & [d1 w1] & E & _ & Hy1).
  destruct event; try (exists d, w; split; [reflexivity|exact Hy]); exists d1, w1; (split; [|exact Hy1]);
    unfold ifchange_cand; cbn [fst snd]; rewrite decide_False by (intros Hn; by apply Hn); unfold bind; by rewrite E.
Qed.
End KeepTheorem.

(** ** A datastore in which an interface exists as soon as it has a leaf *)
Module KeepDemo.
Definition query : string := "/interfaces/interface[name='".

(** The quoted name in a query for the name of an interface. *)
Definition queried (x : string) : option string :=
  if str_prefix query x
  then Some (str_take (String.length x - String.length query - 5)
               (String.substring (String.length query) (String.length x) x))
  else None.

Definition has_leaf (d : gmap string string) (q : string) : bool :=
  existsb (λ kv, str_prefix (IF_XPATH +:+ "[name='" +:+ q +:+ "/") kv.1) (map_to_list d).

(** The value of an xpath. *)
Definition value_of (d : gmap string string) (x : string) : option string :=
  match queried x with
  | Some q => if has_leaf d q then Some q else None
  | None => d !! x
  end.

#[local] Instance keep_sr : Sr := {|
  ds := gmap string string;
  sr_get_items d x := (0, match value_of d x with Some t => [SrVal x (SR_STRING_T t)] | None => [] end, None);
  sr_set_item_str d x v := (0, <[x := v]> d);
  sr_val_to_str v := match v with SR_STRING_T t => t | _ => EmptyString end;
|}.

Lemma reads_value (d : gmap string string) x v : reads (d : ds) x v ↔ value_of d x = v.
Proof.
  unfold reads. destruct v as [t|]; simpl; destruct (value_of d x) as [t'|]; split; try naive_solver.
Qed.

Lemma has_leaf_spec d q :
  has_leaf d q = true ↔ ∃ k v, d !! k = Some v ∧ str_prefix (IF_XPATH +:+ "[name='" +:+ q +:+ "/") k = true.
Proof.
  unfold has_leaf. rewrite existsb_exists. setoid_rewrite <- list_elem_of_In. split.
  - intros ([k v] & Hin%elem_of_map_to_list & Hp). eauto.
  - intros (k & v & E & Hp). exists (k, v). by rewrite elem_of_map_to_list.
Qed.

Lemma has_leaf_insert d x v q : has_leaf d q = true → has_leaf (<[x := v]> d) q = true.
Proof.
  rewrite !has_leaf_spec. intros (k & t & E & Hp). destruct (decide (x = k)) as [->|Hne].
  - exists k, v. by rewrite lookup_insert_eq.
  - exists k, t. by rewrite lookup_insert_ne.
Qed.

Lemma str_prefix_app a b : str_prefix a (a +:+ b) = true.
Proof. induction a as [|c a IH]; [done|]. simpl. rewrite bool_decide_true by done. exact IH. Qed.

Lemma substring_all n b : (String.length b ≤ n)%nat → String.substring 0 n b = b.
Proof.
  revert n. induction b as [|c b IH]; intros [|n] Hn; simpl in *; try done; [lia|]. by rewrite IH by lia.
Qed.

Lemma substring_drop a b n : (String.length b ≤ n)%nat → String.substring (String.length a) n (a +:+ b) = b.
Proof. intros Hn. induction a as [|c a IH]; [by apply substring_all|]. exact IH. Qed.

Lemma queried_name p : queried (name_count_xpath p) = Some (p +:+ "']").
Proof.
  unfold queried, name_count_xpath. fold query. rewrite str_prefix_app. f_equal.
  assert (E : p +:+ "']/name" = (p +:+ "']") +:+ "/name") by (by rewrite app_assoc_s).
  rewrite substring_drop by (rewrite !length_app_s; lia). rewrite E, !length_app_s.
  replace (_ - _ - 5)%nat with (String.length (p +:+ "']")) by (rewrite length_app_s; simpl; lia).
  apply str_take_app.
Qed.

Lemma peer_leaf_counts d p leaf v : d !! peer_xpath p leaf = Some v → has_leaf d (p +:+ "']") = true.
Proof.
  intros E. apply has_leaf_spec. exists (peer_xpath p leaf), v. split; [done|].
  assert (Ek : peer_xpath p leaf = (IF_XPATH +:+ "[name='" +:+ (p +:+ "']") +:+ "/") +:+ leaf).
  { unfold peer_xpath. rewrite !app_assoc_s. reflexivity. }
  rewrite Ek. apply str_prefix_app.
Qed.

#[local] Instance keep_tree : SrTree.
Proof.
  refine {| good _ := True; leaf_path _ := True; same_leaf x y := x = y |}; try done.
  - intros d x _ _. exists (value_of d x). by apply reads_value.
  - by intros d x y v _ ->.
  - intros d x v y u _ Hne Hy%reads_value. apply reads_value. unfold value_of in *. simpl.
    destruct (queried y) as [q|].
    + destruct (has_leaf d q) eqn:Eq; [|done]. by rewrite has_leaf_insert.
    + by rewrite lookup_insert_ne.
  - intros d p leaf _ Hin Hr%reads_value. apply reads_value. unfold value_of in *. rewrite queried_name in Hr.
    destruct (has_leaf d (p +:+ "']")) eqn:Eh; [done|]. change (queried (peer_xpath p leaf)) with (@None string).
    cbn iota. destruct (lookup (M := gmap string string) (peer_xpath p leaf) d) eqn:El; [|done].
    apply peer_leaf_counts in El. congruence.
Defined.

#[local] Instance keep_if : IfEnv := {|
  if_json := unit; if_link_show n := None; if_link_type _ := None; if_info_kind _ := None; if_nametoindex _ := 1;
|}.

(** A bridge called like a VLAN keeps its type. *)
Definition odd : string := IF_XPATH +:+ "[name='eth0.10']".
Definition cand : ds := ({[ odd +:+ "/name" := "eth0.10"; odd +:+ "/type" := "iana-if-type:bridge" ]} : gmap string string).

Lemma configured_leaves_kept_witness :
  let w := World ∅ 0 [] in
  ∃ d' w', ifchange_cand SR_EV_CHANGE (0, [(SR_OP_MODIFIED, odd +:+ "/enabled")]) (Sess cand w) = (Ret SR_ERR_OK, Sess d' w') ∧
    reads d' (odd +:+ "/type") (Some "iana-if-type:bridge").
Proof.
  intros w. apply (configured_leaves_kept SR_EV_CHANGE [(SR_OP_MODIFIED, odd +:+ "/enabled")]).
  - exact I.
  - intros op path [= -> ->]%list_elem_of_singleton. exists odd. split; [vm_compute; reflexivity|]. by apply Forall_true.
  - apply reads_value. vm_compute. reflexivity.
Defined.
End KeepDemo.
