(* ===== verification/SysConf.v ===== *)
(** * confd/src/confd/ietf-system.c: clock, NTP, DNS and message of the day

    The callbacks that own a file below /etc.  The new file is written next to
    the old one when the change is validated and takes its place when the
    transaction is done. *)
From S2P Require Import Prelude CString Os Helpers SrxVal Core.

Open Scope Z_scope.

Definition TIMEZONE_CONF : string := "/etc/timezone".
Definition CHRONY_CONF : string := "/etc/chrony.conf".
Definition RESOLV_CONF : string := "/etc/resolv.conf.head".

(** FOO_PREV and FOO_NEXT *)
Definition prev_of (conf : string) : string := conf +:+ "-".
Definition next_of (conf : string) : string := conf +:+ "+".

Section SysConf.
Context `{Os} `{Sr}.

(** The staged file takes the place of the current one, which is kept. *)
Definition install (conf : string) : M sess unit :=
  let* _ := os (remove (prev_of conf)) in
  let* _ := os (rename conf (prev_of conf)) in
  let* _ := os (rename (next_of conf) conf) in
  ret tt.

Definition change_clock (event : sr_event) : M sess Z :=
  match event with
  | SR_EV_ABORT => let* _ := os (remove (next_of TIMEZONE_CONF)) in ret SR_ERR_OK
  | SR_EV_DONE =>
      let* a := os (access (next_of TIMEZONE_CONF)) in
      if decide (a ≠ 0) then ret SR_ERR_OK
      else
        install TIMEZONE_CONF ;;;
        let* _ := os (remove "/etc/localtime-") in
        let* _ := os (rename "/etc/localtime" "/etc/localtime-") in
        let* _ := os (rename "/etc/localtime+" "/etc/localtime") in
        ret SR_ERR_OK
  | SR_EV_ENABLED | SR_EV_CHANGE =>
      let* timezone := srx_get_str "/ietf-system:system/clock/timezone-name" in
      match timezone with
      | None => ret SR_ERR_VALIDATION_FAILED
      | Some timezone =>
          let* _ := os (remove "/etc/localtime+") in
          let* rc := os (system ("ln -s /usr/share/zoneinfo/" +:+ timezone +:+ " /etc/localtime+")) in
          if decide (rc ≠ 0) then ret SR_ERR_VALIDATION_FAILED
          else
            let* rc := os (writesf timezone "w" (next_of TIMEZONE_CONF)) in
            if decide (rc ≠ 0) then ret SR_ERR_SYS else ret SR_ERR_OK
      end
  | _ => ret SR_ERR_OK
  end.

(** One server of the list: what is written for it, and whether it counts. *)
Definition ntp_server (fp xpath : string) : M sess bool :=
  let* addr := srx_get_str (xpath +:+ "/udp/address") in
  match addr with
  | None => ret false
  | Some addr =>
      let* type := srx_get_str (xpath +:+ "/association-type") in
      os (fputs (default "server" type +:+ " " +:+ addr) fp) ;;;
      let* port := srx_get_str (xpath +:+ "/udp/port") in
      (match port with Some p => os (fputs (" port " +:+ p) fp) | None => ret tt end) ;;;
      let* iburst := srx_enabled (xpath +:+ "/iburst") in
      (if iburst : bool then os (fputs " iburst" fp) else ret tt) ;;;
      let* prefer := srx_enabled (xpath +:+ "/prefer") in
      (if prefer : bool then os (fputs " prefer" fp) else ret tt) ;;;
      os (fputs nl fp) ;;;
      ret true
  end.

Definition chrony_tail : list string :=
  ["driftfile /var/lib/chrony/drift" +:+ nl; "makestep 1.0 3" +:+ nl; "maxupdateskew 100.0" +:+ nl;
   "dumpdir /var/lib/chrony" +:+ nl; "rtcfile /var/lib/chrony/rtc" +:+ nl].

(** [valid] starts at -1, is set to 0 by the first server and counts those
    that have an address. *)
Definition ntp_servers (fp : string) (l : list sr_val) : M sess Z :=
  foldM (λ valid v,
    let valid := if decide (valid = -1) then 0 else valid in
    let* ok := ntp_server fp (v_xpath v) in
    ret (if ok : bool then valid + 1 else valid)) (-1) l.

Definition change_ntp (event : sr_event) : M sess Z :=
  let fn := next_of CHRONY_CONF in
  match event with
  | SR_EV_ABORT => let* _ := os (remove fn) in ret SR_ERR_OK
  | SR_EV_DONE =>
      let* a := os (access fn) in
      if decide (a ≠ 0) then ret SR_ERR_OK
      else
        install CHRONY_CONF ;;;
        let* enabled := srx_enabled "/ietf-system:system/ntp/enabled" in
        if enabled : bool then
          let* _ := os (system "initctl -nbq disable chronyd") in ret SR_ERR_OK
        else
          let* _ := os (system "initctl -nbq touch chronyd") in
          let* _ := os (system "initctl -nbq enable chronyd") in
          ret SR_ERR_OK
  | SR_EV_ENABLED | SR_EV_CHANGE =>
      let* (rc, val) := get_items "/ietf-system:system/ntp/server" in
      if decide (rc ≠ 0) then let* _ := os (remove fn) in ret rc
      else
        let* fp := os (fopen fn "w") in
        match fp with
        | None => ret SR_ERR_SYS
        | Some fp =>
            let* valid := ntp_servers fp val in
            foreach chrony_tail (λ line, os (fputs line fp)) ;;;
            let* _ := os (fclose fp) in
            if decide (valid = 0) then let* _ := os (remove fn) in ret SR_ERR_VALIDATION_FAILED
            else ret SR_ERR_OK
        end
  | _ => ret SR_ERR_OK
  end.

Definition string_val (d : sr_data) : option string :=
  match d with SR_STRING_T s => Some s | _ => None end.

(** The body between fopen() and the label fail. *)
Definition dns_write (fp : string) : M sess Z :=
  let* (_, t) := srx_get_int SrUint8 "/ietf-system:system/dns-resolver/options/timeout" in
  let timeout := default 0 t in
  let* (_, t) := srx_get_int SrUint8 "/ietf-system:system/dns-resolver/options/attempts" in
  let timeout := default timeout t in
  let attempts := 0 in
  (if decide (timeout ≠ 0 ∨ attempts ≠ 0) then
     os (fputs "options" fp) ;;;
     (if decide (timeout ≠ 0) then os (fputs (" timeout:" +:+ fmt_d timeout) fp) else ret tt) ;;;
     (if decide (attempts ≠ 0) then os (fputs (" attempts:" +:+ fmt_d attempts +:+ " ") fp) else ret tt) ;;;
     os (fputs nl fp)
   else ret tt) ;;;
  let* (rc, val) := get_items "/ietf-system:system/dns-resolver/search" in
  if decide (rc ≠ 0) then ret rc
  else
    (if decide (val ≠ []) then
       os (fputs "search " fp) ;;;
       foreach val (λ v, let* s := deref (string_val (v_data v)) in os (fputs (s +:+ " ") fp)) ;;;
       os (fputs nl fp)
     else ret tt) ;;;
    let* (rc, val) := get_items "/ietf-system:system/dns-resolver/server" in
    if decide (rc ≠ 0) then ret rc
    else
      foreach val (λ v,
        let* ptr := srx_get_str (v_xpath v +:+ "/udp-and-tcp/address") in
        match ptr with
        | Some ptr => os (fputs ("nameserver " +:+ ptr +:+ nl) fp)
        | None => ret tt
        end) ;;;
      ret SR_ERR_OK.

(** When the file cannot be opened, sr_free_values() gets the pointer [val],
    which was never assigned: a [Crash]. *)
Definition change_dns (event : sr_event) : M sess Z :=
  let fn := next_of RESOLV_CONF in
  match event with
  | SR_EV_ABORT => let* _ := os (remove fn) in ret SR_ERR_OK
  | SR_EV_DONE =>
      let* a := os (access fn) in
      if decide (a ≠ 0) then ret SR_ERR_OK
      else
        install RESOLV_CONF ;;;
        let* rc := os (system "initctl -bq cond get hook/sys/up") in
        if decide (rc ≠ 0) then ret 0
        else let* _ := os (system "resolvconf -u") in ret SR_ERR_OK
  | SR_EV_ENABLED | SR_EV_CHANGE =>
      let* fp := os (fopen fn "w") in
      match fp with
      | None => crash
      | Some fp =>
          let* rc := dns_write fp in
          let* _ := os (fclose fp) in
          (if decide (rc ≠ 0) then let* _ := os (remove fn) in ret tt else ret tt) ;;;
          ret rc
      end
  | _ => ret SR_ERR_OK
  end.

Definition change_motd (xpath : string) (event : sr_event) : M sess Z :=
  if decide (event ≠ SR_EV_DONE) then ret SR_ERR_OK
  else
    let* message := srx_get_str xpath in
    let* rc := match message with
               | Some message => os (writesf message "w" "/etc/motd")
               | None => let* _ := os (remove "/etc/motd") in ret 0
               end in
    if decide (rc ≠ 0) then ret SR_ERR_SYS else ret SR_ERR_OK.
End SysConf.
