(* ===== verification/SysConfProps.v ===== *)
(** * The files of ietf-system: a staged update as an abstract machine *)
From S2P Require Import Prelude CString Os Helpers SrxVal Core SysConf.

Open Scope Z_scope.

(** ** The abstract machine

    A configuration file with its predecessor and, during a transaction, its
    successor. *)
Record staged := Staged { st_conf : option fnode; st_prev : option fnode; st_next : option fnode }.

Inductive staged_step : sr_event → staged → staged → Prop :=
| step_prepare ev c p n n' :
    ev = SR_EV_ENABLED ∨ ev = SR_EV_CHANGE → staged_step ev (Staged c p n) (Staged c p n')
| step_abort c p n : staged_step SR_EV_ABORT (Staged c p n) (Staged c p None)
| step_commit c p n : staged_step SR_EV_DONE (Staged c p (Some n)) (Staged (Some n) c None)
| step_nothing c p : staged_step SR_EV_DONE (Staged c p None) (Staged c p None)
| step_other ev st : ev = SR_EV_UPDATE ∨ ev = SR_EV_RPC → staged_step ev st st.

Definition view_fs (conf : string) (f : fs) : staged :=
  Staged (f !! conf) (f !! prev_of conf) (f !! next_of conf).

(** The commands the callbacks run. *)
Definition sys_cmd (cmd : string) : Prop :=
  (∃ tz, cmd = "ln -s /usr/share/zoneinfo/" +:+ tz +:+ " /etc/localtime+") ∨
  cmd ∈ ["initctl -nbq disable chronyd"; "initctl -nbq touch chronyd"; "initctl -nbq enable chronyd";
         "initctl -bq cond get hook/sys/up"; "resolvconf -u"].

(** They leave the staged files alone. *)
Class QuietSystem `{Os} (conf : string) := {
  quiet_system cmd f p : sys_cmd cmd → p ∈ [conf; prev_of conf; next_of conf] →
    (os_system cmd f).2 !! p = f !! p;
}.

(** ** Steps that leave a set of files alone *)
Section Keep.
Context `{Os} `{Sr}.

Definition s_fs (s : sess) : fs := w_fs (se_os s).

Definition same_on (ps : list string) (s s' : sess) : Prop := ∀ p, p ∈ ps → s_fs s' !! p = s_fs s !! p.

#[export] Instance same_on_preorder ps : PreOrder (same_on ps).
Proof. split; [by intros s p|]. intros s1 s2 s3 E1 E2 p Hp. by rewrite E2, E1. Qed.
End Keep.

Abbreviation keep ps m := (stable (same_on ps) m).

Section KeepOs.
Context `{Os} `{Sr}.


Lemma keep_errno ps e : keep ps (os (set_errno e)).
Proof. by intros s p. Qed.

Lemma keep_access ps q : keep ps (os (access q)).
Proof. intros s p _. unfold os, access, s_fs. by destruct (w_fs (se_os s) !! q). Qed.

Lemma keep_fclose ps q : keep ps (os (fclose q)).
Proof. by intros s p. Qed.

Lemma keep_fputs ps t q : q ∉ ps → keep ps (os (fputs t q)).
Proof. intros Hq s p Hp. unfold s_fs. simpl. apply lookup_alter_ne. set_solver. Qed.

Lemma keep_remove ps q : q ∉ ps → keep ps (os (remove q)).
Proof.
  intros Hq s p Hp. unfold os, remove, s_fs. destruct (w_fs (se_os s) !! q); simpl; [|done].
  apply lookup_delete_ne. set_solver.
Qed.

Lemma keep_rename ps q r : q ∉ ps → r ∉ ps → keep ps (os (rename q r)).
Proof.
  intros Hq Hr s p Hp. unfold os, rename, s_fs. destruct (w_fs (se_os s) !! q); simpl; [|done].
  rewrite lookup_insert_ne by set_solver. apply lookup_delete_ne. set_solver.
Qed.

Lemma keep_fopen ps q mode : q ∉ ps → keep ps (os (fopen q mode)).
Proof.
  intros Hq s p Hp. assert (q ≠ p) by set_solver. unfold os, fopen, s_fs.
  repeat case_match; simplify_eq/=; try done; by rewrite lookup_insert_ne.
Qed.

Lemma keep_system ps cmd :
  (∀ f p, p ∈ ps → (os_system cmd f).2 !! p = f !! p) → keep ps (os (system cmd)).
Proof.
  intros Hc s p Hp. unfold os, system, s_fs. specialize (Hc (w_fs (se_os s)) p Hp).
  by destruct (os_system cmd _) as [[rc e] f].
Qed.

Lemma keep_get_items ps x : keep ps (get_items x).
Proof.
  apply stable_bind; [apply _|apply stable_get, _|]. intros s. destruct (sr_get_items _ _) as [[rc vals] e].
  apply stable_bind; [apply _|destruct e; [apply keep_errno|apply stable_ret, _]|]. intros _. apply stable_ret, _.
Qed.
End KeepOs.

Create HintDb keep discriminated.
#[export] Hint Resolve stable_ret stable_crash stable_deref stable_get stable_gets keep_errno keep_access keep_fclose
  keep_get_items : keep.

Ltac keep_step :=
  first [ stable_step
        | match goal with
          | |- stable _ (os (fputs _ _)) => by apply keep_fputs
          | |- stable _ (os (remove _)) => by apply keep_remove
          | |- stable _ (os (fopen _ _)) => by apply keep_fopen
          | |- stable _ (os (rename _ _)) => by apply keep_rename
          | |- stable _ _ => solve [auto with keep typeclass_instances]
          end ].
Ltac keep := cbv beta zeta iota; repeat keep_step.

Section KeepCalls.
Context `{Os} `{Sr}.

Lemma keep_vaget ps x t : keep ps (srx_vaget x t).
Proof. unfold srx_vaget. keep. Qed.

Lemma keep_get_str ps x : keep ps (srx_get_str x).
Proof. unfold srx_get_str. keep; apply keep_vaget. Qed.

Lemma keep_enabled ps x : keep ps (srx_enabled x).
Proof. unfold srx_enabled, get_vabool. keep; apply keep_vaget. Qed.

Lemma keep_get_int ps t x : keep ps (srx_get_int t x).
Proof. unfold srx_get_int. keep; apply keep_vaget. Qed.
End KeepCalls.
#[export] Hint Resolve keep_vaget keep_get_str keep_enabled keep_get_int : keep.

Ltac not_listed := apply (bool_decide_unpack _); vm_compute; reflexivity.

Section Refine.
Context `{Os} `{Sr}.

Lemma keep_open ps q mode {B} (f : option string → M sess B) :
  q ∉ ps → keep ps (f None) → keep ps (f (Some q)) → keep ps (bind (os (fopen q mode)) f).
Proof.
  intros Hq Hn Hs s p Hp. pose proof (keep_fopen ps q mode Hq s p Hp) as Ho. unfold bind.
  assert (Hr : (os (fopen q mode) s).1 = Ret None ∨ (os (fopen q mode) s).1 = Ret (Some q)).
  { unfold os, fopen. repeat case_match; simplify_eq/=; auto. }
  destruct (os (fopen q mode) s) as [r s1]. simpl in *.
  destruct Hr as [-> | ->]; rewrite <- Ho; [by apply Hn|by apply Hs].
Qed.

Lemma keep_writesf ps t q : q ∉ ps → keep ps (os (writesf t "w" q)).
Proof.
  intros Hq s p Hp.
  pose proof (keep_open ps q "w" (λ fp, match fp with
    | None => ret (-1) | Some fp => os (fputs (t +:+ nl) fp) ;;; os (fclose fp) end) Hq) as Hk.
  specialize (Hk ltac:(keep) ltac:(keep) s p Hp). rewrite <- Hk. f_equal. unfold s_fs, os, writesf, open_file, bind.
  destruct (fopen q "w" (se_os s)) as [[[fp|]|c|] w]; done.
Qed.

Lemma view_eq (s s' : sess) conf :
  (∀ p, p ∈ [conf; prev_of conf; next_of conf] → s_fs s' !! p = s_fs s !! p) →
  view_fs conf (s_fs s') = view_fs conf (s_fs s).
Proof. intros E. unfold view_fs. rewrite !E by set_solver. done. Qed.

(** A callback that prepares: conf and prev stay. *)
Lemma prepare_refines {A} conf (m : M sess A) ev s :
  ev = SR_EV_ENABLED ∨ ev = SR_EV_CHANGE → keep [conf; prev_of conf] m →
  staged_step ev (view_fs conf (s_fs s)) (view_fs conf (s_fs (m s).2)).
Proof.
  intros Hev Hk. unfold view_fs. rewrite !Hk by set_solver. by apply step_prepare.
Qed.

Lemma abort_refines conf (s : sess) :
  next_of conf ∉ [conf; prev_of conf] →
  let r := (let* _ := os (remove (next_of conf)) in ret SR_ERR_OK) s in
  r.1 = Ret SR_ERR_OK ∧ staged_step SR_EV_ABORT (view_fs conf (s_fs s)) (view_fs conf (s_fs r.2)).
Proof.
  intros Hn. unfold bind, os, remove, view_fs, s_fs. destruct (w_fs (se_os s) !! next_of conf) eqn:E; simpl; (split; [done|]).
  - rewrite lookup_delete_eq, !lookup_delete_ne by set_solver. apply step_abort.
  - rewrite E. apply step_abort.
Qed.

(** The three moves of a commit. *)
Lemma install_refines conf (s : sess) n :
  NoDup [conf; prev_of conf; next_of conf] → s_fs s !! next_of conf = Some n →
  ∃ s', install conf s = (Ret tt, s') ∧ se_ds s' = se_ds s ∧
    view_fs conf (s_fs s') = Staged (Some n) (s_fs s !! conf) None.
Proof.
  intros Hnd En. rewrite !NoDup_cons, !not_elem_of_cons in Hnd. destruct Hnd as ((H1 & H2 & _) & (H3 & _) & _).
  unfold install, bind, os, remove, rename, s_fs in *. destruct s as [d [f e l]]; simpl in *.
  destruct (f !! prev_of conf) as [np|] eqn:Ep; simpl.
  - rewrite lookup_delete_ne by done. destruct (f !! conf) as [nc|] eqn:Ec; simpl.
    + rewrite lookup_insert_ne, !lookup_delete_ne by done. rewrite En. simpl. eexists. split; [done|]. split; [done|].
      unfold view_fs. simpl.
      rewrite lookup_insert_eq, !(lookup_insert_ne _ conf), lookup_delete_ne, lookup_insert_eq, lookup_delete_eq by done.
      done.
    + rewrite lookup_delete_ne by done. rewrite En. simpl. eexists. split; [done|]. split; [done|].
      unfold view_fs. simpl.
      rewrite lookup_insert_eq, !(lookup_insert_ne _ conf), (lookup_delete_ne _ (next_of conf)), !lookup_delete_eq by done.
      done.
  - destruct (f !! conf) as [nc|] eqn:Ec; simpl.
    + rewrite lookup_insert_ne, lookup_delete_ne by done. rewrite En. simpl. eexists. split; [done|]. split; [done|].
      unfold view_fs. simpl.
      rewrite lookup_insert_eq, !(lookup_insert_ne _ conf), lookup_delete_ne, lookup_insert_eq, lookup_delete_eq by done.
      done.
    + rewrite En. simpl. eexists. split; [done|]. split; [done|]. unfold view_fs. simpl.
      rewrite lookup_insert_eq, !(lookup_insert_ne _ conf), lookup_delete_ne, lookup_delete_eq by done. by rewrite Ep.
Qed.

(** The shape of the three callbacks at SR_EV_DONE; [k] is what follows the moves. *)
Lemma done_refines conf (k : M sess Z) (s : sess) :
  NoDup [conf; prev_of conf; next_of conf] → keep [conf; prev_of conf; next_of conf] k →
  (∀ s, (k s).1 = Ret SR_ERR_OK) →
  let r := (let* a := os (access (next_of conf)) in
            if decide (a ≠ 0) then ret SR_ERR_OK else install conf ;;; k) s in
  r.1 = Ret SR_ERR_OK ∧ staged_step SR_EV_DONE (view_fs conf (s_fs s)) (view_fs conf (s_fs r.2)).
Proof.
  intros Hnd Hk Hret. destruct (s_fs s !! next_of conf) as [n|] eqn:En.
  - destruct (install_refines conf s n Hnd En) as (s1 & E1 & _ & Ev).
    assert (Hgo : (let* a := os (access (next_of conf)) in
        if decide (a ≠ 0) then ret SR_ERR_OK else install conf ;;; k) s = k s1).
    { unfold bind at 1. unfold os at 1, access. unfold s_fs in En. rewrite En. destruct s as [d w]. simpl in *.
      unfold bind. by rewrite E1. }
    rewrite Hgo. split; [apply Hret|]. rewrite (view_eq s1 (k s1).2); [|intros p Hp; by apply Hk].
    rewrite Ev. unfold view_fs. rewrite En. apply step_commit.
  - unfold bind, os, access, s_fs in *. rewrite En. simpl. split; [done|]. unfold view_fs. rewrite En. apply step_nothing.
Qed.

Lemma keep_sys_cmd conf `{!QuietSystem conf} cmd :
  sys_cmd cmd → keep [conf; prev_of conf; next_of conf] (os (system cmd)).
Proof. intros Hc. apply keep_system. intros f p Hp. by apply quiet_system. Qed.

Lemma os_ret {A} (m : M world A) (s : sess) (Q : A → Prop) :
  (∃ a, (m (se_os s)).1 = Ret a ∧ Q a) → ∃ a, (os m s).1 = Ret a ∧ Q a.
Proof. unfold os. by destruct (m (se_os s)). Qed.
End Refine.

(** Calls that always return, and with what. *)
Section Returns.
Context `{Os} `{Sr}.

Definition returns {A} (m : M sess A) (Q : A → Prop) : Prop := ∀ s, ∃ a, (m s).1 = Ret a ∧ Q a.

Lemma returns_ret {A} (a : A) (Q : A → Prop) : Q a → returns (ret a) Q.
Proof. intros Ha s. eauto. Qed.

Lemma returns_bind {A B} (m : M sess A) (f : A → M sess B) (R : A → Prop) Q :
  returns m R → (∀ a, R a → returns (f a) Q) → returns (bind m f) Q.
Proof.
  intros Hm Hf s. destruct (Hm s) as (a & E & Ha). unfold bind. destruct (m s) as [r s']. simpl in E. subst r.
  by apply Hf.
Qed.

Lemma returns_decide {A} P `{Decision P} (m1 m2 : M sess A) Q :
  (P → returns m1 Q) → (¬ P → returns m2 Q) → returns (if decide P then m1 else m2) Q.
Proof. case_decide; auto. Qed.

Lemma returns_remove q : returns (os (remove q)) (λ _, True).
Proof. intros s. unfold os, remove. destruct (w_fs (se_os s) !! q); simpl; eauto. Qed.

Lemma returns_rename q r : returns (os (rename q r)) (λ _, True).
Proof. intros s. unfold os, rename. destruct (w_fs (se_os s) !! q); simpl; eauto. Qed.

Lemma returns_system cmd : returns (os (system cmd)) (λ _, True).
Proof. intros s. unfold os, system. destruct (os_system cmd _) as [[]]; simpl; eauto. Qed.

Lemma returns_get_items x : returns (get_items x) (λ _, True).
Proof.
  intros s. unfold get_items, bind, get. destruct (sr_get_items _ _) as [[rc vals] e].
  destruct e; simpl; eauto.
Qed.

Lemma returns_errno e : returns (os (set_errno e)) (λ _, True).
Proof. intros s. by exists tt. Qed.

(** With result 0 there is one value, of the type that was asked for. *)
Lemma returns_vaget x t :
  returns (srx_vaget x t) (λ r, r.1 = 0 → ∃ v, r.2 = [v] ∧ has_type t v = true).
Proof.
  unfold srx_vaget. eapply returns_bind; [apply returns_get_items|]. intros [rc vals] _.
  apply returns_decide; intros Hrc; [apply returns_ret; by intros [=]|]. destruct vals as [|v [|v' l]].
  - eapply returns_bind; [apply returns_errno|]. intros _ _. apply returns_ret; by intros [=].
  - destruct (has_type t v) eqn:E; [apply returns_ret; naive_solver|].
    eapply returns_bind; [apply returns_errno|]. intros _ _. apply returns_ret; by intros [=].
  - eapply returns_bind; [apply returns_errno|]. intros _ _. apply returns_ret; by intros [=].
Qed.

Lemma returns_enabled x : returns (srx_enabled x) (λ _, True).
Proof.
  unfold srx_enabled. eapply (returns_bind _ _ (λ _, True)); [|intros [rc v] _; by apply returns_ret].
  unfold get_vabool. eapply returns_bind; [apply returns_vaget|]. intros [rc vals] Hv.
  apply returns_decide; intros Hrc; [by apply returns_ret|]. simpl in Hv.
  destruct Hv as (v & -> & Ht); [by destruct (decide (rc = 0))|].
  destruct v as [xp []]; try done. by apply returns_ret.
Qed.
End Returns.

#[export] Hint Resolve returns_remove returns_rename returns_system returns_enabled : keep.

Section Staging.
Context `{Os} `{Sr}.

(** What each callback does after the moves keeps the files and returns SR_ERR_OK. *)
Definition harmless (conf : string) (k : M sess Z) : Prop :=
  keep [conf; prev_of conf; next_of conf] k ∧ ∀ s, (k s).1 = Ret SR_ERR_OK.

Lemma harmless_intro conf k :
  keep [conf; prev_of conf; next_of conf] k → returns k (λ r, r = SR_ERR_OK) → harmless conf k.
Proof. intros Hk Hr. split; [done|]. intros s. by destruct (Hr s) as (a & E & ->). Qed.

Lemma clock_after_install :
  harmless TIMEZONE_CONF (let* _ := os (remove "/etc/localtime-") in
    let* _ := os (rename "/etc/localtime" "/etc/localtime-") in
    let* _ := os (rename "/etc/localtime+" "/etc/localtime") in ret SR_ERR_OK).
Proof.
  apply harmless_intro; [keep; first [apply keep_remove|apply keep_rename]; not_listed|].
  repeat (eapply returns_bind; [auto with keep|intros ? _]). by apply returns_ret.
Qed.

Lemma ntp_after_install `{!QuietSystem CHRONY_CONF} :
  harmless CHRONY_CONF (let* enabled := srx_enabled "/ietf-system:system/ntp/enabled" in
    if enabled : bool then let* _ := os (system "initctl -nbq disable chronyd") in ret SR_ERR_OK
    else let* _ := os (system "initctl -nbq touch chronyd") in
         let* _ := os (system "initctl -nbq enable chronyd") in ret SR_ERR_OK).
Proof.
  apply harmless_intro.
  - keep; apply (keep_sys_cmd CHRONY_CONF); right; set_solver.
  - eapply returns_bind; [auto with keep|intros b _]. destruct b;
      repeat (eapply returns_bind; [auto with keep|intros ? _]); by apply returns_ret.
Qed.

Lemma dns_after_install `{!QuietSystem RESOLV_CONF} :
  harmless RESOLV_CONF (let* rc := os (system "initctl -bq cond get hook/sys/up") in
    if decide (rc ≠ 0) then ret 0 else let* _ := os (system "resolvconf -u") in ret SR_ERR_OK).
Proof.
  apply harmless_intro.
  - keep; apply (keep_sys_cmd RESOLV_CONF); right; set_solver.
  - eapply returns_bind; [auto with keep|intros rc _]. apply returns_decide; intros _; [by apply returns_ret|].
    eapply returns_bind; [auto with keep|intros ? _]. by apply returns_ret.
Qed.

Lemma clock_prepare `{!QuietSystem TIMEZONE_CONF} ev :
  ev = SR_EV_ENABLED ∨ ev = SR_EV_CHANGE → keep [TIMEZONE_CONF; prev_of TIMEZONE_CONF] (change_clock ev).
Proof.
  intros Hev. assert (Hq : ∀ tz, keep [TIMEZONE_CONF; prev_of TIMEZONE_CONF]
      (os (system ("ln -s /usr/share/zoneinfo/" +:+ tz +:+ " /etc/localtime+")))).
  { intros tz. apply keep_system. intros f p Hp. apply (quiet_system (conf := TIMEZONE_CONF)); [by left; eauto|set_solver]. }
  destruct Hev as [-> | ->]; unfold change_clock; keep; try apply Hq; try (apply keep_remove; not_listed);
    apply keep_writesf; not_listed.
Qed.

Lemma ntp_prepare ev :
  ev = SR_EV_ENABLED ∨ ev = SR_EV_CHANGE → keep [CHRONY_CONF; prev_of CHRONY_CONF] (change_ntp ev).
Proof.
  intros Hev. assert (Hn : next_of CHRONY_CONF ∉ [CHRONY_CONF; prev_of CHRONY_CONF]) by not_listed.
  destruct Hev as [-> | ->]; unfold change_ntp; cbv zeta; (apply stable_bind; [apply _|auto with keep|intros [rc val]]);
    (apply stable_decide; [keep|]); (apply keep_open; [done|keep|]); unfold ntp_servers, ntp_server; keep.
Qed.

Lemma dns_prepare ev :
  ev = SR_EV_ENABLED ∨ ev = SR_EV_CHANGE → keep [RESOLV_CONF; prev_of RESOLV_CONF] (change_dns ev).
Proof.
  intros Hev. assert (Hn : next_of RESOLV_CONF ∉ [RESOLV_CONF; prev_of RESOLV_CONF]) by not_listed.
  destruct Hev as [-> | ->]; unfold change_dns; cbv zeta; (apply keep_open; [done|keep|]); unfold dns_write; keep.
Qed.

(** The callbacks with their file. *)
Inductive staged_cb : (sr_event → M sess Z) → string → Prop :=
| cb_clock : staged_cb change_clock TIMEZONE_CONF
| cb_ntp : staged_cb change_ntp CHRONY_CONF
| cb_dns : staged_cb change_dns RESOLV_CONF.

(** (C6) The files of the clock, NTP and DNS callbacks are updated
    atomically with the transaction.  Whatever the callback is called with,
    it takes a step of the abstract machine: validating a change touches
    neither the file in use nor its predecessor; an abort drops the staged
    file; only when the transaction is done does the staged file, if there
    is one, replace the file in use, which becomes the predecessor.  Abort
    and done always succeed. *)
Theorem staged_files_refine cb conf `{!QuietSystem conf} ev s :
  staged_cb cb conf →
  staged_step ev (view_fs conf (s_fs s)) (view_fs conf (s_fs (cb ev s).2)) ∧
  (ev = SR_EV_ABORT ∨ ev = SR_EV_DONE → (cb ev s).1 = Ret SR_ERR_OK).
Proof.
  intros Hcb.
  assert (Hnd : NoDup [conf; prev_of conf; next_of conf]) by (destruct Hcb; not_listed).
  assert (Hn : next_of conf ∉ [conf; prev_of conf]) by (destruct Hcb; not_listed).
  destruct ev.
  - destruct Hcb; (split; [by apply step_other; left|naive_solver]).
  - split; [|naive_solver]. apply prepare_refines; [by right|].
    destruct Hcb; [apply clock_prepare|apply ntp_prepare|apply dns_prepare]; by right.
  - destruct Hcb; [destruct clock_after_install as [Hk Hr]|destruct ntp_after_install as [Hk Hr]
                  |destruct dns_after_install as [Hk Hr]];
      destruct (done_refines _ _ s Hnd Hk Hr) as [Hret Hstep]; split; done.
  - destruct (abort_refines conf s Hn) as [Hret Hstep]. destruct Hcb; (split; [exact Hstep|intros _; exact Hret]).
  - split; [|naive_solver]. apply prepare_refines; [by left|].
    destruct Hcb; [apply clock_prepare|apply ntp_prepare|apply dns_prepare]; by left.
  - destruct Hcb; (split; [by apply step_other; right|naive_solver]).
Qed.
End Staging.
