(* ===== verification/SysNtp.v ===== *)
(** * The NTP configuration as a function of the datastore *)
From S2P Require Import Prelude CString Os Helpers SrxVal Core SysConf SysConfProps.

Open Scope Z_scope.

(** ** Reference: the file for a list of servers *)

Record ntp_entry := NtpEntry {
  ne_addr : option string; ne_type : option string; ne_port : option string;
  ne_iburst : bool; ne_prefer : bool;
}.

Definition entry_text (e : ntp_entry) : string :=
  match ne_addr e with
  | None => EmptyString
  | Some addr =>
      default "server" (ne_type e) +:+ " " +:+ addr +:+
      (match ne_port e with Some p => " port " +:+ p | None => EmptyString end) +:+
      (if ne_iburst e then " iburst" else EmptyString) +:+
      (if ne_prefer e then " prefer" else EmptyString) +:+ nl
  end.

Fixpoint texts (l : list string) : string :=
  match l with [] => EmptyString | t :: l' => t +:+ texts l' end.

Definition chrony_text (l : list ntp_entry) : string := texts (entry_text <$> l) +:+ texts chrony_tail.

Definition has_addr (e : ntp_entry) : bool := bool_decide (is_Some (ne_addr e)).

(** The change is refused when there are servers but none has an address. *)
Definition ntp_accepted (l : list ntp_entry) : bool := bool_decide (l = []) || existsb has_addr l.

Section Ntp.
Context `{Os} `{Sr}.

(** A boolean leaf of the datastore; a missing one counts as false. *)
Definition reads_bool (d : ds) (x : string) (b : bool) : Prop :=
  (∃ xp, sr_get_items d x = (0, [SrVal xp (SR_BOOL_T b)], None)) ∨
  (b = false ∧ sr_get_items d x = (0, [], None)).

Definition entry_of (d : ds) (v : sr_val) (e : ntp_entry) : Prop :=
  let x := v_xpath v in
  reads d (x +:+ "/udp/address") (ne_addr e) ∧ reads d (x +:+ "/association-type") (ne_type e) ∧
  reads d (x +:+ "/udp/port") (ne_port e) ∧ reads_bool d (x +:+ "/iburst") (ne_iburst e) ∧
  reads_bool d (x +:+ "/prefer") (ne_prefer e).

(** ** Writing to an open file *)

(** [m] returns [a], leaves the datastore alone and appends [t] to [fp]. *)
Definition writes {A} (d : ds) (fp : string) (m : M sess A) (a : A) (t : string) : Prop :=
  ∀ w text, w_fs w !! fp = Some (NFile text) →
    ∃ w', m (Sess d w) = (Ret a, Sess d w') ∧ w_fs w' = <[fp := NFile (text +:+ t)]> (w_fs w).

Lemma writes_bind {A B} d fp (m : M sess A) (f : A → M sess B) a t b u :
  writes d fp m a t → writes d fp (f a) b u → writes d fp (bind m f) b (t +:+ u).
Proof.
  intros Hm Hf w text Hw. destruct (Hm w text Hw) as (w1 & E1 & F1).
  destruct (Hf w1 (text +:+ t)) as (w2 & E2 & F2); [by rewrite F1, lookup_insert_eq|].
  exists w2. unfold bind. rewrite E1. split; [done|]. by rewrite F2, F1, insert_insert_eq, app_assoc_s.
Qed.

Lemma writes_none {A} d fp (m : M sess A) a : on_ds m d a d → writes d fp m a EmptyString.
Proof.
  intros Hm w text Hw. destruct (Hm w) as (w' & E & F & _). exists w'. split; [done|].
  by rewrite F, app_nil_r_s, insert_id.
Qed.

Lemma writes_ret {A} d fp (a : A) : writes d fp (ret a) a EmptyString.
Proof. apply writes_none, on_ret. Qed.

(** The same with nothing written by the first part. *)
Lemma writes_read {A B} d fp (m : M sess A) (f : A → M sess B) a b u :
  on_ds m d a d → writes d fp (f a) b u → writes d fp (bind m f) b u.
Proof. intros Hm Hf. apply (writes_bind d fp m f a EmptyString b u); [by apply writes_none|done]. Qed.

Lemma writes_put d fp t : writes d fp (os (fputs t fp)) tt t.
Proof.
  intros w text Hw. eexists. split; [reflexivity|]. simpl. apply map_eq. intros p.
  destruct (decide (p = fp)) as [->|Hne].
  - by rewrite lookup_alter_eq, Hw, lookup_insert_eq.
  - by rewrite lookup_alter_ne, lookup_insert_ne.
Qed.

Lemma writes_if d fp (b : bool) t :
  writes d fp (if b then os (fputs t fp) else ret tt) tt (if b then t else EmptyString).
Proof. destruct b; [apply writes_put|apply writes_ret]. Qed.

Lemma on_enabled d x b : reads_bool d x b → on_ds (srx_enabled x) d b d.
Proof.
  intros Hr w. unfold srx_enabled, get_vabool, srx_vaget, get_items, bind, get.
  destruct Hr as [[xp E]|[-> E]]; simpl; rewrite E; simpl; [by exists w|by eexists].
Qed.

Lemma writes_eq {A} d fp (m : M sess A) a t u : writes d fp m a t → t = u → writes d fp m a u.
Proof. by intros Hm <-. Qed.

(** ** The loop writes the reference text *)

Lemma writes_server d fp v e :
  entry_of d v e → writes d fp (ntp_server fp (v_xpath v)) (has_addr e) (entry_text e).
Proof.
  intros (Ha & Ht & Hp & Hi & Hpr). unfold ntp_server, entry_text, has_addr.
  eapply writes_read; [by apply on_get_str|]. destruct (ne_addr e) as [addr|]; [|apply writes_ret].
  eapply writes_eq.
  { eapply writes_read; [by apply on_get_str|]. eapply writes_bind; [apply writes_put|].
    eapply writes_read; [by apply on_get_str|].
    eapply (writes_bind _ _ _ _ tt
      (match ne_port e with Some p => " port " +:+ p | None => EmptyString end));
      [destruct (ne_port e); [apply writes_put|apply writes_ret]|].
    eapply writes_read; [by apply on_enabled|]. eapply (writes_bind _ _ _ _ tt); [apply writes_if|].
    eapply writes_read; [by apply on_enabled|]. eapply (writes_bind _ _ _ _ tt); [apply writes_if|].
    eapply writes_bind; [apply writes_put|]. apply writes_ret. }
  by rewrite app_nil_r_s, !app_assoc_s.
Qed.

(** The counter of the loop: -1 before the first server. *)
Definition count_valid (valid : Z) (l : list ntp_entry) : Z :=
  match l with
  | [] => valid
  | _ => (if decide (valid = -1) then 0 else valid) + Z.of_nat (length (List.filter has_addr l))
  end.

Lemma writes_servers d fp vals es valid :
  -1 ≤ valid → Forall2 (entry_of d) vals es →
  writes d fp (foldM (λ valid v,
    let valid := if decide (valid = -1) then 0 else valid in
    let* ok := ntp_server fp (v_xpath v) in
    ret (if ok : bool then valid + 1 else valid)) valid vals) (count_valid valid es) (texts (entry_text <$> es)).
Proof.
  intros Hv Hl. revert valid Hv. induction Hl as [|v e vals es He _ IH]; intros valid Hv; [apply writes_ret|].
  cbn [foldM]. set (v0 := if decide (valid = -1) then 0 else valid).
  assert (Hv0 : 0 ≤ v0) by (unfold v0; case_decide; lia).
  assert (Hone : writes d fp (let* ok := ntp_server fp (v_xpath v) in ret (if ok : bool then v0 + 1 else v0))
    (if has_addr e then v0 + 1 else v0) (entry_text e)).
  { eapply writes_eq; [eapply writes_bind; [by apply writes_server|apply writes_ret]|apply app_nil_r_s]. }
  replace (count_valid valid (e :: es)) with (count_valid (if has_addr e then v0 + 1 else v0) es).
  { apply (writes_bind d fp _ _ _ _ _ _ Hone). apply IH. destruct (has_addr e); lia. }
  unfold count_valid. fold v0. cbn [List.filter]. destruct es as [|e' es], (has_addr e);
    try rewrite decide_False by lia; simpl length; lia.
Qed.

Lemma writes_tail d fp l : writes d fp (foreach l (λ line, os (fputs line fp))) tt (texts l).
Proof.
  induction l as [|t l IH]; [apply writes_ret|]. apply (writes_bind _ _ _ _ tt); [apply writes_put|done].
Qed.

Lemma filter_existsb {A} (f : A → bool) l : length (List.filter f l) = 0%nat ↔ existsb f l = false.
Proof. induction l as [|x l IH]; [done|]. simpl. destruct (f x); simpl; [split; [lia|done]|done]. Qed.

Lemma count_accepted es : count_valid (-1) es = 0 ↔ ntp_accepted es = false.
Proof.
  unfold count_valid, ntp_accepted. destruct es as [|e es]; [done|].
  rewrite decide_True, bool_decide_false by done. cbn [orb]. rewrite <- filter_existsb. lia.
Qed.

(** (C15) The NTP callback writes the configuration it is meant to: for every
    list of servers in the datastore the staged chrony.conf is the reference
    text, one line per server that has an address followed by the fixed
    settings, and the change is refused, with the staged file removed, exactly
    when servers are configured and none has an address. *)
Theorem change_ntp_equiv d w vals es ev :
  (ev = SR_EV_ENABLED ∨ ev = SR_EV_CHANGE) →
  sr_get_items d "/ietf-system:system/ntp/server" = (0, vals, None) →
  Forall2 (entry_of d) vals es →
  (∀ f, os_fopen "w" (next_of CHRONY_CONF) f = None) →
  (w_fs w !! next_of CHRONY_CONF = None ∨ ∃ t, w_fs w !! next_of CHRONY_CONF = Some (NFile t)) →
  ∃ w', w_fs w' = (if ntp_accepted es then <[next_of CHRONY_CONF := NFile (chrony_text es)]> (w_fs w)
                   else delete (next_of CHRONY_CONF) (w_fs w)) ∧
    change_ntp ev (Sess d w) =
      (Ret (if ntp_accepted es then SR_ERR_OK else SR_ERR_VALIDATION_FAILED), Sess d w').
Proof.
  intros Hev Hvals Hes Hopen Hnext. set (fn := next_of CHRONY_CONF) in *.
  assert (Eo : os (fopen fn "w") (Sess d w) =
    (Ret (Some fn), Sess d (set_fs (<[fn := NFile EmptyString]> (w_fs w)) w))).
  { unfold os, fopen. simpl. rewrite Hopen. by destruct Hnext as [-> | [t ->]]. }
  set (w1 := set_fs (<[fn := NFile EmptyString]> (w_fs w)) w) in *.
  assert (Hbody : writes d fn (let* valid := ntp_servers fn vals in
      foreach chrony_tail (λ line, os (fputs line fn)) ;;; ret valid) (count_valid (-1) es) (chrony_text es)).
  { eapply writes_bind; [by apply writes_servers|]. eapply writes_eq; [|apply app_nil_r_s].
    eapply (writes_bind _ _ _ _ tt); [apply writes_tail|apply writes_ret]. }
  destruct (Hbody w1 EmptyString) as (w2 & E2 & F2); [by simpl; rewrite lookup_insert_eq|].
  simpl in F2. rewrite insert_insert_eq in F2.
  assert (Egen : change_ntp ev (Sess d w) = (let* valid := (λ s, (Ret (count_valid (-1) es), Sess d w2)) in
      if decide (valid = 0) then let* _ := os (remove fn) in ret SR_ERR_VALIDATION_FAILED else ret SR_ERR_OK) (Sess d w)).
  { assert (Hgo : change_ntp ev (Sess d w) = (let* (rc, val) := get_items "/ietf-system:system/ntp/server" in
      if decide (rc ≠ 0) then let* _ := os (remove fn) in ret rc
      else let* fp := os (fopen fn "w") in match fp with None => ret SR_ERR_SYS | Some fp =>
        let* valid := ntp_servers fp val in foreach chrony_tail (λ line, os (fputs line fp)) ;;;
        let* _ := os (fclose fp) in
        if decide (valid = 0) then let* _ := os (remove fn) in ret SR_ERR_VALIDATION_FAILED else ret SR_ERR_OK end)
      (Sess d w)) by (by destruct Hev as [-> | ->]).
    assert (Eg : get_items "/ietf-system:system/ntp/server" (Sess d w) = (Ret (0, vals), Sess d w))
      by (unfold get_items, bind, get; simpl; by rewrite Hvals).
    rewrite Hgo. unfold bind at 1. rewrite Eg. cbn iota beta.
    rewrite decide_False by lia. unfold bind at 1. rewrite Eo. cbn iota beta.
    unfold bind in E2 |- *. destruct (ntp_servers fn vals (Sess d w1)) as [[valid|c|] s1]; try done.
    destruct (foreach chrony_tail _ s1) as [[[]|c|] s2]; try done. unfold ret in E2. by injection E2 as -> ->. }
  rewrite Egen. unfold bind. destruct (ntp_accepted es) eqn:Ea.
  - rewrite decide_False by (rewrite count_accepted; congruence). by exists w2.
  - rewrite decide_True by (by apply count_accepted). unfold os, remove. simpl.
    rewrite F2, lookup_insert_eq. simpl. eexists. split; [|done]. simpl. by rewrite delete_insert_eq.
Qed.

Lemma log_system cmd (s : sess) :
  ∃ rc w', os (system cmd) s = (Ret rc, Sess (se_ds s) w') ∧ w_log w' = w_log (se_os s) ++ [cmd].
Proof. unfold os, system. destruct (os_system cmd _) as [[rc e] f]. simpl. by eexists _, _. Qed.

Lemma log_install conf (s : sess) :
  ∃ w', install conf s = (Ret tt, Sess (se_ds s) w') ∧ w_log w' = w_log (se_os s).
Proof.
  destruct s as [d [f e l]]. unfold install, bind, os, remove, rename. simpl.
  repeat case_match; simplify_eq/=; repeat case_match; simplify_eq/=; by eexists.
Qed.

(** A defect: the test of ntp/enabled is the wrong way round.  When a
    transaction with a new chrony.conf is done, the daemon is disabled if the
    configuration enables NTP, and marked as changed and enabled if it does
    not. *)
Theorem ntp_enable_inverted d w n enabled :
  w_fs w !! next_of CHRONY_CONF = Some n →
  reads_bool d "/ietf-system:system/ntp/enabled" enabled →
  ∃ w', change_ntp SR_EV_DONE (Sess d w) = (Ret SR_ERR_OK, Sess d w') ∧
    w_log w' = w_log w ++ (if enabled then ["initctl -nbq disable chronyd"]
                           else ["initctl -nbq touch chronyd"; "initctl -nbq enable chronyd"]).
Proof.
  intros En Hb. unfold change_ntp. unfold bind at 1. unfold os at 1, access. simpl se_os.
  rewrite En. cbn iota beta. rewrite decide_False by lia. cbn [se_ds].
  destruct (log_install CHRONY_CONF (Sess d w)) as (w1 & E1 & L1). unfold bind at 1. rewrite E1. cbn [se_ds] in *.
  destruct (on_enabled d _ _ Hb w1) as (w2 & E2 & _ & L2). unfold bind at 1. rewrite E2.
  destruct enabled.
  - destruct (log_system "initctl -nbq disable chronyd" (Sess d w2)) as (rc & w3 & E3 & L3).
    unfold bind. rewrite E3. exists w3. split; [done|]. simpl in *. congruence.
  - destruct (log_system "initctl -nbq touch chronyd" (Sess d w2)) as (rc & w3 & E3 & L3).
    unfold bind at 1. rewrite E3. cbn [se_ds] in *.
    destruct (log_system "initctl -nbq enable chronyd" (Sess d w3)) as (rc' & w4 & E4 & L4).
    unfold bind. rewrite E4. exists w4. split; [done|]. simpl in *. rewrite L4, L3, L2, L1. by rewrite <- app_assoc.
Qed.
End Ntp.
