(* ===== verification/SysStage.v ===== *)
(** * The staging callbacks as participants of a transaction

    What a transaction needs to know of a callback that owns a file below
    /etc is the interface [Participant]: which file it stages for a
    datastore, that a refused change leaves nothing staged, and that it
    touches nothing another callback owns.  The callbacks for clock, NTP and
    DNS implement it. *)
From S2P Require Import Prelude CString Os Helpers SrxVal Core SysConf SysConfProps SysNtp.

Open Scope Z_scope.

(** The files of a configuration file. *)
Definition files_of (conf : string) : list string := [conf; prev_of conf; next_of conf].

Definition staged_confs : list string := [TIMEZONE_CONF; CHRONY_CONF; RESOLV_CONF].

(** The files of the other callbacks. *)
Definition files_but (conf : string) : list string :=
  concat (files_of <$> List.filter (λ c, negb (streq c conf)) staged_confs).

Section Calm.
Context `{Os} `{Sr}.

(** The datastore stays and services are not reloaded. *)
Definition calm_rel (s s' : sess) : Prop :=
  se_ds s' = se_ds s ∧
  count_cmd reload_cmd (w_log (se_os s')) = count_cmd reload_cmd (w_log (se_os s)).

#[export] Instance calm_preorder : PreOrder calm_rel.
Proof. split; [by intros s|]. intros s1 s2 s3 [E1 F1] [E2 F2]. split; congruence. Qed.

(** A call that only changes files is calm. *)
Lemma calm_os {A} (m : M world A) : (∀ w, w_log (m w).2 = w_log w) → stable calm_rel (os m).
Proof. intros Hm s. unfold os. specialize (Hm (se_os s)). destruct (m (se_os s)). simpl in *. split; simpl; congruence. Qed.

Lemma calm_system cmd : streq reload_cmd cmd = false → stable calm_rel (os (system cmd)).
Proof.
  intros Hc s. unfold os, system. destruct (os_system cmd (w_fs (se_os s))) as [[rc e] f]. split; [done|]. simpl.
  rewrite count_cmd_app. unfold count_cmd at 2. simpl. rewrite Hc. simpl. lia.
Qed.

Lemma calm_remove q : stable calm_rel (os (remove q)).
Proof. apply calm_os. intros w. unfold remove. by destruct (w_fs w !! q). Qed.

Lemma calm_rename q r : stable calm_rel (os (rename q r)).
Proof. apply calm_os. intros w. unfold rename. by destruct (w_fs w !! q). Qed.

Lemma calm_access q : stable calm_rel (os (access q)).
Proof. apply calm_os. intros w. unfold access. by destruct (w_fs w !! q). Qed.

Lemma fopen_log q mode w : w_log (fopen q mode w).2 = w_log w.
Proof. unfold fopen. by repeat case_match. Qed.

Lemma calm_fopen q mode : stable calm_rel (os (fopen q mode)).
Proof. apply calm_os. intros w. apply fopen_log. Qed.

Lemma calm_writesf t mode q : stable calm_rel (os (writesf t mode q)).
Proof.
  apply calm_os. intros w. unfold writesf, open_file, bind. pose proof (fopen_log q mode w) as Hl.
  by destruct (fopen q mode w) as [[[fp|]|c|] w'].
Qed.

Lemma calm_fputs t q : stable calm_rel (os (fputs t q)).
Proof. by apply calm_os. Qed.

Lemma calm_fclose q : stable calm_rel (os (fclose q)).
Proof. by apply calm_os. Qed.

Lemma calm_errno e : stable calm_rel (os (set_errno e)).
Proof. by apply calm_os. Qed.
End Calm.

Create HintDb calm discriminated.
#[export] Hint Resolve stable_ret stable_crash stable_deref stable_get stable_gets calm_remove calm_rename
  calm_access calm_fopen calm_writesf calm_fputs calm_fclose calm_errno : calm.
#[export] Hint Extern 1 (stable calm_rel (os (system _))) => apply calm_system; reflexivity : calm.

Ltac calm := cbv beta zeta iota; repeat first [stable_step | solve [auto with calm typeclass_instances]].

Section CalmCalls.
Context `{Os} `{Sr}.

Lemma calm_get_items x : stable calm_rel (get_items x).
Proof. unfold get_items. calm. Qed.
#[local] Hint Resolve calm_get_items : calm.

Lemma calm_vaget x t : stable calm_rel (srx_vaget x t).
Proof. unfold srx_vaget. calm. Qed.
#[local] Hint Resolve calm_vaget : calm.

Lemma calm_get_str x : stable calm_rel (srx_get_str x).
Proof. unfold srx_get_str. calm. Qed.

Lemma calm_enabled x : stable calm_rel (srx_enabled x).
Proof. unfold srx_enabled, get_vabool. calm. Qed.

Lemma calm_get_int t x : stable calm_rel (srx_get_int t x).
Proof. unfold srx_get_int. calm. Qed.
#[local] Hint Resolve calm_get_str calm_enabled calm_get_int : calm.

Lemma calm_clock ev : stable calm_rel (change_clock ev).
Proof. destruct ev; unfold change_clock, install; calm. Qed.

Lemma calm_ntp ev : stable calm_rel (change_ntp ev).
Proof. destruct ev; unfold change_ntp, install, ntp_servers, ntp_server; calm. Qed.

Lemma calm_dns ev : stable calm_rel (change_dns ev).
Proof. destruct ev; unfold change_dns, install, dns_write; calm. Qed.
End CalmCalls.

(** ** Each callback keeps to its own files *)
Section Others.
Context `{Os} `{Sr} `{Hq : ∀ conf, QuietSystem conf}.

Lemma keep_quiet ps cmd : sys_cmd cmd → ps ⊆ concat (files_of <$> staged_confs) → keep ps (os (system cmd)).
Proof.
  intros Hc Hps. apply keep_system. intros f p Hp. apply Hps in Hp. unfold staged_confs in Hp. simpl in Hp.
  rewrite !elem_of_cons in Hp.
  destruct Hp as [-> |[-> |[-> |[-> |[-> |[-> |[-> |[-> |[-> |Hp]]]]]]]]];
    [apply (quiet_system (conf := TIMEZONE_CONF))|apply (quiet_system (conf := TIMEZONE_CONF))
    |apply (quiet_system (conf := TIMEZONE_CONF))|apply (quiet_system (conf := CHRONY_CONF))
    |apply (quiet_system (conf := CHRONY_CONF))|apply (quiet_system (conf := CHRONY_CONF))
    |apply (quiet_system (conf := RESOLV_CONF))|apply (quiet_system (conf := RESOLV_CONF))
    |apply (quiet_system (conf := RESOLV_CONF))|by apply elem_of_nil in Hp]; (done || set_solver).
Qed.

Lemma files_but_listed conf : files_but conf ⊆ concat (files_of <$> staged_confs).
Proof.
  intros p Hp. unfold files_but in Hp. apply list_elem_of_In, in_concat in Hp as (l & Hl & Hp).
  apply list_elem_of_In, in_concat. exists l. split; [|done]. apply list_elem_of_In in Hl. apply list_elem_of_In.
  apply list_elem_of_fmap in Hl as (c & -> & Hc). apply list_elem_of_fmap. exists c. split; [done|].
  apply list_elem_of_In in Hc. apply filter_In in Hc as [Hc _]. by apply list_elem_of_In.
Qed.

Ltac own := cbv beta zeta iota; repeat first
  [ stable_step
  | match goal with
    | |- keep _ (os (fputs _ _)) => apply keep_fputs; not_listed
    | |- keep _ (os (remove _)) => apply keep_remove; not_listed
    | |- keep _ (os (rename _ _)) => apply keep_rename; not_listed
    | |- keep _ (os (writesf _ _ _)) => apply keep_writesf; not_listed
    | |- keep _ (os (system _)) =>
        apply keep_quiet; [first [right; set_solver|left; eauto]|apply files_but_listed]
    | |- keep _ _ => solve [auto with keep typeclass_instances]
    end ].

Lemma others_clock ev : keep (files_but TIMEZONE_CONF) (change_clock ev).
Proof. destruct ev; unfold change_clock, install; own. Qed.

Lemma others_ntp ev : keep (files_but CHRONY_CONF) (change_ntp ev).
Proof.
  assert (Hn : next_of CHRONY_CONF ∉ files_but CHRONY_CONF) by not_listed.
  destruct ev; unfold change_ntp, install; cbv zeta; try solve [own];
    (apply stable_bind; [apply _|auto with keep|intros [rc val]]); (apply stable_decide; [own|]);
    (apply keep_open; [done|own|]); unfold ntp_servers, ntp_server; own.
Qed.

Lemma others_dns ev : keep (files_but RESOLV_CONF) (change_dns ev).
Proof.
  assert (Hn : next_of RESOLV_CONF ∉ files_but RESOLV_CONF) by not_listed.
  destruct ev; unfold change_dns, install; cbv zeta; try solve [own];
    (apply keep_open; [done|own|]); unfold dns_write; own.
Qed.
End Others.

(** ** What a callback stages is determined by the datastore *)
Section Determined.
Context `{Os} `{Sr}.

(** The result of reading depends on the datastore alone. *)
Definition reader {A} (d : ds) (m : M sess A) : Prop := ∃ a, on_ds m d a d.

(** Result and text depend on the datastore alone. *)
Definition writer {A} (d : ds) (fp : string) (m : M sess A) : Prop := ∃ a t, writes d fp m a t.

Lemma reader_bind {A B} d (m : M sess A) (f : A → M sess B) :
  reader d m → (∀ a, reader d (f a)) → reader d (bind m f).
Proof. intros [a Hm] Hf. destruct (Hf a) as [b Hb]. exists b. by eapply on_bind. Qed.

Lemma reader_ret {A} d (a : A) : reader d (ret a).
Proof. exists a. apply on_ret. Qed.

Lemma reader_errno d e : reader d (os (set_errno e)).
Proof. exists tt. intros w. by eexists. Qed.

Lemma reader_get_items d x : reader d (get_items x).
Proof.
  destruct (sr_get_items d x) as [[rc vals] e] eqn:E. exists (rc, vals). intros w.
  unfold get_items, bind, get. simpl. rewrite E. destruct e; simpl; by eexists.
Qed.

(** With result 0 there is exactly one value, of the type asked for. *)
Lemma on_vaget d x t :
  ∃ rc vals, on_ds (srx_vaget x t) d (rc, vals) d ∧ (rc = 0 → ∃ v, vals = [v] ∧ has_type t v = true).
Proof.
  destruct (sr_get_items d x) as [[rc vals] e] eqn:E.
  assert (Hg : on_ds (get_items x) d (rc, vals) d).
  { intros w. unfold get_items, bind, get. simpl. rewrite E. destruct e; simpl; by eexists. }
  assert (Herr : ∀ n (l : list sr_val), on_ds (os (set_errno n) ;;; ret (-1, l)) d (-1, l) d).
  { intros n l w. by eexists. }
  assert (Hrun : ∀ r, on_ds (if decide (rc ≠ 0) then ret (-1, vals) else
      match vals with
      | [] => os (set_errno ENODATA) ;;; ret (-1, vals)
      | [v] => if has_type t v then ret (0, vals) else os (set_errno EINVAL) ;;; ret (-1, vals)
      | _ => os (set_errno EOVERFLOW) ;;; ret (-1, vals)
      end) d r d → on_ds (srx_vaget x t) d r d) by (intros r Hr; by eapply on_bind).
  case_decide; [exists (-1), vals; split; [apply Hrun, on_ret|done]|].
  destruct vals as [|v [|v' l]]; [| |]; [|destruct (has_type t v) eqn:Et|].
  - exists (-1), []. split; [apply Hrun, Herr|done].
  - exists 0, [v]. split; [apply Hrun, on_ret|eauto].
  - exists (-1), [v]. split; [apply Hrun, Herr|done].
  - exists (-1), (v :: v' :: l). split; [apply Hrun, Herr|done].
Qed.

Lemma reader_vaget_then {A} d x t (f : Z * list sr_val → M sess A) :
  (∀ rc vals, (rc = 0 → ∃ v, vals = [v] ∧ has_type t v = true) → reader d (f (rc, vals))) →
  reader d (bind (srx_vaget x t) f).
Proof.
  intros Hf. destruct (on_vaget d x t) as (rc & vals & Hon & Hv). destruct (Hf rc vals Hv) as [a Ha].
  exists a. by eapply on_bind.
Qed.

Lemma reader_get_str d x : reader d (srx_get_str x).
Proof.
  apply reader_vaget_then. intros rc vals Hv. case_decide as Hrc; [apply reader_ret|].
  destruct Hv as (v & -> & _); [by destruct (decide (rc = 0))|]. apply reader_ret.
Qed.

Lemma reader_get_int d t x : reader d (srx_get_int t x).
Proof.
  apply reader_vaget_then. intros rc vals Hv. case_decide as Hrc; [apply reader_ret|].
  destruct Hv as (v & -> & _); [by destruct (decide (rc = 0))|]. apply reader_ret.
Qed.

Lemma reader_enabled d x : reader d (srx_enabled x).
Proof.
  apply reader_bind; [|intros []; apply reader_ret]. apply reader_vaget_then. intros rc vals Hv.
  case_decide as Hrc; [apply reader_ret|]. destruct Hv as (v & -> & Ht); [by destruct (decide (rc = 0))|].
  destruct v as [xp []]; try done. apply reader_ret.
Qed.

Lemma writer_bind {A B} d fp (m : M sess A) (f : A → M sess B) :
  writer d fp m → (∀ a, writer d fp (f a)) → writer d fp (bind m f).
Proof. intros (a & t & Hm) Hf. destruct (Hf a) as (b & u & Hb). eexists _, _. by eapply writes_bind. Qed.

Lemma writer_read {A} d fp (m : M sess A) : reader d m → writer d fp m.
Proof. intros [a Ha]. eexists _, _. by apply writes_none. Qed.

Lemma writer_ret {A} d fp (a : A) : writer d fp (ret a).
Proof. eexists _, _. apply writes_ret. Qed.

Lemma writer_put d fp t : writer d fp (os (fputs t fp)).
Proof. eexists _, _. apply writes_put. Qed.

Lemma writer_decide {A} d fp P `{Decision P} (m1 m2 : M sess A) :
  writer d fp m1 → writer d fp m2 → writer d fp (if decide P then m1 else m2).
Proof. by case_decide. Qed.

Lemma writer_if {A} d fp (b : bool) (m1 m2 : M sess A) :
  writer d fp m1 → writer d fp m2 → writer d fp (if b then m1 else m2).
Proof. by destruct b. Qed.

Lemma writer_foreach {A} d fp (l : list A) body :
  (∀ x, x ∈ l → writer d fp (body x)) → writer d fp (foreach l body).
Proof.
  induction l as [|x l IH]; intros Hb; [apply writer_ret|].
  apply writer_bind; [apply Hb; set_solver|intros _; apply IH; set_solver].
Qed.

Lemma writer_foldM {A B} d fp (f : B → A → M sess B) b l :
  (∀ b x, writer d fp (f b x)) → writer d fp (foldM f b l).
Proof.
  intros Hf. revert b. induction l as [|x l IH]; intros b; [apply writer_ret|]. by apply writer_bind.
Qed.
End Determined.

(** ** The interface *)

(** [cb] owns [conf] and stages [text] for the datastore [d]. *)
Class Participant `{Os} `{Sr} (d : ds) (cb : sr_event → M sess Z) (conf text : string) := {
  pt_change w : w_fs w !! next_of conf = None → ∃ rc w',
    cb SR_EV_CHANGE (Sess d w) = (Ret rc, Sess d w') ∧
    view_fs conf (w_fs w') = Staged (w_fs w !! conf) (w_fs w !! prev_of conf)
      (if decide (rc = 0) then Some (NFile text) else None);
  pt_abort s : ∃ s', cb SR_EV_ABORT s = (Ret SR_ERR_OK, s') ∧
    view_fs conf (s_fs s') = Staged (s_fs s !! conf) (s_fs s !! prev_of conf) None;
  pt_done s n : s_fs s !! next_of conf = Some n → ∃ s',
    cb SR_EV_DONE s = (Ret SR_ERR_OK, s') ∧ view_fs conf (s_fs s') = Staged (Some n) (s_fs s !! conf) None;
  pt_keep ev : keep (files_but conf) (cb ev);
  pt_calm ev : stable calm_rel (cb ev);
}.

Section Stage.
Context `{Os} `{Sr}.

(** A new file that is opened and written. *)
Lemma fopen_new fn (s : sess) :
  s_fs s !! fn = None →
  (∃ s', os (fopen fn "w") s = (Ret None, s') ∧ se_ds s' = se_ds s ∧ s_fs s' = s_fs s ∧ os_fopen "w" fn (s_fs s) ≠ None) ∨
  os (fopen fn "w") s = (Ret (Some fn), Sess (se_ds s) (set_fs (<[fn := NFile EmptyString]> (s_fs s)) (se_os s))).
Proof.
  intros Hn. unfold os, fopen, s_fs in *. destruct (os_fopen "w" fn (w_fs (se_os s))) eqn:E; [left|right].
  - by eexists.
  - by rewrite Hn.
Qed.

Lemma writes_run {A} d fp (m : M sess A) a t w text :
  writes d fp m a t → w_fs w !! fp = Some (NFile text) →
  ∃ w', m (Sess d w) = (Ret a, Sess d w') ∧ w_fs w' !! fp = Some (NFile (text +:+ t)).
Proof. intros Hm Hw. destruct (Hm w text Hw) as (w' & E & F). exists w'. by rewrite F, lookup_insert_eq. Qed.

Lemma removed fn (s : sess) :
  ∃ rc w', os (remove fn) s = (Ret rc, Sess (se_ds s) w') ∧ w_fs w' !! fn = None.
Proof.
  unfold os, remove. destruct (w_fs (se_os s) !! fn) eqn:E; simpl; eexists _, _; (split; [done|]); simpl;
    [apply lookup_delete_eq|done].
Qed.

Definition stages (d : ds) (m : M sess Z) (fn text : string) : Prop :=
  ∀ w, w_fs w !! fn = None → ∃ rc w', m (Sess d w) = (Ret rc, Sess d w') ∧
    w_fs w' !! fn = if decide (rc = 0) then Some (NFile text) else None.

Lemma stages_ntp d : ∃ text, stages d (change_ntp SR_EV_CHANGE) (next_of CHRONY_CONF) text.
Proof.
  destruct (reader_get_items d "/ietf-system:system/ntp/server") as [[rc0 vals] Hg].
  set (fn := next_of CHRONY_CONF).
  assert (Hs : writer d fn (ntp_servers fn vals)).
  { unfold ntp_servers, ntp_server. apply writer_foldM. intros b v.
    repeat first [ apply writer_read, reader_get_str | apply writer_read, reader_enabled | apply writer_put
                 | apply writer_ret | apply writer_bind; [|intro] | apply writer_if
                 | match goal with |- writer _ _ (match ?x with _ => _ end) => destruct x end ]. }
  destruct Hs as (valid & t1 & Hs). exists (EmptyString +:+ t1 +:+ texts chrony_tail). intros w Hn.
  unfold change_ntp. fold fn. destruct (Hg w) as (w1 & E1 & F1 & _). rewrite (bind_run _ _ _ _ _ E1).
  case_decide as Hrc.
  { destruct (removed fn (Sess d w1)) as (r & w2 & E2 & F2). rewrite (bind_run _ _ _ _ _ E2).
    eexists _, _. split; [done|]. by rewrite decide_False. }
  destruct (fopen_new fn (Sess d w1)) as [(s2 & E2 & D2 & F2 & _)|E2]; [by unfold s_fs; simpl; rewrite F1| |].
  { rewrite (bind_run _ _ _ _ _ E2). destruct s2 as [d2 w2]. cbn in D2, F2. subst d2. unfold s_fs in F2. cbn in F2.
    eexists _, _. split; [done|]. by rewrite decide_False, F2, F1. }
  rewrite (bind_run _ _ _ _ _ E2). set (w2 := set_fs _ _).
  destruct (writes_run d fn _ _ _ w2 EmptyString Hs) as (w3 & E3 & F3); [by apply lookup_insert_eq|].
  rewrite (bind_run _ _ _ _ _ E3).
  destruct (writes_run d fn _ _ _ w3 _ (writes_tail d fn chrony_tail) F3) as (w4 & E4 & F4).
  rewrite (bind_run _ _ _ _ _ E4). rewrite (bind_run _ _ _ 0 (Sess d w4)) by done. case_decide.
  - destruct (removed fn (Sess d w4)) as (r & w5 & E5 & F5). rewrite (bind_run _ _ _ _ _ E5).
    eexists _, _. split; [done|]. by rewrite decide_False.
  - eexists _, _. split; [done|]. rewrite decide_True by done. rewrite F4. by rewrite app_assoc_s.
Qed.

(** The search domains are strings and the file can be opened. *)
Class DnsModel (d : ds) := {
  dns_open f : os_fopen "w" (next_of RESOLV_CONF) f = None;
  dns_search v : v ∈ (sr_get_items d "/ietf-system:system/dns-resolver/search").1.2 → is_Some (string_val (v_data v));
}.

Lemma writer_dns d fp `{!DnsModel d} : writer d fp (dns_write fp).
Proof.
  unfold dns_write. cbv zeta.
  repeat (apply writer_bind; [apply writer_read, reader_get_int|intros []]).
  apply writer_bind.
  { repeat first [ apply writer_decide | apply writer_bind; [|intro] | apply writer_put | apply writer_ret ]. }
  intros _. destruct (sr_get_items d "/ietf-system:system/dns-resolver/search") as [[rc vals] e] eqn:E.
  assert (Hr : on_ds (get_items "/ietf-system:system/dns-resolver/search") d (rc, vals) d).
  { intros w. unfold get_items, bind, get. simpl. rewrite E. destruct e; simpl; by eexists. }
  assert (Hbody : writer d fp (if decide (rc ≠ 0) then ret rc
    else (if decide (vals ≠ []) then os (fputs "search " fp) ;;;
            foreach vals (λ v, let* s := deref (string_val (v_data v)) in os (fputs (s +:+ " ") fp)) ;;;
            os (fputs nl fp) else ret tt) ;;;
      let* (rc, val) := get_items "/ietf-system:system/dns-resolver/server" in
      if decide (rc ≠ 0) then ret rc
      else foreach val (λ v, let* ptr := srx_get_str (v_xpath v +:+ "/udp-and-tcp/address") in
             match ptr with Some ptr => os (fputs ("nameserver " +:+ ptr +:+ nl) fp) | None => ret tt end) ;;;
           ret SR_ERR_OK)).
  { apply writer_decide; [apply writer_ret|]. apply writer_bind.
    - apply writer_decide; [|apply writer_ret]. apply writer_bind; [apply writer_put|intros _].
      apply writer_bind; [|intros _; apply writer_put]. apply writer_foreach. intros v Hv.
      pose proof (dns_search v) as Hstr. rewrite E in Hstr. destruct (Hstr Hv) as [str ->]. simpl.
      apply writer_bind; [apply writer_ret|intros]. apply writer_put.
    - intros _. apply writer_bind; [apply writer_read, reader_get_items|]. intros [rc' val].
      apply writer_decide; [apply writer_ret|]. apply writer_bind; [|intros _; apply writer_ret].
      apply writer_foreach. intros v _. apply writer_bind; [apply writer_read, reader_get_str|].
      intros [ptr|]; [apply writer_put|apply writer_ret]. }
  destruct Hbody as (b & u & Hb). exists b, u. by apply (writes_read d fp _ _ (rc, vals)).
Qed.

Lemma stages_dns d `{!DnsModel d} : ∃ text, stages d (change_dns SR_EV_CHANGE) (next_of RESOLV_CONF) text.
Proof.
  set (fn := next_of RESOLV_CONF). destruct (writer_dns d fn) as (rc & t & Hw).
  exists (EmptyString +:+ t). intros w Hn. unfold change_dns. fold fn.
  destruct (fopen_new fn (Sess d w) Hn) as [(s2 & _ & _ & _ & Ho)|E2]; [by destruct Ho; apply dns_open|].
  rewrite (bind_run _ _ _ _ _ E2). set (w2 := set_fs _ _).
  destruct (writes_run d fn _ _ _ w2 EmptyString Hw) as (w3 & E3 & F3); [by apply lookup_insert_eq|].
  rewrite (bind_run _ _ _ _ _ E3). rewrite (bind_run _ _ _ 0 (Sess d w3)) by done. case_decide as Hrc.
  - destruct (removed fn (Sess d w3)) as (r & w4 & E4 & F4).
    rewrite (bind_run _ _ _ tt (Sess d w4)) by (by rewrite (bind_run _ _ _ _ _ E4)).
    eexists _, _. split; [done|]. by rewrite decide_False.
  - eexists _, _. split; [done|]. destruct (decide (rc = 0)); [done|by destruct Hrc].
Qed.
End Stage.

(** ** The callbacks implement it *)
Section Implement.
Context `{Os} `{Sr} `{Hq : ∀ conf, QuietSystem conf}.

Lemma stages_clock d : ∃ text, stages d (change_clock SR_EV_CHANGE) (next_of TIMEZONE_CONF) text.
Proof.
  destruct (reader_get_str d "/ietf-system:system/clock/timezone-name") as [tz Hg].
  exists (default EmptyString tz +:+ nl). intros w Hn. unfold change_clock. set (fn := next_of TIMEZONE_CONF).
  destruct (Hg w) as (w1 & E1 & F1 & _). rewrite (bind_run _ _ _ _ _ E1).
  destruct tz as [tz|]; [|eexists _, _; split; [done|]; by rewrite F1].
  assert (Hk : ∀ (m : M sess Z), keep [fn] m → ∀ s, s_fs s !! fn = None → s_fs (m s).2 !! fn = None)
    by (intros m Hm s Hs; rewrite (Hm s fn) by set_solver; done).
  destruct (removed "/etc/localtime+" (Sess d w1)) as (r & w2 & E2 & _). rewrite (bind_run _ _ _ _ _ E2).
  assert (F2 : w_fs w2 !! fn = None).
  { pose proof (Hk (os (remove "/etc/localtime+")) ltac:(apply keep_remove; not_listed) (Sess d w1)) as F2.
    rewrite E2 in F2. apply F2. unfold s_fs. simpl. by rewrite F1. }
  destruct (log_system ("ln -s /usr/share/zoneinfo/" +:+ tz +:+ " /etc/localtime+") (Sess d w2)) as (rc & w3 & E3 & _).
  rewrite (bind_run _ _ _ _ _ E3). cbn [se_ds].
  assert (F3 : w_fs w3 !! fn = None).
  { pose proof (Hk (os (system ("ln -s /usr/share/zoneinfo/" +:+ tz +:+ " /etc/localtime+")))) as F3.
    specialize (F3 ltac:(apply keep_quiet; [left; eauto|set_solver]) (Sess d w2) F2). by rewrite E3 in F3. }
  case_decide as Hrc; [eexists _, _; split; [done|]; by rewrite decide_False|].
  unfold os, writesf, open_file, bind, fopen. cbn [se_os].
  destruct (os_fopen "w" fn (w_fs w3)) as [e|]; [eexists _, _; split; [done|]; exact F3|].
  rewrite F3. simpl. eexists _, _. split; [done|]. simpl. by rewrite lookup_alter_eq, lookup_insert_eq.
Qed.

(** What the interface asks for beyond [stages] follows from the lemmas on
    preparing, aborting and installing. *)
Lemma participant_intro d cb conf text k :
  NoDup (files_of conf) → stages d (cb SR_EV_CHANGE) (next_of conf) text →
  keep [conf; prev_of conf] (cb SR_EV_CHANGE) →
  cb SR_EV_ABORT = (let* _ := os (remove (next_of conf)) in ret SR_ERR_OK) →
  cb SR_EV_DONE = (let* a := os (access (next_of conf)) in
    if decide (a ≠ 0) then ret SR_ERR_OK else install conf ;;; k) →
  harmless conf k → (∀ ev, keep (files_but conf) (cb ev)) → (∀ ev, stable calm_rel (cb ev)) →
  Participant d cb conf text.
Proof.
  intros Hnd Hst Hp Ha Hd [Hk Hr] Ho Hc. split; [| | |exact Ho|exact Hc].
  - intros w Hn. destruct (Hst w Hn) as (rc & w' & E & F). exists rc, w'. split; [done|].
    assert (Hs : ∀ p, p ∈ [conf; prev_of conf] → w_fs w' !! p = w_fs w !! p).
    { intros p Hin. pose proof (Hp (Sess d w) p Hin) as Hpp. by rewrite E in Hpp. }
    unfold view_fs. rewrite F, !Hs by set_solver. done.
  - intros s. rewrite Ha. destruct (abort_refines conf s) as [Hret Hstep].
    { unfold files_of in Hnd. rewrite !NoDup_cons in Hnd. set_solver. }
    destruct ((let* _ := os (remove (next_of conf)) in ret SR_ERR_OK) s) as [o s'] eqn:E. simpl in *. subst o.
    exists s'. split; [done|]. unfold view_fs in *. inversion Hstep; (congruence || naive_solver).
  - intros s n En. rewrite Hd. destruct (done_refines conf k s Hnd Hk Hr) as [Hret Hstep].
    match type of Hret with (?m s).1 = _ => destruct (m s) as [o s'] eqn:E end. simpl in *. subst o.
    exists s'. split; [done|]. unfold view_fs in *. rewrite En in Hstep. inversion Hstep; (congruence || naive_solver).
Qed.

Lemma clock_participant d : ∃ text, Participant d change_clock TIMEZONE_CONF text.
Proof.
  destruct (stages_clock d) as [text Hst]. exists text.
  eapply participant_intro; [not_listed|exact Hst|apply clock_prepare; by right|reflexivity|reflexivity| | |].
  - apply clock_after_install.
  - apply others_clock.
  - apply calm_clock.
Qed.

Lemma ntp_participant d : ∃ text, Participant d change_ntp CHRONY_CONF text.
Proof.
  destruct (stages_ntp d) as [text Hst]. exists text.
  eapply participant_intro; [not_listed|exact Hst|apply ntp_prepare; by right|reflexivity|reflexivity| | |].
  - apply ntp_after_install.
  - apply others_ntp.
  - apply calm_ntp.
Qed.

Lemma dns_participant d `{!DnsModel d} : ∃ text, Participant d change_dns RESOLV_CONF text.
Proof.
  destruct (stages_dns d) as [text Hst]. exists text.
  eapply participant_intro; [not_listed|exact Hst|apply dns_prepare; by right|reflexivity|reflexivity| | |].
  - apply dns_after_install.
  - apply others_dns.
  - apply calm_dns.
Qed.
End Implement.
