(* ===== verification/Transaction.v ===== *)
(** * A transaction of sysrepo over the callbacks of ietf-system.c and the hooks

    Sysrepo notifies the subscribers of a change one after the other, those
    with the higher priority first: SR_EV_CHANGE to each; when one refuses,
    SR_EV_ABORT to those before it; otherwise SR_EV_DONE to each.  This
    protocol is the relation [transaction]; the callbacks ([Participant] and
    [Bystander]) and the post hooks of core.c take part in it. *)
From S2P Require Import Prelude CString Os Helpers SrxVal Core SysConf SysConfProps SysNtp SysStage.

Open Scope Z_scope.

(** A callback that owns none of the staged files. *)
Class Bystander `{Os} `{Sr} (cb : sr_event → M sess Z) := {
  by_returns ev s : ∃ rc, (cb ev s).1 = Ret rc;
  by_accepts s : (cb SR_EV_CHANGE s).1 = Ret SR_ERR_OK;
  by_keep ev : keep (concat (files_of <$> staged_confs)) (cb ev);
  by_calm ev : stable calm_rel (cb ev);
}.

Section Protocol.
Context `{Os} `{Sr}.

(** The hooks of core.c and the session of the callbacks share the world. *)
Record sysd := Sysd { sd_core : core; sd_ds : ds }.

Inductive subscriber :=
| Owner (cb : sr_event → M sess Z) (conf : string)
| Watcher (cb : sr_event → M sess Z)
| PostHook.

Definition set_world (w : world) (c : core) : core := Core (c_hook_prio c) (c_num_changes c) (c_subs c) w.

Definition on_sess (m : M sess Z) : M sysd Z := λ s,
  let '(r, s') := m (Sess (sd_ds s) (c_world (sd_core s))) in
  (r, Sysd (set_world (se_os s') (sd_core s)) (se_ds s')).

Definition notify (x : subscriber) (ev : sr_event) : M sysd Z :=
  match x with
  | Owner cb _ | Watcher cb => on_sess (cb ev)
  | PostHook => λ s, let '(r, c) := core_post_hook ev (sd_core s) in (r, Sysd c (sd_ds s))
  end.

(** Every subscriber of the list returns, with a result in [ok]. *)
Inductive notified (ev : sr_event) (ok : Z → Prop) : list subscriber → sysd → sysd → Prop :=
| notified_nil s : notified ev ok [] s s
| notified_cons x l s s1 s2 rc :
    notify x ev s = (Ret rc, s1) → ok rc → notified ev ok l s1 s2 → notified ev ok (x :: l) s s2.

Inductive transaction (l : list subscriber) (s : sysd) : Z → sysd → Prop :=
| tr_commit s1 s2 :
    notified SR_EV_CHANGE (λ rc, rc = 0) l s s1 → notified SR_EV_DONE (λ _, True) l s1 s2 →
    transaction l s 0 s2
| tr_refuse l1 x l2 rc s1 s2 s3 :
    l = l1 ++ x :: l2 → notified SR_EV_CHANGE (λ rc, rc = 0) l1 s s1 →
    notify x SR_EV_CHANGE s1 = (Ret rc, s2) → rc ≠ 0 → notified SR_EV_ABORT (λ _, True) l1 s2 s3 →
    transaction l s rc s3.

Definition confs_of (l : list subscriber) : list string :=
  omap (λ x, match x with Owner _ conf => Some conf | _ => None end) l.

Definition hooks_of (l : list subscriber) : nat :=
  length (List.filter (λ x, match x with PostHook => true | _ => false end) l).

Definition fs_at (s : sysd) : fs := w_fs (c_world (sd_core s)).
Definition log_at (s : sysd) : list string := w_log (c_world (sd_core s)).
Definition reloads (s : sysd) : nat := count_cmd reload_cmd (log_at s).
End Protocol.

Lemma files_in conf p : conf ∈ staged_confs → p ∈ files_of conf → p ∈ concat (files_of <$> staged_confs).
Proof.
  intros Hc Hp. apply list_elem_of_In, in_concat. exists (files_of conf).
  split; apply list_elem_of_In; [|done]. apply list_elem_of_fmap. eauto.
Qed.

Lemma view_same conf (f f' : fs) : (∀ p, p ∈ files_of conf → f' !! p = f !! p) → view_fs conf f' = view_fs conf f.
Proof. intros E. unfold view_fs. rewrite !E by (unfold files_of; set_solver). done. Qed.

Lemma files_other conf c p : c ∈ staged_confs → c ≠ conf → p ∈ files_of c → p ∈ files_but conf.
Proof.
  intros Hc Hne Hp. unfold files_but. apply list_elem_of_In, in_concat. exists (files_of c).
  split; apply list_elem_of_In; [|done]. apply list_elem_of_fmap. exists c. split; [done|].
  apply list_elem_of_In, filter_In. split; [by apply list_elem_of_In|].
  unfold streq. by rewrite bool_decide_false.
Qed.

(** ** The abstract state of a transaction

    The three versions of every staged file, the counter of the hooks, and how
    often services were reloaded. *)
Section Abstract.
Context `{Os} `{Sr} (d : ds) (text : string → string).

Record tview := TView { tv_files : string → staged; tv_pending : Z; tv_reloads : nat }.

Definition views (s : sysd) (v : tview) : Prop :=
  sd_ds s = d ∧ (∀ conf, conf ∈ staged_confs → view_fs conf (fs_at s) = tv_files v conf) ∧
  c_num_changes (sd_core s) = tv_pending v ∧ reloads s = tv_reloads v.

(** The versions after an event, for the files in [confs]. *)
Definition upd (confs : list string) (g : string → staged → staged) (f : string → staged) : string → staged :=
  λ c, if decide (c ∈ confs) then g c (f c) else f c.

Definition stage (c : string) (v : staged) : staged := Staged (st_conf v) (st_prev v) (Some (NFile (text c))).
Definition unstage (c : string) (v : staged) : staged := Staged (st_conf v) (st_prev v) None.
Definition commit (c : string) (v : staged) : staged := Staged (st_next v) (st_conf v) None.

(** What the theorems below assume of a subscriber. *)
Definition subscriber_ok (x : subscriber) : Prop :=
  match x with
  | Owner cb conf => Participant d cb conf (text conf) ∧ conf ∈ staged_confs
  | Watcher cb => Bystander cb
  | PostHook => True
  end.

(** The hooks' commands leave the staged files alone. *)
Class QuietHooks := {
  quiet_hooks cmd f p : cmd ∈ [runlevel_cmd; reload_cmd] → p ∈ concat (files_of <$> staged_confs) →
    (os_system cmd f).2 !! p = f !! p;
}.

(** A callback step as a step of the abstract state. *)
Lemma owner_step cb conf ev s v rc s1 (x : sess) g :
  views s v → conf ∈ staged_confs → Participant d cb conf (text conf) →
  cb ev (Sess d (c_world (sd_core s))) = (Ret rc, x) → s1 = Sysd (set_world (se_os x) (sd_core s)) (se_ds x) →
  view_fs conf (s_fs x) = g conf (tv_files v conf) →
  views s1 (TView (upd [conf] g (tv_files v)) (tv_pending v) (tv_reloads v)).
Proof.
  intros (Hd & Hv & Hn & Hr) Hc P E -> Hg.
  pose proof (pt_calm (Participant := P) ev (Sess d (c_world (sd_core s)))) as [Hds Hlog].
  pose proof (pt_keep (Participant := P) ev (Sess d (c_world (sd_core s)))) as Hk. rewrite E in *. cbn in *.
  split_and!; [done| |done|unfold reloads, log_at in *; cbn; congruence].
  intros c Hin. unfold upd, fs_at, s_fs in *. cbn. case_decide as Hd1.
  - apply list_elem_of_singleton in Hd1. by subst c.
  - rewrite <- Hv by done. apply view_same. intros p Hp. apply (Hk p). eapply files_other; [done| |done]. set_solver.
Qed.

Lemma watcher_step cb ev s v (B : Bystander cb) :
  views s v → ∃ rc s1, notify (Watcher cb) ev s = (Ret rc, s1) ∧ views s1 v.
Proof.
  intros (Hd & Hv & Hn & Hr). destruct (by_returns ev (Sess d (c_world (sd_core s)))) as [rc Hrc].
  pose proof (by_calm ev (Sess d (c_world (sd_core s)))) as [Hds Hlog].
  pose proof (by_keep ev (Sess d (c_world (sd_core s)))) as Hk.
  unfold notify, on_sess. rewrite Hd. destruct (cb ev _) as [o x]. cbn in *. subst o.
  eexists _, _. split; [done|]. split_and!; [done| |done|unfold reloads, log_at in *; cbn; congruence].
  intros c Hin. rewrite <- Hv by done. apply view_same. intros p Hp. apply (Hk p). by eapply files_in.
Qed.
End Abstract.

(** ** The phases *)
Section Phases.
Context `{Os} `{Sr} (d : ds) (text : string → string) `{!QuietHooks}.
Abbreviation views := (views d).
Abbreviation subscriber_ok := (subscriber_ok d text).

Lemma views_ext s v v' :
  views s v → (∀ c, c ∈ staged_confs → tv_files v' c = tv_files v c) → tv_pending v' = tv_pending v →
  tv_reloads v' = tv_reloads v → views s v'.
Proof. intros (Hd & Hv & Hn & Hr) Hf Hp Hl. split_and!; [done| |congruence..]. intros c Hc. by rewrite Hf, Hv. Qed.

Lemma upd_cons x l g f c : NoDup (confs_of (x :: l)) →
  upd (confs_of (x :: l)) g f c = upd (confs_of l) g (upd (confs_of [x]) g f) c.
Proof.
  intros Hnd. unfold upd. destruct x as [cb conf|cb|]; [|done..].
  change (confs_of (Owner cb conf :: l)) with (conf :: confs_of l) in *.
  change (confs_of [Owner cb conf]) with [conf].
  apply NoDup_cons in Hnd as [Hnin _]. repeat case_decide; try done; set_solver.
Qed.

Lemma confs_tail x l : NoDup (confs_of (x :: l)) → NoDup (confs_of l).
Proof. destruct x; [|done..]. by intros [_ ?]%NoDup_cons. Qed.

(** A version in [l] is not touched by a step of [x]. *)
Lemma upd_head x l g f c : NoDup (confs_of (x :: l)) → c ∈ confs_of l → upd (confs_of [x]) g f c = f c.
Proof.
  intros Hnd Hc. unfold upd. destruct x as [cb conf|cb|]; [|done..].
  change (confs_of (Owner cb conf :: l)) with (conf :: confs_of l) in Hnd.
  change (confs_of [Owner cb conf]) with [conf]. apply NoDup_cons in Hnd as [Hnin _].
  rewrite decide_False; [done|]. set_solver.
Qed.

Lemma change_step x s v :
  subscriber_ok x → views s v → (∀ c, c ∈ confs_of [x] → st_next (tv_files v c) = None) →
  ∃ rc s1, notify x SR_EV_CHANGE s = (Ret rc, s1) ∧
    (rc = 0 → views s1 (TView (upd (confs_of [x]) (stage text) (tv_files v))
                              (tv_pending v + Z.of_nat (hooks_of [x])) (tv_reloads v))) ∧
    (rc ≠ 0 → views s1 v).
Proof.
  intros Hok Hs Hnone. pose proof Hs as (Hd & Hv & Hn & Hr). destruct x as [cb conf|cb|].
  - destruct Hok as [P Hc]. assert (Hnx : st_next (tv_files v conf) = None) by (apply Hnone; simpl; set_solver).
    rewrite <- Hv in Hnx by done. destruct (pt_change (Participant := P) _ Hnx) as (rc & w' & E & F).
    exists rc. eexists. split; [unfold notify, on_sess; by rewrite Hd, E|]. change (hooks_of [Owner cb conf]) with 0%nat. change (Z.of_nat 0) with 0. split; intros Hrc.
    + rewrite Z.add_0_r. eapply (owner_step d text cb conf SR_EV_CHANGE s v rc); try done.
      unfold s_fs. simpl. rewrite F, decide_True by done. rewrite <- Hv by done. done.
    + eapply views_ext; [eapply (owner_step d text cb conf SR_EV_CHANGE s v rc _ _ unstage)| |done|done]; try done.
      * unfold s_fs. simpl. rewrite F, decide_False by done. rewrite <- Hv by done. done.
      * intros c _. cbn [tv_files]. unfold upd. destruct (decide (c ∈ [conf])) as [Hin|]; [|done]. apply list_elem_of_singleton in Hin as ->.
        rewrite <- Hv by done. unfold unstage, view_fs in *. simpl in *. congruence.
  - destruct (watcher_step d cb SR_EV_CHANGE s v Hok Hs) as (rc & s1 & E & Hs1).
    exists rc, s1. split; [done|]. split; intros _; [|done].
    eapply views_ext; [exact Hs1|done| |done]. unfold hooks_of. simpl. lia.
  - eexists _, _. split; [reflexivity|]. split; intros Hrc; [|done]. split_and!; [done|exact Hv|by simpl; rewrite Hn|done].
Qed.

Lemma abort_step x s v :
  subscriber_ok x → views s v →
  ∃ rc s1, notify x SR_EV_ABORT s = (Ret rc, s1) ∧
    views s1 (TView (upd (confs_of [x]) unstage (tv_files v))
                    (if decide (hooks_of [x] = 0%nat) then tv_pending v else 0) (tv_reloads v)).
Proof.
  intros Hok Hs. pose proof Hs as (Hd & Hv & Hn & Hr). destruct x as [cb conf|cb|].
  - destruct Hok as [P Hc]. destruct (pt_abort (Participant := P) (Sess d (c_world (sd_core s)))) as (x & E & F).
    eexists _, _. split; [unfold notify, on_sess; by rewrite Hd, E|].
    eapply (owner_step d text cb conf SR_EV_ABORT s v SR_ERR_OK); try done. rewrite F, <- Hv by done. done.
  - destruct (watcher_step d cb SR_EV_ABORT s v Hok Hs) as (rc & s1 & E & Hs1). exists rc, s1. split; [done|].
    by eapply views_ext.
  - eexists _, _. split; [reflexivity|]. by split_and!.
Qed.

(** Done, while more hooks are to come. *)
Lemma done_step x s v :
  subscriber_ok x → views s v → (∀ c, c ∈ confs_of [x] → is_Some (st_next (tv_files v c))) →
  Z.of_nat (hooks_of [x]) < tv_pending v →
  ∃ rc s1, notify x SR_EV_DONE s = (Ret rc, s1) ∧
    views s1 (TView (upd (confs_of [x]) commit (tv_files v)) (tv_pending v - Z.of_nat (hooks_of [x])) (tv_reloads v)).
Proof.
  intros Hok Hs Hsome Hlt. pose proof Hs as (Hd & Hv & Hn & Hr). destruct x as [cb conf|cb|].
  - destruct Hok as [P Hc]. destruct (Hsome conf) as [n Hnx]; [simpl; set_solver|]. pose proof Hnx as En.
    rewrite <- Hv in En by done.
    destruct (pt_done (Participant := P) (Sess d (c_world (sd_core s))) n En) as (x & E & F).
    eexists _, _. split; [unfold notify, on_sess; by rewrite Hd, E|]. change (hooks_of [Owner cb conf]) with 0%nat. change (Z.of_nat 0) with 0. rewrite Z.sub_0_r.
    eapply (owner_step d text cb conf SR_EV_DONE s v SR_ERR_OK); try done.
    rewrite F. unfold commit. rewrite Hnx, <- Hv by done. done.
  - destruct (watcher_step d cb SR_EV_DONE s v Hok Hs) as (rc & s1 & E & Hs1). exists rc, s1. split; [done|].
    eapply views_ext; [exact Hs1|done| |done]. unfold hooks_of. simpl. lia.
  - change (Z.of_nat (hooks_of [PostHook])) with 1 in *. eexists _, _. split.
    { unfold notify, core_post_hook, bind, gets, set_num, modify. rewrite Hn.
      rewrite decide_False by lia. reflexivity. }
    split_and!; done.
Qed.

Lemma change_phase l s v :
  Forall subscriber_ok l → NoDup (confs_of l) → views s v →
  (∀ c, c ∈ confs_of l → st_next (tv_files v c) = None) →
  (∃ s1, notified SR_EV_CHANGE (λ rc, rc = 0) l s s1 ∧
     views s1 (TView (upd (confs_of l) (stage text) (tv_files v)) (tv_pending v + Z.of_nat (hooks_of l)) (tv_reloads v))) ∨
  (∃ l1 x l2 rc s1 s2, l = l1 ++ x :: l2 ∧ notified SR_EV_CHANGE (λ rc, rc = 0) l1 s s1 ∧
     notify x SR_EV_CHANGE s1 = (Ret rc, s2) ∧ rc ≠ 0 ∧
     views s2 (TView (upd (confs_of l1) (stage text) (tv_files v)) (tv_pending v + Z.of_nat (hooks_of l1)) (tv_reloads v))).
Proof.
  intros Hok. revert s v. induction Hok as [|x l Hx _ IH]; intros s v Hnd Hs Hnone.
  { left. exists s. split; [constructor|]. eapply views_ext; [exact Hs|done| |done]. unfold hooks_of. simpl. lia. }
  destruct (change_step x s v Hx Hs) as (rc & s1 & E & Hz & Hne).
  { intros c Hc. apply Hnone. destruct x; simpl in *; set_solver. }
  destruct (decide (rc = 0)) as [-> |Hrc].
  2: { right. exists [], x, l, rc, s, s1. split_and!; [done|constructor|done|done|].
       eapply views_ext; [by apply Hne|done| |done]. unfold hooks_of. simpl. lia. }
  assert (Hh : ∀ k, hooks_of (x :: k) = (hooks_of [x] + hooks_of k)%nat)
    by (intros k; unfold hooks_of; destruct x; reflexivity).
  destruct (IH s1 _ (confs_tail x l Hnd) (Hz eq_refl)) as [(s2 & N & Hs2)|(l1 & y & l2 & rc & s2 & s3 & -> & N & E2 & Hrc & Hs2)].
  { intros c Hc. simpl tv_files. rewrite (upd_head x l) by done. apply Hnone. destruct x; simpl in *; set_solver. }
  - left. exists s2. split; [by econstructor|]. eapply views_ext; [exact Hs2| | |done].
    + intros c _. simpl. by apply upd_cons.
    + simpl. rewrite (Hh l). lia.
  - right. exists (x :: l1), y, l2, rc, s2, s3. split_and!; [done|by econstructor|done|done|].
    eapply views_ext; [exact Hs2| | |done].
    + intros c _. simpl. apply upd_cons. unfold confs_of in *. rewrite app_comm_cons, omap_app in Hnd.
      by apply NoDup_app in Hnd as [Hnd _].
    + simpl. rewrite (Hh l1). lia.
Qed.

Lemma hooks_cons x l : hooks_of (x :: l) = (hooks_of [x] + hooks_of l)%nat.
Proof. by destruct x. Qed.

Lemma abort_phase l s v :
  Forall subscriber_ok l → NoDup (confs_of l) → views s v → tv_pending v = 0 ∨ hooks_of l ≠ 0%nat →
  ∃ s1, notified SR_EV_ABORT (λ _, True) l s s1 ∧
    views s1 (TView (upd (confs_of l) unstage (tv_files v)) 0 (tv_reloads v)).
Proof.
  intros Hok. revert s v. induction Hok as [|x l Hx _ IH]; intros s v Hnd Hs Hp.
  { exists s. split; [constructor|]. eapply views_ext; [exact Hs|done| |done]. by destruct Hp. }
  destruct (abort_step x s v Hx Hs) as (rc & s1 & E & Hs1).
  destruct (IH s1 _ (confs_tail x l Hnd) Hs1) as (s2 & N & Hs2).
  { simpl tv_pending. rewrite hooks_cons in Hp. case_decide as Hh; [|by left]. rewrite Hh in Hp. exact Hp. }
  exists s2. split; [by econstructor|]. eapply views_ext; [exact Hs2| |done|done].
  intros c _. cbn [tv_files]. by apply upd_cons.
Qed.

Lemma done_phase l s v (k : Z) :
  Forall subscriber_ok l → NoDup (confs_of l) → views s v →
  (∀ c, c ∈ confs_of l → is_Some (st_next (tv_files v c))) →
  0 < k → tv_pending v = Z.of_nat (hooks_of l) + k →
  ∃ s1, notified SR_EV_DONE (λ _, True) l s s1 ∧
    views s1 (TView (upd (confs_of l) commit (tv_files v)) k (tv_reloads v)).
Proof.
  intros Hok. revert s v. induction Hok as [|x l Hx _ IH]; intros s v Hnd Hs Hsome Hk Hp.
  { exists s. split; [constructor|]. eapply views_ext; [exact Hs|done| |done]. by rewrite Hp. }
  rewrite hooks_cons in Hp. destruct (done_step x s v Hx Hs) as (rc & s1 & E & Hs1).
  { intros c Hc. apply Hsome. destruct x; simpl in *; set_solver. }
  { lia. }
  destruct (IH s1 _ (confs_tail x l Hnd) Hs1) as (s2 & N & Hs2).
  { intros c Hc. cbn [tv_files]. rewrite (upd_head x l) by done. apply Hsome. destruct x; simpl in *; set_solver. }
  { done. }
  { cbn [tv_pending]. lia. }
  exists s2. split; [by econstructor|]. eapply views_ext; [exact Hs2| |done|done].
  intros c _. cbn [tv_files]. by apply upd_cons.
Qed.

(** The last hook reloads the services. *)
Lemma last_hook s v :
  booted → views s v → tv_pending v = 1 →
  ∃ rc s1 log, notify PostHook SR_EV_DONE s = (Ret rc, s1) ∧
    views s1 (TView (tv_files v) 0 (S (tv_reloads v))) ∧ log_at s1 = log ++ [runlevel_cmd; reload_cmd].
Proof.
  intros Hb (Hd & Hv & Hn & Hr) Hp. rewrite Hp in Hn.
  set (c0 := Core (c_hook_prio (sd_core s)) 0 (c_subs (sd_core s)) (c_world (sd_core s))).
  assert (E0 : core_post_hook SR_EV_DONE (sd_core s) = commit_done c0).
  { unfold core_post_hook, bind, gets, set_num, modify. rewrite Hn. reflexivity. }
  assert (Hk : ∀ p, p ∈ concat (files_of <$> staged_confs) → w_fs (c_world (commit_done c0).2) !! p = fs_at s !! p).
  { intros p Hin. unfold commit_done, bind, sys, system, fs_at. cbn [c_world c0].
    pose proof (quiet_hooks runlevel_cmd (w_fs (c_world (sd_core s))) p ltac:(set_solver) Hin) as Hq1.
    destruct (os_system runlevel_cmd (w_fs (c_world (sd_core s)))) as [[rc e] f]. cbn in Hq1 |- *.
    case_decide; cbn; [done|]. pose proof (quiet_hooks reload_cmd f p ltac:(set_solver) Hin) as Hq2.
    destruct (os_system reload_cmd f) as [[rc' e'] f']. cbn in Hq2 |- *. case_decide; cbn; congruence. }
  destruct (commit_done_log c0 Hb) as (rc & w & E & Hl). rewrite E in Hk. cbn in Hk.
  exists rc, (Sysd (Core (c_hook_prio c0) (c_num_changes c0) (c_subs c0) w) (sd_ds s)), (log_at s).
  split; [unfold notify; by rewrite E0, E|]. split; [|exact Hl]. split_and!; [done| |done|].
  - intros conf Hc. simpl tv_files. rewrite <- Hv by done. apply view_same. intros p Hin. apply Hk. by eapply files_in.
  - unfold reloads, log_at. cbn. rewrite Hl, count_cmd_app. cbn [c_world c0].
    change (count_cmd reload_cmd [runlevel_cmd; reload_cmd]) with 1%nat. unfold reloads, log_at in Hr. lia.
Qed.

Lemma notified_app ev ok l1 l2 s s1 s2 :
  notified ev ok l1 s s1 → notified ev ok l2 s1 s2 → notified ev ok (l1 ++ l2) s s2.
Proof. induction 1; [done|]. intros. econstructor; eauto. Qed.

Lemma notified_split ev ok l1 l2 s s2 :
  notified ev ok (l1 ++ l2) s s2 → ∃ s1, notified ev ok l1 s s1 ∧ notified ev ok l2 s1 s2.
Proof.
  revert s. induction l1 as [|x l1 IH]; intros s Hn; [exists s; split; [constructor|done]|].
  inversion Hn as [|x' l s' s1 s3 rc E Hrc Hl]; subst. destruct (IH _ Hl) as (s4 & N1 & N2).
  exists s4. split; [by econstructor|done].
Qed.

Lemma notified_det ev ok l s s1 s2 : notified ev ok l s s1 → notified ev ok l s s2 → s1 = s2.
Proof.
  intros Hn. revert s2. induction Hn as [s|x l s s1 s2 rc E Hrc Hl IH]; intros s3 H3.
  - by inversion H3.
  - inversion H3 as [|x' l' s' s1' s3' rc' E' Hrc' Hl']; subst. rewrite E in E'. injection E' as <- <-. by apply IH.
Qed.

(** A subscriber before the one that refuses did not refuse. *)
Lemma refuse_not_before l1 x l2 s s1 s2 s3 rc :
  notified SR_EV_CHANGE (λ rc, rc = 0) (l1 ++ x :: l2) s s3 → notified SR_EV_CHANGE (λ rc, rc = 0) l1 s s1 →
  notify x SR_EV_CHANGE s1 = (Ret rc, s2) → rc = 0.
Proof.
  intros Hn H1' E. destruct (notified_split _ _ _ _ _ _ Hn) as (s1' & N1 & N2).
  assert (s1' = s1) as -> by (by eapply notified_det).
  inversion N2 as [|x' l' s' s4 s5 rc' E' Hrc' Hl']; subst. congruence.
Qed.

Lemma transaction_det l s rc1 s1 rc2 s2 :
  transaction l s rc1 s1 → transaction l s rc2 s2 → rc1 = rc2 ∧ s1 = s2.
Proof.
  intros [a b Na Nb|l1 x l2 rc a b c -> Na E Hrc Nb] T2.
  - inversion T2 as [a' b' Na' Nb'|l1' x' l2' rc' a' b' c' -> Na' E' Hrc' Nb']; subst.
    + assert (a' = a) as -> by (by eapply notified_det). split; [done|by eapply notified_det].
    + by destruct Hrc'; eapply refuse_not_before.
  - inversion T2 as [a' b' Na' Nb'|l1' x' l2' rc' a' b' c' Heq Na' E' Hrc' Nb']; subst.
    + by destruct Hrc; eapply refuse_not_before.
    + apply app_eq_inv in Heq as [(k & -> & Hk)|(k & -> & Hk)]; destruct k as [|y k]; injection Hk as ? ?; subst.
      * rewrite app_nil_r in *. assert (a' = a) as -> by (by eapply notified_det). rewrite E in E'.
        injection E' as <- <-. split; [done|by eapply notified_det].
      * by destruct Hrc'; eapply refuse_not_before.
      * rewrite app_nil_r in *. assert (a' = a) as -> by (by eapply notified_det). rewrite E in E'.
        injection E' as <- <-. split; [done|by eapply notified_det].
      * by destruct Hrc; eapply refuse_not_before.
Qed.
End Phases.

(** ** Running a transaction that is accepted *)
Section Run.
Context `{Os} `{Sr}.

Fixpoint notify_all (ev : sr_event) (ok : Z → bool) (l : list subscriber) : M sysd bool :=
  match l with
  | [] => ret true
  | x :: l' => let* rc := notify x ev in if ok rc then notify_all ev ok l' else ret false
  end.

Definition run_accepted (l : list subscriber) : M sysd bool :=
  let* ok := notify_all SR_EV_CHANGE (λ rc, rc =? 0) l in
  if ok : bool then notify_all SR_EV_DONE (λ _, true) l else ret false.

Lemma notify_all_sound ev ok l s :
  (notify_all ev ok l s).1 = Ret true → notified ev (λ rc, ok rc = true) l s (notify_all ev ok l s).2.
Proof.
  revert s. induction l as [|x l IH]; intros s; simpl; [intros _; constructor|]. unfold bind.
  destruct (notify x ev s) as [[rc|c|] s1] eqn:E; [|done..]. destruct (ok rc) eqn:Eo; [|done].
  intros Hr. econstructor; [exact E|done|by apply IH].
Qed.

Lemma notified_mono ev (ok ok' : Z → Prop) l s s' :
  (∀ rc, ok rc → ok' rc) → notified ev ok l s s' → notified ev ok' l s s'.
Proof. intros Himp. induction 1; econstructor; eauto. Qed.

Lemma run_accepted_sound l s : (run_accepted l s).1 = Ret true → ∃ s', transaction l s 0 s'.
Proof.
  unfold run_accepted, bind. pose proof (notify_all_sound SR_EV_CHANGE (λ rc, rc =? 0) l s) as Hc.
  destruct (notify_all _ _ l s) as [[[]| |] s1]; simpl in *; try done. intros Hd.
  exists (notify_all SR_EV_DONE (λ _, true) l s1).2. eapply tr_commit.
  - eapply notified_mono; [|by apply Hc]. intros rc Hrc. by apply Z.eqb_eq.
  - eapply notified_mono; [|by apply notify_all_sound]. done.
Qed.
End Run.

(** ** The transaction *)
Section Atomic.
Context `{Os} `{Sr} `{Hq : ∀ conf, QuietSystem conf} `{!QuietHooks}.

#[export] Instance motd_bystander x : Bystander (change_motd x).
Proof.
  assert (Hm : "/etc/motd" ∉ concat (files_of <$> staged_confs)) by not_listed.
  assert (Hw : ∀ t, returns (os (writesf t "w" "/etc/motd")) (λ _, True)).
  { intros t s. assert (Ho : ∃ o, (fopen "/etc/motd" "w" (se_os s)).1 = Ret o)
      by (unfold fopen; repeat case_match; simplify_eq/=; eauto).
    unfold os, writesf, open_file, bind. destruct Ho as [o Ho].
    destruct (fopen "/etc/motd" "w" (se_os s)) as [r w]. simpl in Ho. subst r. destruct o; simpl; eauto. }
  split.
  - intros ev s. unfold change_motd. case_decide; [by eexists|].
    assert (Hr : returns (let* message := srx_get_str x in
      let* rc := match message with
                 | Some message => os (writesf message "w" "/etc/motd")
                 | None => let* _ := os (remove "/etc/motd") in ret 0
                 end in if decide (rc ≠ 0) then ret SR_ERR_SYS else ret SR_ERR_OK) (λ _, True)).
    { eapply (returns_bind _ _ (λ _, True)).
      - intros s0. destruct (reader_get_str (se_ds s0) x) as [a Ha]. destruct (Ha (se_os s0)) as (w & E & _).
        exists a. destruct s0 as [d0 w0]. simpl in E. by rewrite E.
      - intros [m|] _; (eapply (returns_bind _ _ (λ _, True)));
          [apply Hw| |eapply returns_bind; [apply returns_remove|intros; by apply returns_ret]|];
          intros rc _; apply returns_decide; intros _; by apply returns_ret. }
    destruct (Hr s) as (rc & E & _). eauto.
  - intros s. done.
  - intros ev. unfold change_motd. keep; by apply keep_writesf.
  - intros ev. unfold change_motd. calm. apply calm_get_str.
Qed.

(** The callbacks of ietf-system.c that work on a session, and the hooks. *)
Definition system_subscriber (x : subscriber) : Prop :=
  match x with
  | Owner cb conf => staged_cb cb conf
  | Watcher cb => ∃ xpath, cb = change_motd xpath
  | PostHook => True
  end.

(** Between transactions. *)
Definition idle (s : sysd) : Prop :=
  c_num_changes (sd_core s) = 0 ∧ ∀ conf, conf ∈ staged_confs → fs_at s !! next_of conf = None.

Lemma idle_views s : idle s →
  views (sd_ds s) s (TView (λ conf, view_fs conf (fs_at s)) 0 (reloads s)).
Proof. intros [Hn _]. by split_and!. Qed.

(** The outcome of a transaction: the files of the participants are replaced
    together, or nothing is. *)
Definition outcome_ok (text : string → string) (l : list subscriber) (s : sysd) (rc : Z) (s' : sysd) : Prop :=
  idle s' ∧ sd_ds s' = sd_ds s ∧
  (∀ conf, conf ∈ staged_confs → view_fs conf (fs_at s') =
     if decide (rc = 0 ∧ conf ∈ confs_of l) then Staged (Some (NFile (text conf))) (fs_at s !! conf) None
     else view_fs conf (fs_at s)) ∧
  reloads s' = (reloads s + if decide (rc = 0%Z) then 1 else 0)%nat ∧
  (rc = 0 → ∃ log, log_at s' = log ++ [runlevel_cmd; reload_cmd]).

Lemma views_outcome text l s s' rc v :
  views (sd_ds s) s' v → tv_pending v = 0 → idle s →
  (∀ conf, conf ∈ staged_confs → tv_files v conf =
     if decide (rc = 0 ∧ conf ∈ confs_of l) then Staged (Some (NFile (text conf))) (fs_at s !! conf) None
     else view_fs conf (fs_at s)) →
  tv_reloads v = (reloads s + if decide (rc = 0%Z) then 1 else 0)%nat →
  (rc = 0 → ∃ log, log_at s' = log ++ [runlevel_cmd; reload_cmd]) → outcome_ok text l s rc s'.
Proof.
  intros (Hd & Hv & Hn & Hr) Hp [_ Hi] Hf Hl Hlog. split; [|split; [done|split; [|split; [congruence|done]]]].
  - split; [congruence|]. intros conf Hc. specialize (Hv conf Hc). rewrite Hf in Hv by done.
    assert (st_next (view_fs conf (fs_at s')) = None) as Hx; [|exact Hx].
    rewrite Hv. destruct (decide (rc = 0 ∧ conf ∈ confs_of l)); [done|by apply Hi].
  - intros conf Hc. by rewrite Hv, Hf.
Qed.

Lemma transaction_outcome d text l s :
  Forall (subscriber_ok d text) l → NoDup (confs_of l) → booted → idle s → sd_ds s = d →
  ∃ rc s', transaction (l ++ [PostHook]) s rc s' ∧ outcome_ok text l s rc s'.
Proof.
  intros Hok Hnd Hb Hi <-. pose proof (idle_views s Hi) as Hs. set (v := TView _ _ _) in Hs.
  assert (Hok' : Forall (subscriber_ok (sd_ds s) text) (l ++ [PostHook])) by (apply Forall_app; split; [done|by repeat constructor]).
  assert (Hcf : confs_of (l ++ [PostHook]) = confs_of l) by (unfold confs_of; by rewrite omap_app, app_nil_r).
  destruct (change_phase (sd_ds s) text (l ++ [PostHook]) s v)
    as [(s1 & N1 & Hs1)|(l1 & x & l2 & rc & s1 & s2 & El & N1 & E2 & Hrc & Hs2)]; [done|by rewrite Hcf|done| | |].
  { rewrite Hcf. intros c Hc. destruct Hi as [_ Hi]. apply Hi.
    unfold confs_of in Hc. apply list_elem_of_omap in Hc as (x & Hx & Ex). rewrite Forall_forall in Hok.
    specialize (Hok x Hx). destruct x as [cb conf|cb|]; simplify_eq. by destruct Hok. }
  - rewrite Hcf in Hs1. assert (Hh : hooks_of (l ++ [PostHook]) = (hooks_of l + 1)%nat)
      by (unfold hooks_of; by rewrite List.filter_app, length_app).
    destruct (done_phase (sd_ds s) text l s1 _ 1 Hok Hnd Hs1) as (s2 & N2 & Hs2).
    { intros c Hc. cbn [tv_files]. unfold upd. rewrite decide_True by done. by eexists. }
    { done. }
    { cbn [tv_pending v]. rewrite Hh. lia. }
    destruct (last_hook (sd_ds s) text s2 _ Hb Hs2 eq_refl) as (rc & s3 & log & E3 & Hs3 & Hlog).
    exists 0, s3. split.
    { eapply tr_commit; [exact N1|]. eapply notified_app; [exact N2|]. econstructor; [exact E3|done|constructor]. }
    eapply views_outcome; [exact Hs3|done|done| |simpl; lia|eauto].
    intros conf Hc. cbn [tv_files v]. unfold upd. destruct (decide (conf ∈ confs_of l)) as [Hin|Hnin].
    + by rewrite decide_True.
    + rewrite decide_False by naive_solver. done.
  - assert (Hl1 : Forall (subscriber_ok (sd_ds s) text) l1) by (rewrite El, Forall_app in Hok'; by destruct Hok').
    assert (Hnd1 : NoDup (confs_of l1)).
    { rewrite <- Hcf, El in Hnd. unfold confs_of in *. rewrite omap_app in Hnd. by apply NoDup_app in Hnd as [? _]. }
    destruct (abort_phase (sd_ds s) text l1 s2 _ Hl1 Hnd1 Hs2) as (s3 & N3 & Hs3).
    { cbn [tv_pending v]. destruct (hooks_of l1); [left; lia|by right]. }
    exists rc, s3. split; [by eapply tr_refuse|].
    eapply views_outcome; [exact Hs3|done|done| |rewrite decide_False by done; simpl; lia|done].
    intros conf Hc. rewrite decide_False by naive_solver. cbn [tv_files v]. unfold upd.
    destruct (decide (conf ∈ confs_of l1)); [|done]. destruct Hi as [_ Hi]. unfold unstage, stage, view_fs. simpl.
    by rewrite Hi.
Qed.

End Atomic.
