(* ===== verification/SysTime.v ===== *)
(** * confd/src/confd/ietf-system.c: platform and date

    os_init() with its parser of os-release, the operational data of clock and
    platform, and the RPC that sets the date.  strftime(), strptime(),
    mktime() and settimeofday() belong to libc and the kernel: the class
    [TimeOs]. *)
From S2P Require Import Prelude CString Os Core.

Open Scope Z_scope.

Definition str_get (i : nat) (s : string) : option ascii := String.get i s.

Fixpoint str_drop (n : nat) (s : string) : string :=
  match n, s with
  | S n', String _ s' => str_drop n' s'
  | _, _ => s
  end.

(** ** os-release *)

Definition quote : ascii := "034"%char.

Fixpoint skip_quotes (s : string) : string :=
  match s with
  | String c s' => if isspace c || bool_decide (c = quote) then skip_quotes s' else s
  | EmptyString => EmptyString
  end.

(** The loop from the end of the string: the last quote that is not the
    first character ends the string. *)
Definition cut_quote (s : string) : string :=
  match s with
  | EmptyString => EmptyString
  | String c s' =>
      match rindex s' quote with
      | Some r => str_take (String.length s - String.length r) s
      | None => s
      end
  end.

Definition strip_quotes (str : string) : string := cut_quote (skip_quotes str).

Definition setvar (line nm : string) (var : option string) : option string :=
  if strneq (String.length nm) line nm then
    match strchr line "="%char with
    | Some (String _ val) => Some (strip_quotes val)
    | _ => var
    end
  else var.

(** The static variables. *)
Record platform := Platform {
  p_os : option string; p_ver : option string; p_rel : option string; p_sys : option string;
}.

Record utsname := Utsname { u_sysname : string; u_release : string; u_machine : string }.

(** The line without its last character, whatever that is. *)
Definition drop_last (line : string) : string := str_take (String.length line - 1) line.

Definition os_line (p : platform) (line : string) : platform :=
  let line := drop_last line in
  Platform (setvar line "NAME" (p_os p)) (setvar line "VERSION_ID" (p_ver p))
    (setvar line "BUILD_ID" (p_rel p)) (setvar line "ARCHITECTURE" (p_sys p)).

Section OsInit.
Context `{Os}.

Definition os_init (uname : option utsname) (p : platform) : M world platform :=
  let p := match uname with
           | Some u => Platform (Some (u_sysname u)) (Some (u_release u)) (Some (u_release u)) (Some (u_machine u))
           | None => p
           end in
  let* fp := fopen "/etc/os-release" "r" in
  let* fp := match fp with Some fp => ret (Some fp) | None => fopen "/usr/lib/os-release" "r" end in
  match fp with
  | None => ret p
  | Some fp =>
      let* text := gets (λ w, file_text fp (w_fs w)) in
      let* _ := fclose fp in
      ret (foldl os_line p (lines 80 text))
  end.
End OsInit.

(** ** Dates *)

Definition is_sign (c : option ascii) : bool :=
  bool_decide (c = Some "+"%char) || bool_decide (c = Some "-"%char).

(** fmtime(), from what strftime() wrote: a colon goes into the offset.  With
    less than five characters the index wraps around ([None]). *)
Definition fmtime (buf : string) : option string :=
  let n := String.length buf in
  if decide (n < 5)%nat then None
  else
    let i := (n - 5)%nat in
    Some (if is_sign (str_get i buf)
          then str_take (i + 3) buf +:+ ":" +:+ str_drop (i + 3) buf else buf).

(** The first part of rpc_set_datetime(): the text and the format for
    strptime(); [None] when the test reads before the text. *)
Definition datetime_arg (buf : string) : option (string * string) :=
  let n := String.length buf in
  if decide (n < 3)%nat then None
  else if bool_decide (str_get (n - 3) buf = Some ":"%char) then
    if decide (n < 6)%nat then None
    else if is_sign (str_get (n - 6) buf)
    then Some (str_take (n - 3) buf +:+ str_drop (n - 2) buf, "%FT%T%z")
    else Some (buf, "%FT%TZ")
  else Some (buf, "%FT%TZ").

(** [tm_civil]: the seconds since the epoch of the fields read as UTC. *)
Record tm := Tm { tm_civil : Z; tm_gmtoff : Z }.

Class TimeOs := {
  strptime : string → string → option tm;
  (** mktime(3) under a value of TZ *)
  mktime : string → tm → Z;
  (** whether settimeofday(2) accepts the time *)
  settimeofday : Z → bool;
}.

(** The static result of rpc_set_datetime() and the times that were set. *)
Record rtc := Rtc { r_rc : Z; r_set : list Z; r_tz : option string }.

Definition tz_of (t : tm) : string :=
  "UTC" +:+ (if decide (0 < tm_gmtoff t) then "+" else EmptyString) +:+ fmt_d (Z.quot (tm_gmtoff t) 3600).

Section SetTime.
Context `{TimeOs}.

Definition rpc_set_datetime (input : string) : M rtc Z :=
  let* (buf, isofmt) := deref (datetime_arg input) in
  let* st := get in
  match strptime buf isofmt with
  | None => put (Rtc (r_rc st) (r_set st) None) ;;; ret (r_rc st)
  | Some t =>
      let sec := mktime (tz_of t) t in
      if settimeofday sec then
        put (Rtc SR_ERR_OK (r_set st ++ [sec]) None) ;;; ret SR_ERR_OK
      else put (Rtc (r_rc st) (r_set st) None) ;;; ret (r_rc st)
  end.

(** Before the first call. *)
Definition rtc_init : rtc := Rtc SR_ERR_SYS [] None.
End SetTime.

(** rpc_exec() *)
Definition rpc_exec `{Os} (priv : string) : M world Z :=
  let* rc := system priv in
  ret (if decide (rc ≠ 0) then SR_ERR_INTERNAL else SR_ERR_OK).

(** ** Operational data *)

(** The tree under construction is the list of the nodes made; [new_path] is
    what lyd_new_path() answers for a node.  A result [None] is undefined
    behaviour: the value is passed as a format without arguments, so it must
    not be NULL or have a conversion in it. *)
Section Oper.
Context (new_path : string → string → Z).

Abbreviation tree := (option (list (string * string))).

Definition lydx_new_path (parent : tree) (first : bool) (xpath_base node : string) (fmt : option string)
    : option (Z * tree) :=
  match fmt with
  | None => None
  | Some val =>
      match strchr val "%"%char with
      | Some _ => None
      | None =>
          let xpath := xpath_base +:+ "/" +:+ node in
          let rc := new_path xpath val in
          Some (rc, if decide (rc ≠ 0) then parent
                    else Some (if first then [(xpath, val)] else default [] parent ++ [(xpath, val)]))
      end
  end.

(** The sequence of calls, ended by the first failure. *)
Fixpoint new_paths (parent : tree) (first : bool) (base : string) (l : list (string * option string))
    : option (Z * tree) :=
  match l with
  | [] => Some (SR_ERR_OK, parent)
  | (node, val) :: l' =>
      match lydx_new_path parent first base node val with
      | None => None
      | Some (rc, parent) =>
          if decide (rc ≠ 0) then Some (SR_ERR_INTERNAL, parent) else new_paths parent false base l'
      end
  end.

Definition CLOCK_PATH_ : string := "/ietf-system:system-state/clock".
Definition PLATFORM_PATH_ : string := "/ietf-system:system-state/platform".

Definition platform_cb (p : platform) (parent : tree) : option (Z * tree) :=
  new_paths parent true PLATFORM_PATH_
    [("os-name", p_os p); ("os-release", p_rel p); ("os-version", p_ver p); ("machine", p_sys p)].

(** [strf] is strftime() of a time; [boottime] is the static buffer.  The
    result is with the buffer afterwards. *)
Definition clock_cb (strf : Z → string) (boottime : string) (now uptime : Z) (parent : tree)
    : option (Z * tree * string) :=
  match (if decide (boottime = EmptyString) then fmtime (strf (now - uptime)) else Some boottime),
        fmtime (strf now) with
  | Some boottime, Some curtime =>
      match new_paths parent true CLOCK_PATH_ [("boot-datetime", Some boottime); ("current-datetime", Some curtime)] with
      | Some (rc, parent) => Some (rc, parent, boottime)
      | None => None
      end
  | _, _ => None
  end.
End Oper.

(** ** Facts *)

Lemma str_drop_app a b : str_drop (String.length a) (a +:+ b) = b.
Proof. induction a as [|c a IH]; [done|]. exact IH. Qed.

Lemma str_get_app a c b : str_get (String.length a) (a +:+ String c b) = Some c.
Proof. induction a as [|d a IH]; [done|]. exact IH. Qed.

(** A text that ends in an offset "+hhmm" or "-hhmm". *)
Definition offset (sign h1 h2 m1 m2 : ascii) : string :=
  String sign (String h1 (String h2 (String m1 (String m2 EmptyString)))).

Lemma fmtime_offset pre sign h1 h2 m1 m2 :
  is_sign (Some sign) = true →
  fmtime (pre +:+ offset sign h1 h2 m1 m2) =
  Some (pre +:+ String sign (String h1 (String h2 EmptyString)) +:+ ":" +:+ String m1 (String m2 EmptyString)).
Proof.
  intros Hs. unfold fmtime. rewrite length_app_s. simpl String.length.
  rewrite decide_False by lia. replace (String.length pre + 5 - 5)%nat with (String.length pre) by lia.
  unfold offset. rewrite str_get_app, Hs. f_equal.
  set (hh := String sign (String h1 (String h2 EmptyString))).
  assert (E : pre +:+ String sign (String h1 (String h2 (String m1 (String m2 EmptyString)))) =
    (pre +:+ hh) +:+ String m1 (String m2 EmptyString)) by (by rewrite app_assoc_s).
  assert (El : (String.length pre + 3)%nat = String.length (pre +:+ hh)) by (by rewrite length_app_s).
  by rewrite E, El, str_take_app, str_drop_app, app_assoc_s.
Qed.

Lemma datetime_arg_offset pre sign h1 h2 m1 m2 :
  is_sign (Some sign) = true →
  datetime_arg (pre +:+ String sign (String h1 (String h2 EmptyString)) +:+ ":" +:+ String m1 (String m2 EmptyString)) =
  Some (pre +:+ offset sign h1 h2 m1 m2, "%FT%T%z").
Proof.
  intros Hs. set (hh := String sign (String h1 (String h2 EmptyString))).
  set (mm := String m1 (String m2 EmptyString)). unfold datetime_arg.
  assert (En : String.length (pre +:+ hh +:+ ":" +:+ mm) = (String.length pre + 6)%nat) by (by rewrite !length_app_s).
  set (t := pre +:+ hh +:+ ":" +:+ mm) in *.
  assert (E1 : t = (pre +:+ hh) +:+ String ":"%char mm) by (unfold t; by rewrite app_assoc_s).
  assert (E2 : t = pre +:+ String sign (String h1 (String h2 (":" +:+ mm)))) by done.
  assert (E3 : t = (pre +:+ hh +:+ ":") +:+ mm) by (unfold t; by rewrite !app_assoc_s).
  rewrite En, !decide_False by lia.
  replace (String.length pre + 6 - 3)%nat with (String.length (pre +:+ hh)) by (rewrite length_app_s; simpl; lia).
  replace (String.length pre + 6 - 6)%nat with (String.length pre) by lia.
  replace (String.length pre + 6 - 2)%nat with (String.length (pre +:+ hh +:+ ":")) by (rewrite !length_app_s; simpl; lia).
  assert (G1 : str_get (String.length (pre +:+ hh)) t = Some ":"%char) by (rewrite E1; apply str_get_app).
  assert (G2 : str_get (String.length pre) t = Some sign) by (rewrite E2; apply str_get_app).
  assert (G3 : str_take (String.length (pre +:+ hh)) t = pre +:+ hh) by (rewrite E1; apply str_take_app).
  assert (G4 : str_drop (String.length (pre +:+ hh +:+ ":")) t = mm) by (rewrite E3; apply str_drop_app).
  by rewrite G1, G2, G3, G4, bool_decide_true, Hs, app_assoc_s by done.
Qed.

(** (C33) The date that is read is the date that can be set: the colon the
    clock callback puts into the offset of its date is the one the RPC takes
    out again before it parses the date with the same format. *)
Theorem datetime_roundtrip pre sign h1 h2 m1 m2 :
  sign = "+"%char ∨ sign = "-"%char →
  ∃ text, fmtime (pre +:+ offset sign h1 h2 m1 m2) = Some text ∧
    datetime_arg text = Some (pre +:+ offset sign h1 h2 m1 m2, "%FT%T%z").
Proof.
  intros Hs. assert (Hsign : is_sign (Some sign) = true) by (by destruct Hs as [-> | ->]).
  eexists. split; [by apply fmtime_offset|by apply datetime_arg_offset].
Qed.

Section SetTimeFacts.
Context `{TimeOs}.

(** A defect: the result of the RPC is a static variable.  Once a date
    was set, a later call reports success although its date cannot be parsed
    or the kernel refuses it; the time is not changed. *)
Theorem set_datetime_masks_failure s st bad buf fmt :
  (rpc_set_datetime s st).1 = Ret SR_ERR_OK →
  datetime_arg bad = Some (buf, fmt) →
  (strptime buf fmt = None ∨ ∃ t, strptime buf fmt = Some t ∧ settimeofday (mktime (tz_of t) t) = false) →
  let st' := (rpc_set_datetime s st).2 in
  (rpc_set_datetime bad st').1 = Ret SR_ERR_OK ∧ r_set (rpc_set_datetime bad st').2 = r_set st'.
Proof.
  intros Hok Hbad Hfail st'.
  assert (Hrc : r_rc st' = SR_ERR_OK).
  { unfold st'. unfold rpc_set_datetime, bind, get in *. destruct (datetime_arg s) as [[b f]|]; [|done]. simpl in *.
    destruct (strptime b f) as [t|]; [|by injection Hok]. simpl in *.
    destruct (settimeofday _); [done|by injection Hok]. }
  unfold rpc_set_datetime, bind, get. rewrite Hbad. simpl.
  destruct Hfail as [-> | (t & -> & ->)]; simpl; by rewrite Hrc.
Qed.

(** The sign of the offset is the wrong way round: a TZ of "UTC+2" is two
    hours behind UTC, so a date with offset +02:00 sets the clock four hours
    ahead. *)
Lemma set_datetime_wrong_sign input st buf fmt t h :
  (∀ sign k u, 0 ≤ k → (sign = "+" ∨ sign = EmptyString) →
     mktime ("UTC" +:+ sign +:+ fmt_d k) u = tm_civil u + k * 3600) →
  0 < h → datetime_arg input = Some (buf, fmt) → strptime buf fmt = Some t → tm_gmtoff t = h * 3600 →
  settimeofday (tm_civil t + h * 3600) = true →
  r_set (rpc_set_datetime input st).2 = r_set st ++ [(tm_civil t - tm_gmtoff t) + 2 * tm_gmtoff t].
Proof.
  intros Hmk Hh Harg Hp Hoff Hset. unfold rpc_set_datetime, bind, get. rewrite Harg. simpl. rewrite Hp.
  assert (Em : mktime (tz_of t) t = tm_civil t + h * 3600).
  { unfold tz_of. rewrite Hoff, decide_True, Z.quot_mul by lia. apply Hmk; [lia|by left]. }
  rewrite Em, Hset. simpl. rewrite Hoff. do 2 f_equal. lia.
Qed.
End SetTimeFacts.
