(* ===== verification/Confd.v ===== *)
(** * confd: start of the plugin

    core.c sr_plugin_init_cb() and sr_plugin_cleanup_cb(), the registrations
    of ietf-interfaces.c, ietf-system.c and infix-dhcp.c, register_oper() and
    register_rpc() of core.h, and srx_module.c, which installs YANG modules.
    What sysrepo, Augeas and the kernel answer is the class [SrPlugin]. *)
From Stdlib Require Import Sorted.
From S2P Require Import Prelude CString Os Core SysTime.

Open Scope Z_scope.

(** ** Data *)

Record oper_sub := OperSub { os_module : string; os_xpath : string; os_cb : string; os_flags : Z }.

Record rpc_sub := RpcSub { rs_xpath : string; rs_cb : string; rs_priv : option string; rs_prio : Z; rs_flags : Z }.

(** [None] in [mr_features] is the pointer NULL. *)
Record srx_module_requirement := ModReq {
  mr_dir : string;
  mr_name : string;
  mr_rev : option string;
  mr_features : option (list string);
}.

(** Calls of sr_install_module2() and sr_enable_module_feature(). *)
Inductive mod_call :=
| InstallModule (path dir : string) (features : option (list string))
| EnableFeature (name feature : string).

(** What &confd and confd.sub give access to. *)
Record plugin := Plugin {
  pl_core : core;                   (* change subscriptions and the statics of core.c *)
  pl_oper : list oper_sub;
  pl_rpc : list rpc_sub;
  pl_mods : list mod_call;
  pl_platform : platform;           (* the statics of ietf-system.c *)
}.

Class SrPlugin := {
  sr_get_connection : bool;
  sr_start_session : session → Z;
  sr_oper_get_subscribe : oper_sub → Z;
  sr_rpc_subscribe : rpc_sub → Z;
  (** the result of a call after the earlier ones *)
  sr_module_call : list mod_call → mod_call → Z;
  (** asprintf() of a text finds memory *)
  asprintf_ok : string → bool;
  (** aug_init() and aug_load_file() *)
  aug_init_ok : bool;
  aug_load_file : string → Z;
  uts : option utsname;
  (** the directory of YANG models *)
  YANG_PATH_ : string;
}.

(** What sr_unsubscribe() is given. *)
Inductive sub_ptr := P_sub | P_confd.

Section Confd.
Context `{Os} `{Sysrepo} `{SrPlugin}.

Definition on_core {A} (m : M core A) : M plugin A := λ p,
  let '(r, c) := m (pl_core p) in (r, Plugin c (pl_oper p) (pl_rpc p) (pl_mods p) (pl_platform p)).

(** ** srx_module.c *)

Definition module_call (call : mod_call) : M plugin Z := λ p,
  (Ret (sr_module_call (pl_mods p) call),
   Plugin (pl_core p) (pl_oper p) (pl_rpc p) (pl_mods p ++ [call]) (pl_platform p)).

Definition yang_file (mr : srx_module_requirement) : string :=
  mr_name mr +:+ (match mr_rev mr with Some _ => "@" | None => EmptyString end) +:+
  default EmptyString (mr_rev mr) +:+ ".yang".

Definition srx_require_module (mr : srx_module_requirement) : M plugin Z :=
  let path := yang_file mr in
  if negb (asprintf_ok path) then ret SR_ERR_SYS
  else
    let* err := module_call (InstallModule path (mr_dir mr) (mr_features mr)) in
    if decide (err = SR_ERR_EXISTS) then
      let* features := deref (mr_features mr) in
      foldM (λ _ f, module_call (EnableFeature (mr_name mr) f)) 0 features
    else ret err.

Fixpoint srx_require_modules (mrs : list srx_module_requirement) : M plugin Z :=
  match mrs with
  | [] => ret SR_ERR_OK
  | mr :: mrs' =>
      let* err := srx_require_module mr in
      if decide (err ≠ 0) then ret err else srx_require_modules mrs'
  end.

(** ** Registrations *)

Definition register_oper (module xpath cb : string) (flags : Z) : M plugin Z := λ p,
  let s := OperSub module xpath cb (Z.lor flags SR_SUBSCR_DEFAULT) in
  let rc := sr_oper_get_subscribe s in
  (Ret rc, if decide (rc = 0)
           then Plugin (pl_core p) (pl_oper p ++ [s]) (pl_rpc p) (pl_mods p) (pl_platform p) else p).

Definition register_rpc (xpath cb : string) (arg : option string) : M plugin Z := λ p,
  let s := RpcSub xpath cb arg 0 SR_SUBSCR_DEFAULT in
  let rc := sr_rpc_subscribe s in
  (Ret rc, if decide (rc = 0)
           then Plugin (pl_core p) (pl_oper p) (pl_rpc p ++ [s]) (pl_mods p) (pl_platform p) else p).

(** if ((rc = m)) goto fail *)
Definition or_fail (m : M plugin Z) (k : M plugin Z) : M plugin Z :=
  let* rc := m in if decide (rc ≠ 0) then ret rc else k.

Definition interfaces_changes : list (session * string * string * Z * callback) :=
  [(S_running, "ietf-interfaces", "/ietf-interfaces:interfaces", 0, cb_module "ifchange");
   (S_candidate, "ietf-interfaces", "/ietf-interfaces:interfaces", SR_SUBSCR_UPDATE, cb_module "ifchange_cand")].

Definition ietf_interfaces_init : M plugin Z := on_core (register_all interfaces_changes).

Definition system_changes : list (session * string * string * Z * callback) :=
  [(S_running, "ietf-system", "/ietf-system:system/authentication", 0, cb_module "change_auth");
   (S_running, "ietf-system", "/ietf-system:system/hostname", 0, cb_module "change_hostname");
   (S_running, "ietf-system", "/ietf-system:system/infix-system:motd", 0, cb_module "change_motd");
   (S_running, "ietf-system", "/ietf-system:system/clock", 0, cb_module "change_clock");
   (S_running, "ietf-system", "/ietf-system:system/ntp", 0, cb_module "change_ntp");
   (S_running, "ietf-system", "/ietf-system:system/dns-resolver", 0, cb_module "change_dns")].

Definition init_platform : M plugin unit := λ p,
  match os_init uts (pl_platform p) (c_world (pl_core p)) with
  | (Ret pf, w) => (Ret tt, Plugin (Core (c_hook_prio (pl_core p)) (c_num_changes (pl_core p)) (c_subs (pl_core p)) w)
                              (pl_oper p) (pl_rpc p) (pl_mods p) pf)
  | (Exit x, _) => (Exit x, p)
  | (Crash, _) => (Crash, p)
  end.

Definition ietf_system_init : M plugin Z :=
  init_platform ;;;
  if decide (aug_load_file "/etc/hostname" ≠ 0 ∨ aug_load_file "/etc/hosts" ≠ 0) then ret SR_ERR_INTERNAL
  else
    or_fail (on_core (register_all system_changes)) (
    or_fail (register_oper "ietf-system" "/ietf-system:system-state/clock" "clock_cb" 0) (
    or_fail (register_oper "ietf-system" PLATFORM_PATH_ "platform_cb" 0) (
    or_fail (register_rpc "/ietf-system:system-restart" "rpc_exec" (Some "reboot")) (
    or_fail (register_rpc "/ietf-system:system-shutdown" "rpc_exec" (Some "poweroff")) (
    or_fail (register_rpc "/ietf-system:set-current-datetime" "rpc_set_datetime" None) (
    ret SR_ERR_OK)))))).

Definition infix_dhcp_reqs : list srx_module_requirement :=
  [ModReq YANG_PATH_ "infix-dhcp-client" (Some "2023-05-22") None].

Definition dhcp_changes : list (session * string * string * Z * callback) :=
  [(S_running, "infix-dhcp-client", "/infix-dhcp-client:dhcp-client", 0, cb_module "client_change")].

Definition infix_dhcp_init : M plugin Z :=
  or_fail (srx_require_modules infix_dhcp_reqs) (on_core (register_all dhcp_changes)).

(** ** Start and end of the plugin *)

(** sr_unsubscribe(): only a pointer to a subscription context is one. *)
Definition sr_unsubscribe (ptr : sub_ptr) : M plugin unit :=
  match ptr with
  | P_sub => modify (λ p, Plugin (Core (c_hook_prio (pl_core p)) (c_num_changes (pl_core p)) [] (c_world (pl_core p)))
                            [] [] (pl_mods p) (pl_platform p))
  | P_confd => crash
  end.

(** The body up to the label err: [inl rc] is goto err. *)
Definition plugin_body : M plugin (Z + unit) :=
  let step (m : M plugin Z) (k : M plugin (Z + unit)) : M plugin (Z + unit) :=
    let* rc := m in if decide (rc ≠ 0) then ret (inl rc) else k in
  if negb sr_get_connection then ret (inl SR_ERR_SYS)
  else
    step (ret (sr_start_session S_startup)) (
    step (ret (sr_start_session S_candidate)) (
    if negb aug_init_ok then ret (inl (sr_start_session S_candidate))
    else
      step ietf_interfaces_init (
      step ietf_system_init (
      step infix_dhcp_init (
      ret (inr tt)))))).

Definition sr_plugin_init_cb : M plugin Z :=
  let* r := plugin_body in
  match r with
  | inr _ => ret SR_ERR_OK
  | inl rc => sr_unsubscribe P_sub ;;; ret rc
  end.

(** [priv] is what sr_plugin_init_cb() stored: the address of confd. *)
Definition sr_plugin_cleanup_cb : M plugin unit := sr_unsubscribe P_confd.
End Confd.

(** ** Theorems *)

(** What is subscribed, and how many hook priorities are left. *)
Record subscribed (prim : list subscription) (oper : list oper_sub) (rpc : list rpc_sub) (n : Z)
    (p : plugin) : Prop := {
  sb_prim : primaries (pl_core p) = prim;
  sb_oper : pl_oper p = oper;
  sb_rpc : pl_rpc p = rpc;
  sb_prios : prios_ok (pl_core p);
  sb_left : n ≤ c_hook_prio (pl_core p) ≤ CB_PRIO_PASSIVE;
}.

Definition nothing_subscribed (p : plugin) : Prop :=
  c_subs (pl_core p) = [] ∧ pl_oper p = [] ∧ pl_rpc p = [].

(** The subscriptions of a plugin that is up. *)
Definition all_primaries : list subscription :=
  primary_of <$> interfaces_changes ++ system_changes ++ dhcp_changes.

Definition all_opers : list oper_sub :=
  [OperSub "ietf-system" "/ietf-system:system-state/clock" "clock_cb" 0;
   OperSub "ietf-system" "/ietf-system:system-state/platform" "platform_cb" 0].

Definition all_rpcs : list rpc_sub :=
  [RpcSub "/ietf-system:system-restart" "rpc_exec" (Some "reboot") 0 0;
   RpcSub "/ietf-system:system-shutdown" "rpc_exec" (Some "poweroff") 0 0;
   RpcSub "/ietf-system:set-current-datetime" "rpc_set_datetime" None 0 0].

Section Facts.
Context `{Os} `{Sysrepo} `{SrPlugin}.

(** [m] goes from [R] to [R'] or reports an error. *)
Definition leads (R : plugin → Prop) (m : M plugin Z) (R' : plugin → Prop) : Prop :=
  ∀ p, R p → wp m (λ rc p', rc = 0 → R' p') p.

Lemma leads_or_fail R R1 R' m k : leads R m R1 → leads R1 k R' → leads R (or_fail m k) R'.
Proof.
  intros Hm Hk p Hp. apply wp_bind. eapply wp_mono; [by apply Hm|]. intros rc p1 Hr.
  case_decide as Hz; [by apply wp_ret|]. apply Hk, Hr. by destruct (decide (rc = 0)).
Qed.

Lemma leads_ret R : leads R (ret SR_ERR_OK) R.
Proof. intros p Hp. by apply wp_ret. Qed.

Lemma leads_changes l prim o r n :
  Forall (λ x, ∃ name, x.2 = cb_module name) l → 2 * Z.of_nat (length l) ≤ n →
  leads (subscribed prim o r n) (on_core (register_all l))
        (subscribed (prim ++ (primary_of <$> l)) o r (n - 2 * Z.of_nat (length l))).
Proof.
  intros Hl Hn p [Hp1 Hp2 Hp3 Hp4 Hp5].
  pose proof (wp_register_all_prios l (pl_core p) Hp4 ltac:(lia) Hl) as Hw1.
  pose proof (wp_register_all_primaries l (pl_core p) Hl) as Hw2.
  unfold wp, on_core in *. destruct (register_all l (pl_core p)) as [[rc| |] c]; [|done..].
  intros Hrc. destruct Hw1 as [? ?]. split; simpl; [|done|done|done|lia]. rewrite Hw2 by done. by rewrite Hp1.
Qed.

Lemma leads_oper prim o r n m x cb :
  leads (subscribed prim o r n) (register_oper m x cb 0) (subscribed prim (o ++ [OperSub m x cb 0]) r n).
Proof.
  intros p [Hp1 Hp2 Hp3 Hp4 Hp5]. unfold wp, register_oper. intros Hrc. rewrite decide_True by done.
  split; simpl; try done. by rewrite Hp2.
Qed.

Lemma leads_rpc prim o r n x cb arg :
  leads (subscribed prim o r n) (register_rpc x cb arg) (subscribed prim o (r ++ [RpcSub x cb arg 0 0]) n).
Proof.
  intros p [Hp1 Hp2 Hp3 Hp4 Hp5]. unfold wp, register_rpc. intros Hrc. rewrite decide_True by done.
  split; simpl; try done. by rewrite Hp3.
Qed.

Lemma init_platform_keeps prim o r n p :
  subscribed prim o r n p → wp init_platform (λ _, subscribed prim o r n) p.
Proof.
  intros [Hp1 Hp2 Hp3 Hp4 Hp5].
  assert (Hret : ∃ pf w, os_init uts (pl_platform p) (c_world (pl_core p)) = (Ret pf, w)).
  { unfold os_init, bind, fopen. repeat case_match; simplify_eq/=; eauto. }
  destruct Hret as (pf & w & E). unfold wp, init_platform. by rewrite E.
Qed.

Ltac module_cbs := repeat constructor; eexists; reflexivity.

Lemma leads_interfaces prim o r n : 4 ≤ n →
  leads (subscribed prim o r n) ietf_interfaces_init
        (subscribed (prim ++ (primary_of <$> interfaces_changes)) o r (n - 4)).
Proof. intros Hn. apply (leads_changes interfaces_changes); [module_cbs|simpl; lia]. Qed.

Lemma leads_system prim n : 12 ≤ n →
  leads (subscribed prim [] [] n) ietf_system_init
        (subscribed (prim ++ (primary_of <$> system_changes)) all_opers all_rpcs (n - 12)).
Proof.
  intros Hn p Hp. apply wp_bind. eapply wp_mono; [by apply init_platform_keeps|]. intros [] p1 Hp1.
  case_decide; [by apply wp_ret|]. revert p1 Hp1.
  eapply leads_or_fail; [apply (leads_changes system_changes); [module_cbs|simpl; lia]|].
  do 2 (eapply leads_or_fail; [apply leads_oper|]). do 3 (eapply leads_or_fail; [apply leads_rpc|]).
  apply leads_ret.
Qed.

(** The one requirement of the DHCP model; it must not be installed already. *)
Definition dhcp_module_new : Prop :=
  ∀ l, sr_module_call l (InstallModule "infix-dhcp-client@2023-05-22.yang" YANG_PATH_ None) ≠ SR_ERR_EXISTS.

Lemma leads_require prim o r n : dhcp_module_new →
  leads (subscribed prim o r n) (srx_require_modules infix_dhcp_reqs) (subscribed prim o r n).
Proof.
  intros Hnew p [Hp1 Hp2 Hp3 Hp4 Hp5]. unfold wp, srx_require_modules, infix_dhcp_reqs, srx_require_module.
  change (yang_file _) with "infix-dhcp-client@2023-05-22.yang". simpl.
  destruct (asprintf_ok _); simpl; [|done]. unfold bind, module_call. rewrite decide_False by apply Hnew.
  simpl. by case_decide.
Qed.

Lemma leads_dhcp prim o r n : dhcp_module_new → 2 ≤ n →
  leads (subscribed prim o r n) infix_dhcp_init
        (subscribed (prim ++ (primary_of <$> dhcp_changes)) o r (n - 2)).
Proof.
  intros Hnew Hn. eapply leads_or_fail; [by apply leads_require|].
  apply (leads_changes dhcp_changes); [module_cbs|simpl; lia].
Qed.

(** Before sr_plugin_init_cb() is called. *)
Definition fresh (p : plugin) : Prop := nothing_subscribed p ∧ c_hook_prio (pl_core p) = CB_PRIO_PASSIVE.

Lemma fresh_subscribed p : fresh p → subscribed [] [] [] CB_PRIO_PASSIVE p.
Proof.
  intros [(Hs & Ho & Hr) Hn]. split; [|done|done| |lia].
  - unfold primaries. by rewrite Hs.
  - unfold prios_ok, hook_prios. rewrite Hs. split; constructor.
Qed.

Lemma wp_leads {A} R m R' (k : Z → M plugin A) Q p :
  leads R m R' → R p → (∀ rc p', rc ≠ 0 → wp (k rc) Q p') → (∀ p', R' p' → wp (k 0) Q p') → wp (bind m k) Q p.
Proof.
  intros Hm Hp He Hk. apply wp_bind. eapply wp_mono; [by apply Hm|]. intros rc p' Hr.
  destruct (decide (rc = 0)) as [-> |]; auto.
Qed.

Ltac goto_err := intros; rewrite decide_True by done; apply wp_ret.


(** A defect: when Augeas cannot be initialised the plugin reports success
    although nothing is subscribed, because [rc] still holds the result of
    starting the last session. *)
Lemma aug_failure_reported_as_success p :
  sr_get_connection = true → sr_start_session S_startup = 0 → sr_start_session S_candidate = 0 →
  aug_init_ok = false →
  ∃ p', sr_plugin_init_cb p = (Ret SR_ERR_OK, p') ∧ nothing_subscribed p'.
Proof.
  intros Hc Hs1 Hs2 Ha. unfold sr_plugin_init_cb, plugin_body, bind, ret. rewrite Hc, Hs1, Hs2, Ha. simpl.
  by eexists.
Qed.

(** A defect: when the DHCP model is already installed the list of features,
    which it does not have, is read through a NULL pointer. *)
Lemma installed_module_crashes p :
  asprintf_ok "infix-dhcp-client@2023-05-22.yang" = true →
  (∀ l, sr_module_call l (InstallModule "infix-dhcp-client@2023-05-22.yang" YANG_PATH_ None) = SR_ERR_EXISTS) →
  (infix_dhcp_init p).1 = Crash.
Proof.
  intros Hm He. unfold infix_dhcp_init, or_fail, srx_require_modules, infix_dhcp_reqs, srx_require_module.
  change (yang_file _) with "infix-dhcp-client@2023-05-22.yang". rewrite Hm. unfold bind, module_call. simpl.
  by rewrite He.
Qed.

(** A defect: the error of a feature that could not be enabled is lost when a
    later one succeeds. *)
Lemma feature_error_lost dir name rev f1 f2 p :
  let mr := ModReq dir name rev (Some [f1; f2]) in
  asprintf_ok (yang_file mr) = true →
  (∀ l, sr_module_call l (InstallModule (yang_file mr) dir (Some [f1; f2])) = SR_ERR_EXISTS) →
  (∀ l, sr_module_call l (EnableFeature name f1) = SR_ERR_INTERNAL) →
  (∀ l, sr_module_call l (EnableFeature name f2) = SR_ERR_OK) →
  (srx_require_module mr p).1 = Ret SR_ERR_OK.
Proof.
  intros mr Hm He _ Hf2. unfold srx_require_module. rewrite Hm. unfold bind, module_call. simpl.
  fold mr. rewrite He. simpl. unfold bind, module_call, ret. by rewrite Hf2.
Qed.

(** A defect: the cleanup passes the address of confd to sr_unsubscribe(),
    which is not that of its subscriptions. *)
Lemma cleanup_crashes p : (sr_plugin_cleanup_cb p).1 = Crash.
Proof. done. Qed.
End Facts.

Module ConfdDemo.

#[export] Instance os : Os := {|
  os_system _ f := (0, 0, f);
  os_fopen _ _ _ := None;
  os_fchmod _ _ := 0;
|}.

#[export] Instance sr : Sysrepo := {| sr_subscribe _ := 0 |}.

#[export] Instance sr_plugin : SrPlugin := {|
  sr_get_connection := true;
  sr_start_session _ := 0;
  sr_oper_get_subscribe _ := 0;
  sr_rpc_subscribe _ := 0;
  sr_module_call _ _ := 0;
  asprintf_ok _ := true;
  aug_init_ok := true;
  aug_load_file _ := 0;
  uts := Some (Utsname "Linux" "6.1" "x86_64");
  YANG_PATH_ := "/usr/share/yang";
|}.

Definition p0 : plugin :=
  Plugin (Core CB_PRIO_PASSIVE 0 [] (World ∅ 0 [])) [] [] [] (Platform None None None None).

End ConfdDemo.
