(* ===== verification/SysAuth.v ===== *)
(** * confd/src/confd/ietf-system.c: users, passwords, keys and the host name

    Augeas is a parameter, the class [Augeas]: a tree with get, set and match,
    and what aug_load() and aug_save() exchange with the files.  Programs
    are started with systemv_silent() of [Systemv]; the class [Exec] is what
    is left of the system. *)
From S2P Require Import Prelude CString Os Systemv Helpers SrxVal Lyx Core IfCand.

Open Scope Z_scope.

Class Augeas := {
  aug : Type;
  aug_set_at : aug → string → string → Z * aug;
  (** the value of a node: [None] is a result <= 0 of aug_get() *)
  aug_get_at : aug → string → option string;
  aug_match_at : aug → string → list string;
  aug_load_from : aug → fs → Z * aug;
  aug_save_to : aug → fs → Z * aug * fs;
}.

Class Exec := {
  (** whichp() of the login shell *)
  shell_found : bool;
  login_shell : string;
  (** getpwnam() finds the user *)
  user_exists : string → fs → bool;
  (** sethostname() *)
  exec_sethostname : string → Z;
}.

Section SysAuth.
Context `{Os} `{Proc} `{Augeas} `{Exec}.

Record auth := Auth { a_aug : aug; a_os : world; a_exec : procs; a_host : option string }.

Definition on_os {A} (m : M world A) : M auth A := λ s,
  let '(r, w) := m (a_os s) in (r, Auth (a_aug s) w (a_exec s) (a_host s)).

Definition on_proc {A} (m : M pstate A) : M auth A := λ s,
  let '(r, p) := m (PState (a_os s) (a_exec s)) in (r, Auth (a_aug s) (ps_os p) (ps_procs p) (a_host s)).

Definition aug_set (path val : string) : M auth Z := λ s,
  let '(rc, a) := aug_set_at (a_aug s) path val in (Ret rc, Auth a (a_os s) (a_exec s) (a_host s)).

Definition aug_load : M auth Z := λ s,
  let '(rc, a) := aug_load_from (a_aug s) (w_fs (a_os s)) in (Ret rc, Auth a (a_os s) (a_exec s) (a_host s)).

Definition aug_save : M auth Z := λ s,
  let '(rc, a, f) := aug_save_to (a_aug s) (w_fs (a_os s)) in
  (Ret rc, Auth a (set_fs f (a_os s)) (a_exec s) (a_host s)).

(** aug_set_dynpath() with the formatted path *)
Definition aug_set_dynpath (val path : string) : M auth Z := aug_set path val.

Definition sys_reload_services : M auth Z := on_os (system "initctl -nbq touch sysklogd lldpd").

(** ** Users *)

Definition user_start (c : ascii) : bool := isalpha c || bool_decide (c = "_"%char).
Definition user_char (c : ascii) : bool :=
  isalnum c || bool_decide (c = "_"%char) || bool_decide (c = "-"%char) || bool_decide (c = "."%char).

(** For the empty name user[0] is the terminator, which is not a letter. *)
Definition is_valid_username (user : string) : bool :=
  match user with
  | EmptyString => false
  | String c rest => user_start c && str_all user_char rest
  end.

Definition keys_file (user : string) : string := "/var/run/sshd/" +:+ user +:+ ".keys".

Definition sys_del_user (user : string) : M auth Z :=
  let* _ := on_os (remove (keys_file user)) in
  let* err := on_proc (systemv_silent (Some ["deluser"; user])) in
  ret (if decide (err ≠ 0) then SR_ERR_SYS else SR_ERR_OK).

(** The program and its arguments; without the shell the third one is
    replaced, as in the source. *)
Definition adduser_args (name : string) : list string :=
  let args := if streq name "admin"
              then ["adduser"; "-D"; "-s"; login_shell; "-S"; "-G"; "wheel"; name]
              else ["adduser"; "-D"; "-s"; login_shell; name] in
  if shell_found then args else <[2%nat := "/bin/sh"]> args.

Definition sys_add_new_user (name : string) : M auth Z :=
  let* err := on_proc (systemv_silent (Some (adduser_args name))) in
  ret (if decide (err ≠ 0) then SR_ERR_SYS else SR_ERR_OK).

(** A change sysrepo reports: the operation, the user the xpath names, and
    the new value (a string or something else) where there is one. *)
Record user_change := UserChange {
  uc_op : sr_change_oper; uc_name : string; uc_new : option sr_data;
}.

Definition handle_sr_passwd_update (c : user_change) : M auth Z :=
  let user := uc_name c in
  let* s := get in
  if negb (user_exists user (w_fs (a_os s))) then ret SR_ERR_OK
  else
    match uc_op c with
    | SR_OP_CREATED | SR_OP_MODIFIED =>
        let* new := deref (uc_new c) in
        match new with
        | SR_STRING_T hash =>
            if decide (hash = EmptyString) then ret SR_ERR_INTERNAL
            else
              let* rc := aug_set_dynpath hash ("etc/shadow/" +:+ user +:+ "/password") in
              ret (if decide (rc ≠ 0) then SR_ERR_SYS else SR_ERR_OK)
        | _ => ret SR_ERR_INTERNAL
        end
    | SR_OP_DELETED =>
        let* rc := aug_set_dynpath "!" ("etc/shadow/" +:+ user +:+ "/password") in
        ret (if decide (rc ≠ 0) then SR_ERR_SYS else SR_ERR_OK)
    | SR_OP_MOVED => ret SR_ERR_OK
    end.

Definition check_sr_user_update (c : user_change) : M auth Z :=
  ret (if is_valid_username (uc_name c) then SR_ERR_OK else SR_ERR_VALIDATION_FAILED).

Definition handle_sr_user_update (c : user_change) : M auth Z :=
  match uc_op c with
  | SR_OP_CREATED => sys_add_new_user (uc_name c)
  | SR_OP_DELETED => sys_del_user (uc_name c)
  | SR_OP_MOVED | SR_OP_MODIFIED => ret SR_ERR_OK
  end.

(** _sr_change_iter(): [iter] is an error of sr_dup_changes_iter() or the changes. *)
Definition sr_change_iter (iter : Z * list user_change) (cb : user_change → M auth Z) : M auth Z :=
  if decide (iter.1 ≠ 0) then ret iter.1 else for_until_err iter.2 cb SR_ERR_OK.

(** ** SSH keys *)

Definition lyx_list_is_empty (from : ptr) (name : string) : bool :=
  bool_decide (length (LYX_LIST_FOR_EACH from name) = 0%nat).

Definition cstr (s : option string) : string := default "(null)" s.

Definition key_line (username : string) (key : loc) : string :=
  cstr (lydx_get_cattr (Some key) "algorithm") +:+ " " +:+ cstr (lydx_get_cattr (Some key) "key-data") +:+ " " +:+
  default username (lydx_get_cattr (Some key) "name") +:+ nl.

(** One user of generate_auth_keys(). *)
Definition user_keys (user : loc) : M auth unit :=
  let username := cstr (lydx_get_cattr (Some user) "name") in
  if lyx_list_is_empty (lyd_child (Some user)) "authorized-key" then
    let* _ := on_os (remove (keys_file username)) in ret tt
  else
    let* fp := on_os (fopen (keys_file username) "w") in
    match fp with
    | None => ret tt
    | Some fp =>
        foreach (LYX_LIST_FOR_EACH (lyd_child (Some user)) "authorized-key") (λ key,
          on_os (fputs (key_line username key) fp)) ;;;
        let* _ := on_os (fclose fp) in ret tt
    end.

(** [cfg]: the error and the tree sr_get_data() gives. *)
Definition generate_auth_keys (cfg : Z * ptr) : M auth Z :=
  if decide (cfg.1 ≠ 0) then ret cfg.1
  else
    match lydx_get_descendant cfg.2 ["system"; "authentication"] with
    | None => ret cfg.1
    | Some a =>
        foreach (LYX_LIST_FOR_EACH (lyd_child (Some a)) "user") user_keys ;;;
        ret cfg.1
    end.

(** ** The callback *)

(** What the session gives: the changes of users, of passwords, and the
    configuration. *)
Record auth_session := AuthSession {
  as_users : Z * list user_change; as_passwords : Z * list user_change; as_cfg : Z * ptr;
}.

Definition change_auth_check (s : auth_session) : M auth Z := sr_change_iter (as_users s) check_sr_user_update.

Definition change_auth_done (s : auth_session) : M auth Z :=
  let* err := sr_change_iter (as_users s) handle_sr_user_update in
  if decide (err ≠ 0) then ret err
  else
    let* err := aug_load in
    if decide (err ≠ 0) then ret SR_ERR_INTERNAL
    else
      let* err := sr_change_iter (as_passwords s) handle_sr_passwd_update in
      if decide (err ≠ 0) then ret err
      else
        let* err := aug_save in
        if decide (err ≠ 0) then ret SR_ERR_SYS
        else generate_auth_keys (as_cfg s).

Definition change_auth (event : sr_event) (s : auth_session) : M auth Z :=
  match event with
  | SR_EV_CHANGE => change_auth_check s
  | SR_EV_DONE => change_auth_done s
  | _ => ret SR_ERR_OK
  end.

(** ** Host name *)

Definition host_entry (current nm : string) (err : Z) (path : string) : M auth Z :=
  let* s := get in
  match aug_get_at (a_aug s) path with
  | None => ret err
  | Some host =>
      if streq host current then (if decide (err ≠ 0) then ret err else aug_set path nm) else ret err
  end.

Definition sethostname (nm : string) : M auth Z := λ s,
  let rc := exec_sethostname nm in
  (Ret rc, Auth (a_aug s) (a_os s) (a_exec s) (if decide (rc = 0) then Some nm else a_host s)).

(** [nm]: what srx_get_str() gives for the xpath. *)
Definition change_hostname (event : sr_event) (nm : option string) : M auth Z :=
  if decide (event ≠ SR_EV_DONE) then ret SR_ERR_OK
  else
    let nm := default "infix" nm in
    let* s := get in
    match aug_get_at (a_aug s) "etc/hostname/hostname" with
    | None => ret SR_ERR_INTERNAL
    | Some current =>
        let* err := sethostname nm in
        let* err := (if decide (err ≠ 0) then ret err else aug_set "etc/hostname/hostname" nm) in
        let* s := get in
        let* err := foldM (host_entry current nm) err (aug_match_at (a_aug s) "etc/hosts/*/canonical") in
        if decide (err ≠ 0) then ret err
        else
          let* _ := aug_save in
          let* rc := sys_reload_services in
          ret (if decide (rc ≠ 0) then SR_ERR_SYS else SR_ERR_OK)
    end.
End SysAuth.
