(* ===== verification/SysAuthProps.v ===== *)
(** * Users, keys and the host name: what the callbacks guarantee *)
From S2P Require Import Prelude CString Os Systemv Helpers SrxVal Lyx Core IfCand SysNtp SysAuth.

Open Scope Z_scope.

(** ** User names

    A name that is safe as an argument and as a part of a path: it is no
    option and no hidden file, and has no separator of the shell, of paths
    or of /etc/passwd in it. *)
Definition separators : list ascii := [" "; "/"; ":"; "'"; "%"; "$"; ";"; "&"; "|"; "010"; "034"]%char.

Definition safe_name (n : string) : Prop :=
  (∃ c rest, n = String c rest ∧ c ≠ "-"%char ∧ c ≠ "."%char) ∧ Forall (λ d, strchr n d = None) separators.

Lemma valid_username_safe n : is_valid_username n = true → safe_name n.
Proof.
  destruct n as [|c n]; [done|]. simpl. intros [Hc Hn]%andb_true_iff. split.
  - exists c, n. split; [done|]. split; intros ->; by vm_compute in Hc.
  - assert (Hall : str_all user_char (String c n) = true).
    { simpl. rewrite Hn, andb_true_r. unfold user_start in Hc. unfold user_char, isalnum.
      apply orb_true_iff in Hc as [-> | ->]; [done|]. by rewrite orb_true_r. }
    repeat constructor; by apply (str_all_strchr user_char).
Qed.

Section Users.
Context `{Os} `{Proc} `{Augeas} `{Exec}.

(** ** Commands

    The command a change of a user stands for. *)
Definition cmd_of (c : user_change) : option (list string) :=
  match uc_op c with
  | SR_OP_CREATED => Some (adduser_args (uc_name c))
  | SR_OP_DELETED => Some ["deluser"; uc_name c]
  | _ => None
  end.

(** No program is started. *)
Definition same_exec (st st' : auth) : Prop := a_exec st' = a_exec st.

#[export] Instance same_exec_preorder : PreOrder same_exec.
Proof. split; [done|]. intros s1 s2 s3. unfold same_exec. congruence. Qed.

Abbreviation quiet m := (stable same_exec m).

(** The arguments of the programs that were started. *)
Definition argvs (st : auth) : list (list string) := ch_argv <$> p_run (a_exec st).

Lemma quiet_on_os {A} (m : M world A) : quiet (on_os m).
Proof. intros st. unfold on_os. by destruct (m _). Qed.

Lemma quiet_aug_set p v : quiet (aug_set p v).
Proof. intros st. unfold aug_set. by destruct (aug_set_at _ _ _). Qed.

Lemma quiet_aug_load : quiet aug_load.
Proof. intros st. unfold aug_load. by destruct (aug_load_from _ _). Qed.

Lemma quiet_aug_save : quiet aug_save.
Proof. intros st. unfold aug_save. by destruct (aug_save_to _ _) as [[??]?]. Qed.

Ltac quiet :=
  cbv beta zeta; repeat first
    [ stable_step | apply quiet_on_os | apply quiet_aug_set | apply quiet_aug_load | apply quiet_aug_save
    | apply stable_ret, _ | apply stable_deref, _ | apply stable_get, _ | case_match ].

Lemma quiet_passwd c : quiet (handle_sr_passwd_update c).
Proof. unfold handle_sr_passwd_update, aug_set_dynpath. quiet. Qed.

Lemma quiet_keys cfg : quiet (generate_auth_keys cfg).
Proof. unfold generate_auth_keys, user_keys. quiet. Qed.

Lemma quiet_iter it cb : (∀ c, quiet (cb c)) → quiet (sr_change_iter it cb).
Proof. intros Hcb. unfold sr_change_iter. quiet. apply Hcb. Qed.

Lemma on_os_remove p st :
  ∃ rc st1, on_os (remove p) st = (Ret rc, st1) ∧ a_exec st1 = a_exec st.
Proof. unfold on_os, remove. destruct (w_fs (a_os st) !! p); by eexists _, _. Qed.

Lemma systemv_argvs argv st :
  ∃ rc st', on_proc (systemv_silent (Some argv)) st = (Ret rc, st') ∧
    (argvs st' = argvs st ++ [argv] ∨ argvs st' = argvs st ∧ rc = -1).
Proof.
  unfold on_proc, argvs.
  destruct (systemv_silent_run argv (PState (a_os st) (a_exec st))) as (rc & p & c & -> & <- & Hr).
  eexists _, _. split; [done|]. unfold run_of in Hr. cbn in *.
  destruct Hr as [-> |[-> ->]]; [left; by rewrite fmap_app|by right].
Qed.

(** Every change runs its command, and only that, unless it fails. *)
Lemma user_update_exec c st :
  ∃ e st', handle_sr_user_update c st = (Ret e, st') ∧
    (argvs st' = argvs st ++ option_list (cmd_of c) ∨ argvs st' = argvs st ∧ e ≠ 0).
Proof.
  assert (Hrun : ∀ args st, ∃ e st',
      (let* err := on_proc (systemv_silent (Some args)) in
       ret (if decide (err ≠ 0) then SR_ERR_SYS else SR_ERR_OK)) st = (Ret e, st') ∧
      (argvs st' = argvs st ++ [args] ∨ argvs st' = argvs st ∧ e ≠ 0)).
  { intros args s. destruct (systemv_argvs args s) as (rc & s' & E & Hr). rewrite (bind_run _ _ _ _ _ E).
    eexists _, _. split; [done|]. destruct Hr as [|[? ->]]; auto. }
  unfold handle_sr_user_update, cmd_of. destruct (uc_op c);
    try (exists SR_ERR_OK, st; split; [done|left; simpl; by rewrite app_nil_r]).
  - apply Hrun.
  - unfold sys_del_user. destruct (on_os_remove (keys_file (uc_name c)) st) as (rc & st1 & E1 & X1).
    unfold bind at 1. rewrite E1. assert (argvs st1 = argvs st) as <- by (unfold argvs; by rewrite X1). apply Hrun.
Qed.

Lemma users_exec l e st :
  ∃ r st' k, for_until_err l handle_sr_user_update e st = (Ret r, st') ∧
    argvs st' = argvs st ++ omap cmd_of (take k l) ∧ (r = 0 → (length l ≤ k)%nat).
Proof.
  revert e st. induction l as [|c l IH]; intros e st.
  { exists e, st, 0%nat. simpl. rewrite app_nil_r. split_and!; [done|done|lia]. }
  destruct (user_update_exec c st) as (r & st1 & E & X). simpl. unfold bind. rewrite E. case_decide as Hr.
  - destruct (IH r st1) as (r' & st2 & k & E' & X' & Hk). exists r', st2, (S k). split_and!; [done| |simpl; lia].
    destruct X as [X|[_ X]]; [|by destruct X]. rewrite X', X, <- app_assoc. simpl. by destruct (cmd_of c).
  - destruct X as [X|[X _]].
    + exists r, st1, 1%nat. split_and!; [done| |done]. rewrite X. simpl. by destruct (cmd_of c).
    + exists r, st1, 0%nat. split_and!; [done| |done]. by rewrite X, app_nil_r.
Qed.

Lemma users_checked l e st :
  for_until_err l check_sr_user_update e st = (Ret 0, st) → Forall (λ c, is_valid_username (uc_name c) = true) l.
Proof.
  revert e. induction l as [|c l IH]; intros e; [by constructor|]. simpl. unfold check_sr_user_update, bind, ret at 1.
  destruct (is_valid_username (uc_name c)) eqn:E.
  - rewrite decide_True by done. intros Hl. constructor; [done|by eapply IH].
  - by rewrite decide_False by done.
Qed.

Lemma users_check_pure l e st : (for_until_err l check_sr_user_update e st).2 = st.
Proof. revert e. induction l as [|c l IH]; intros e; [done|]. simpl. unfold bind, check_sr_user_update. simpl. case_decide; [apply IH|done]. Qed.


(** A defect: when the login shell is not installed, "/bin/sh" replaces the
    option -s instead of its argument, so the missing shell is still there
    and is read as the name of the user. *)
Lemma missing_shell_drops_option name :
  shell_found = false → name ≠ "-s" → login_shell ≠ "-s" →
  ("-s" ∉ adduser_args name) ∧ adduser_args name !! 2%nat = Some "/bin/sh" ∧ adduser_args name !! 3%nat = Some login_shell.
Proof.
  intros Hs Hn Hl. unfold adduser_args. rewrite Hs. split; [|by destruct (streq name "admin")].
  destruct (streq name "admin"); simpl; rewrite ?not_elem_of_cons; split_and!; try done; apply not_elem_of_nil.
Qed.
End Users.

(** ** SSH keys *)

Section Keys.
Context `{Os} `{Proc} `{Augeas} `{Exec}.

Definition fs_of (st : auth) : fs := w_fs (a_os st).

Definition user_name (u : loc) : string := cstr (lydx_get_cattr (Some u) "name").

Definition user_list (u : loc) : list loc := LYX_LIST_FOR_EACH (lyd_child (Some u)) "authorized-key".

(** The file sshd reads for a user: one line per key, no file without keys. *)
Definition keys_of (u : loc) : option fnode :=
  match user_list u with
  | [] => None
  | ks => Some (NFile (texts (key_line (user_name u) <$> ks)))
  end.

Definition keys_step (f : fs) (u : loc) : fs := partial_alter (λ _, keys_of u) (keys_file (user_name u)) f.

(** No directory and no link is in the way. *)
Definition plain (n : option fnode) : Prop := n = None ∨ ∃ t, n = Some (NFile t).

Lemma keys_file_inj n m : keys_file n = keys_file m → n = m.
Proof. unfold keys_file. intros E%app_inj_l_s. by apply app_cancel_r_s in E. Qed.

Lemma keys_of_plain u : plain (keys_of u).
Proof. unfold keys_of. destruct (user_list u); [by left|right; eauto]. Qed.

Lemma write_keys {A} (f : A → string) p (l : list A) t st :
  fs_of st !! p = Some (NFile t) →
  wp (foreach l (λ k, on_os (fputs (f k) p)))
    (λ _ st', fs_of st' = <[p := NFile (t +:+ texts (f <$> l))]> (fs_of st)) st.
Proof.
  revert t st. induction l as [|k l IH]; intros t st E.
  { apply wp_ret. simpl. by rewrite app_nil_r_s, insert_id. }
  simpl. apply wp_bind. destruct (wp_run _ _ _ (wp_fputs (f k) p t (λ _ w', w' = set_fs (<[p := NFile (t +:+ f k)]> (fs_of st)) (a_os st)) (a_os st) E eq_refl))
    as ([] & w' & E1 & ->).
  unfold wp at 1, on_os. rewrite E1. eapply wp_mono; [apply (IH (t +:+ f k))|].
  { unfold fs_of. simpl. apply lookup_insert_eq. }
  intros [] st'. unfold fs_of at 2. simpl. intros ->. by rewrite insert_insert_eq, app_assoc_s.
Qed.

Lemma wp_user_keys u st :
  (∀ f, os_fopen "w" (keys_file (user_name u)) f = None) → plain (fs_of st !! keys_file (user_name u)) →
  wp (user_keys u) (λ _ st', fs_of st' = keys_step (fs_of st) u) st.
Proof.
  intros Ho Hp. unfold user_keys, keys_step, keys_of, lyx_list_is_empty. fold (user_name u) (user_list u).
  set (p := keys_file (user_name u)) in *. destruct (user_list u) as [|k ks].
  - rewrite bool_decide_true by done. apply wp_bind. unfold wp, on_os, remove, fs_of in *.
    destruct (w_fs (a_os st) !! p) eqn:E; simpl; [done|]. apply map_eq. intros q.
    destruct (decide (p = q)) as [<-|Hne]; [by rewrite lookup_partial_alter_eq|by rewrite lookup_partial_alter_ne].
  - rewrite bool_decide_false by done. apply wp_bind.
    assert (Eo : on_os (fopen p "w") st =
      (Ret (Some p), Auth (a_aug st) (set_fs (<[p := NFile EmptyString]> (fs_of st)) (a_os st)) (a_exec st) (a_host st))).
    { unfold on_os, fopen, fs_of in *. rewrite Ho. by destruct Hp as [-> | [t ->]]. }
    unfold wp at 1. rewrite Eo. apply wp_bind. eapply wp_mono; [apply (write_keys (key_line (user_name u)) p _ EmptyString)|].
    { unfold fs_of. simpl. apply lookup_insert_eq. }
    intros [] st' E. unfold wp, bind, on_os, fclose, ret. unfold fs_of in *. simpl in *. by rewrite E, insert_insert_eq.
Qed.

Lemma wp_users_keys us st :
  (∀ n f, os_fopen "w" (keys_file n) f = None) → (∀ n, plain (fs_of st !! keys_file n)) →
  wp (foreach us user_keys) (λ _ st', fs_of st' = foldl keys_step (fs_of st) us) st.
Proof.
  intros Ho. revert st. induction us as [|u us IH]; intros st Hp; [done|].
  simpl. apply wp_bind. eapply wp_mono; [by apply wp_user_keys|]. intros [] st1 E1. simpl. rewrite <- E1. apply IH.
  intros n. rewrite E1. unfold keys_step. destruct (decide (keys_file (user_name u) = keys_file n)) as [<-|Hne].
  - rewrite lookup_partial_alter_eq. apply keys_of_plain.
  - by rewrite lookup_partial_alter_ne.
Qed.

Lemma keys_steps_other us f p :
  p ∉ keys_file ∘ user_name <$> us → foldl keys_step f us !! p = f !! p.
Proof.
  revert f. induction us as [|u us IH]; intros f Hp; [done|]. simpl in *. rewrite not_elem_of_cons in Hp.
  destruct Hp as [Hne Hp]. rewrite IH by done. unfold keys_step. rewrite lookup_partial_alter_ne; [done|].
  intros E. by apply Hne.
Qed.

Lemma keys_steps_own us f u :
  NoDup (user_name <$> us) → u ∈ us → foldl keys_step f us !! keys_file (user_name u) = keys_of u.
Proof.
  revert f. induction us as [|v us IH]; intros f Hd Hu; [by apply elem_of_nil in Hu|].
  rewrite fmap_cons, NoDup_cons in Hd. destruct Hd as [Hv Hd]. apply elem_of_cons in Hu as [->|Hu]; [|by apply IH].
  simpl. rewrite keys_steps_other.
  - unfold keys_step. apply lookup_partial_alter_eq.
  - rewrite list_elem_of_fmap. intros (w & E & Hw). apply Hv. simpl in E. apply keys_file_inj in E.
    rewrite E. by apply list_elem_of_fmap_2.
Qed.

(** (C18) The keys sshd accepts are the configured ones: after
    generate_auth_keys() the file of every configured user holds exactly one
    line per authorized key, there is no file for a user without keys, and no
    other file has changed. *)
Theorem keys_files_exact tree a st :
  lydx_get_descendant tree ["system"; "authentication"] = Some a →
  let users := LYX_LIST_FOR_EACH (lyd_child (Some a)) "user" in
  NoDup (user_name <$> users) →
  (∀ n f, os_fopen "w" (keys_file n) f = None) → (∀ n, plain (fs_of st !! keys_file n)) →
  ∃ st', generate_auth_keys (0, tree) st = (Ret SR_ERR_OK, st') ∧
    (∀ u, u ∈ users → fs_of st' !! keys_file (user_name u) = keys_of u) ∧
    (∀ p, p ∉ keys_file ∘ user_name <$> users → fs_of st' !! p = fs_of st !! p).
Proof.
  intros Ea users Hd Ho Hp. destruct (wp_run _ _ _ (wp_users_keys users st Ho Hp)) as ([] & st' & E & F).
  exists st'. split; [|split].
  - unfold generate_auth_keys. cbn [fst snd]. rewrite decide_False by (intros Hn; by apply Hn). rewrite Ea.
    by rewrite (bind_run _ _ _ _ _ E).
  - intros u Hu. rewrite F. by apply keys_steps_own.
  - intros p Hp'. rewrite F. by apply keys_steps_other.
Qed.
End Keys.

(** ** The host name

    What Augeas promises for paths of single nodes: a value that was set is
    read back and no other node changes, setting an existing node makes no
    new node, and saving keeps the tree. *)
Class AugLaws `{Augeas} := {
  aug_node : string → Prop;
  aug_get_set : ∀ a p v a' q, aug_node p → aug_node q → aug_set_at a p v = (0, a') →
    aug_get_at a' q = if decide (q = p) then Some v else aug_get_at a q;
  aug_match_set : ∀ a p v a' e, is_Some (aug_get_at a p) → aug_set_at a p v = (0, a') →
    aug_match_at a' e = aug_match_at a e;
  aug_match_node : ∀ a e, Forall aug_node (aug_match_at a e);
  aug_save_keeps : ∀ a f rc a' f' q, aug_save_to a f = (rc, a', f') → aug_get_at a' q = aug_get_at a q;
}.

Section Hostname.
Context `{Os} `{Proc} `{HA : Augeas} `{Exec} `{!AugLaws}.

Definition HOSTNAME_NODE : string := "etc/hostname/hostname".
Definition CANONICAL : string := "etc/hosts/*/canonical".

(** The tree after the entries [l] that named the old host name the new one. *)
Definition renamed (a0 : aug) (old new : string) (l : list string) (a : aug) : Prop :=
  ∀ q, aug_node q → aug_get_at a q =
    if decide (q ∈ l ∧ aug_get_at a0 q = Some old) then Some new else aug_get_at a0 q.

Definition same_os (st st' : auth) : Prop := a_os st' = a_os st ∧ a_exec st' = a_exec st ∧ a_host st' = a_host st.

Context (set_works : ∀ a p v, is_Some (aug_get_at a p) → ∃ a', aug_set_at a p v = (0, a')).

Lemma renamed_entry a0 old new l p st :
  aug_node p → renamed a0 old new l (a_aug st) →
  wp (host_entry old new 0 p) (λ e st', e = 0 ∧ renamed a0 old new (l ++ [p]) (a_aug st') ∧ same_os st st') st.
Proof.
  intros Hp Hr. pose proof (Hr p Hp) as Ep.
  assert (Hskip : aug_get_at (a_aug st) p ≠ Some old → renamed a0 old new (l ++ [p]) (a_aug st)).
  { intros Hne q Hq. rewrite (Hr q Hq). destruct (decide (q = p)) as [->|Hqp].
    - rewrite Ep in Hne. repeat case_decide; set_solver.
    - apply decide_ext. set_solver. }
  unfold host_entry. apply wp_bind, wp_ret. destruct (aug_get_at (a_aug st) p) as [host|] eqn:Eh;
    [|apply wp_ret; split_and!; [done|by apply Hskip|done..]].
  unfold streq. case_bool_decide as Hs; [subst host|apply wp_ret; split_and!; [done|apply Hskip; congruence|done..]].
  rewrite decide_False by (intros Hn; by apply Hn).
  destruct (set_works (a_aug st) p new) as [a' Ea]; [by rewrite Eh|].
  unfold wp, aug_set. rewrite Ea. split_and!; [done| |done..]. simpl. intros q Hq.
  rewrite (aug_get_set _ _ _ _ _ Hp Hq Ea). destruct (decide (q = p)) as [->|Hqp].
  - case_decide as Hd; [by rewrite decide_True by set_solver|].
    rewrite decide_True; [done|]. rewrite <- Ep. set_solver.
  - rewrite (Hr q Hq). apply decide_ext. set_solver.
Qed.

Lemma renamed_entries a0 old new l1 l2 st :
  Forall aug_node l2 → renamed a0 old new l1 (a_aug st) →
  wp (foldM (host_entry old new) 0 l2) (λ e st', e = 0 ∧ renamed a0 old new (l1 ++ l2) (a_aug st') ∧ same_os st st') st.
Proof.
  revert l1 st. induction l2 as [|p l2 IH]; intros l1 st Hl Hr.
  { apply wp_ret. rewrite app_nil_r. by split_and!. }
  apply Forall_cons in Hl as [Hp Hl]. simpl. apply wp_bind. eapply wp_mono; [by apply renamed_entry|].
  intros e st1 (-> & Hr1 & Ho1 & Hx1 & Hh1). eapply wp_mono; [by apply (IH (l1 ++ [p]))|].
  intros e st2 (-> & Hr2 & Ho2 & Hx2 & Hh2). rewrite <- app_assoc in Hr2. split_and!; [done|done|].
  unfold same_os. by rewrite Ho2, Hx2, Hh2.
Qed.

End Hostname.
