(* ===== verification/Dhcp.v ===== *)
(** * confd/src/confd/infix-dhcp.c: one udhcpc service per interface

    client_change() works on the configuration and its diff as trees of
    Lyx.v; a client is a Finit service, a file with one line and the commands
    "initctl enable" and "initctl delete". *)
From S2P Require Import Prelude CString Os Lyx Core SysAuth SysTime.

Open Scope Z_scope.

Section Dhcp.
Context `{Os}.

Definition service_file (ifname : string) : string := "/etc/finit.d/available/dhcp-" +:+ ifname +:+ ".conf".

(** The text sprintf() makes, and the bytes alloca() reserves for it. *)
Definition client_args (client_id : string) : string := "-C -x 61:'" +:+ dquote +:+ client_id +:+ dquote +:+ "'".
Definition client_args_size (client_id : string) : nat := String.length client_id + 12.

Definition args_of (client_id : option string) : string :=
  match client_id with
  | Some id => if decide (id = EmptyString) then EmptyString else client_args id
  | None => EmptyString
  end.

Definition service_line (ifname : string) (client_id : option string) : string :=
  "service name:dhcp :" +:+ ifname +:+ " udhcpc -f -S -R -i " +:+ ifname +:+ " " +:+ args_of client_id +:+
  " -- DHCP client @" +:+ ifname +:+ nl.

Definition add (ifname : string) (client_id : option string) : M world unit :=
  let* fp := fopen (service_file ifname) "w" in
  match fp with
  | None => ret tt
  | Some fp =>
      fputs (service_line ifname client_id) fp ;;;
      let* _ := fclose fp in
      let* _ := system ("initctl -bfq enable dhcp-" +:+ ifname) in
      ret tt
  end.

Definition del (ifname : string) : M world unit :=
  let* _ := system ("initctl -bfq delete dhcp-" +:+ ifname) in ret tt.

(** The inner loop: the first entry of the configuration with the name. *)
Fixpoint client_entry (ena : bool) (ifname : option string) (cifs : list loc) : M world unit :=
  match cifs with
  | [] => ret tt
  | cif :: cifs' =>
      let* name := deref ifname in
      let* cname := deref (lydx_get_cattr (Some cif) "if-name") in
      if negb (streq name cname) then client_entry ena ifname cifs'
      else if negb ena || negb (lydx_is_enabled (Some cif) "enabled") then del name
      else add name (lydx_get_cattr (Some cif) "client-id")
  end.

Definition client_if (ena : bool) (cifs : list loc) (dif : loc) : M world unit :=
  let ifname := lydx_get_cattr (Some dif) "if-name" in
  if decide (lydx_get_op (Some dif) = LYDX_OP_DELETE) then del (cstr ifname)
  else client_entry ena ifname cifs.

(** [cfg] and [diff]: what sr_get_data() and srx_get_diff() give. *)
Definition client_change (event : sr_event) (cfg diff : Z * ptr) : M world Z :=
  if decide (event ≠ SR_EV_DONE) then ret SR_ERR_OK
  else if decide (cfg.1 ≠ 0) then ret cfg.1
  else if decide (diff.1 ≠ 0) then ret diff.1
  else
    let global := lydx_get_descendant cfg.2 ["dhcp-client"] in
    let ena := lydx_is_enabled global "enabled" in
    let cifs := lydx_get_descendant cfg.2 ["dhcp-client"; "client-if"] in
    let difs := lydx_get_descendant diff.2 ["dhcp-client"; "client-if"] in
    foreach (LYX_LIST_FOR_EACH difs "client-if") (client_if ena (LYX_LIST_FOR_EACH cifs "client-if")) ;;;
    ret diff.1.

(** ** The services that are enabled *)

Definition enable_cmd (n : string) : string := "initctl -bfq enable dhcp-" +:+ n.
Definition delete_cmd (n : string) : string := "initctl -bfq delete dhcp-" +:+ n.

(** What Finit makes of a command. *)
Definition finit (s : gset string) (cmd : string) : gset string :=
  if str_prefix (enable_cmd EmptyString) cmd then {[ str_drop 25 cmd ]} ∪ s
  else if str_prefix (delete_cmd EmptyString) cmd then s ∖ {[ str_drop 25 cmd ]}
  else s.

Definition services (log : list string) : gset string := foldl finit ∅ log.

Lemma finit_enable s n : finit s (enable_cmd n) = {[ n ]} ∪ s.
Proof. reflexivity. Qed.

Lemma finit_delete s n : finit s (delete_cmd n) = s ∖ {[ n ]}.
Proof. reflexivity. Qed.

Lemma services_snoc log cmd : services (log ++ [cmd]) = finit (services log) cmd.
Proof. unfold services. by rewrite foldl_app. Qed.

(** ** What is configured *)

Definition if_name (l : loc) : string := cstr (lydx_get_cattr (Some l) "if-name").

Definition named_if (l : loc) : Prop := is_Some (lydx_get_cattr (Some l) "if-name").

(** The line of the client an entry of the diff asks for, if it is to run. *)
Definition wanted (ena : bool) (cifs : list loc) (dif : loc) : option string :=
  if decide (lydx_get_op (Some dif) = LYDX_OP_DELETE) then None
  else
    match List.find (λ c, streq (if_name dif) (if_name c)) cifs with
    | Some c => if ena && lydx_is_enabled (Some c) "enabled"
                then Some (service_line (if_name dif) (lydx_get_cattr (Some c) "client-id")) else None
    | None => None
    end.

Definition present (cifs : list loc) (dif : loc) : Prop :=
  lydx_get_op (Some dif) = LYDX_OP_DELETE ∨ ∃ c, c ∈ cifs ∧ if_name c = if_name dif.

(** initctl leaves the files of other services alone, and the own one when
    it enables the service. *)
Class Finit := {
  finit_enable_files n f m : (os_system (enable_cmd n) f).2 !! service_file m = f !! service_file m;
  finit_delete_files n f m : n ≠ m → (os_system (delete_cmd n) f).2 !! service_file m = f !! service_file m;
  finit_delete_own n f : let f' := (os_system (delete_cmd n) f).2 in
    f' !! service_file n = None ∨ f' !! service_file n = f !! service_file n;
  finit_fopen n f : os_fopen "w" (service_file n) f = None;
}.
Context `{!Finit}.

Definition service_plain (f : fs) : Prop :=
  ∀ n, f !! service_file n = None ∨ ∃ t, f !! service_file n = Some (NFile t).

(** One entry of the diff handled. *)
Definition handled (ena : bool) (cifs : list loc) (dif : loc) (w w' : world) : Prop :=
  let n := if_name dif in
  (∀ m, m ≠ n → w_fs w' !! service_file m = w_fs w !! service_file m ∧
                (m ∈ services (w_log w') ↔ m ∈ services (w_log w))) ∧
  match wanted ena cifs dif with
  | Some line => n ∈ services (w_log w') ∧ w_fs w' !! service_file n = Some (NFile line)
  | None => n ∉ services (w_log w')
  end.

Lemma service_file_inj n m : service_file n = service_file m → n = m.
Proof. unfold service_file. intros E%app_inj_l_s. by apply app_cancel_r_s in E. Qed.

Lemma run_del n w :
  service_plain (w_fs w) →
  wp (del n) (λ _ w', service_plain (w_fs w') ∧ (n ∉ services (w_log w')) ∧
    ∀ m, m ≠ n → w_fs w' !! service_file m = w_fs w !! service_file m ∧
      (m ∈ services (w_log w') ↔ m ∈ services (w_log w))) w.
Proof.
  intros Hp. unfold wp, del, bind, system. fold (delete_cmd n).
  pose proof (finit_delete_files n (w_fs w)) as Ho. pose proof (finit_delete_own n (w_fs w)) as Hn.
  destruct (os_system (delete_cmd n) (w_fs w)) as [[rc e] f]. simpl in *. rewrite services_snoc, finit_delete.
  split_and!; [|set_solver|intros m Hm; split; [by apply Ho|set_solver]].
  intros m. destruct (decide (n = m)) as [<-|Hne]; [|rewrite Ho by done; apply Hp].
  destruct Hn as [->| ->]; [by left|apply Hp].
Qed.

Lemma run_add n id w :
  service_plain (w_fs w) →
  wp (add n id) (λ _ w', service_plain (w_fs w') ∧
    (n ∈ services (w_log w') ∧ w_fs w' !! service_file n = Some (NFile (service_line n id))) ∧
    ∀ m, m ≠ n → w_fs w' !! service_file m = w_fs w !! service_file m ∧
      (m ∈ services (w_log w') ↔ m ∈ services (w_log w))) w.
Proof.
  intros Hp. unfold add. apply wp_bind, wp_fopen_w; [apply finit_fopen|apply Hp|].
  apply wp_bind. eapply wp_fputs; [apply lookup_insert_eq|]. simpl. rewrite insert_insert_eq.
  unfold wp, bind, fclose, system, ret. fold (enable_cmd n).
  set (f1 := <[service_file n := NFile (service_line n id)]> (w_fs w)).
  pose proof (finit_enable_files n f1) as Ho. change (EmptyString +:+ service_line n id) with (service_line n id). cbn [w_fs set_fs]. fold f1.
  destruct (os_system (enable_cmd n) f1) as [[rc e] f]. simpl in *. rewrite services_snoc, finit_enable.
  assert (Hf : ∀ m, m ≠ n → f !! service_file m = w_fs w !! service_file m).
  { intros m Hm. rewrite Ho. apply lookup_insert_ne. by intros E%service_file_inj. }
  assert (Hn : f !! service_file n = Some (NFile (service_line n id))) by (rewrite Ho; apply lookup_insert_eq).
  split_and!; [|set_solver|done|intros m Hm; split; [by apply Hf|set_solver]].
  intros m. destruct (decide (m = n)) as [->|Hne]; [right; eauto|rewrite Hf by done; apply Hp].
Qed.

Lemma run_entry ena n cifs w c :
  Forall named_if cifs → List.find (λ c, streq n (if_name c)) cifs = Some c →
  client_entry ena (Some n) cifs w =
    (if ena && lydx_is_enabled (Some c) "enabled" then add n (lydx_get_cattr (Some c) "client-id") else del n) w.
Proof.
  induction cifs as [|d cifs IH]; [done|]. intros [[x Ed] Hl]%Forall_cons. simpl.
  unfold if_name at 1. rewrite Ed. unfold cstr. simpl. unfold bind at 1, ret at 1. unfold bind at 1, ret at 1.
  destruct (streq n x); simpl; [intros [= ->]; by destruct ena, (lydx_is_enabled (Some c) "enabled")|by apply IH].
Qed.

Lemma run_if ena cifs dif w :
  Forall named_if cifs → named_if dif → present cifs dif → service_plain (w_fs w) →
  wp (client_if ena cifs dif) (λ _ w', service_plain (w_fs w') ∧ handled ena cifs dif w w') w.
Proof.
  intros Hc [n En] Hpr Hp. unfold client_if, handled, wanted. assert (Hn : if_name dif = n) by (unfold if_name; by rewrite En).
  fold (if_name dif). rewrite Hn, En. case_decide as Hd.
  { eapply wp_mono; [by apply run_del|]. simpl. naive_solver. }
  destruct Hpr as [?|(c & Hin & Hcn)]; [done|].
  assert (∃ c', List.find (λ c, streq n (if_name c)) cifs = Some c') as [c' Ef].
  { destruct (List.find _ cifs) eqn:Ef; [eauto|]. pose proof (find_none _ _ Ef c) as Hx.
    rewrite <- list_elem_of_In in Hx. specialize (Hx Hin). apply bool_decide_eq_false in Hx. by rewrite Hcn in Hx. }
  rewrite Ef. apply (wp_eq _ _ _ _ (run_entry _ _ _ _ _ Hc Ef)).
  destruct (ena && lydx_is_enabled (Some c') "enabled").
  - eapply wp_mono; [by apply run_add|]. simpl. naive_solver.
  - eapply wp_mono; [by apply run_del|]. simpl. naive_solver.
Qed.

(** All entries handled: a later entry has another name. *)
Lemma run_ifs ena cifs difs w :
  Forall named_if cifs → Forall named_if difs → Forall (present cifs) difs → NoDup (if_name <$> difs) →
  service_plain (w_fs w) →
  wp (foreach difs (client_if ena cifs)) (λ _ w',
    (∀ m, m ∉ if_name <$> difs → m ∈ services (w_log w') ↔ m ∈ services (w_log w)) ∧
    (∀ m, m ∉ if_name <$> difs → w_fs w' !! service_file m = w_fs w !! service_file m) ∧
    ∀ d, d ∈ difs → match wanted ena cifs d with
      | Some line => if_name d ∈ services (w_log w') ∧ w_fs w' !! service_file (if_name d) = Some (NFile line)
      | None => if_name d ∉ services (w_log w')
      end) w.
Proof.
  intros Hc. revert w. induction difs as [|d difs IH]; intros w Hn Hpr Hd Hp.
  { apply wp_ret. split_and!; [done|done|]. by intros d Hd'%elem_of_nil. }
  apply Forall_cons in Hn as [Hnd Hn], Hpr as [Hpd Hpr]. rewrite fmap_cons, NoDup_cons in Hd. destruct Hd as [Hnew Hd].
  simpl. apply wp_bind. eapply wp_mono; [by apply run_if|]. intros [] w1 (Hp1 & Ho1 & Hw1).
  eapply wp_mono; [by apply IH|]. intros [] w2 (Hs2 & Hf2 & Hw2). simpl. split_and!.
  - intros m [Hm Hm']%not_elem_of_cons. rewrite Hs2 by done. by apply Ho1.
  - intros m [Hm Hm']%not_elem_of_cons. rewrite Hf2 by done. by apply Ho1.
  - intros x [->|Hx]%elem_of_cons; [|by apply Hw2]. specialize (Hs2 _ Hnew). specialize (Hf2 _ Hnew).
    destruct (wanted ena cifs d); [|by rewrite Hs2]. by rewrite Hs2, Hf2.
Qed.


(** A defect: enabling or disabling DHCP as a whole changes no client; only
    interfaces with a change of their own are looked at. *)
Lemma dhcp_global_ignored ev cfg diff w :
  lydx_get_descendant diff ["dhcp-client"; "client-if"] = None →
  client_change ev (0, cfg) (0, diff) w = (Ret SR_ERR_OK, w).
Proof.
  intros Ed. unfold client_change. cbn [fst snd]. case_decide; [done|]. rewrite !decide_False by (intros Hx; by apply Hx).
  by rewrite Ed.
Qed.

(** A defect: the buffer for the arguments is two bytes too small for the
    text and its terminator. *)
Lemma client_args_overflow id : (String.length (client_args id) + 1 = client_args_size id + 2)%nat.
Proof. unfold client_args, client_args_size. rewrite !length_app_s. simpl. lia. Qed.
End Dhcp.
