(* ===== verification/SysDemo.v ===== *)
(** * A concrete system for the callbacks of ietf-system.c and infix-dhcp.c

    Commands succeed and change no file; the datastore is a map from xpaths
    to values, Augeas a map from paths to values. *)
From S2P Require Import Prelude CString Os Systemv Helpers SrxVal Lyx Core IfCand IfDemo SysConf SysConfProps SysNtp SysStage Transaction SysTime SysAuth SysAuthProps Dhcp.

Open Scope Z_scope.

#[local] Instance demo_os : Os := {|
  os_system cmd f := (0, 0, f);
  os_fopen m p f := None;
  os_fchmod p f := 0;
|}.

#[local] Instance demo_sr : Sr := {|
  ds := gmap string (list sr_val);
  sr_get_items d x := (0, default [] (d !! x), None);
  sr_set_item_str d x v := (0, <[x := [SrVal x (SR_STRING_T v)]]> d);
  sr_val_to_str v := match v with SR_STRING_T t => t | SR_UINT16_T z => fmt_d z | _ => EmptyString end;
|}.

(** ** NTP: one server with an address and a port, one without *)

Definition ntp_x : string := "/ietf-system:system/ntp/server".
Definition srv (n : string) : string := ntp_x +:+ "[name='" +:+ n +:+ "']".
Definition one (x : string) (v : sr_data) : string * list sr_val := (x, [SrVal x v]).

Definition ntp_ds : ds := list_to_map (M := gmap string (list sr_val))
  [(ntp_x, [SrVal (srv "a") (SR_OTHER_T 0 EmptyString); SrVal (srv "b") (SR_OTHER_T 0 EmptyString)]);
   one (srv "a" +:+ "/udp/address") (SR_STRING_T "192.0.2.1"); one (srv "a" +:+ "/udp/port") (SR_UINT16_T 123);
   one (srv "a" +:+ "/iburst") (SR_BOOL_T true); one "/ietf-system:system/ntp/enabled" (SR_BOOL_T true)].

Lemma demo_some (d : ds) x v t :
  sr_get_items d x = (0, [SrVal x v], None) → sr_val_to_str v = t → reads d x (Some t).
Proof. intros E T. by exists (SrVal x v). Qed.

Lemma demo_none (d : ds) x : sr_get_items d x = (0, [], None) → reads d x None.
Proof. done. Qed.

Lemma demo_bool (d : ds) x b :
  sr_get_items d x = (0, [SrVal x (SR_BOOL_T b)], None) → ∃ y, sr_get_items d x = (0, [SrVal y (SR_BOOL_T b)], None).
Proof. eauto. Qed.

Definition ntp_entries : list ntp_entry :=
  [NtpEntry (Some "192.0.2.1") None (Some "123") true false; NtpEntry None None None false false].

Definition old_conf : string := "server 198.51.100.1" +:+ nl.
Definition etc : world := World {[ CHRONY_CONF := NFile old_conf ]} 0 [].
Definition staged_etc : world :=
  World {[ CHRONY_CONF := NFile old_conf; next_of CHRONY_CONF := NFile (chrony_text ntp_entries) ]} 0 [].

Ltac lookup := vm_compute; reflexivity.

Lemma change_ntp_equiv_witness :
  ∃ w', w_fs w' !! next_of CHRONY_CONF = Some (NFile (chrony_text ntp_entries)) ∧
    change_ntp SR_EV_CHANGE (Sess ntp_ds etc) = (Ret SR_ERR_OK, Sess ntp_ds w').
Proof.
  destruct (change_ntp_equiv ntp_ds etc
    [SrVal (srv "a") (SR_OTHER_T 0 EmptyString); SrVal (srv "b") (SR_OTHER_T 0 EmptyString)] ntp_entries SR_EV_CHANGE)
    as (w' & Hf & E).
  - by right.
  - vm_compute. reflexivity.
  - constructor; [|constructor; [|constructor]].
    + split; [apply (demo_some _ _ (SR_STRING_T "192.0.2.1")); vm_compute; reflexivity|]. split; [lookup|].
      split; [apply (demo_some _ _ (SR_UINT16_T 123)); vm_compute; reflexivity|].
      split; [left; apply demo_bool; lookup|right; split; [done|lookup]].
    + split; [lookup|]. split; [lookup|]. split; [lookup|].
      split; right; (split; [done|lookup]).
  - done.
  - left. vm_compute. reflexivity.
  - exists w'. split; [|exact E]. rewrite Hf. apply lookup_insert_eq.
Defined.

Lemma ntp_enable_inverted_witness :
  ∃ w', change_ntp SR_EV_DONE (Sess ntp_ds staged_etc) = (Ret SR_ERR_OK, Sess ntp_ds w') ∧
    w_log w' = ["initctl -nbq disable chronyd"].
Proof.
  destruct (ntp_enable_inverted ntp_ds staged_etc (NFile (chrony_text ntp_entries)) true) as (w' & E & L).
  - vm_compute. reflexivity.
  - left. eexists. vm_compute. reflexivity.
  - exists w'. split; [exact E|exact L].
Defined.

#[local] Instance demo_quiet_sys conf : QuietSystem conf.
Proof. by constructor. Qed.

Lemma staged_files_refine_witness :
  staged_step SR_EV_DONE (view_fs CHRONY_CONF (s_fs (Sess ntp_ds staged_etc)))
    (view_fs CHRONY_CONF (s_fs (change_ntp SR_EV_DONE (Sess ntp_ds staged_etc)).2)) ∧
  (change_ntp SR_EV_DONE (Sess ntp_ds staged_etc)).1 = Ret SR_ERR_OK.
Proof.
  destruct (staged_files_refine change_ntp CHRONY_CONF SR_EV_DONE (Sess ntp_ds staged_etc) cb_ntp) as [Hs Hr].
  split; [exact Hs|]. apply Hr. by right.
Defined.

(** ** A transaction over clock, NTP and the message of the day *)

Definition full_ds : ds := list_to_map (M := gmap string (list sr_val))
  [(ntp_x, [SrVal (srv "a") (SR_OTHER_T 0 EmptyString)]);
   one (srv "a" +:+ "/udp/address") (SR_STRING_T "192.0.2.1");
   one "/ietf-system:system/clock/timezone-name" (SR_STRING_T "Europe/Stockholm");
   one "/ietf-system:system/infix-system:motd" (SR_STRING_T "hello")].

#[local] Instance demo_dns : DnsModel full_ds.
Proof.
  split; [done|]. intros v Hv. exfalso. revert Hv.
  replace (sr_get_items full_ds _) with (0, @nil sr_val, @None Z) by (vm_compute; reflexivity). apply not_elem_of_nil.
Qed.

#[local] Instance demo_quiet_hooks : QuietHooks.
Proof. by constructor. Qed.

Definition idle_sys : sysd := Sysd (Core CB_PRIO_PASSIVE 0 [] etc) full_ds.

Definition demo_subs : list subscriber :=
  [Owner change_clock TIMEZONE_CONF; Owner change_ntp CHRONY_CONF;
   Watcher (change_motd "/ietf-system:system/infix-system:motd"); PostHook; PostHook].

Lemma demo_commits : ∃ s', transaction (demo_subs ++ [PostHook]) idle_sys 0 s'.
Proof. apply run_accepted_sound. vm_compute. reflexivity. Qed.


(** ** Dates *)

Lemma datetime_roundtrip_witness :
  ∃ text, fmtime "2023-06-01T12:00:00+0200" = Some text ∧
    datetime_arg text = Some ("2023-06-01T12:00:00+0200", "%FT%T%z").
Proof. apply (datetime_roundtrip "2023-06-01T12:00:00" "+" "0" "2" "0" "0"). by left. Defined.

(** A libc that knows one date. *)
#[local] Instance demo_time : TimeOs := {|
  strptime buf fmt := if streq buf "2023-06-01T12:00:00+0200" then Some (Tm 1685620800 7200) else None;
  mktime tz t := tm_civil t + tm_gmtoff t;
  settimeofday _ := true;
|}.

Lemma set_datetime_masks_failure_witness :
  let st := (rpc_set_datetime "2023-06-01T12:00:00+02:00" rtc_init).2 in
  (rpc_set_datetime "2023-13-01T12:00:00Z" st).1 = Ret SR_ERR_OK.
Proof.
  apply (set_datetime_masks_failure "2023-06-01T12:00:00+02:00" rtc_init "2023-13-01T12:00:00Z"
    "2023-13-01T12:00:00Z" "%FT%TZ").
  - vm_compute. reflexivity.
  - vm_compute. reflexivity.
  - left. vm_compute. reflexivity.
Defined.

(** ** Users *)

#[local] Instance demo_aug : Augeas := {|
  aug := gmap string string;
  aug_set_at a p v := (0, <[p := v]> a);
  aug_get_at a p := a !! p;
  aug_match_at a e := List.filter (λ p, match a !! p with Some _ => true | None => false end)
                        ["/files/etc/hosts/1/canonical"; "/files/etc/hosts/2/canonical"];
  aug_load_from a f := (0, a);
  aug_save_to a f := (0, a, f);
|}.

#[local] Instance demo_proc : Proc := {|
  os_fork _ := None;
  os_execvp _ f := Some (exited 0, f);
  os_waitpid _ := None;
|}.

#[local] Instance demo_exec : Exec := {|
  shell_found := true; login_shell := "/bin/clish";
  user_exists _ _ := true;
  exec_sethostname _ := 0;
|}.

Definition hosts : aug := ({[ HOSTNAME_NODE := "old"; "/files/etc/hosts/1/canonical" := "localhost"; "/files/etc/hosts/2/canonical" := "old" ]} : gmap string string).

Definition sys0 : auth := Auth hosts (World ∅ 0 []) (Procs ∅ []) None.

Definition keys_tree : ptr :=
  root (inner "system" [] [inner "authentication" []
    [inner "user" [] [leaf "name" "jacky";
       inner "authorized-key" [] [leaf "name" "laptop"; leaf "algorithm" "ssh-ed25519"; leaf "key-data" "AAAA"]];
     inner "user" [] [leaf "name" "admin"]]]).

Definition users_session : auth_session := AuthSession
  (0, [UserChange SR_OP_CREATED "jacky" None; UserChange SR_OP_DELETED "bob.old" None])
  (0, [UserChange SR_OP_CREATED "jacky" (Some (SR_STRING_T "$1$x"))]) (0, keys_tree).


Definition jacky : loc := default (Loc (leaf EmptyString EmptyString) [] [])
  (head (LYX_LIST_FOR_EACH (lyd_child (lydx_get_descendant keys_tree ["system"; "authentication"])) "user")).

Lemma keys_files_exact_witness :
  ∃ st', generate_auth_keys (0, keys_tree) sys0 = (Ret SR_ERR_OK, st') ∧
    fs_of st' !! "/var/run/sshd/jacky.keys" = Some (NFile ("ssh-ed25519 AAAA laptop" +:+ nl)).
Proof.
  destruct (lydx_get_descendant keys_tree ["system"; "authentication"]) as [a|] eqn:Ea; [|by vm_compute in Ea].
  destruct (keys_files_exact keys_tree a sys0 Ea) as (st' & E & Hu & _).
  - vm_compute in Ea. injection Ea as <-. apply (bool_decide_unpack _). vm_compute. reflexivity.
  - done.
  - by left.
  - exists st'. split; [exact E|]. apply (Hu jacky). vm_compute in Ea. injection Ea as <-.
    apply (list_elem_of_lookup_2 _ 0%nat). vm_compute. reflexivity.
Defined.

(** ** Host name *)

#[local] Instance demo_aug_laws : AugLaws.
Proof.
  refine {| aug_node _ := True |}; simpl.
  - intros a p v a' q _ _ [= <-]. destruct (decide (q = p)) as [->|Hne]; [by rewrite lookup_insert_eq|].
    by rewrite lookup_insert_ne.
  - intros a p v a' e [x Hx] [= <-].
    assert (Hq : ∀ q, match <[p := v]> a !! q with Some _ => true | None => false end =
                      match a !! q with Some _ => true | None => false end).
    { intros q. destruct (decide (q = p)) as [->|Hne]; [by rewrite lookup_insert_eq, Hx|by rewrite lookup_insert_ne]. }
    by rewrite !Hq.
  - intros a e. apply Forall_forall. done.
  - by intros a f rc a' f' q [= _ <- _].
Defined.

Lemma demo_set_works (a : aug) p v : is_Some (aug_get_at a p) → ∃ a', aug_set_at a p v = (0, a').
Proof. intros _. by eexists. Qed.


(** ** DHCP: eth0 enabled, eth1 removed *)

Definition dhcp_cfg : ptr :=
  root (inner "dhcp-client" [] [leaf "enabled" "true";
    inner "client-if" [] [leaf "if-name" "eth0"; leaf "enabled" "true"; leaf "client-id" "infix"]]).
Definition dhcp_diff : ptr :=
  root (inner "dhcp-client" (op "none")
    [inner "client-if" (op "create") [leaf "if-name" "eth0"; leaf "enabled" "true"; leaf "client-id" "infix"];
     inner "client-if" (op "delete") [leaf "if-name" "eth1"]]).

#[local] Instance demo_finit : Finit.
Proof. constructor; [done|done|by right|done]. Defined.

