(* ===== verification/Statd.v ===== *)
(** * confd/src/statd/core.c: operational state of interfaces

    The JSON of ip(8) as jansson parses it; popen() and the parser are the
    parameter [ip_link], sysrepo's connection and subscriptions are
    environments, libyang is the parameter of lydx_new_path(). *)
From S2P Require Import Prelude CString Core SysTime.

Open Scope Z_scope.


Inductive json :=
| JInteger (z : Z)
| JString (s : string)
| JArray (l : list json)
| JObject (l : list (string * json))
| JOther.

(** json_object_get(): [None] for what is no object and for a missing key. *)
Definition json_object_get (j : json) (key : string) : option json :=
  match j with
  | JObject l => snd <$> List.find (λ kv, streq kv.1 key) l
  | _ => None
  end.

Fixpoint to_lowercase (str : string) : string :=
  match str with
  | EmptyString => EmptyString
  | String c s => String (tolower c) (to_lowercase s)
  end.

Definition XPATH_IFACE_BASE : string := "/ietf-interfaces:interfaces".
Definition iface_path (ifname : string) : string := XPATH_IFACE_BASE +:+ "/interface[name='" +:+ ifname +:+ "']".

Section Statd.
(** The output of a command: [None] when it cannot be started, [Some None]
    when its output is no JSON. *)
Context (ip_link : string → option (option json)).
Context (new_path : string → string → Z).

Abbreviation tree := (option (list (string * string))).

(** The buffer for the command has 512 bytes. *)
Definition ip_link_cmd (ifname : option string) : string :=
  str_take 511 (match ifname with
                | Some n => "ip -d -j link show dev " +:+ n +:+ " 2>/dev/null"
                | None => "ip -d -j link show 2>/dev/null"
                end).

Definition get_ip_link_json (ifname : option string) : option (list json) :=
  match ip_link (ip_link_cmd ifname) with
  | Some (Some (JArray l)) => Some l
  | _ => None
  end.

(** The result and the tree; [None] is undefined behaviour of lydx_new_path(). *)
Definition add_ip_link_data (parent : tree) (xpath : string) (iface : json) : option (Z * tree) :=
  match json_object_get iface "ifindex" with
  | Some (JInteger z) =>
      match lydx_new_path new_path parent true xpath "if-index" (Some (fmt_d z)) with
      | None => None
      | Some (err, parent) =>
          if decide (err ≠ 0) then Some (SR_ERR_LY, parent)
          else
            match json_object_get iface "operstate" with
            | Some (JString s) =>
                match lydx_new_path new_path parent false xpath "oper-status" (Some (to_lowercase s)) with
                | None => None
                | Some (err, parent) => Some (if decide (err ≠ 0) then SR_ERR_LY else SR_ERR_OK, parent)
                end
            | _ => Some (SR_ERR_SYS, parent)
            end
      end
  | _ => Some (SR_ERR_SYS, parent)
  end.

Definition add_ip_link (parent : tree) (ifname : string) : option (Z * tree) :=
  match get_ip_link_json (Some ifname) with
  | Some [j_iface] => add_ip_link_data parent (iface_path ifname) j_iface
  | _ => Some (SR_ERR_SYS, parent)
  end.

(** [conn], [ctx]: the session has a connection and that a context. *)
Definition iface_cb (conn ctx : bool) (parent : tree) (ifname : string) : option (Z * tree) :=
  if negb conn then Some (SR_ERR_INTERNAL, parent)
  else if negb ctx then Some (SR_ERR_INTERNAL, parent)
  else add_ip_link parent ifname.

(** The subscriptions made, by interface; [subscribe] is sysrepo's answer. *)
Fixpoint reg_handlers (subscribe : string → Z) (l : list json) (subs : list string) : Z * list string :=
  match l with
  | [] => (SR_ERR_OK, subs)
  | j :: l' =>
      match json_object_get j "ifname" with
      | Some (JString ifname) =>
          let err := subscribe (iface_path ifname) in
          if decide (err ≠ 0) then (err, subs) else reg_handlers subscribe l' (subs ++ [ifname])
      | _ => reg_handlers subscribe l' subs
      end
  end.

Definition reg_iface_handlers (subscribe : string → Z) : Z * list string :=
  match get_ip_link_json None with
  | None => (SR_ERR_SYS, [])
  | Some l => reg_handlers subscribe l []
  end.

(** [start]: the result of sr_session_start(). *)
Definition sr_plugin_init_cb (conn : bool) (start : Z) (subscribe : string → Z) : Z * list string :=
  if negb conn then (SR_ERR_INTERNAL, [])
  else if decide (start ≠ 0) then (start, [])
  else reg_iface_handlers subscribe.

(** sr_plugin_cleanup_cb(): [priv] is what sr_plugin_init_cb() stored, the
    subscriptions [subs] are those that are active. *)
Definition sr_plugin_cleanup_cb (priv : option unit) (subs : list string) : list string :=
  match priv with None => subs | Some _ => [] end.

(** *priv is never assigned. *)
Definition init_priv : option unit := None.

(** ** What the callback reports *)

Definition names (l : list json) : list string :=
  omap (λ j, match json_object_get j "ifname" with Some (JString n) => Some n | _ => None end) l.

(** Every interface that has a name gets a handler. *)
Lemma all_interfaces_registered subscribe l :
  (∀ x, subscribe x = 0) → get_ip_link_json None = Some l →
  reg_iface_handlers subscribe = (SR_ERR_OK, names l).
Proof.
  intros Hs El. unfold reg_iface_handlers. rewrite El. clear El.
  assert (Hgo : ∀ subs, reg_handlers subscribe l subs = (SR_ERR_OK, subs ++ names l)); [|by apply Hgo].
  induction l as [|j l IH]; intros subs; simpl; [by rewrite app_nil_r|].
  destruct (json_object_get j "ifname") as [[]|]; simpl; try apply IH.
  rewrite Hs, decide_False by (intros Hn; by apply Hn). by rewrite IH, <- app_assoc.
Qed.

(** A defect: the contexts of the subscriptions are local to the loop and
    nothing is stored in priv, so neither a failed registration nor the end of
    the plugin takes back a handler that was registered. *)
Lemma handlers_outlive_plugin subscribe l1 l2 j n :
  (∀ m, m ∈ names l1 → subscribe (iface_path m) = 0) → json_object_get j "ifname" = Some (JString n) →
  subscribe (iface_path n) ≠ 0 → get_ip_link_json None = Some (l1 ++ j :: l2) →
  let '(rc, subs) := sr_plugin_init_cb true 0 subscribe in
  rc ≠ 0 ∧ sr_plugin_cleanup_cb init_priv subs = names l1.
Proof.
  intros Hok Hj Hn El. unfold sr_plugin_init_cb, reg_iface_handlers. rewrite El. simpl.
  assert (Hgo : ∀ subs, reg_handlers subscribe (l1 ++ j :: l2) subs = (subscribe (iface_path n), subs ++ names l1)).
  { clear El. induction l1 as [|i l IH]; intros subs; simpl.
    - rewrite Hj, decide_True by done. by rewrite app_nil_r.
    - unfold names in Hok. simpl in Hok.
      destruct (json_object_get i "ifname") as [[]|]; simpl in *; try (apply IH; exact Hok).
      rewrite Hok by set_solver. rewrite decide_False by (intros Hx; by apply Hx).
      rewrite IH by (intros; apply Hok; set_solver). by rewrite <- app_assoc. }
  rewrite Hgo. done.
Qed.

(** The text of a number has no conversion in it. *)
Lemma strchr_dec_aux fuel n : 0 ≤ n → strchr (dec_aux fuel n) "%"%char = None.
Proof.
  assert (Hd : ∀ d, 0 ≤ d < 10 → strchr (digit d) "%"%char = None).
  { intros d Hd. simpl. rewrite decide_False; [done|]. apply ord_ne. rewrite ord_chr by lia.
    change (ord "%"%char) with 37. lia. }
  revert n. induction fuel as [|f IH]; intros n Hn; [done|]. cbn [dec_aux].
  destruct (Z.ltb_spec n 10) as [Hlt|Hge]; [by apply Hd; lia|].
  apply strchr_app_none. split; [apply IH, Z.div_pos; lia|apply Hd, Z.mod_pos_bound; lia].
Qed.

Lemma new_path_ok parent first base node val :
  strchr val "%"%char = None → new_path (base +:+ "/" +:+ node) val = 0 →
  lydx_new_path new_path parent first base node (Some val) =
    Some (0, Some (if first then [(base +:+ "/" +:+ node, val)] else default [] parent ++ [(base +:+ "/" +:+ node, val)])).
Proof.
  intros Hv Hn. unfold lydx_new_path. rewrite Hv, Hn. by rewrite decide_False by (intros Hx; by apply Hx).
Qed.

(** What ip(8) reports about one interface. *)
Definition reports (ifname : string) (z : Z) (s : string) : Prop :=
  ∃ j, get_ip_link_json (Some ifname) = Some [j] ∧ json_object_get j "ifindex" = Some (JInteger z) ∧
    json_object_get j "operstate" = Some (JString s).

(** The callback answers with the index and the state of the interface, the
    state in small letters, and nothing else. *)
Theorem iface_oper_state ifname z s :
  reports ifname z s → 0 ≤ z → strchr (to_lowercase s) "%"%char = None →
  (∀ node val, new_path (iface_path ifname +:+ "/" +:+ node) val = 0) →
  iface_cb true true None ifname =
    Some (SR_ERR_OK, Some [(iface_path ifname +:+ "/if-index", fmt_d z);
                           (iface_path ifname +:+ "/oper-status", to_lowercase s)]).
Proof.
  intros (j & Ej & Ei & Eo) Hz Hs Hn. unfold iface_cb, add_ip_link. cbn [negb]. rewrite Ej.
  unfold add_ip_link_data. rewrite Ei, Eo.
  rewrite new_path_ok; [|unfold fmt_d; destruct (Z.ltb_spec z 0); [lia|by apply strchr_dec_aux]|apply Hn].
  rewrite decide_False by (intros Hx; by apply Hx). rewrite new_path_ok by done.
  by rewrite decide_False by (intros Hx; by apply Hx).
Qed.

(** The values the YANG model has for oper-status. *)
Definition oper_status_enum : list string :=
  ["up"; "down"; "testing"; "unknown"; "dormant"; "not-present"; "lower-layer-down"].

(** A defect: two of the kernel's states are not the words of the model with
    other letters, so an interface in one of them has no operational data. *)
Lemma lower_layer_down_rejected ifname z s :
  reports ifname z s → 0 ≤ z → s = "LOWERLAYERDOWN" ∨ s = "NOTPRESENT" →
  (∀ val, new_path (iface_path ifname +:+ "/if-index") val = 0) →
  (∀ val, val ∉ oper_status_enum → new_path (iface_path ifname +:+ "/oper-status") val ≠ 0) →
  ∃ t, iface_cb true true None ifname = Some (SR_ERR_LY, t).
Proof.
  intros (j & Ej & Ei & Eo) Hz Hs Hn Hv. unfold iface_cb, add_ip_link. cbn [negb]. rewrite Ej.
  unfold add_ip_link_data. rewrite Ei, Eo.
  rewrite new_path_ok; [|unfold fmt_d; destruct (Z.ltb_spec z 0); [lia|by apply strchr_dec_aux]|apply Hn].
  rewrite decide_False by (intros Hx; by apply Hx).
  assert (Hlow : (to_lowercase s ∉ oper_status_enum) ∧ strchr (to_lowercase s) "%"%char = None)
    by (destruct Hs as [-> | ->]; (split; [apply (bool_decide_unpack _); vm_compute; reflexivity|vm_compute; reflexivity])).
  destruct Hlow as [Hl Hc]. unfold lydx_new_path. rewrite Hc. specialize (Hv _ Hl).
  change ("/" +:+ "oper-status") with "/oper-status". rewrite !decide_True by done. by eexists.
Qed.
End Statd.
