(* ===== verification/Tools.v ===== *)
(** * The command line tools: klinfix/src/klinfix.c and factory/factory.c

    What the tools do to the outside is a list of actions; what they get back
    (sysrepo, the terminal, the kernel) is an environment. *)
From S2P Require Import Prelude CString Os Systemv.

Open Scope Z_scope.

(** ** klinfix: copy and commit *)
Module Klix.
Inductive sr_datastore :=
| SR_DS_STARTUP | SR_DS_RUNNING | SR_DS_CANDIDATE | SR_DS_OPERATIONAL | SR_DS_FACTORY_DEFAULT.

#[export] Instance sr_datastore_eq_dec : EqDecision sr_datastore.
Proof. solve_decision. Defined.

Definition klix_ds_from_str (text : string) : option sr_datastore :=
  let len := String.length text in
  if strneq len "startup-config" text then Some SR_DS_STARTUP
  else if strneq len "running-config" text then Some SR_DS_RUNNING
  else if strneq len "candidate-config" text then Some SR_DS_CANDIDATE
  else if strneq len "operational-config" text then Some SR_DS_OPERATIONAL
  else if strneq len "factory-config" text then Some SR_DS_FACTORY_DEFAULT
  else None.

Inductive action :=
| Connect | Session (ds : sr_datastore) | Copy (dst src : sr_datastore) | Disconnect.

#[export] Instance action_eq_dec : EqDecision action.
Proof. solve_decision. Defined.

(** The results of sr_connect(), sr_session_start() and sr_copy_config(). *)
Record env := Env { e_connect : Z; e_session : Z; e_copy : Z }.

Definition emit (a : action) : M (list action) unit := modify (λ l, l ++ [a]).

Definition valid_src (d : sr_datastore) : bool :=
  match d with SR_DS_STARTUP | SR_DS_RUNNING | SR_DS_FACTORY_DEFAULT => true | _ => false end.
Definition valid_dst (d : sr_datastore) : bool :=
  match d with SR_DS_STARTUP | SR_DS_RUNNING => true | _ => false end.

(** [src] and [dst]: the arguments, where they were given. *)
Definition klix_copy (e : env) (src dst : option string) : M (list action) Z :=
  match src, dst with
  | Some src, Some dst =>
      match klix_ds_from_str src with
      | None => ret (-1)
      | Some srcds =>
          match klix_ds_from_str dst with
          | None => ret (-1)
          | Some dstds =>
              if negb (valid_src srcds) then ret (-1)
              else if negb (valid_dst dstds) then ret (-1)
              else if decide (e_connect e ≠ 0) then ret (-1)
              else
                emit Connect ;;;
                if decide (e_session e ≠ 0) then emit Disconnect ;;; ret (-1)
                else
                  emit (Session dstds) ;;; emit (Copy dstds srcds) ;;;
                  emit Disconnect ;;;
                  ret (if decide (e_copy e ≠ 0) then -1 else 0)
          end
      end
  | _, _ => ret (-1)
  end.

Definition klix_commit (e : env) : M (list action) Z :=
  if decide (e_connect e ≠ 0) then ret (-1)
  else
    emit Connect ;;;
    if decide (e_session e ≠ 0) then emit Disconnect ;;; ret (-1)
    else
      emit (Session SR_DS_RUNNING) ;;; emit (Copy SR_DS_RUNNING SR_DS_CANDIDATE) ;;;
      if decide (e_copy e ≠ 0) then ret (-1) else emit Disconnect ;;; ret 0.

(** The symbols of the plugin. *)
Definition kplugin_klinfix_init (syms : list string) : Z * list string :=
  (0, syms ++ ["klix_copy"; "klix_commit"]).

Definition kplugin_klinfix_fini : Z := 0.

Lemma strneq_prefix a t : strneq (String.length t) a t = str_prefix t a.
Proof.
  revert a. induction t as [|c t IH]; intros [|d a]; try done. simpl.
  destruct (decide (d = c)) as [->|Hne].
  - by rewrite IH, ?bool_decide_true by done.
  - rewrite ?bool_decide_false by congruence. done.
Qed.

(** The names of the datastores, in the order they are tried. *)
Definition ds_name (d : sr_datastore) : string :=
  match d with
  | SR_DS_STARTUP => "startup-config"
  | SR_DS_RUNNING => "running-config"
  | SR_DS_CANDIDATE => "candidate-config"
  | SR_DS_OPERATIONAL => "operational-config"
  | SR_DS_FACTORY_DEFAULT => "factory-config"
  end.

Lemma ds_from_str_prefix text d : klix_ds_from_str text = Some d → str_prefix text (ds_name d) = true.
Proof.
  unfold klix_ds_from_str. rewrite !strneq_prefix.
  repeat match goal with |- context [if ?b then _ else _] => destruct b eqn:? end; by intros [= <-].
Qed.

Lemma ds_from_str_name d : klix_ds_from_str (ds_name d) = Some d.
Proof. by destruct d. Qed.

Definition occurs (a : action) (l : list action) : nat := length (List.filter (λ b, bool_decide (a = b)) l).

(** What is allowed to the command: it returns, closes every connection it
    makes, succeeds only after a copy, and copies only between datastores that
    may be, those whose names its arguments abbreviate. *)
Definition copy_spec (src dst : option string) (l : list action) (res : outcome Z * list action) : Prop :=
  ∃ acts rc, res = (Ret rc, l ++ acts) ∧
    occurs Connect acts = occurs Disconnect acts ∧
    (rc = 0 → ∃ d s, Copy d s ∈ acts) ∧
    ∀ d s, Copy d s ∈ acts →
      (d = SR_DS_STARTUP ∨ d = SR_DS_RUNNING) ∧
      (s = SR_DS_STARTUP ∨ s = SR_DS_RUNNING ∨ s = SR_DS_FACTORY_DEFAULT) ∧
      ∃ ts td, src = Some ts ∧ dst = Some td ∧ str_prefix ts (ds_name s) = true ∧ str_prefix td (ds_name d) = true.

Lemma copy_refused src dst l : copy_spec src dst l (Ret (-1), l).
Proof.
  exists [], (-1). rewrite app_nil_r. split_and!; [done..|]. by intros d s Hin%elem_of_nil.
Qed.

(** A copy command never writes another datastore than startup and running,
    nor reads one that is no configuration; the datastores are the ones whose
    names its arguments abbreviate; and every connection it makes is closed. *)
Theorem klix_copy_safe e src dst l : copy_spec src dst l (klix_copy e src dst l).
Proof.
  unfold klix_copy. destruct src as [ts|]; [|apply copy_refused]. destruct dst as [td|]; [|apply copy_refused].
  destruct (klix_ds_from_str ts) as [srcds|] eqn:Es; [|apply copy_refused].
  destruct (klix_ds_from_str td) as [dstds|] eqn:Ed; [|apply copy_refused].
  destruct (valid_src srcds) eqn:Vs; [|apply copy_refused]. destruct (valid_dst dstds) eqn:Vd; [|apply copy_refused].
  cbn [negb]. case_decide; [apply copy_refused|]. unfold emit, bind, modify. case_decide.
  - exists [Connect; Disconnect], (-1). unfold ret. rewrite <- app_assoc. split_and!; [done..|].
    intros d s Hin. rewrite !elem_of_cons, elem_of_nil in Hin. naive_solver.
  - eexists [Connect; Session dstds; Copy dstds srcds; Disconnect], _. unfold ret. rewrite <- !app_assoc.
    split_and!; [done|by vm_compute|intros _; exists dstds, srcds; set_solver|].
    intros d s Hin. rewrite !elem_of_cons, elem_of_nil in Hin.
    assert (d = dstds ∧ s = srcds) as [-> ->] by naive_solver.
    split_and!; [by destruct dstds; auto|by destruct srcds; auto|]. exists ts, td.
    split_and!; [done..| |]; by apply ds_from_str_prefix.
Qed.

(** A defect: when the copy of a commit fails the connection stays open. *)
Lemma klix_commit_leaks e l :
  e_connect e = 0 → e_session e = 0 → e_copy e ≠ 0 →
  klix_commit e l = (Ret (-1), l ++ [Connect; Session SR_DS_RUNNING; Copy SR_DS_RUNNING SR_DS_CANDIDATE]).
Proof.
  intros Hc Hs He. unfold klix_commit, emit, bind, modify, ret. rewrite Hc, Hs.
  rewrite !(decide_False (P := 0 ≠ 0)) by (intros Hn; by apply Hn). rewrite decide_True by done. by rewrite <- !app_assoc.
Qed.
End Klix.

(** ** factory: the factory reset command *)
Module Factory.
Inductive action := Prompt (text : string) | Mknod (path : string) | System (cmd : string) | Warn (text : string).

Record env := Env {
  f_keys : nat → ascii;       (* the key pressed at the n-th prompt *)
  f_tty : option string;      (* ttyname() *)
  f_enotty : bool;            (* errno is ENOTTY *)
  f_mknod : Z;                (* mknod() *)
  f_eexist : bool;            (* errno is EEXIST *)
  f_status : Z;               (* what system() gives for the reboot *)
}.

Definition RESETME : string := "/mnt/cfg/infix/.reset".

(** The number of prompts so far and the actions. *)
Record st := St { s_prompts : nat; s_log : list action }.

Definition emit (a : action) : M st unit := modify (λ s, St (s_prompts s) (s_log s ++ [a])).

Definition yorn (e : env) (prompt : string) : M st bool := λ s,
  let key := f_keys e (s_prompts s) in
  (Ret (bool_decide (key = "y"%char) || bool_decide (key = "Y"%char)),
   St (S (s_prompts s)) (s_log s ++ [Prompt prompt])).

Definition factory_run (e : env) (cmd : string) : M st Z :=
  emit (System cmd) ;;;
  let status := f_status e in
  let rc := WEXITSTATUS status in
  ret (if WIFEXITED status then rc
       else if WIFSIGNALED status then (if decide (rc = 0) then 1 else rc) else rc).

(** The options as getopt_long() reports them, the first ends the program
    when it is for help or unknown: the flags reboot and yes, or its result. *)
Fixpoint factory_options (l : list ascii) (reboot yes : bool) : Z + bool * bool :=
  match l with
  | [] => inr (reboot, yes)
  | c :: l' =>
      if bool_decide (c = "h"%char) || bool_decide (c = "?"%char) then inl 0
      else if bool_decide (c = "r"%char) then factory_options l' false yes
      else if bool_decide (c = "y"%char) then factory_options l' reboot true
      else inl 1
  end.

Definition login_shell (argv0 : string) : bool := str_prefix "-" argv0.

Definition factory_main (e : env) (argv0 : string) (opts : list ascii) : M st Z :=
  match factory_options opts true false with
  | inl rc => ret rc
  | inr (reboot, yes) =>
      let tty := f_tty e in
      let yes := match tty with None => if f_enotty e then true else yes | Some _ => yes end in
      if login_shell argv0 && match tty with Some t => negb (streq t "/dev/console") | None => false end then exit 1
      else
        let* go := (if yes : bool then ret true else yorn e "Factory reset device (y/N)? ") in
        if go : bool then
          emit (Mknod RESETME) ;;;
          if bool_decide (f_mknod e ≠ 0) && negb (f_eexist e) then exit 1
          else
            emit (Warn "scheduled factory reset on next boot.") ;;;
            let* now := (if reboot : bool then
                           if yes : bool then ret true else yorn e "Reboot now to perform reset, (y/N)? "
                         else ret false) in
            if now : bool then factory_run e "/sbin/reboot"
            else emit (Warn "remember to reboot the system to perform the factory reset.") ;;; ret 0
        else ret 0
  end.

Definition confirmed (k : ascii) : bool := bool_decide (k = "y"%char) || bool_decide (k = "Y"%char).

(** The device is reset only with consent: at a terminal and without -y, any
    other key than y leaves no flag and runs nothing. *)
Lemma reset_needs_consent e argv0 opts t :
  f_tty e = Some t → "y"%char ∉ opts → confirmed (f_keys e 0) = false →
  ∃ r s, factory_main e argv0 opts (St 0 []) = (r, s) ∧ Forall (λ a, ∃ p, a = Prompt p) (s_log s).
Proof.
  intros Ht Hy Hk. unfold factory_main.
  assert (Hopt : ∀ r, (∃ rc, factory_options opts r false = inl rc) ∨ ∃ r', factory_options opts r false = inr (r', false)).
  { induction opts as [|c l IH]; intros r; [by right; exists r|]. rewrite not_elem_of_cons in Hy. destruct Hy as [Hc Hl].
    simpl. destruct (_ || _); [by left; exists 0|]. case_bool_decide; [by apply IH|].
    rewrite bool_decide_false by done. by left; exists 1. }
  destruct (Hopt true) as [[rc ->]|[r' ->]]; [by eexists _, _|]. rewrite Ht.
  case_match; [by eexists _, _|]. unfold bind at 1, yorn at 1. cbn [s_prompts]. unfold confirmed in Hk. rewrite Hk.
  eexists _, _. split; [done|]. simpl. constructor; [by eexists|done].
Qed.
End Factory.
