(* ===== verification/ProfAr.v ===== *)
(** * profeth: the list of application relations (ARs)

    app_utils.c keeps the ARs in an array that ends at the first entry whose
    arep is UINT32_MAX; app_ar_iterator_next() compacts it after deletions.
    app_event_set() and app_handle_event_ar() of sampleapp_common.c work on
    it.  The array is a list of fixed length; an iterator is an index with its
    [modified] flag. *)
From S2P Require Import Prelude.

Open Scope Z_scope.

Definition UINT32_MAX : Z := 2 ^ 32 - 1.

Record app_ar := AppAr { ar_arep : Z; ar_events : Z }.

#[export] Instance app_ar_eq_dec : EqDecision app_ar.
Proof. solve_decision. Defined.

Definition ar_free (a : app_ar) : Prop := ar_arep a = UINT32_MAX.

#[export] Instance ar_free_dec a : Decision (ar_free a).
Proof. unfold ar_free. apply _. Defined.

(** The index of the new entry, NULL when the array is full. *)
Definition app_ar_add_arep (l : list app_ar) (arep : Z) : option nat * list app_ar :=
  match list_find ar_free l with
  | Some (i, _) => (Some i, <[i := AppAr arep 0]> l)
  | None => (None, l)
  end.

Definition app_ar_arep (ar : app_ar) : Z := ar_arep ar.

Definition app_ar_event_set (ar : app_ar) (event : Z) : app_ar :=
  AppAr (ar_arep ar) (Z.lor (ar_events ar) event).

Definition app_ar_event_clr (ar : app_ar) (event : Z) : bool * app_ar :=
  if decide (Z.land (ar_events ar) event ≠ 0)
  then (true, AppAr (ar_arep ar) (Z.ldiff (ar_events ar) event))
  else (false, ar).

Record app_ar_iterator := Iter { it_index : Z; it_modified : bool }.

Definition app_ar_iterator_init : app_ar_iterator := Iter (-1) false.

(** The entry an index names, when it is in the array and in use. *)
Definition used_at (l : list app_ar) (index : Z) : option app_ar :=
  if decide (0 ≤ index) then
    match l !! Z.to_nat index with
    | Some a => if decide (ar_free a) then None else Some a
    | None => None
    end
  else None.

(** The inner loop of the compaction: the first entry in use from [j] on. *)
Definition next_used (l : list app_ar) (j : nat) : option (nat * app_ar) :=
  match list_find (λ a, ¬ ar_free a) (drop j l) with
  | Some (k, a) => Some (j + k, a)%nat
  | None => None
  end.

(** The outer loop, [n] iterations from [i] on. *)
Fixpoint compact (n i : nat) (l : list app_ar) : list app_ar :=
  match n with
  | O => l
  | S n' =>
      match l !! i with
      | Some a =>
          if decide (ar_free a) then
            match next_used l (S i) with
            | Some (j, b) =>
                let l' := <[j := AppAr UINT32_MAX (ar_events b)]> (<[i := b]> l) in
                if decide (length l - 1 ≤ j)%nat then l' else compact n' (S i) l'
            | None => l
            end
          else compact n' (S i) l
      | None => l
      end
  end.

(** Whether there is a next entry (at the iterator's index), and the array. *)
Definition app_ar_iterator_next (it : app_ar_iterator) (l : list app_ar)
    : bool * app_ar_iterator * list app_ar :=
  let it := Iter (it_index it + 1) (it_modified it) in
  match used_at l (it_index it) with
  | Some _ => (true, it, l)
  | None => (false, it, if it_modified it then compact (length l) 0 l else l)
  end.

Definition app_ar_iterator_done (it : app_ar_iterator) (l : list app_ar) : bool :=
  if decide (it_index it < 0) then false
  else match used_at l (it_index it) with Some _ => false | None => true end.

Definition app_ar_iterator_delete_current (it : app_ar_iterator) (l : list app_ar)
    : app_ar_iterator * list app_ar :=
  if decide (it_index it < Z.of_nat (length l)) then
    (Iter (it_index it) true,
     alter (λ a, AppAr UINT32_MAX (ar_events a)) (Z.to_nat (it_index it)) l)
  else (it, l).

(** The while loop of app_event_set(), until the arep is found. *)
Fixpoint event_set_loop (fuel : nat) (it : app_ar_iterator) (l : list app_ar) (arep event : Z)
    : app_ar_iterator * list app_ar :=
  match fuel with
  | O => (it, l)
  | S fuel =>
      let '(more, it, l) := app_ar_iterator_next it l in
      if more : bool then
        match used_at l (it_index it) with
        | Some ar =>
            if decide (app_ar_arep ar = arep)
            then (it, <[Z.to_nat (it_index it) := app_ar_event_set ar event]> l)
            else event_set_loop fuel it l arep event
        | None => (it, l)
        end
      else (it, l)
  end.

(** app_event_set() on the AR array. *)
Definition event_set_ar (l : list app_ar) (arep event : Z) (add_arep : bool) : list app_ar :=
  let '(it, l) := event_set_loop (S (length l)) app_ar_iterator_init l arep event in
  if add_arep && app_ar_iterator_done it l then
    match app_ar_add_arep l arep with
    | (Some i, l) => alter (λ ar, app_ar_event_set ar event) i l
    | (None, l) => l
    end
  else l.

(** The while loop of app_handle_event_ar(); the handler acts on the rest of
    the application's state and its result says whether to remove the AR. *)
Fixpoint handle_event_loop {S} (fuel : nat) (it : app_ar_iterator) (l : list app_ar) (s : S)
    (event : Z) (handler : S → Z → bool * S) : list app_ar * S :=
  match fuel with
  | O => (l, s)
  | S fuel =>
      let '(more, it, l) := app_ar_iterator_next it l in
      if more : bool then
        match used_at l (it_index it) with
        | Some ar =>
            let '(pending, ar) := app_ar_event_clr ar event in
            let l := <[Z.to_nat (it_index it) := ar]> l in
            if pending : bool then
              let '(remove, s) := handler s (app_ar_arep ar) in
              let '(it, l) := if remove : bool then app_ar_iterator_delete_current it l else (it, l) in
              handle_event_loop fuel it l s event handler
            else handle_event_loop fuel it l s event handler
        | None => (l, s)
        end
      else (l, s)
  end.

Definition handle_event_ar {S} (l : list app_ar) (s : S) (event : Z) (handler : S → Z → bool * S)
    : list app_ar * S :=
  handle_event_loop (Datatypes.S (length l)) app_ar_iterator_init l s event handler.

(** ** The abstract list *)

Definition active (l : list app_ar) : list app_ar := filter (λ a, ¬ ar_free a) l.

(** The entries in use are at the front, with different areps. *)
Definition ar_wf (l : list app_ar) : Prop :=
  ∃ rest, l = active l ++ rest ∧ Forall ar_free rest ∧ NoDup (ar_arep <$> active l).

Definition spec_set (max : nat) (act : list app_ar) (arep event : Z) (add : bool) : list app_ar :=
  if decide (arep ∈ ar_arep <$> act)
  then (λ a, if decide (ar_arep a = arep) then app_ar_event_set a event else a) <$> act
  else if add && bool_decide (length act < max)%nat then act ++ [AppAr arep event] else act.

(** An AR after the event was handled: [None] when the handler removed it. *)
Fixpoint spec_handle {S} (act : list app_ar) (s : S) (event : Z) (handler : S → Z → bool * S)
    : list app_ar * S :=
  match act with
  | [] => ([], s)
  | a :: act' =>
      if decide (Z.land (ar_events a) event ≠ 0) then
        let '(remove, s) := handler s (ar_arep a) in
        let '(r, s) := spec_handle act' s event handler in
        (if remove : bool then r else AppAr (ar_arep a) (Z.ldiff (ar_events a) event) :: r, s)
      else
        let '(r, s) := spec_handle act' s event handler in (a :: r, s)
  end.

Lemma active_app l1 l2 : active (l1 ++ l2) = active l1 ++ active l2.
Proof. apply filter_app. Qed.

Lemma active_free l : Forall ar_free l → active l = [].
Proof.
  induction 1 as [|a l Ha _ IH]; [done|]. unfold active. rewrite filter_cons_False; [done|]. naive_solver.
Qed.

Lemma active_used l : Forall (λ a, ¬ ar_free a) l → active l = l.
Proof.
  induction 1 as [|a l Ha _ IH]; [done|]. unfold active in *. rewrite filter_cons_True by done. by rewrite IH.
Qed.

Lemma active_all l : Forall (λ a, ¬ ar_free a) (active l).
Proof. apply Forall_forall. intros a Ha. unfold active in Ha. by apply list_elem_of_filter in Ha as [? _]. Qed.

(** ** Compaction *)

Lemma used_at_app_used act a rest :
  ¬ ar_free a → used_at (act ++ a :: rest) (Z.of_nat (length act)) = Some a.
Proof.
  intros Ha. unfold used_at. rewrite decide_True by lia. rewrite Nat2Z.id.
  rewrite list_lookup_middle by done. by rewrite decide_False.
Qed.

Lemma used_at_free act rest :
  Forall ar_free rest → used_at (act ++ rest) (Z.of_nat (length act)) = None.
Proof.
  intros Hr. unfold used_at. rewrite decide_True by lia. rewrite Nat2Z.id.
  rewrite lookup_app_r, Nat.sub_diag by done. destruct Hr as [|a l Ha _]; [done|].
  simpl. by rewrite decide_True.
Qed.

Lemma list_find_None_Forall {A} (P : A → Prop) `{∀ x, Decision (P x)} l :
  list_find P l = None → Forall (λ x, ¬ P x) l.
Proof. by intros E%list_find_None. Qed.

(** One move: the entry [b] goes to the place of the free entry [a]. *)
Lemma move_entry (pre : list app_ar) a t1 b b' t2 :
  <[(S (length pre) + length t1)%nat := b']> (<[length pre := b]> (pre ++ a :: t1 ++ b :: t2))
  = (pre ++ [b]) ++ (t1 ++ b' :: t2).
Proof.
  replace (S (length pre) + length t1)%nat with (length pre + S (length t1))%nat by lia.
  rewrite <- (Nat.add_0_r (length pre)) at 2. rewrite !insert_app_r.
  change (pre ++ b :: <[length t1 := b']> (t1 ++ b :: t2) = (pre ++ [b]) ++ t1 ++ b' :: t2).
  rewrite <- (Nat.add_0_r (length t1)). rewrite insert_app_r. by rewrite <- app_assoc.
Qed.

Lemma active_cons a l : active (a :: l) = active [a] ++ active l.
Proof. apply (active_app [a]). Qed.

Lemma active_one_free a : ar_free a → active [a] = [].
Proof. intros. apply active_free. by constructor. Qed.

Lemma active_move pre a t1 b e t2 :
  ar_free a → Forall ar_free t1 →
  active ((pre ++ [b]) ++ (t1 ++ AppAr UINT32_MAX e :: t2)) = active (pre ++ a :: t1 ++ b :: t2).
Proof.
  intros Ha Ht1. rewrite !active_app, (active_cons a), (active_cons (AppAr _ _)), !active_app.
  rewrite (active_cons b t2), (active_one_free a), (active_one_free (AppAr _ e)), (active_free t1) by done.
  simpl. by rewrite <- app_assoc.
Qed.

(** The first entry in use splits the rest of the array. *)
Lemma find_used_split (todo : list app_ar) k b :
  list_find (λ a, ¬ ar_free a) todo = Some (k, b) →
  ∃ t1 t2, todo = t1 ++ b :: t2 ∧ k = length t1 ∧ Forall ar_free t1 ∧ ¬ ar_free b.
Proof.
  intros Ef. apply list_find_Some in Ef as (Hk & Hb & Hbefore).
  destruct (list_elem_of_split_length todo k b Hk) as (t1 & t2 & -> & ->).
  exists t1, t2. split_and!; [done..| |done]. apply Forall_forall.
  intros x Hx. apply list_elem_of_lookup in Hx as [j Hj]. pose proof (lookup_lt_Some _ _ _ Hj).
  destruct (decide (ar_free x)) as [|Hx]; [done|]. exfalso.
  eapply (Hbefore j x); [by rewrite lookup_app_l by lia|lia|done].
Qed.

(** The loop invariant: entries before [i] are in use. *)
Lemma compact_spec n pre todo :
  (length todo ≤ n)%nat → Forall (λ a, ¬ ar_free a) pre →
  ∃ rest, compact n (length pre) (pre ++ todo) = active (pre ++ todo) ++ rest ∧ Forall ar_free rest ∧
    length (compact n (length pre) (pre ++ todo)) = length (pre ++ todo).
Proof.
  revert pre todo. induction n as [|n IH]; intros pre todo Hn Hd.
  { destruct todo as [|? ?]; simpl in *; [|lia]. rewrite app_nil_r. exists [].
    rewrite app_nil_r, active_used; done. }
  cbn [compact]. destruct todo as [|a todo].
  { rewrite !app_nil_r. rewrite lookup_ge_None_2 by lia. exists []. by rewrite app_nil_r, active_used. }
  rewrite list_lookup_middle by done. case_decide as Ha.
  2: { replace (pre ++ a :: todo) with ((pre ++ [a]) ++ todo) by (by rewrite <- app_assoc).
       replace (S (length pre)) with (length (pre ++ [a])) by (rewrite length_app; simpl; lia).
       apply IH; [simpl in Hn; lia|]. apply Forall_app. split; [done|]. by constructor. }
  unfold next_used.
  replace (drop (S (length pre)) (pre ++ a :: todo)) with todo
    by (rewrite drop_app_ge by lia; by replace (S (length pre) - length pre)%nat with 1%nat by lia).
  destruct (list_find _ todo) as [[k b]|] eqn:Ef.
  2: { apply list_find_None in Ef. exists (a :: todo).
       assert (Hf : Forall ar_free (a :: todo)).
       { constructor; [done|]. eapply Forall_impl; [exact Ef|]. intros x Hx. by apply dec_stable. }
       by rewrite active_app, active_used, (active_free (a :: todo)), app_nil_r by done. }
  apply find_used_split in Ef as (t1 & t2 & -> & -> & Ht1 & Hb). rewrite move_entry.
  rewrite <- (active_move pre a t1 b (ar_events b) t2) by done.
  set (b' := AppAr UINT32_MAX (ar_events b)).
  assert (Hlen : length ((pre ++ [b]) ++ t1 ++ b' :: t2) = length (pre ++ a :: t1 ++ b :: t2))
    by (repeat (rewrite !length_app; simpl); lia).
  assert (Hd' : Forall (λ a, ¬ ar_free a) (pre ++ [b])) by (apply Forall_app; by repeat constructor).
  case_decide as Hj.
  - assert (t2 = []) as -> by (destruct t2; [done|repeat (rewrite !length_app in Hj; simpl in Hj); lia]).
    exists (t1 ++ [b']). rewrite active_app, (active_used (pre ++ [b])) by done.
    assert (Hf : Forall ar_free (t1 ++ [b'])) by (apply Forall_app; by repeat constructor).
    by rewrite (active_free (t1 ++ [b'])), app_nil_r by done.
  - replace (S (length pre)) with (length (pre ++ [b])) by (rewrite length_app; simpl; lia).
    rewrite <- Hlen. apply IH; [|done]. simpl in Hn. repeat (rewrite !length_app in *; simpl in *). lia.
Qed.

Lemma compact_all l :
  ∃ rest, compact (length l) 0 l = active l ++ rest ∧ Forall ar_free rest ∧
    length (compact (length l) 0 l) = length l.
Proof. apply (compact_spec (length l) [] l); [done|by constructor]. Qed.

(** A list of that shape has the active list it starts with. *)
Lemma active_shape act rest : Forall (λ a, ¬ ar_free a) act → Forall ar_free rest → active (act ++ rest) = act.
Proof. intros. by rewrite active_app, active_used, active_free, app_nil_r. Qed.

Lemma wf_intro act rest :
  Forall (λ a, ¬ ar_free a) act → Forall ar_free rest → NoDup (ar_arep <$> act) →
  ar_wf (act ++ rest) ∧ active (act ++ rest) = act.
Proof.
  intros Ha Hr Hn. assert (E := active_shape act rest Ha Hr). split; [|done].
  exists rest. by rewrite E.
Qed.

(** ** Setting an event *)

Lemma event_set_loop_spec fuel pre todo rest m arep event :
  (length todo < fuel)%nat → Forall (λ a, ¬ ar_free a) todo → Forall ar_free rest →
  let '(it, l) := event_set_loop fuel (Iter (Z.of_nat (length pre) - 1) m) (pre ++ todo ++ rest) arep event in
  (∃ t1 a t2, todo = t1 ++ a :: t2 ∧ ar_arep a = arep ∧ (arep ∉ ar_arep <$> t1) ∧
     l = pre ++ (t1 ++ app_ar_event_set a event :: t2) ++ rest ∧ app_ar_iterator_done it l = false) ∨
  ((arep ∉ ar_arep <$> todo) ∧ m = false → l = pre ++ todo ++ rest ∧ app_ar_iterator_done it l = true) ∧
  arep ∉ (ar_arep <$> todo).
Proof.
  revert pre todo. induction fuel as [|fuel IH]; intros pre todo Hf Ht Hr; [lia|].
  cbn [event_set_loop]. unfold app_ar_iterator_next. cbn [it_index it_modified].
  replace (Z.of_nat (length pre) - 1 + 1) with (Z.of_nat (length pre)) by lia.
  destruct todo as [|a todo].
  - simpl. rewrite used_at_free by done. right. split; [|set_solver]. intros [_ ->]. split; [done|].
    unfold app_ar_iterator_done. simpl. rewrite decide_False by lia. by rewrite used_at_free.
  - inversion_clear Ht as [|? ? Ha Ht']. cbn [app].
    rewrite used_at_app_used by done. cbn [it_index]. rewrite used_at_app_used by done.
    unfold app_ar_arep. case_decide as Ea.
    + left. exists [], a, todo. split; [done|]. split; [done|]. split; [set_solver|]. rewrite Nat2Z.id.
      assert (El : <[length pre := app_ar_event_set a event]> (pre ++ a :: todo ++ rest) =
                   pre ++ app_ar_event_set a event :: todo ++ rest).
      { rewrite <- (Nat.add_0_r (length pre)). by rewrite insert_app_r. }
      rewrite El. split; [done|]. unfold app_ar_iterator_done. simpl. rewrite decide_False by lia.
      by rewrite used_at_app_used.
    + replace (pre ++ a :: todo ++ rest) with ((pre ++ [a]) ++ todo ++ rest) by (by rewrite <- app_assoc).
      replace (Z.of_nat (length pre)) with (Z.of_nat (length (pre ++ [a])) - 1)
        by (rewrite length_app; simpl; lia).
      specialize (IH (pre ++ [a]) todo ltac:(simpl in Hf; lia) Ht' Hr).
      destruct (event_set_loop _ _ _ _ _) as [it l].
      destruct IH as [(t1 & b & t2 & -> & Eb & Hn & -> & Hdone)|[Hdone Hn]].
      * left. exists (a :: t1), b, t2. split; [done|]. split; [done|]. split; [set_solver|].
        rewrite <- app_assoc in *. done.
      * right. rewrite fmap_cons, not_elem_of_cons. split; [|done]. intros [_ Hm].
        destruct (Hdone (conj Hn Hm)) as [-> Hd]. split; [|done]. by rewrite <- app_assoc.
Qed.

Lemma fmap_event_set act arep event t1 a t2 :
  act = t1 ++ a :: t2 → ar_arep a = arep → NoDup (ar_arep <$> act) →
  (λ b, if decide (ar_arep b = arep) then app_ar_event_set b event else b) <$> act =
  t1 ++ app_ar_event_set a event :: t2.
Proof.
  intros -> Ea Hnd. rewrite fmap_app, fmap_cons in Hnd. apply NoDup_app in Hnd as (_ & H1 & H2).
  apply NoDup_cons in H2 as [H2 _].
  assert (Hid : ∀ l : list app_ar, arep ∉ (ar_arep <$> l) →
    (λ b, if decide (ar_arep b = arep) then app_ar_event_set b event else b) <$> l = l).
  { induction l as [|b l IH]; intros Hn; [done|]. rewrite fmap_cons, not_elem_of_cons in Hn.
    destruct Hn as [Hb Hn]. rewrite fmap_cons, (IH Hn). by rewrite decide_False by done. }
  rewrite fmap_app, fmap_cons. rewrite decide_True by done. rewrite !Hid; [done|congruence|].
  intros Hin. apply (H1 _ Hin). rewrite Ea. apply list_elem_of_here.
Qed.

Lemma event_set_areps (t1 : list app_ar) a event t2 :
  ar_arep <$> (t1 ++ app_ar_event_set a event :: t2) = ar_arep <$> (t1 ++ a :: t2).
Proof. by rewrite !fmap_app. Qed.

Lemma add_arep_spec act rest arep event :
  Forall (λ a, ¬ ar_free a) act → Forall ar_free rest →
  (match app_ar_add_arep (act ++ rest) arep with
   | (Some i, l) => alter (λ ar, app_ar_event_set ar event) i l
   | (None, l) => l
   end) =
  match rest with
  | [] => act
  | _ :: rest' => act ++ AppAr arep event :: rest'
  end.
Proof.
  intros Ha Hr. unfold app_ar_add_arep. destruct Hr as [|f rest Hf Hr].
  - rewrite app_nil_r. destruct (list_find _ act) as [[i a]|] eqn:E; [|done].
    apply list_find_Some in E as (Hl & Hfree & _). exfalso.
    by apply (Forall_lookup_1 _ _ _ _ Ha Hl).
  - assert (E : list_find ar_free (act ++ f :: rest) = Some (length act, f)).
    { apply list_find_Some. split; [by apply list_lookup_middle|]. split; [done|].
      intros j y Hy Hj. rewrite lookup_app_l in Hy by done. by apply (Forall_lookup_1 _ _ _ _ Ha Hy). }
    rewrite E. rewrite <- (Nat.add_0_r (length act)). rewrite insert_app_r. simpl.
    by rewrite alter_app_r.
Qed.

(** app_event_set() on the array. *)
Lemma event_set_wf l arep event add :
  ar_wf l → arep ≠ UINT32_MAX →
  ar_wf (event_set_ar l arep event add) ∧
  length (event_set_ar l arep event add) = length l ∧
  active (event_set_ar l arep event add) = spec_set (length l) (active l) arep event add.
Proof.
  intros (rest & El & Hr & Hnd) Harep. pose proof (active_all l) as Hact. set (act := active l) in *.
  clearbody act. subst l. unfold event_set_ar.
  pose proof (event_set_loop_spec (S (length (act ++ rest))) [] act rest false arep event) as Hloop.
  specialize (Hloop ltac:(rewrite length_app; lia) Hact Hr). simpl app in Hloop. simpl length in Hloop.
  change (Z.of_nat 0 - 1) with (-1) in Hloop. unfold app_ar_iterator_init.
  destruct (event_set_loop _ _ _ _ _) as [it l']. unfold spec_set.
  destruct Hloop as [(t1 & a & t2 & -> & Ea & Hn & -> & ->)|[Hl Hn]].
  - rewrite andb_false_r. rewrite decide_True by (rewrite fmap_app, fmap_cons; set_solver).
    rewrite (fmap_event_set _ arep event t1 a t2) by done.
    destruct (wf_intro (t1 ++ app_ar_event_set a event :: t2) rest) as [Hwf Hac].
    { apply Forall_app in Hact as [H1 H2]. inversion_clear H2. apply Forall_app. split; [done|]. by constructor. }
    { done. }
    { by rewrite event_set_areps. }
    split; [done|]. split; [|done]. rewrite !length_app. simpl. rewrite ?length_app. simpl. lia.
  - destruct (Hl (conj Hn eq_refl)) as [-> ->]. rewrite andb_true_r, decide_False by done.
    rewrite length_app. destruct add; simpl.
    + rewrite add_arep_spec by done. destruct rest as [|f rest].
      * rewrite bool_decide_eq_false_2 by (simpl; lia). rewrite <- (app_nil_r act) at 1 2 3.
        destruct (wf_intro act []) as [Hwf Hac]; [done..|]. rewrite app_nil_r in *. simpl. auto.
      * rewrite bool_decide_eq_true_2 by (simpl; lia).
        replace (act ++ AppAr arep event :: rest) with ((act ++ [AppAr arep event]) ++ rest)
          by (by rewrite <- app_assoc).
        inversion_clear Hr as [|? ? Hf Hr']. destruct (wf_intro (act ++ [AppAr arep event]) rest) as [Hwf Hac].
        { apply Forall_app. split; [done|]. by constructor. }
        { done. }
        { rewrite fmap_app. apply NoDup_app. split_and!; [done|set_solver|apply NoDup_singleton]. }
        split; [done|]. split; [|done]. rewrite !length_app. simpl. lia.
    + destruct (wf_intro act rest) as [Hwf Hac]; [done..|]. by rewrite length_app.
Qed.

(** (C20) app_event_set() keeps the AR array well formed (the ARs in use in
    front, no arep twice) and does what it says on the list of ARs: a known
    arep gets the event added, an unknown one is appended with the event if
    the caller asked for it and there is room, and nothing else changes. *)
Theorem event_set_refines l arep event add :
  ar_wf l → arep ≠ UINT32_MAX →
  ar_wf (event_set_ar l arep event add) ∧
  length (event_set_ar l arep event add) = length l ∧
  active (event_set_ar l arep event add) = spec_set (length l) (active l) arep event add.
Proof. apply event_set_wf. Qed.

(** ** Handling an event *)

Lemma used_lookup_insert (pre : list app_ar) a b rest :
  <[length pre := b]> (pre ++ a :: rest) = pre ++ b :: rest.
Proof. rewrite <- (Nat.add_0_r (length pre)). by rewrite insert_app_r. Qed.

Lemma delete_at pre a rest m :
  app_ar_iterator_delete_current (Iter (Z.of_nat (length pre)) m) (pre ++ a :: rest) =
  (Iter (Z.of_nat (length pre)) true, pre ++ AppAr UINT32_MAX (ar_events a) :: rest).
Proof.
  unfold app_ar_iterator_delete_current. cbn [it_index].
  rewrite decide_True by (rewrite length_app; simpl; lia). rewrite Nat2Z.id.
  rewrite <- (Nat.add_0_r (length pre)) at 2. by rewrite alter_app_r.
Qed.

Section Handle.
Context {S : Type} (event : Z) (handler : S → Z → bool * S).

Lemma spec_handle_used act (s : S) :
  Forall (λ a, ¬ ar_free a) act → Forall (λ a, ¬ ar_free a) (spec_handle act s event handler).1.
Proof.
  intros Ha. revert s. induction Ha as [|a act Ha _ IH]; intros s; simpl; [constructor|].
  case_decide.
  - destruct (handler s (ar_arep a)) as [r s1]. specialize (IH s1).
    destruct (spec_handle act s1 event handler). destruct r; [done|]. by constructor.
  - specialize (IH s). destruct (spec_handle act s event handler). by constructor.
Qed.

Lemma spec_handle_sub act (s : S) :
  (ar_arep <$> (spec_handle act s event handler).1) `sublist_of` (ar_arep <$> act).
Proof.
  revert s. induction act as [|a act IH]; intros s; simpl; [constructor|].
  case_decide.
  - destruct (handler s (ar_arep a)) as [r s1]. specialize (IH s1).
    destruct (spec_handle act s1 event handler). simpl in *. destruct r; by constructor.
  - specialize (IH s). destruct (spec_handle act s event handler). simpl in *. by constructor.
Qed.

(** The loop keeps what it has passed ([pre]), in which deleted entries are
    free, until the end of the list, where they are squeezed out. *)
Lemma handle_loop_spec fuel pre todo rest m (s : S) :
  (length todo < fuel)%nat → Forall (λ a, ¬ ar_free a) todo → Forall ar_free rest →
  (m = false → Forall (λ a, ¬ ar_free a) pre) →
  ∃ rest',
    handle_event_loop fuel (Iter (Z.of_nat (length pre) - 1) m) (pre ++ todo ++ rest) s event handler =
      (active pre ++ (spec_handle todo s event handler).1 ++ rest', (spec_handle todo s event handler).2) ∧
    Forall ar_free rest' ∧
    length (active pre ++ (spec_handle todo s event handler).1 ++ rest') = length (pre ++ todo ++ rest).
Proof.
  revert pre todo m s. induction fuel as [|fuel IH]; intros pre todo m s Hf Ht Hr Hm; [lia|].
  cbn [handle_event_loop]. unfold app_ar_iterator_next. cbn [it_index it_modified].
  replace (Z.of_nat (length pre) - 1 + 1) with (Z.of_nat (length pre)) by lia.
  destruct todo as [|a todo].
  { cbn [app spec_handle fst snd]. rewrite used_at_free by done. destruct m.
    - destruct (compact_all (pre ++ rest)) as (rest' & E & Hr' & Hl). rewrite E.
      rewrite active_app, (active_free rest Hr), app_nil_r in *. rewrite E in Hl. eauto.
    - exists rest. by rewrite active_used by auto. }
  inversion_clear Ht as [|? ? Ha Ht']. cbn [app].
  rewrite used_at_app_used by done. cbn [it_index]. rewrite used_at_app_used by done.
  assert (Hnext : ∀ b m' s', (m' = false → ¬ ar_free b ∧ m = false) →
    ∃ rest', handle_event_loop fuel (Iter (Z.of_nat (length pre)) m') (pre ++ b :: todo ++ rest) s' event handler =
      (active (pre ++ [b]) ++ (spec_handle todo s' event handler).1 ++ rest', (spec_handle todo s' event handler).2) ∧
    Forall ar_free rest' ∧
    length (active (pre ++ [b]) ++ (spec_handle todo s' event handler).1 ++ rest') = length (pre ++ a :: todo ++ rest)).
  { intros b m' s' Hm'. destruct (IH (pre ++ [b]) todo m' s') as (rest' & E & Hr' & Hl); [simpl in Hf; lia|done..| |].
    - intros Em. destruct (Hm' Em). apply Forall_app. split; [auto|by constructor].
    - exists rest'. rewrite length_app in E. simpl in E.
      replace (Z.of_nat (length pre + 1) - 1) with (Z.of_nat (length pre)) in E by lia.
      rewrite <- app_assoc in E. split; [exact E|]. split; [done|].
      rewrite Hl. repeat (rewrite !length_app; simpl). lia. }
  unfold app_ar_event_clr, app_ar_arep. cbn [spec_handle]. case_decide as Hev; rewrite Nat2Z.id, used_lookup_insert.
  - cbn [ar_arep]. destruct (handler s (ar_arep a)) as [remove s1]. destruct remove.
    + rewrite delete_at. destruct (Hnext (AppAr UINT32_MAX (Z.ldiff (ar_events a) event)) true s1) as (rest' & E & Hr' & Hl);
        [done|]. rewrite active_app, active_one_free, app_nil_r in E, Hl by done.
      cbn [ar_events]. destruct (spec_handle todo s1 event handler). cbn [fst snd app] in *. eauto.
    + destruct (Hnext (AppAr (ar_arep a) (Z.ldiff (ar_events a) event)) m s1) as (rest' & E & Hr' & Hl); [done|].
      rewrite active_app, (active_used [_]), <- app_assoc in E, Hl by (by constructor).
      destruct (spec_handle todo s1 event handler). cbn [fst snd app] in *. eauto.
  - destruct (Hnext a m s) as (rest' & E & Hr' & Hl); [done|].
    rewrite active_app, (active_used [_]), <- app_assoc in E, Hl by (by constructor).
    destruct (spec_handle todo s event handler). cbn [fst snd app] in *. eauto.
Qed.

(** app_handle_event_ar() on the array. *)
Lemma handle_event_wf l (s : S) :
  ar_wf l →
  let '(l', s') := handle_event_ar l s event handler in
  ar_wf l' ∧ length l' = length l ∧ (active l', s') = spec_handle (active l) s event handler.
Proof.
  intros (rest & El & Hr & Hnd). pose proof (active_all l) as Hact. unfold handle_event_ar.
  destruct (handle_loop_spec (Datatypes.S (length l)) [] (active l) rest false s) as (rest' & E & Hr' & Hl);
    [rewrite El at 2; rewrite length_app; lia|done..|].
  simpl app in E, Hl. rewrite <- El in E, Hl. change (Z.of_nat (length []) - 1) with (-1) in E.
  unfold app_ar_iterator_init. rewrite E.
  destruct (wf_intro (spec_handle (active l) s event handler).1 rest') as [Hwf Hac].
  { by apply spec_handle_used. }
  { done. }
  { eapply sublist_NoDup; [done|apply spec_handle_sub]. }
  split; [done|]. split; [done|]. rewrite Hac. by destruct (spec_handle _ _ _ _).
Qed.

(** (C19) app_handle_event_ar() calls the handler exactly for the ARs with the
    event pending, in order, clears the event of those it keeps, removes those
    the handler asks to remove, and leaves the array well formed: deleting
    during the iteration skips no AR and handles none twice. *)
Theorem handle_event_refines l (s : S) :
  ar_wf l →
  let '(l', s') := handle_event_ar l s event handler in
  ar_wf l' ∧ length l' = length l ∧ (active l', s') = spec_handle (active l) s event handler.
Proof. apply handle_event_wf. Qed.
End Handle.

(** ** Witnesses *)

Definition demo_ars : list app_ar := [AppAr 1 1; AppAr 7 32769; AppAr 3 0; AppAr UINT32_MAX 0].

Lemma demo_ars_wf : ar_wf demo_ars.
Proof.
  exists [AppAr UINT32_MAX 0]. split; [done|]. split; [by constructor|].
  by apply (bool_decide_unpack _); vm_compute.
Qed.

Lemma event_set_refines_witness :
  active (event_set_ar demo_ars 9 4 true) = [AppAr 1 1; AppAr 7 32769; AppAr 3 0; AppAr 9 4].
Proof.
  destruct (event_set_refines demo_ars 9 4 true) as (_ & _ & E); [exact demo_ars_wf|done|].
  rewrite E. reflexivity.
Defined.

(** The abort handler (result 1) on the event bit 15: AR 7 goes away. *)
Lemma handle_event_refines_witness :
  active (handle_event_ar demo_ars tt 32768 (λ s arep, (true, s))).1 = [AppAr 1 1; AppAr 3 0].
Proof.
  pose proof (handle_event_refines 32768 (λ (s : unit) (_ : Z), (true, s)) demo_ars tt demo_ars_wf) as E.
  destruct (handle_event_ar demo_ars tt 32768 _) as [l' s']. destruct E as (_ & _ & E).
  simpl. injection E as -> _. reflexivity.
Defined.
