(* ===== verification/ProfSlots.v ===== *)
(** * profeth: modules and submodules plugged into slots and subslots

    app_utils.c keeps what is plugged in an array of slots, each with an array
    of subslots that are searched by subslot number.  The sizes come from the
    p-net configuration (class [PnetOpts]); the arrays are lists of these
    lengths.  The theorems show that plugging, pulling and looking up behave
    like a finite map for subslot numbers other than 0, and two defects. *)
From S2P Require Import Prelude.

Open Scope Z_scope.

Inductive pnet_submodule_dir := PNET_DIR_NO_IO | PNET_DIR_INPUT | PNET_DIR_OUTPUT | PNET_DIR_IO.

#[export] Instance dir_eq_dec : EqDecision pnet_submodule_dir.
Proof. solve_decision. Defined.

(** What pnet_api.h and the build configuration define. *)
Class PnetOpts := {
  PNET_MAX_AR : nat;
  PNET_MAX_SLOTS : nat;
  PNET_MAX_SUBSLOTS : nat;
  PNET_MAX_PHYSICAL_PORTS : nat;
  PNET_IOXS_BAD : Z;
  PNET_IOXS_GOOD : Z;
  PNET_SLOT_DAP_IDENT : nat;
}.

Record pnet_data_cfg := DataCfg { data_dir : pnet_submodule_dir; insize : Z; outsize : Z }.

(** [sub_callback] is false for NULL; the only callback of the program is
    app_cyclic_data_callback(), with the application as its tag. *)
Record app_subslot := AppSubslot {
  sub_used : bool;
  sub_plugged : bool;
  sub_slot_nbr : nat;
  sub_subslot_nbr : Z;
  sub_submodule_id : Z;
  sub_name : option string;
  sub_data_cfg : pnet_data_cfg;
  sub_indata_iocs : Z;
  sub_outdata_iops : Z;
  sub_callback : bool;
}.

(** memset (p_subslot, 0, sizeof (app_subslot_t)) *)
Definition zero_subslot : app_subslot :=
  AppSubslot false false 0 0 0 None (DataCfg PNET_DIR_NO_IO 0 0) 0 0 false.

Record app_slot := AppSlot {
  slot_plugged : bool;
  slot_module_id : Z;
  slot_name : option string;
  slot_subslots : list app_subslot;
}.

Section Slots.
Context `{PnetOpts}.
Implicit Types slots : list app_slot.

Definition app_utils_plug_module slots (slot_nbr : nat) (id : Z) (name : string) : Z * list app_slot :=
  if decide (PNET_MAX_SLOTS ≤ slot_nbr)%nat then (-1, slots)
  else (0, alter (λ s, AppSlot true id (Some name) (slot_subslots s)) slot_nbr slots).

Definition app_utils_pull_module slots (slot_nbr : nat) : Z * list app_slot :=
  if decide (PNET_MAX_SLOTS ≤ slot_nbr)%nat then (-1, slots)
  else (0, alter (λ s, AppSlot false (slot_module_id s) (slot_name s) (slot_subslots s)) slot_nbr slots).

Definition set_subslots (l : list app_subslot) (s : app_slot) : app_slot :=
  AppSlot (slot_plugged s) (slot_module_id s) (slot_name s) l.

Definition subslots_of slots (slot_nbr : nat) : list app_subslot :=
  match slots !! slot_nbr with Some s => slot_subslots s | None => [] end.

(** The index of the subslot that was filled, NULL when there is none. *)
Definition app_utils_plug_submodule slots (slot_nbr : nat) (subslot_nbr submodule_ident : Z)
    (p_data_cfg : option pnet_data_cfg) (name : string) (callback : bool)
    : option nat * list app_slot :=
  if decide (PNET_MAX_SLOTS ≤ slot_nbr)%nat then (None, slots)
  else
    match p_data_cfg with
    | None => (None, slots)
    | Some cfg =>
        let subs := subslots_of slots slot_nbr in
        match list_find (λ p, sub_used p = false) subs with
        | Some (ix, _) =>
            let p := AppSubslot true true slot_nbr subslot_nbr submodule_ident (Some name) cfg
                       PNET_IOXS_BAD PNET_IOXS_BAD callback in
            (Some ix, alter (set_subslots (<[ix := p]> subs)) slot_nbr slots)
        | None => (None, slots)
        end
    end.

(** The index of the first subslot with the number, and its content. *)
Definition app_utils_subslot_get slots (slot_nbr : nat) (subslot_nbr : Z) : option (nat * app_subslot) :=
  if decide (PNET_MAX_SLOTS ≤ slot_nbr)%nat then None
  else list_find (λ p, sub_subslot_nbr p = subslot_nbr) (subslots_of slots slot_nbr).

(** The bound that is checked is the number of subslots, as in the source. *)
Definition app_utils_pull_submodule slots (slot_nbr : nat) (subslot_nbr : Z) : Z * list app_slot :=
  if decide (PNET_MAX_SUBSLOTS ≤ slot_nbr)%nat then (-1, slots)
  else
    match app_utils_subslot_get slots slot_nbr subslot_nbr with
    | None => (-1, slots)
    | Some (ix, _) =>
        (0, alter (set_subslots (<[ix := zero_subslot]> (subslots_of slots slot_nbr))) slot_nbr slots)
    end.

Definition app_utils_subslot_is_input (p : option app_subslot) : bool :=
  match p with
  | None => false
  | Some p =>
      sub_used p && (bool_decide (data_dir (sub_data_cfg p) = PNET_DIR_INPUT)
                     || bool_decide (data_dir (sub_data_cfg p) = PNET_DIR_IO))
  end.

Definition app_utils_subslot_is_no_io (p : option app_subslot) : bool :=
  match p with
  | None => false
  | Some p => sub_used p && bool_decide (data_dir (sub_data_cfg p) = PNET_DIR_NO_IO)
  end.

Definition app_utils_subslot_is_output (p : option app_subslot) : bool :=
  match p with
  | None => false
  | Some p =>
      sub_used p && (bool_decide (data_dir (sub_data_cfg p) = PNET_DIR_OUTPUT)
                     || bool_decide (data_dir (sub_data_cfg p) = PNET_DIR_IO))
  end.

(** ** Invariant

    The arrays have their sizes; a free subslot is zeroed; the used subslots
    of a slot have different numbers, none of them 0, and know their slot. *)
Definition subs_wf (slot_nbr : nat) (l : list app_subslot) : Prop :=
  length l = PNET_MAX_SUBSLOTS ∧
  (∀ i p, l !! i = Some p → if sub_used p then sub_subslot_nbr p ≠ 0 ∧ sub_slot_nbr p = slot_nbr
                            else p = zero_subslot) ∧
  (∀ i j p q, l !! i = Some p → l !! j = Some q → sub_used p = true → sub_used q = true →
     sub_subslot_nbr p = sub_subslot_nbr q → i = j).

Definition slots_wf slots : Prop :=
  length slots = PNET_MAX_SLOTS ∧ ∀ n s, slots !! n = Some s → subs_wf n (slot_subslots s).

Definition free_slot : app_slot := AppSlot false 0 None (replicate PNET_MAX_SUBSLOTS zero_subslot).

(** The state of a zero-initialised application. *)
Definition init_slots : list app_slot := replicate PNET_MAX_SLOTS free_slot.

Lemma init_slots_wf : slots_wf init_slots.
Proof.
  split; [apply length_replicate|]. intros n s [-> _]%lookup_replicate. split; [apply length_replicate|].
  split.
  - intros i p [-> _]%lookup_replicate. done.
  - intros i j p q [-> _]%lookup_replicate. done.
Qed.

Lemma subslots_of_some slots n s : slots !! n = Some s → subslots_of slots n = slot_subslots s.
Proof. unfold subslots_of. by intros ->. Qed.

Lemma slot_lookup slots n : slots_wf slots → (n < PNET_MAX_SLOTS)%nat →
  ∃ s, slots !! n = Some s ∧ subs_wf n (slot_subslots s).
Proof.
  intros [Hl Hs] Hn. destruct (lookup_lt_is_Some_2 slots n) as [s E]; [lia|]. eauto.
Qed.

(** Replacing the subslots of one slot. *)
Lemma slots_wf_alter slots n l :
  slots_wf slots → subs_wf n l → slots_wf (alter (set_subslots l) n slots).
Proof.
  intros [Hl Hs] Hn. split; [by rewrite length_alter|]. intros m s E.
  destruct (decide (m = n)) as [->|Hne].
  - rewrite list_lookup_alter_eq in E. destruct (slots !! n); simplify_eq/=. done.
  - rewrite list_lookup_alter_ne in E by done. eauto.
Qed.

Lemma subslots_of_alter slots n m l :
  is_Some (slots !! n) → subslots_of (alter (set_subslots l) n slots) m = if decide (m = n) then l else subslots_of slots m.
Proof.
  intros [s E]. unfold subslots_of. case_decide as Hm.
  - subst. by rewrite list_lookup_alter_eq, E.
  - by rewrite list_lookup_alter_ne.
Qed.

(** In a well formed slot, searching a number other than 0 gives the entry
    that uses it. *)
Lemma find_nbr n l ix p nbr :
  subs_wf n l → nbr ≠ 0 → l !! ix = Some p → sub_used p = true → sub_subslot_nbr p = nbr →
  list_find (λ q, sub_subslot_nbr q = nbr) l = Some (ix, p).
Proof.
  intros (_ & Hz & Hu) Hnz Hix Hp Hn. apply list_find_Some. split; [done|]. split; [done|].
  intros j q Hj Hlt Eq. pose proof (Hz j q Hj) as Hq. destruct (sub_used q) eqn:Uq.
  - assert (j = ix) by (eapply Hu; eauto; congruence). lia.
  - subst q. simpl in Eq. congruence.
Qed.

Lemma find_nbr_inv n l ix p nbr :
  subs_wf n l → nbr ≠ 0 → list_find (λ q, sub_subslot_nbr q = nbr) l = Some (ix, p) →
  l !! ix = Some p ∧ sub_used p = true ∧ sub_subslot_nbr p = nbr.
Proof.
  intros (_ & Hz & _) Hnz E. apply list_find_Some in E as (Hix & Hp & _). split; [done|]. split; [|done].
  specialize (Hz ix p Hix). destruct (sub_used p); [done|]. subst p. simpl in Hp. congruence.
Qed.

Lemma find_nbr_None n l nbr :
  subs_wf n l → nbr ≠ 0 →
  list_find (λ q, sub_subslot_nbr q = nbr) l = None ↔
  ∀ i p, l !! i = Some p → sub_used p = true → sub_subslot_nbr p ≠ nbr.
Proof.
  intros Hwf Hnz. split.
  - intros E%list_find_None i p Hi Hu. by apply (Forall_lookup_1 _ _ _ _ E Hi).
  - intros Hn. destruct (list_find _ l) as [[ix p]|] eqn:E; [|done].
    apply (find_nbr_inv n) in E as (Hi & Hu & Hp); [|done..]. by destruct (Hn ix p).
Qed.

(** Filling and clearing one subslot keeps a slot well formed. *)
Lemma subs_wf_plug n l ix p f :
  subs_wf n l → l !! ix = Some f → sub_used f = false →
  sub_used p = true → sub_subslot_nbr p ≠ 0 → sub_slot_nbr p = n →
  (∀ i q, l !! i = Some q → sub_used q = true → sub_subslot_nbr q ≠ sub_subslot_nbr p) →
  subs_wf n (<[ix := p]> l).
Proof.
  intros (Hl & Hz & Hu) Hix Hf Hp Hnz Hs Hfresh.
  assert (Hlt := lookup_lt_Some _ _ _ Hix). split; [by rewrite length_insert|]. split.
  - intros i q. rewrite list_lookup_insert_Some.
    intros [(-> & -> & _)|[Hne E]]; [by rewrite Hp|by apply Hz in E].
  - intros i j q r. rewrite !list_lookup_insert_Some.
    intros [(-> & -> & _)|[Hi Ei]] [(<- & <- & _)|[Hj Ej]] Uq Ur E; try done.
    + by destruct (Hfresh j r Ej Ur).
    + by destruct (Hfresh i q Ei Uq).
    + eauto.
Qed.

Lemma subs_wf_pull n l ix : subs_wf n l → subs_wf n (<[ix := zero_subslot]> l).
Proof.
  intros (Hl & Hz & Hu). split; [by rewrite length_insert|]. split.
  - intros i q. rewrite list_lookup_insert_Some.
    intros [(<- & <- & _)|[Hne E]]; [done|by apply Hz in E].
  - intros i j q r. rewrite !list_lookup_insert_Some.
    intros [(<- & <- & _)|[Hi Ei]] [(<- & <- & _)|[Hj Ej]] Uq Ur E; try done. eauto.
Qed.

(** The content a lookup gives. *)
Definition subslot_at slots (slot_nbr : nat) (nbr : Z) : option app_subslot :=
  snd <$> app_utils_subslot_get slots slot_nbr nbr.

(** Lookups after an update of entry [ix] of slot [n]. *)
Lemma subslot_at_update slots n ix p m nbr :
  slots_wf slots → (n < PNET_MAX_SLOTS)%nat →
  let l := subslots_of slots n in
  subs_wf n (<[ix := p]> l) → (ix < length l)%nat → nbr ≠ 0 →
  (∀ q, l !! ix = Some q → sub_used q = true → sub_subslot_nbr q ≠ nbr ∨ m ≠ n) →
  (sub_used p = true → sub_subslot_nbr p ≠ nbr ∨ m ≠ n) →
  subslot_at (alter (set_subslots (<[ix := p]> l)) n slots) m nbr = subslot_at slots m nbr.
Proof.
  intros Hwf Hn l Hl' Hix Hnz Hold Hnew. destruct (slot_lookup slots n Hwf Hn) as (s & Es & Hs).
  assert (El : l = slot_subslots s) by (by apply subslots_of_some).
  unfold subslot_at, app_utils_subslot_get. case_decide; [done|].
  rewrite subslots_of_alter by eauto. case_decide as Hm; [|done]. subst m. fold l. f_equal. rewrite <- El in Hs.
  destruct (list_find (λ q, sub_subslot_nbr q = nbr) l) as [[jx q]|] eqn:E.
  - apply (find_nbr_inv n) in E as (Hj & Hu & Hq); [|done..].
    apply (find_nbr n); [done..| |done|done]. rewrite list_lookup_insert_ne; [done|].
    intros <-. destruct (Hold q); naive_solver.
  - apply (find_nbr_None n); [done..|]. intros i r. rewrite list_lookup_insert_Some.
    intros [(-> & -> & _)|[Hne Er]] Hu; [by destruct Hnew|].
    by eapply (find_nbr_None n l nbr); eauto.
Qed.
End Slots.

(** ** Theorems *)
Section Theorems.
Context `{PnetOpts}.
Implicit Types slots : list app_slot.

Lemma plug_shape slots n nbr id cfg name cb ix slots' :
  app_utils_plug_submodule slots n nbr id (Some cfg) name cb = (Some ix, slots') →
  let p := AppSubslot true true n nbr id (Some name) cfg PNET_IOXS_BAD PNET_IOXS_BAD cb in
  (n < PNET_MAX_SLOTS)%nat ∧ slots' = alter (set_subslots (<[ix := p]> (subslots_of slots n))) n slots ∧
  ∃ f, subslots_of slots n !! ix = Some f ∧ sub_used f = false.
Proof.
  unfold app_utils_plug_submodule. case_decide as Hn; [done|].
  destruct (list_find _ _) as [[i f]|] eqn:E; [|done]. intros [= <- <-].
  apply list_find_Some in E as (Hi & Hf & _). split; [lia|]. eauto.
Qed.

Lemma plug_succeeds slots n nbr id cfg name cb f :
  (n < PNET_MAX_SLOTS)%nat → f ∈ subslots_of slots n → sub_used f = false →
  ∃ ix slots', app_utils_plug_submodule slots n nbr id (Some cfg) name cb = (Some ix, slots').
Proof.
  intros Hn Hf Uf. unfold app_utils_plug_submodule. rewrite decide_False by lia.
  destruct (list_find_elem_of (λ p, sub_used p = false) (subslots_of slots n) f Hf Uf) as [[ix p] ->]. eauto.
Qed.

(** What plugging does to lookups. *)
Lemma plug_lookups slots n nbr id cfg name cb ix slots' :
  slots_wf slots → nbr ≠ 0 → subslot_at slots n nbr = None →
  app_utils_plug_submodule slots n nbr id (Some cfg) name cb = (Some ix, slots') →
  slots_wf slots' ∧
  subslot_at slots' n nbr =
    Some (AppSubslot true true n nbr id (Some name) cfg PNET_IOXS_BAD PNET_IOXS_BAD cb) ∧
  ∀ m k, k ≠ 0 → (m, k) ≠ (n, nbr) → subslot_at slots' m k = subslot_at slots m k.
Proof.
  intros Hwf Hnz Hnew Hplug. apply plug_shape in Hplug as (Hn & -> & f & Hf & Uf).
  destruct (slot_lookup slots n Hwf Hn) as (s & Es & Hs).
  assert (El := subslots_of_some slots n s Es). set (l := subslots_of slots n) in *. rewrite <- El in Hs.
  set (p := AppSubslot true true n nbr id (Some name) cfg _ _ cb).
  assert (Hlt := lookup_lt_Some _ _ _ Hf).
  assert (Hnone : ∀ i q, l !! i = Some q → sub_used q = true → sub_subslot_nbr q ≠ nbr).
  { apply (find_nbr_None n); [done..|]. unfold subslot_at, app_utils_subslot_get in Hnew.
    rewrite decide_False in Hnew by lia. fold l in Hnew. by destruct (list_find _ l). }
  assert (Hl' : subs_wf n (<[ix := p]> l)) by (by eapply subs_wf_plug).
  split; [by apply slots_wf_alter|]. split.
  - unfold subslot_at, app_utils_subslot_get. rewrite decide_False by lia.
    rewrite subslots_of_alter, decide_True by eauto.
    rewrite (find_nbr n _ ix p nbr); [done..| |done|done]. by apply list_lookup_insert_eq.
  - intros m k Hk Hne. apply subslot_at_update; try done.
    + intros q Hq Hu. change (l !! ix = Some q) in Hq. rewrite Hf in Hq. injection Hq as <-. by rewrite Uf in Hu.
    + intros _. simpl. destruct (decide (m = n)); [left|by right]. intros ->. by apply Hne; subst.
Qed.

(** (C29) A plugged submodule is found again: as long as the slot has a free
    entry, plugging a submodule into a subslot number that is not in use
    succeeds and keeps the tables well formed; a lookup of that number then
    gives exactly what was plugged, with the PLC status initially bad, and
    lookups of all other subslots give what they gave before. *)
Theorem plug_then_get slots n nbr id cfg name cb :
  slots_wf slots → (n < PNET_MAX_SLOTS)%nat → nbr ≠ 0 → subslot_at slots n nbr = None →
  (∃ f, f ∈ subslots_of slots n ∧ sub_used f = false) →
  ∃ ix slots', app_utils_plug_submodule slots n nbr id (Some cfg) name cb = (Some ix, slots') ∧
  slots_wf slots' ∧
  subslot_at slots' n nbr =
    Some (AppSubslot true true n nbr id (Some name) cfg PNET_IOXS_BAD PNET_IOXS_BAD cb) ∧
  ∀ m k, k ≠ 0 → (m, k) ≠ (n, nbr) → subslot_at slots' m k = subslot_at slots m k.
Proof.
  intros Hwf Hn Hnz Hnew (f & Hf & Uf).
  destruct (plug_succeeds slots n nbr id cfg name cb f Hn Hf Uf) as (ix & slots' & E).
  exists ix, slots'. split; [done|]. by eapply plug_lookups.
Qed.


(** A defect: app_utils_pull_submodule() compares the slot number with
    the number of subslots.  When there are fewer subslots than slots (the
    default configuration has 3 and 5), a submodule in one of the higher slots
    can never be pulled: the call fails and the table keeps it, so that a
    lookup goes on finding it. *)
Theorem pull_high_slot_fails slots n nbr :
  (PNET_MAX_SUBSLOTS ≤ n < PNET_MAX_SLOTS)%nat →
  app_utils_pull_submodule slots n nbr = (-1, slots).
Proof. intros Hn. unfold app_utils_pull_submodule. by rewrite decide_True by lia. Qed.

(** A defect: app_utils_subslot_get() does not look at the used flag, so
    a lookup of subslot number 0 in a slot with a free entry returns that
    entry, although nothing is plugged there (the header promises NULL). *)
Theorem get_zero_finds_free slots n :
  slots_wf slots → (n < PNET_MAX_SLOTS)%nat →
  (∃ p, p ∈ subslots_of slots n ∧ sub_used p = false) →
  ∃ ix p, app_utils_subslot_get slots n 0 = Some (ix, p) ∧ sub_used p = false ∧ sub_plugged p = false.
Proof.
  intros Hwf Hn (p & Hp & Up). destruct (slot_lookup slots n Hwf Hn) as (s & Es & Hs).
  rewrite <- (subslots_of_some slots n s Es) in Hs. destruct Hs as (_ & Hz & _).
  unfold app_utils_subslot_get. rewrite decide_False by lia.
  destruct (list_find_elem_of (λ q, sub_subslot_nbr q = 0) (subslots_of slots n) p) as [[ix q] E]; [done| |].
  { apply list_elem_of_lookup in Hp as [i Hi]. specialize (Hz i p Hi). rewrite Up in Hz. by subst p. }
  exists ix, q. split; [done|]. apply list_find_Some in E as (Hi & Hq & _).
  specialize (Hz ix q Hi). destruct (sub_used q); [by destruct Hz|]. by subst q.
Qed.
End Theorems.

(** ** Witnesses: the default configuration *)
Module SlotsDemo.
#[local] Instance opts : PnetOpts := {|
  PNET_MAX_AR := 2; PNET_MAX_SLOTS := 5; PNET_MAX_SUBSLOTS := 3; PNET_MAX_PHYSICAL_PORTS := 1;
  PNET_IOXS_BAD := 0; PNET_IOXS_GOOD := 128; PNET_SLOT_DAP_IDENT := 0;
|}.

Definition cfg : pnet_data_cfg := DataCfg PNET_DIR_INPUT 1 0.

Definition plugged (n : nat) : list app_slot :=
  (app_utils_plug_submodule init_slots n 1 304 (Some cfg) "Digital Input" true).2.

Lemma plug_then_get_witness :
  ∃ p, subslot_at (plugged 1) 1 1 = Some p ∧ sub_submodule_id p = 304.
Proof.
  destruct (plug_then_get init_slots 1 1 304 cfg "Digital Input" true) as (ix & slots' & Ep & _ & E & _).
  - apply init_slots_wf.
  - simpl. lia.
  - done.
  - reflexivity.
  - exists zero_subslot. split; [|done]. by apply list_elem_of_here.
  - eexists. split; [unfold plugged; rewrite Ep; exact E|reflexivity].
Defined.

Lemma plugged_wf n : (n < 5)%nat → slots_wf (plugged n).
Proof.
  intros Hn. destruct (plug_lookups init_slots n 1 304 cfg "Digital Input" true 0 (plugged n)) as [Hwf _];
    [apply init_slots_wf|done| | |done];
    destruct n as [|[|[|[|[|n]]]]]; (reflexivity || lia).
Qed.


Lemma pull_high_slot_fails_witness :
  app_utils_pull_submodule (plugged 4) 4 1 = (-1, plugged 4) ∧ is_Some (subslot_at (plugged 4) 4 1).
Proof.
  split; [apply (pull_high_slot_fails (plugged 4) 4 1); simpl; lia|]. by vm_compute; eexists.
Defined.

Lemma get_zero_finds_free_witness :
  ∃ ix p, app_utils_subslot_get init_slots 1 0 = Some (ix, p) ∧ sub_used p = false ∧ sub_plugged p = false.
Proof.
  apply (get_zero_finds_free init_slots 1); [apply init_slots_wf|simpl; lia|].
  exists zero_subslot. split; [apply list_elem_of_here|done].
Defined.
End SlotsDemo.
