(* ===== verification/ProfData.v ===== *)
(** * profeth: supported modules (app_gsdml.c) and process data (app_data.c)

    The static variables of app_data.c are a record.  A parameter is kept as
    its four bytes in memory, as the code copies it byte by byte; a 32-bit
    variable with an initial value has the bytes the host's byte order gives
    it.  The identities of the DAP are p-net's (class [PnetIds]). *)
From S2P Require Import Prelude ProfSlots.

Open Scope Z_scope.

Class PnetIds := {
  PNET_MOD_DAP_IDENT : Z;
  PNET_SUBMOD_DAP_IDENT : Z;
  PNET_SUBMOD_DAP_INTERFACE_1_IDENT : Z;
  PNET_SUBMOD_DAP_INTERFACE_1_PORT_1_IDENT : Z;
  PNET_SUBMOD_DAP_INTERFACE_1_PORT_2_IDENT : Z;
  PNET_SUBMOD_DAP_INTERFACE_1_PORT_3_IDENT : Z;
  PNET_SUBMOD_DAP_INTERFACE_1_PORT_4_IDENT : Z;
  PNET_SUBSLOT_DAP_IDENT : Z;
  PNET_SUBSLOT_DAP_INTERFACE_1_IDENT : Z;
}.

Definition APP_GSDML_PARAMETER_1_IDX : Z := 123.
Definition APP_GSDML_PARAMETER_2_IDX : Z := 124.
Definition APP_GSDML_PARAMETER_ECHO_IDX : Z := 125.
Definition APP_GSDML_PARAMETER_LENGTH : Z := 4.
Definition APP_GSDML_MOD_ID_8_0_DIGITAL_IN : Z := 0x30.
Definition APP_GSDML_MOD_ID_0_8_DIGITAL_OUT : Z := 0x31.
Definition APP_GSDML_MOD_ID_8_8_DIGITAL_IN_OUT : Z := 0x32.
Definition APP_GSDML_MOD_ID_ECHO : Z := 0x40.
Definition APP_GSDML_SUBMOD_ID_DIGITAL_IN : Z := 0x130.
Definition APP_GSDML_SUBMOD_ID_DIGITAL_OUT : Z := 0x131.
Definition APP_GSDML_SUBMOD_ID_DIGITAL_IN_OUT : Z := 0x132.
Definition APP_GSDML_SUBMOD_ID_ECHO : Z := 0x140.
Definition APP_GSDML_INPUT_DATA_DIGITAL_SIZE : Z := 1.
Definition APP_GSDML_OUTPUT_DATA_DIGITAL_SIZE : Z := 1.
Definition APP_GSDML_INPUT_DATA_ECHO_SIZE : Z := 8.
Definition APP_GSDML_OUTPUT_DATA_ECHO_SIZE : Z := APP_GSDML_INPUT_DATA_ECHO_SIZE.

(** ** app_gsdml.c *)

Record app_gsdml_module := GsdmlModule {
  gm_id : Z;
  gm_name : string;
  gm_submodules : list Z;
}.

Record app_gsdml_submodule := GsdmlSubmodule {
  gs_id : Z;
  gs_name : string;
  gs_data_dir : pnet_submodule_dir;
  gs_insize : Z;
  gs_outsize : Z;
  gs_parameters : list Z;          (* ends with 0 *)
}.

Record app_gsdml_param := GsdmlParam { gp_index : Z; gp_name : string; gp_length : Z }.

Section Gsdml.
Context `{PnetIds}.

Definition app_gsdml_modules : list app_gsdml_module :=
  [ GsdmlModule PNET_MOD_DAP_IDENT "DAP 1"
      [PNET_SUBMOD_DAP_IDENT; PNET_SUBMOD_DAP_INTERFACE_1_PORT_1_IDENT;
       PNET_SUBMOD_DAP_INTERFACE_1_PORT_2_IDENT; PNET_SUBMOD_DAP_INTERFACE_1_PORT_3_IDENT;
       PNET_SUBMOD_DAP_INTERFACE_1_PORT_4_IDENT; 0];
    GsdmlModule APP_GSDML_MOD_ID_8_0_DIGITAL_IN "DI 8xLogicLevel" [APP_GSDML_SUBMOD_ID_DIGITAL_IN; 0];
    GsdmlModule APP_GSDML_MOD_ID_0_8_DIGITAL_OUT "DO 8xLogicLevel" [APP_GSDML_SUBMOD_ID_DIGITAL_OUT; 0];
    GsdmlModule APP_GSDML_MOD_ID_8_8_DIGITAL_IN_OUT "DIO 8xLogicLevel" [APP_GSDML_SUBMOD_ID_DIGITAL_IN_OUT; 0];
    GsdmlModule APP_GSDML_MOD_ID_ECHO "Echo module" [APP_GSDML_SUBMOD_ID_ECHO; 0] ].

Definition dap (id : Z) (name : string) : app_gsdml_submodule :=
  GsdmlSubmodule id name PNET_DIR_NO_IO 0 0 [0].

Definition app_gsdml_submodules : list app_gsdml_submodule :=
  [ dap PNET_SUBMOD_DAP_IDENT "DAP Identity 1";
    dap PNET_SUBMOD_DAP_INTERFACE_1_IDENT "DAP Interface 1";
    dap PNET_SUBMOD_DAP_INTERFACE_1_PORT_1_IDENT "DAP Port 1";
    dap PNET_SUBMOD_DAP_INTERFACE_1_PORT_2_IDENT "DAP Port 2";
    dap PNET_SUBMOD_DAP_INTERFACE_1_PORT_3_IDENT "DAP Port 3";
    dap PNET_SUBMOD_DAP_INTERFACE_1_PORT_4_IDENT "DAP Port 4";
    GsdmlSubmodule APP_GSDML_SUBMOD_ID_DIGITAL_IN "Digital Input" PNET_DIR_INPUT
      APP_GSDML_INPUT_DATA_DIGITAL_SIZE 0 [0];
    GsdmlSubmodule APP_GSDML_SUBMOD_ID_DIGITAL_OUT "Digital Output" PNET_DIR_OUTPUT
      0 APP_GSDML_OUTPUT_DATA_DIGITAL_SIZE [0];
    GsdmlSubmodule APP_GSDML_SUBMOD_ID_DIGITAL_IN_OUT "Digital Input/Output" PNET_DIR_IO
      APP_GSDML_INPUT_DATA_DIGITAL_SIZE APP_GSDML_OUTPUT_DATA_DIGITAL_SIZE
      [APP_GSDML_PARAMETER_1_IDX; APP_GSDML_PARAMETER_2_IDX; 0];
    GsdmlSubmodule APP_GSDML_SUBMOD_ID_ECHO "Echo submodule" PNET_DIR_IO
      APP_GSDML_INPUT_DATA_ECHO_SIZE APP_GSDML_OUTPUT_DATA_ECHO_SIZE
      [APP_GSDML_PARAMETER_ECHO_IDX; 0] ].

Definition app_gsdml_parameters : list app_gsdml_param :=
  [ GsdmlParam APP_GSDML_PARAMETER_1_IDX "Demo 1" APP_GSDML_PARAMETER_LENGTH;
    GsdmlParam APP_GSDML_PARAMETER_2_IDX "Demo 2" APP_GSDML_PARAMETER_LENGTH;
    GsdmlParam APP_GSDML_PARAMETER_ECHO_IDX "Echo gain setting" APP_GSDML_PARAMETER_LENGTH ].

Definition app_gsdml_get_module_cfg (id : Z) : option app_gsdml_module :=
  List.find (λ m, gm_id m =? id) app_gsdml_modules.

Definition app_gsdml_get_submodule_cfg (id : Z) : option app_gsdml_submodule :=
  List.find (λ m, gs_id m =? id) app_gsdml_submodules.

(** The loop over the parameters of a submodule, up to the terminating 0. *)
Fixpoint param_search (params : list Z) (index : Z) : option app_gsdml_param :=
  match params with
  | [] => None
  | p :: params' =>
      if p =? 0 then None
      else if p =? index then
        match List.find (λ c, gp_index c =? index) app_gsdml_parameters with
        | Some c => Some c
        | None => param_search params' index
        end
      else param_search params' index
  end.

Definition app_gsdml_get_parameter_cfg (submodule_id index : Z) : option app_gsdml_param :=
  match app_gsdml_get_submodule_cfg submodule_id with
  | None => None
  | Some cfg => param_search (gs_parameters cfg) index
  end.

End Gsdml.

(** ** Byte order *)

(** CC_FROM_BE32 of four bytes in memory, and CC_TO_BE32 as it is stored. *)
Definition from_be32 (b : list Z) : Z := foldl (λ acc x, acc * 256 + x) 0 b.

Definition to_be32 (z : Z) : list Z :=
  [(z / 2 ^ 24) `mod` 256; (z / 2 ^ 16) `mod` 256; (z / 2 ^ 8) `mod` 256; z `mod` 256].

Lemma from_to_be32 z : 0 ≤ z < 2 ^ 32 → from_be32 (to_be32 z) = z.
Proof.
  intros Hz. unfold from_be32, to_be32. simpl foldl.
  assert (E1 := Z.div_mod z 256). assert (E2 := Z.div_mod (z / 2 ^ 8) 256).
  assert (E3 := Z.div_mod (z / 2 ^ 16) 256).
  assert (D2 : z / 2 ^ 8 = z / 256) by reflexivity.
  assert (D3 : z / 2 ^ 8 / 256 = z / 2 ^ 16) by (rewrite Z.div_div; [reflexivity|lia|lia]).
  assert (D4 : z / 2 ^ 16 / 256 = z / 2 ^ 24) by (rewrite Z.div_div; [reflexivity|lia|lia]).
  assert (D5 : (z / 2 ^ 24) `mod` 256 = z / 2 ^ 24).
  { apply Z.mod_small. split; [apply Z.div_pos; lia|]. apply Z.div_lt_upper_bound; lia. }
  rewrite D5. lia.
Qed.

Lemma from_be32_bound b :
  length b = 4%nat → Forall (λ x, 0 ≤ x < 256) b → 0 ≤ from_be32 b < 2 ^ 32.
Proof.
  destruct b as [|b0 [|b1 [|b2 [|b3 [|? ?]]]]]; try done. intros _ Hb.
  rewrite !Forall_cons in Hb. destruct Hb as (H0 & H1 & H2 & H3 & _).
  unfold from_be32. simpl foldl. lia.
Qed.

(** ** app_data.c *)

Class DataHost := {
  (** whether the host is little endian *)
  host_le : bool;
  (** a float (its bits) times a 32-bit unsigned integer *)
  f32_mul_u32 : Z → Z → Z;
}.

Record app_io := AppIo {
  app_param_1 : list Z;
  app_param_2 : list Z;
  app_param_echo_gain : list Z;
  inputdata : Z;
  outputdata : Z;
  counter : Z;
  echo_inputdata : list Z;
  echo_outputdata : list Z;
  previous_led_state : bool;
  led_log : list bool;             (* app_set_led (APP_DATA_LED_ID, state) *)
}.

Section Data.
Context `{PnetOpts} `{PnetIds} `{DataHost}.

(** The bytes of a uint32_t variable with value [v]. *)
Definition host_bytes (v : Z) : list Z := if host_le then reverse (to_be32 v) else to_be32 v.

Definition app_io_init : app_io :=
  AppIo (host_bytes 0) (host_bytes 0) (host_bytes 1) 0 0 0 (replicate 8 0) (replicate 8 0) false [].

Definition app_handle_data_led_state (led_state : bool) (d : app_io) : app_io :=
  AppIo (app_param_1 d) (app_param_2 d) (app_param_echo_gain d) (inputdata d) (outputdata d)
    (counter d) (echo_inputdata d) (echo_outputdata d) led_state
    (if bool_decide (led_state ≠ previous_led_state d) then led_log d ++ [led_state] else led_log d).

(** The data (its length is *size) with its IOPS, or NULL. *)
Definition app_data_get_input_data (submodule_id : Z) (button_pressed : bool) (d : app_io)
    : option (list Z * Z) * app_io :=
  if (submodule_id =? APP_GSDML_SUBMOD_ID_DIGITAL_IN) || (submodule_id =? APP_GSDML_SUBMOD_ID_DIGITAL_IN_OUT)
  then
    let v := if button_pressed then Z.lor (counter d) 0x80 else Z.land (counter d) 0x7F in
    (Some ([v], PNET_IOXS_GOOD),
     AppIo (app_param_1 d) (app_param_2 d) (app_param_echo_gain d) v (outputdata d)
       (u8 (counter d + 1)) (echo_inputdata d) (echo_outputdata d) (previous_led_state d) (led_log d))
  else if submodule_id =? APP_GSDML_SUBMOD_ID_ECHO then
    let gain := from_be32 (app_param_echo_gain d) in
    let out_float := from_be32 (take 4 (echo_outputdata d)) in
    let out_int := from_be32 (drop 4 (echo_outputdata d)) in
    let v := to_be32 (f32_mul_u32 out_float gain) ++ to_be32 (u32 (out_int * gain)) in
    (Some (v, PNET_IOXS_GOOD),
     AppIo (app_param_1 d) (app_param_2 d) (app_param_echo_gain d) (inputdata d) (outputdata d)
       (counter d) v (echo_outputdata d) (previous_led_state d) (led_log d))
  else (None, d).

Definition app_data_set_output_data (submodule_id : Z) (data : option (list Z)) (size : Z) (d : app_io)
    : Z * app_io :=
  match data with
  | None => (-1, d)
  | Some data =>
      if (submodule_id =? APP_GSDML_SUBMOD_ID_DIGITAL_OUT) || (submodule_id =? APP_GSDML_SUBMOD_ID_DIGITAL_IN_OUT)
      then
        if size =? APP_GSDML_OUTPUT_DATA_DIGITAL_SIZE then
          let out := default 0 (data !! 0%nat) in
          let d := AppIo (app_param_1 d) (app_param_2 d) (app_param_echo_gain d) (inputdata d) out
                     (counter d) (echo_inputdata d) (echo_outputdata d) (previous_led_state d) (led_log d) in
          (0, app_handle_data_led_state (0 <? Z.land out 0x80) d)
        else (-1, d)
      else if submodule_id =? APP_GSDML_SUBMOD_ID_ECHO then
        if size =? APP_GSDML_OUTPUT_DATA_ECHO_SIZE then
          (0, AppIo (app_param_1 d) (app_param_2 d) (app_param_echo_gain d) (inputdata d) (outputdata d)
                (counter d) (echo_inputdata d) (take 8 data) (previous_led_state d) (led_log d))
        else (-1, d)
      else (-1, d)
  end.

Definition app_data_set_default_outputs (d : app_io) : app_io :=
  app_handle_data_led_state false
    (AppIo (app_param_1 d) (app_param_2 d) (app_param_echo_gain d) (inputdata d) 0
       (counter d) (echo_inputdata d) (echo_outputdata d) (previous_led_state d) (led_log d)).

Definition app_data_write_parameter (submodule_id index : Z) (data : list Z) (length : Z) (d : app_io)
    : Z * app_io :=
  match app_gsdml_get_parameter_cfg submodule_id index with
  | None => (-1, d)
  | Some par_cfg =>
      if negb (length =? gp_length par_cfg) then (-1, d)
      else
        let v := take (Z.to_nat length) data in
        if index =? APP_GSDML_PARAMETER_1_IDX then
          (0, AppIo v (app_param_2 d) (app_param_echo_gain d) (inputdata d) (outputdata d)
                (counter d) (echo_inputdata d) (echo_outputdata d) (previous_led_state d) (led_log d))
        else if index =? APP_GSDML_PARAMETER_2_IDX then
          (0, AppIo (app_param_1 d) v (app_param_echo_gain d) (inputdata d) (outputdata d)
                (counter d) (echo_inputdata d) (echo_outputdata d) (previous_led_state d) (led_log d))
        else if index =? APP_GSDML_PARAMETER_ECHO_IDX then
          (0, AppIo (app_param_1 d) (app_param_2 d) v (inputdata d) (outputdata d)
                (counter d) (echo_inputdata d) (echo_outputdata d) (previous_led_state d) (led_log d))
        else (0, d)
  end.

(** The parameter's bytes and their number; [*length] is the room there is. *)
Definition app_data_read_parameter (submodule_id index length : Z) (d : app_io)
    : Z * option (list Z) * Z :=
  match app_gsdml_get_parameter_cfg submodule_id index with
  | None => (-1, None, length)
  | Some par_cfg =>
      if length <? gp_length par_cfg then (-1, None, length)
      else if index =? APP_GSDML_PARAMETER_1_IDX then (0, Some (app_param_1 d), 4)
      else if index =? APP_GSDML_PARAMETER_2_IDX then (0, Some (app_param_2 d), 4)
      else if index =? APP_GSDML_PARAMETER_ECHO_IDX then (0, Some (app_param_echo_gain d), 4)
      else (0, None, length)
  end.
End Data.

(** ** Theorems *)
Section Theorems.
Context `{PnetOpts} `{PnetIds} `{DataHost}.

Lemma param_search_cfg params index c :
  param_search params index = Some c →
  gp_index c = index ∧ gp_length c = 4 ∧ index ∈ [123; 124; 125].
Proof.
  induction params as [|p params IH]; cbn [param_search]; [done|].
  destruct (p =? 0); [done|]. destruct (p =? index); [|exact IH].
  unfold app_gsdml_parameters, APP_GSDML_PARAMETER_1_IDX, APP_GSDML_PARAMETER_2_IDX,
    APP_GSDML_PARAMETER_ECHO_IDX. cbn [List.find gp_index].
  destruct (Z.eqb_spec 123 index) as [<-|_]; [intros [= <-]; split_and!; [done..|set_solver]|].
  destruct (Z.eqb_spec 124 index) as [<-|_]; [intros [= <-]; split_and!; [done..|set_solver]|].
  destruct (Z.eqb_spec 125 index) as [<-|_]; [intros [= <-]; split_and!; [done..|set_solver]|exact IH].
Qed.

Lemma parameter_cfg id index c :
  app_gsdml_get_parameter_cfg id index = Some c →
  gp_index c = index ∧ gp_length c = 4 ∧ index ∈ [123; 124; 125].
Proof.
  unfold app_gsdml_get_parameter_cfg. destruct (app_gsdml_get_submodule_cfg id); [|done].
  apply param_search_cfg.
Qed.

(** (C31) A parameter the PLC writes is the one it reads back: after an
    accepted write, a read of the same index with room for it gives the same
    four bytes, for every submodule that has the parameter, and reads of the
    other indexes give what they gave before. *)
Theorem parameter_roundtrip id index data len d d' :
  length data = Z.to_nat len → app_data_write_parameter id index data len d = (0, d') →
  (∀ room, 4 ≤ room → app_data_read_parameter id index room d' = (0, Some data, 4)) ∧
  (∀ id' index' room, index' ≠ index →
     app_data_read_parameter id' index' room d' = app_data_read_parameter id' index' room d).
Proof.
  intros Hlen. unfold app_data_write_parameter.
  destruct (app_gsdml_get_parameter_cfg id index) as [c|] eqn:Ec; [|done].
  destruct (parameter_cfg _ _ _ Ec) as (_ & Hl & Hin). rewrite Hl.
  destruct (Z.eqb_spec len 4) as [->|]; [|done]. simpl negb. cbv iota.
  rewrite take_ge by lia. rewrite !elem_of_cons, elem_of_nil in Hin.
  unfold APP_GSDML_PARAMETER_1_IDX, APP_GSDML_PARAMETER_2_IDX, APP_GSDML_PARAMETER_ECHO_IDX.
  intros E. unfold app_data_read_parameter, APP_GSDML_PARAMETER_1_IDX, APP_GSDML_PARAMETER_2_IDX,
    APP_GSDML_PARAMETER_ECHO_IDX. split.
  - intros room Hr. rewrite Ec, Hl. destruct (Z.ltb_spec room 4); [lia|].
    destruct Hin as [->|[->|[->|[]]]]; simpl in *; by simplify_eq.
  - intros id' index' room Hne. destruct (app_gsdml_get_parameter_cfg id' index'); [|done].
    destruct (room <? _); [done|].
    destruct Hin as [->|[->|[->|[]]]]; simpl in E; simplify_eq/=;
      repeat (case_match; try done); lia.
Qed.

(** The digital input byte: its most significant bit is the button, the
    other seven the counter, which advances by one modulo 256. *)
Theorem digital_input_layout id button d :
  (id = APP_GSDML_SUBMOD_ID_DIGITAL_IN ∨ id = APP_GSDML_SUBMOD_ID_DIGITAL_IN_OUT) → 0 ≤ counter d < 256 →
  ∃ v d', app_data_get_input_data id button d = (Some ([v], PNET_IOXS_GOOD), d') ∧
    0 ≤ v < 256 ∧ Z.testbit v 7 = button ∧ v `mod` 128 = counter d `mod` 128 ∧
    counter d' = (counter d + 1) `mod` 256 ∧ inputdata d' = v.
Proof.
  intros Hid Hc. unfold app_data_get_input_data.
  assert (E : (id =? APP_GSDML_SUBMOD_ID_DIGITAL_IN) || (id =? APP_GSDML_SUBMOD_ID_DIGITAL_IN_OUT) = true)
    by (destruct Hid as [->| ->]; done).
  rewrite E. eexists _, _. split; [reflexivity|]. cbn [counter inputdata].
  assert (Hmod : ∀ v, Z.land v 127 = v `mod` 128) by (intros; apply (Z.land_ones v 7); lia).
  assert (Hbits : ∀ v, 0 ≤ v → (∀ i, 8 ≤ i → Z.testbit v i = false) → v < 256).
  { intros v Hv Hi. destruct (decide (v = 0)) as [->|Hv0]; [lia|].
    assert (Hl : Z.log2 v < 8).
    { destruct (Z.lt_ge_cases (Z.log2 v) 8) as [|Hge]; [done|]. specialize (Hi _ Hge).
      rewrite Z.bit_log2 in Hi by lia. done. }
    apply Z.log2_lt_pow2 in Hl; lia. }
  assert (Hcb : ∀ i, 8 ≤ i → Z.testbit (counter d) i = false).
  { intros i Hi. destruct (decide (counter d = 0)) as [->|]; [apply Z.bits_0|].
    apply Z.bits_above_log2; [lia|]. assert (Z.log2 (counter d) < 8); [|lia].
    apply Z.log2_lt_pow2; lia. }
  destruct button.
  - split; [split|]; [by apply Z.lor_nonneg; lia| |].
    { apply Hbits; [apply Z.lor_nonneg; lia|]. intros i Hi. rewrite Z.lor_spec, Hcb by done.
      apply (Z.bits_above_log2 128); [lia|]. simpl. lia. }
    split; [by rewrite Z.lor_spec, orb_true_r|]. split; [|done].
    rewrite <- !Hmod, Z.land_lor_distr_l. by rewrite Z.lor_0_r.
  - split; [split|]; [by apply Z.land_nonneg; right; lia| |].
    { rewrite Hmod. assert (Hb := Z.mod_pos_bound (counter d) 128). lia. }
    split; [by rewrite Z.land_spec, andb_false_r|]. split; [|done].
    rewrite Hmod. by rewrite Z.mod_mod.
Qed.

Definition bytes_ok (b : list Z) : Prop := Forall (λ x, 0 ≤ x < 256) b.

(** The echo submodule: once the PLC has set a gain (4 bytes, network
    order) and an output (a float and an integer, network order), the integer
    it gets back is the product of the two modulo 2^32, in network order. *)
Theorem echo_integer gain out d d1 d2 :
  length gain = 4%nat → length out = 8%nat → bytes_ok gain → bytes_ok out →
  app_data_write_parameter APP_GSDML_SUBMOD_ID_ECHO APP_GSDML_PARAMETER_ECHO_IDX gain 4 d = (0, d1) →
  app_data_set_output_data APP_GSDML_SUBMOD_ID_ECHO (Some out) 8 d1 = (0, d2) →
  ∃ v d3, app_data_get_input_data APP_GSDML_SUBMOD_ID_ECHO false d2 = (Some (v, PNET_IOXS_GOOD), d3) ∧
    length v = 8%nat ∧ from_be32 (drop 4 v) = u32 (from_be32 (drop 4 out) * from_be32 gain).
Proof.
  intros Hg Ho Bg Bo Hw Hs. unfold app_data_write_parameter in Hw.
  destruct (app_gsdml_get_parameter_cfg _ _) as [c|] eqn:Ec; [|done].
  destruct (parameter_cfg _ _ _ Ec) as (_ & Hl & _). rewrite Hl in Hw.
  change (negb (4 =? 4)) with false in Hw. cbv iota in Hw.
  change (APP_GSDML_PARAMETER_ECHO_IDX =? APP_GSDML_PARAMETER_1_IDX) with false in Hw.
  change (APP_GSDML_PARAMETER_ECHO_IDX =? APP_GSDML_PARAMETER_2_IDX) with false in Hw.
  change (APP_GSDML_PARAMETER_ECHO_IDX =? APP_GSDML_PARAMETER_ECHO_IDX) with true in Hw. cbv iota in Hw.
  rewrite take_ge in Hw by (rewrite Hg; lia). injection Hw as <-.
  unfold app_data_set_output_data in Hs. simpl in Hs. injection Hs as <-.
  eexists _, _. split; [reflexivity|]. split; [done|]. cbn [drop app to_be32].
  change (from_be32 (to_be32 (u32 (from_be32 (drop 4 (take 8 out)) * from_be32 gain))) =
          u32 (from_be32 (drop 4 out) * from_be32 gain)).
  rewrite (take_ge out) by lia. apply from_to_be32. unfold u32. apply Z.mod_pos_bound. lia.
Qed.

(** A defect: the echo gain is initialised to 1 but kept in network byte
    order, so that on a little endian host the gain is 2^24 until the PLC
    writes the parameter, and the integer that is echoed is the output times
    2^24 modulo 2^32. *)
Theorem initial_gain_byte_order out d2 :
  length out = 8%nat →
  app_data_set_output_data APP_GSDML_SUBMOD_ID_ECHO (Some out) 8 app_io_init = (0, d2) →
  ∃ v d3, app_data_get_input_data APP_GSDML_SUBMOD_ID_ECHO false d2 = (Some (v, PNET_IOXS_GOOD), d3) ∧
    from_be32 (drop 4 v) = u32 (from_be32 (drop 4 out) * (if host_le then 2 ^ 24 else 1)).
Proof.
  intros Ho Hs. unfold app_data_set_output_data in Hs. simpl in Hs. injection Hs as <-.
  eexists _, _. split; [reflexivity|]. cbn [drop app to_be32 app_param_echo_gain].
  change (from_be32 (to_be32 (u32 (from_be32 (drop 4 (take 8 out)) * from_be32 (host_bytes 1)))) =
          u32 (from_be32 (drop 4 out) * (if host_le then 2 ^ 24 else 1))).
  rewrite (take_ge out) by lia. rewrite from_to_be32 by (unfold u32; apply Z.mod_pos_bound; lia).
  unfold host_bytes. by destruct host_le.
Qed.

(** ** The LED follows the output *)

Definition led_ok (d : app_io) : Prop :=
  previous_led_state d = default false (last (led_log d)) ∧
  previous_led_state d = Z.testbit (outputdata d) 7.

(** Every operation of app_data.c on the state. *)
Inductive io_op :=
| OpInput (id : Z) (button : bool)
| OpOutput (id : Z) (data : option (list Z)) (size : Z)
| OpDefault
| OpWrite (id index : Z) (data : list Z) (len : Z).

Definition io_run (o : io_op) (d : app_io) : app_io :=
  match o with
  | OpInput id button => (app_data_get_input_data id button d).2
  | OpOutput id data size => (app_data_set_output_data id data size d).2
  | OpDefault => app_data_set_default_outputs d
  | OpWrite id index data len => (app_data_write_parameter id index data len d).2
  end.

Definition op_ok (o : io_op) : Prop :=
  match o with OpOutput _ (Some data) _ => bytes_ok data | _ => True end.

Lemma led_state_ok led d :
  led = Z.testbit (outputdata d) 7 →
  previous_led_state d = default false (last (led_log d)) → led_ok (app_handle_data_led_state led d).
Proof.
  intros Hl Hp. split; simpl; [|done]. case_bool_decide as Hc; [by rewrite last_snoc|].
  congruence.
Qed.

Lemma bit7_pos v : 0 ≤ v < 256 → (0 <? Z.land v 0x80) = Z.testbit v 7.
Proof.
  intros Hv. assert (E : Z.land v 128 = if Z.testbit v 7 then 128 else 0).
  { apply Z.bits_inj'. intros i Hi. rewrite Z.land_spec. change 128 with (2 ^ 7).
    destruct (decide (i = 7)) as [->|Hne].
    - rewrite Z.pow2_bits_true by lia. rewrite andb_true_r. by destruct (Z.testbit v 7).
    - rewrite Z.pow2_bits_false by lia. rewrite andb_false_r.
      destruct (Z.testbit v 7); [by rewrite Z.pow2_bits_false by lia|by rewrite Z.bits_0]. }
  rewrite E. by destruct (Z.testbit v 7).
Qed.

Lemma led_ok_step o d : op_ok o → led_ok d → led_ok (io_run o d).
Proof.
  intros Ho Hd. destruct o as [id b|id data size| |id index data len]; cbn [io_run].
  - unfold app_data_get_input_data. repeat case_match; exact Hd.
  - unfold app_data_set_output_data. destruct data as [data|]; [|done].
    repeat case_match; try exact Hd. apply led_state_ok; [|apply Hd]. cbn [outputdata].
    apply bit7_pos. simpl in Ho. destruct data as [|x data]; simpl; [lia|].
    by inversion Ho.
  - apply led_state_ok; [done|apply Hd].
  - unfold app_data_write_parameter. repeat case_match; exact Hd.
Qed.

(** (C32) The LED shows the output: after any sequence of operations the state
    last given to app_set_led() is the most significant bit of the digital
    output, off when the outputs were set to their default. *)
Theorem led_follows_output (l : list io_op) :
  Forall op_ok l → led_ok (foldl (λ d o, io_run o d) app_io_init l).
Proof.
  intros Hl. assert (Hi : led_ok app_io_init) by done. revert Hi.
  generalize app_io_init. induction Hl as [|o l Ho _ IH]; intros d Hd; simpl; [done|].
  apply IH. by apply led_ok_step.
Qed.
End Theorems.

(** ** Witnesses: a little endian host *)
Module DataDemo.
#[local] Instance opts : PnetOpts := {|
  PNET_MAX_AR := 2; PNET_MAX_SLOTS := 5; PNET_MAX_SUBSLOTS := 3; PNET_MAX_PHYSICAL_PORTS := 1;
  PNET_IOXS_BAD := 0; PNET_IOXS_GOOD := 128; PNET_SLOT_DAP_IDENT := 0;
|}.
#[local] Instance ids : PnetIds := {|
  PNET_MOD_DAP_IDENT := 1; PNET_SUBMOD_DAP_IDENT := 1; PNET_SUBMOD_DAP_INTERFACE_1_IDENT := 0x8000;
  PNET_SUBMOD_DAP_INTERFACE_1_PORT_1_IDENT := 0x8001; PNET_SUBMOD_DAP_INTERFACE_1_PORT_2_IDENT := 0x8002;
  PNET_SUBMOD_DAP_INTERFACE_1_PORT_3_IDENT := 0x8003; PNET_SUBMOD_DAP_INTERFACE_1_PORT_4_IDENT := 0x8004;
  PNET_SUBSLOT_DAP_IDENT := 1; PNET_SUBSLOT_DAP_INTERFACE_1_IDENT := 0x8000;
|}.
#[local] Instance host : DataHost := {| host_le := true; f32_mul_u32 f g := f |}.

Definition gain3 : app_io :=
  (app_data_write_parameter APP_GSDML_SUBMOD_ID_ECHO APP_GSDML_PARAMETER_ECHO_IDX [0; 0; 0; 3] 4 app_io_init).2.
Definition out5 : list Z := [0; 0; 0; 0; 0; 0; 0; 5].

Lemma parameter_roundtrip_witness :
  app_data_read_parameter APP_GSDML_SUBMOD_ID_ECHO APP_GSDML_PARAMETER_ECHO_IDX 16 gain3 =
  (0, Some [0; 0; 0; 3], 4).
Proof.
  apply (parameter_roundtrip APP_GSDML_SUBMOD_ID_ECHO APP_GSDML_PARAMETER_ECHO_IDX [0; 0; 0; 3] 4
    app_io_init gain3); [reflexivity|vm_compute; reflexivity|lia].
Defined.

Lemma digital_input_layout_witness :
  ∃ v d', app_data_get_input_data APP_GSDML_SUBMOD_ID_DIGITAL_IN true app_io_init =
    (Some ([v], PNET_IOXS_GOOD), d') ∧ Z.testbit v 7 = true.
Proof.
  destruct (digital_input_layout APP_GSDML_SUBMOD_ID_DIGITAL_IN true app_io_init) as (v & d' & E & _ & Hb & _);
    [by left|vm_compute; done|eauto].
Defined.

Lemma bytes_3 : bytes_ok [0; 0; 0; 3].
Proof. unfold bytes_ok. rewrite !Forall_cons. repeat split; (lia || constructor). Qed.

Lemma bytes_5 : bytes_ok out5.
Proof. unfold bytes_ok, out5. rewrite !Forall_cons. repeat split; (lia || constructor). Qed.

Lemma echo_integer_witness :
  ∃ v d3, app_data_get_input_data APP_GSDML_SUBMOD_ID_ECHO false
      (app_data_set_output_data APP_GSDML_SUBMOD_ID_ECHO (Some out5) 8 gain3).2 =
    (Some (v, PNET_IOXS_GOOD), d3) ∧ from_be32 (drop 4 v) = 15.
Proof.
  destruct (echo_integer [0; 0; 0; 3] out5 app_io_init gain3
    (app_data_set_output_data APP_GSDML_SUBMOD_ID_ECHO (Some out5) 8 gain3).2) as (v & d3 & E & _ & Ev).
  - reflexivity.
  - reflexivity.
  - exact bytes_3.
  - exact bytes_5.
  - vm_compute. reflexivity.
  - vm_compute. reflexivity.
  - exists v, d3. split; [exact E|]. rewrite Ev. reflexivity.
Defined.

Lemma initial_gain_byte_order_witness :
  ∃ v d3, app_data_get_input_data APP_GSDML_SUBMOD_ID_ECHO false
      (app_data_set_output_data APP_GSDML_SUBMOD_ID_ECHO (Some out5) 8 app_io_init).2 =
    (Some (v, PNET_IOXS_GOOD), d3) ∧ from_be32 (drop 4 v) = 5 * 2 ^ 24.
Proof.
  destruct (initial_gain_byte_order out5
    (app_data_set_output_data APP_GSDML_SUBMOD_ID_ECHO (Some out5) 8 app_io_init).2) as (v & d3 & E & Ev).
  - reflexivity.
  - vm_compute. reflexivity.
  - exists v, d3. split; [exact E|]. rewrite Ev. reflexivity.
Defined.

Lemma led_follows_output_witness :
  led_ok (io_run (OpOutput APP_GSDML_SUBMOD_ID_DIGITAL_OUT (Some [129]) 1) app_io_init).
Proof.
  apply (led_follows_output [OpOutput APP_GSDML_SUBMOD_ID_DIGITAL_OUT (Some [129]) 1]).
  repeat constructor; lia.
Defined.
End DataDemo.
