(* ===== verification/ProfNetif.v ===== *)
(** * profeth: the list of network interfaces, addresses as text

    app_utils_get_netif_namelist() splits the command line argument at commas
    into an array of fixed-size name buffers.  A buffer is the string written
    to it so far; a write beyond its end, or a string left without its
    terminator, is a [Crash]. *)
From S2P Require Import Prelude CString Inet.

Open Scope Z_scope.

Class NetifOpts := {
  NAME_MAX_SIZE : nat;           (* PNET_INTERFACE_NAME_MAX_SIZE *)
  MAX_PORTS : nat;               (* PNET_MAX_PHYSICAL_PORTS *)
}.

Section Netif.
Context `{NetifOpts}.

(** The while loop: the names and number_of_given_names, [None] for a write
    outside a buffer. *)
Fixpoint scan_names (if_list_size : nat) (s : string) (netif : list string) (if_index : nat) (num : Z)
    : option (list string * Z) :=
  match s with
  | EmptyString => Some (netif, num)
  | String c s' =>
      if decide (c ≠ ","%char) then
        if decide (if_index < if_list_size)%nat then
          match netif !! if_index with
          | Some n =>
              if decide (String.length n < NAME_MAX_SIZE)%nat
              then scan_names if_list_size s' (<[if_index := n +:+ String c EmptyString]> netif) if_index num
              else None
          | None => None
          end
        else scan_names if_list_size s' netif if_index num
      else
        if decide (if_index < if_list_size)%nat then
          match netif !! if_index with
          | Some n =>
              if decide (String.length n < NAME_MAX_SIZE)%nat
              then scan_names if_list_size s' netif (S if_index) (num + 1)
              else None
          | None => None
          end
        else scan_names if_list_size s' netif if_index (num + 1)
  end.

(** The return value with the names and the number of ports; [None] is
    undefined behaviour.  The argument is shorter than 65535 characters, so
    that no 16-bit counter wraps. *)
Definition app_utils_get_netif_namelist (arg_str : string) (max_port : nat)
    : option (Z * list string * Z) :=
  let if_list_size := (max_port + 1)%nat in
  let none := replicate (MAX_PORTS + 1) EmptyString in
  if decide (max_port = 0%nat) then Some (-1, none, 0)
  else
    match scan_names if_list_size arg_str none 0 1 with
    | None => None
    | Some (netif, num) =>
        if decide (max_port = 1%nat ∧ num > 1) then Some (-1, netif, 0)
        else if decide (num = 2) then Some (-1, netif, 0)
        else if decide (num > Z.of_nat max_port + 1) then Some (-1, netif, 0)
        else if existsb (λ n, NAME_MAX_SIZE <=? String.length n)%nat netif then None
        else if decide (num = 1) then
          match netif !! 0%nat with
          | Some n =>
              if decide (String.length n = 0%nat) then Some (-1, netif, 0)
              else Some (0, <[1%nat := n]> netif, 1)
          | None => None
          end
        else if existsb (λ n, String.length n =? 0)%nat (take (Z.to_nat num) netif)
        then Some (-1, netif, 0)
        else Some (0, netif, num - 1)
    end.

(** ** Specification *)

Definition fits (n : string) : Prop := (String.length n < NAME_MAX_SIZE)%nat.

Definition pad (N : nat) (l : list string) : list string := l ++ replicate (N - length l) EmptyString.

Lemma split_on_cons s : ∃ p ps, split_on ","%char s = p :: ps.
Proof.
  induction s as [|c s (p & ps & E)]; simpl; [eauto|]. case_decide; [eauto|]. rewrite E. eauto.
Qed.

(** Names beyond the end of the list are only counted. *)
Lemma scan_full size s netif ix num :
  (size ≤ ix)%nat →
  scan_names size s netif ix num = Some (netif, num + Z.of_nat (length (split_on ","%char s)) - 1).
Proof.
  intros Hix. revert num. induction s as [|c s IH]; intros num; cbn [scan_names split_on].
  - do 2 f_equal. simpl. lia.
  - rewrite !(decide_False (P := (ix < size)%nat)) by lia. destruct (decide (c = ","%char)) as [->|Hc].
    + rewrite decide_False by (intros Hn; by apply Hn). rewrite IH. do 2 f_equal. simpl length. lia.
    + rewrite decide_True by done. rewrite IH. destruct (split_on_cons s) as (p & ps & ->). done.
Qed.

Lemma app_char_s cur c p : (cur +:+ String c EmptyString) +:+ p = cur +:+ String c p.
Proof. by rewrite app_assoc_s. Qed.

Lemma scan_spec size N s : (size ≤ N)%nat → ∀ pre cur num p ps,
  (length pre < size)%nat → split_on ","%char s = p :: ps →
  Forall fits (take size (pre ++ (cur +:+ p) :: ps)) →
  scan_names size s (pre ++ cur :: replicate (N - length pre - 1) EmptyString) (length pre) num =
  Some (pad N (take size (pre ++ (cur +:+ p) :: ps)), num + Z.of_nat (length ps)).
Proof.
  intros HN. induction s as [|c s IH]; intros pre cur num p ps Hpre Hs Hf; cbn [scan_names split_on] in *.
  - injection Hs as <- <-. rewrite app_nil_r_s, Z.add_0_r. do 2 f_equal. unfold pad.
    rewrite take_ge by (rewrite length_app; simpl; lia). rewrite length_app. simpl.
    rewrite <- app_assoc. simpl. do 3 f_equal. lia.
  - assert (Hcur : fits (cur +:+ p)).
    { eapply Forall_forall; [exact Hf|]. rewrite take_app_ge by lia.
      apply elem_of_app. right. destruct (size - length pre)%nat eqn:E; [lia|]. apply list_elem_of_here. }
    rewrite !(decide_True (P := (length pre < size)%nat)) by lia. rewrite list_lookup_middle by done.
    unfold fits in Hcur. rewrite length_app_s in Hcur.
    rewrite !(decide_True (P := (String.length cur < NAME_MAX_SIZE)%nat)) by lia.
    destruct (decide (c = ","%char)) as [->|Hc].
    + rewrite decide_False by (intros Hn; by apply Hn). injection Hs as <- <-. rewrite app_nil_r_s in *.
      destruct (split_on_cons s) as (p & ps & Es). rewrite Es in *.
      destruct (decide (S (length pre) < size)%nat) as [Hlt|Hge].
      * destruct (N - length pre - 1)%nat as [|k] eqn:EN; [lia|].
        specialize (IH (pre ++ [cur]) EmptyString (num + 1) p ps).
        rewrite length_app, <- !app_assoc in IH. simpl in IH.
        replace (length pre + 1)%nat with (S (length pre)) in IH by lia.
        replace (N - S (length pre) - 1)%nat with k in IH by lia. simpl replicate.
        rewrite IH; [|done|done|done]. do 2 f_equal. rewrite length_cons. lia.
      * rewrite scan_full by lia. rewrite Es. do 2 f_equal; [|rewrite !length_cons; lia]. unfold pad.
        assert (Et : take size (pre ++ cur :: p :: ps) = pre ++ [cur]).
        { replace size with (length (pre ++ [cur])) by (rewrite length_app; simpl; lia).
          change (cur :: p :: ps) with ([cur] ++ (p :: ps)). rewrite app_assoc. apply take_app_length. }
        rewrite Et, length_app, <- app_assoc. simpl. do 3 f_equal. lia.
    + rewrite decide_True by done. destruct (split_on_cons s) as (q & qs & Es). rewrite Es in *.
      injection Hs as <- <-. rewrite <- (app_char_s cur c q) in *.
      assert (E : <[length pre := cur +:+ String c EmptyString]> (pre ++ cur :: replicate (N - length pre - 1) EmptyString)
                  = pre ++ (cur +:+ String c EmptyString) :: replicate (N - length pre - 1) EmptyString).
      { rewrite <- (Nat.add_0_r (length pre)) at 1. by rewrite insert_app_r. }
      rewrite E. by apply IH.
Qed.

(** What is to happen with the names [l] given by the user. *)
Definition namelist_spec (max_port : nat) (l : list string) : option (list string * Z) :=
  match l with
  | [n] => if decide (n = EmptyString) then None else Some ([n; n], 1)
  | _ =>
      if decide ((3 ≤ length l ≤ max_port + 1)%nat ∧ 2 ≤ Z.of_nat max_port ∧ EmptyString ∉ l)
      then Some (l, Z.of_nat (length l) - 1) else None
  end.

(** ** Theorems *)

Lemma pad_lookup_0 N n l : pad N (n :: l) !! 0%nat = Some n.
Proof. done. Qed.

Lemma pad_fits N l : (0 < NAME_MAX_SIZE)%nat → Forall fits l →
  existsb (λ n, NAME_MAX_SIZE <=? String.length n)%nat (pad N l) = false.
Proof.
  intros Hpos Hl. apply not_true_iff_false. intros E. apply existsb_exists in E as (n & Hn & Hlen).
  apply Nat.leb_le in Hlen. apply list_elem_of_In, elem_of_app in Hn as [Hn|Hn].
  - rewrite Forall_forall in Hl. specialize (Hl n Hn). unfold fits in Hl. lia.
  - apply elem_of_replicate in Hn as [-> _]. simpl in Hlen. lia.
Qed.

Lemma existsb_empty l : existsb (λ n, String.length n =? 0)%nat l = bool_decide (EmptyString ∈ l).
Proof.
  induction l as [|n l IH]; [done|]. cbn [existsb]. rewrite IH. destruct n as [|c n].
  - change (true || bool_decide (EmptyString ∈ l) = bool_decide (EmptyString ∈ EmptyString :: l)).
    symmetry. apply bool_decide_eq_true_2. set_solver.
  - change (bool_decide (EmptyString ∈ l) = bool_decide (EmptyString ∈ String c n :: l)).
    apply bool_decide_ext. set_solver.
Qed.


(** A defect: the name is copied without a bound.  An interface name
    that does not fit PNET_INTERFACE_NAME_MAX_SIZE is written past its
    buffer. *)
Theorem netif_name_overflow name max_port :
  strchr name ","%char = None → (0 < max_port ≤ MAX_PORTS)%nat →
  (NAME_MAX_SIZE < String.length name)%nat →
  app_utils_get_netif_namelist name max_port = None.
Proof.
  intros Hc [Hp Hm] Hlen. unfold app_utils_get_netif_namelist. rewrite decide_False by lia.
  assert (Hscan : ∀ s cur rest num, strchr s ","%char = None →
    (String.length cur ≤ NAME_MAX_SIZE)%nat → (NAME_MAX_SIZE < String.length cur + String.length s)%nat →
    scan_names (max_port + 1) s (cur :: rest) 0 num = None).
  { induction s as [|c s IH]; intros cur rest num Hs Hle Hl; simpl in Hl; [lia|].
    cbn [scan_names strchr] in *. destruct (decide (c = ","%char)); [done|].
    rewrite (decide_True (P := c ≠ ","%char)) by done.
    rewrite (decide_True (P := (0 < max_port + 1)%nat)) by lia. simpl lookup.
    cbv iota. case_decide as Hlt; [|done]. simpl. apply IH; [done|rewrite length_app_s; simpl; lia..]. }
  replace (MAX_PORTS + 1)%nat with (S MAX_PORTS) by lia. simpl replicate.
  by rewrite Hscan by (simpl; lia || done).
Qed.
End Netif.

(** ** Addresses *)

Definition byte_of (ip k : Z) : Z := Z.land (Z.shiftr ip k) 0xFF.

Definition app_utils_ip_to_string (ip : Z) : string :=
  fmt_d (byte_of ip 24) +:+ "." +:+ fmt_d (byte_of ip 16) +:+ "." +:+ fmt_d (byte_of ip 8)
  +:+ "." +:+ fmt_d (byte_of ip 0).

Record pnet_cfg_ip_addr := IpAddr { ip_a : Z; ip_b : Z; ip_c : Z; ip_d : Z }.

Definition app_utils_copy_ip_to_struct (ip : Z) : pnet_cfg_ip_addr :=
  IpAddr (byte_of ip 24) (byte_of ip 16) (byte_of ip 8) (byte_of ip 0).

Lemma byte_of_mod ip k : 0 ≤ k → byte_of ip k = (ip / 2 ^ k) `mod` 256.
Proof. intros Hk. unfold byte_of. rewrite Z.shiftr_div_pow2 by done. apply (Z.land_ones _ 8). lia. Qed.

Lemma bytes_of_ip ip : 0 ≤ ip < 2 ^ 32 →
  ((byte_of ip 24 * 256 + byte_of ip 16) * 256 + byte_of ip 8) * 256 + byte_of ip 0 = ip.
Proof.
  intros Hip. rewrite !byte_of_mod by lia. rewrite Z.pow_0_r, Z.div_1_r.
  assert (E1 := Z.div_mod ip 256). assert (E2 := Z.div_mod (ip / 2 ^ 8) 256).
  assert (E3 := Z.div_mod (ip / 2 ^ 16) 256).
  assert (D3 : ip / 2 ^ 8 / 256 = ip / 2 ^ 16) by (rewrite Z.div_div; [reflexivity|lia|lia]).
  assert (D4 : ip / 2 ^ 16 / 256 = ip / 2 ^ 24) by (rewrite Z.div_div; [reflexivity|lia|lia]).
  assert (D2 : ip / 2 ^ 8 = ip / 256) by reflexivity.
  assert (D5 : (ip / 2 ^ 24) `mod` 256 = ip / 2 ^ 24).
  { apply Z.mod_small. split; [apply Z.div_pos; lia|]. apply Z.div_lt_upper_bound; lia. }
  rewrite D5. lia.
Qed.

(** A printed octet is read back, and has no dot: checked for all 256. *)
Definition octet_ok (b : Z) : bool :=
  bool_decide (octet (fmt_d b) = Some b) && str_all (λ c, bool_decide (c ≠ "."%char)) (fmt_d b).

Lemma octets_ok b : 0 ≤ b < 256 →
  octet (fmt_d b) = Some b ∧ str_all (λ c, bool_decide (c ≠ "."%char)) (fmt_d b) = true.
Proof.
  intros Hb. assert (Hall : forallb octet_ok (Z.of_nat <$> seq 0 256) = true) by (vm_compute; reflexivity).
  rewrite forallb_forall in Hall. specialize (Hall b). unfold octet_ok in Hall.
  rewrite andb_true_iff, bool_decide_eq_true in Hall. apply Hall.
  apply list_elem_of_In, list_elem_of_fmap. exists (Z.to_nat b). split; [lia|]. apply elem_of_seq. lia.
Qed.

Lemma split_on_app sep s r :
  str_all (λ c, bool_decide (c ≠ sep)) s = true →
  split_on sep (s +:+ String sep r) = s :: split_on sep r.
Proof.
  induction s as [|c s IH]; intros Hs.
  - change (EmptyString +:+ String sep r) with (String sep r). cbn [split_on]. by rewrite decide_True.
  - change (String c s +:+ String sep r) with (String c (s +:+ String sep r)). cbn [split_on str_all] in *.
    apply andb_true_iff in Hs as [Hc%bool_decide_eq_true Hs]. rewrite decide_False by done. by rewrite IH.
Qed.

Lemma split_on_last sep s :
  str_all (λ c, bool_decide (c ≠ sep)) s = true → split_on sep s = [s].
Proof.
  induction s as [|c s IH]; intros Hs; [done|]. cbn [split_on str_all] in *.
  apply andb_true_iff in Hs as [Hc%bool_decide_eq_true Hs]. rewrite decide_False by done. by rewrite IH.
Qed.

Lemma byte_of_range ip k : 0 ≤ k → 0 ≤ byte_of ip k < 256.
Proof. intros. rewrite byte_of_mod by done. apply Z.mod_pos_bound. lia. Qed.

(** An address printed with app_utils_ip_to_string() is the address
    inet_pton(3) reads back. *)
Theorem ip_string_roundtrip ip :
  0 ≤ ip < 2 ^ 32 → inet_pton4 (app_utils_ip_to_string ip) = Some ip.
Proof.
  intros Hip. unfold inet_pton4, app_utils_ip_to_string.
  destruct (octets_ok (byte_of ip 24) (byte_of_range ip 24 ltac:(lia))) as [O1 N1].
  destruct (octets_ok (byte_of ip 16) (byte_of_range ip 16 ltac:(lia))) as [O2 N2].
  destruct (octets_ok (byte_of ip 8) (byte_of_range ip 8 ltac:(lia))) as [O3 N3].
  destruct (octets_ok (byte_of ip 0) (byte_of_range ip 0 ltac:(lia))) as [O4 N4].
  repeat match goal with |- context [String.append "." ?x] => change (String.append "." x) with (String "."%char x) end.
  rewrite !split_on_app, split_on_last by done. rewrite O1, O2, O3, O4. f_equal. by apply bytes_of_ip.
Qed.

(** ** Witnesses *)
Module NetifDemo.
#[local] Instance opts : NetifOpts := {| NAME_MAX_SIZE := 16; MAX_PORTS := 2 |}.


Lemma netif_name_overflow_witness :
  app_utils_get_netif_namelist "a-very-long-interface" 2 = None.
Proof. apply netif_name_overflow; [reflexivity|simpl; lia|simpl; lia]. Defined.

Lemma ip_string_roundtrip_witness : inet_pton4 (app_utils_ip_to_string 3232235777) = Some 3232235777.
Proof. apply ip_string_roundtrip. lia. Defined.

Example ip_text : app_utils_ip_to_string 3232235777 = "192.168.1.1".
Proof. reflexivity. Qed.
End NetifDemo.
