(* ===== verification/ProfApp.v ===== *)
(** * profeth: the application (sampleapp_common.c)

    The state is app_data_t with the process data of app_data.c and, in place
    of the p-net stack, the calls made to it, in order.  What a call of the
    stack returns is the class [Pnet].  A failed CC_ASSERT is a [Crash].  The
    callbacks of the stack and the iterations of the main loop are the steps
    of the application; the log messages are left out. *)
From S2P Require Import Prelude ProfAr ProfSlots ProfData.

Open Scope Z_scope.

Definition APP_EVENT_READY_FOR_DATA : Z := 1.
Definition APP_EVENT_TIMER : Z := 2.
Definition APP_EVENT_ALARM : Z := 4.
Definition APP_EVENT_SM_RELEASED : Z := 8.
Definition APP_EVENT_ABORT : Z := 32768.
Definition APP_TICKS_READ_BUTTONS : Z := 10.
Definition APP_TICKS_UPDATE_DATA : Z := 100.

Inductive app_demo_state :=
| ALARM_SEND | LOGBOOK_ENTRY | ABORT_AR | CYCLIC_REDUNDANT | CYCLIC_NORMAL
| DIAG_STD_ADD | DIAG_STD_UPDATE | DIAG_STD_REMOVE
| DIAG_USI_ADD | DIAG_USI_UPDATE | DIAG_USI_REMOVE.

#[export] Instance demo_eq_dec : EqDecision app_demo_state.
Proof. solve_decision. Defined.

(** Calls of the p-net stack. *)
Inductive pcall :=
| PullModule (slot : nat)
| PlugModule (slot : nat) (id : Z)
| PullSubmodule (slot : nat) (subslot : Z)
| PlugSubmodule (slot : nat) (subslot module_id submodule_id : Z) (cfg : pnet_data_cfg)
| InputSet (slot : nat) (subslot : Z) (data : option (list Z)) (iops : Z)
| InputGetIocs (slot : nat) (subslot : Z)
| OutputGet (slot : nat) (subslot : Z)
| OutputSetIocs (slot : nat) (subslot iocs : Z)
| ProviderState (run : bool)
| ApplicationReady (arep : Z)
| AlarmSendAck (arep arg : Z)
| SmReleasedCnf (arep : Z)
| ProcessAlarm (arep : Z) (slot : nat) (subslot payload : Z)
| PrimaryState (b : bool)
| RedundancyState (b : bool)
| DiagStdAdd (slot : nat) (subslot : Z)
| DiagStdUpdate (slot : nat) (subslot : Z)
| DiagStdRemove (slot : nat) (subslot : Z)
| DiagUsiAdd (slot : nat) (subslot : Z)
| DiagUsiUpdate (slot : nat) (subslot : Z)
| DiagUsiRemove (slot : nat) (subslot : Z)
| LogBookEntry (arep : Z)
| ArAbort (arep : Z)
| HandlePeriodic
| SetLed (id : Z) (state : bool).   (* the script of app_set_led() *)

Class Pnet := {
  pn_rc : pcall → list pcall → Z;
  (** data, length and IOPS of pnet_output_get_data_and_iops() *)
  pn_output : nat → Z → list pcall → list Z * Z * Z;
  (** the IOCS of pnet_input_get_iocs() *)
  pn_iocs : nat → Z → list pcall → Z;
  PNET_DATA_STATUS_BIT_PROVIDER_STATE : Z;
  PNET_DATA_STATUS_BIT_DATA_VALID : Z;
  PNET_ERROR_CODE_WRITE : Z;
  PNET_ERROR_CODE_READ : Z;
  PNET_ERROR_DECODE_PNIORW : Z;
  PNET_ERROR_CODE_1_APP_WRITE_ERROR : Z;
  PNET_ERROR_CODE_1_APP_READ_ERROR : Z;
}.

Record pnio_status := PnioStatus { error_code : Z; error_decode : Z; error_code_1 : Z; error_code_2 : Z }.

Record app := App {
  a_calls : list pcall;
  a_ar : list app_ar;
  a_slots : list app_slot;
  a_io : app_io;
  a_events : Z;                       (* main_events *)
  a_alarm_allowed : bool;
  a_alarm_arg : Z;
  a_demo : app_demo_state;            (* alarm_demo_state *)
  a_payload : Z;                      (* alarm_payload[0] *)
  a_button1 : bool;
  a_button2 : bool;
  a_button2_prev : bool;
  a_buttons_tick : Z;
  a_data_tick : Z;
}.

Section App.
Context `{PnetOpts} `{PnetIds} `{DataHost} `{Pnet}.

(** A call of the stack: its result. *)
Definition call (c : pcall) : M app Z := λ a,
  (Ret (pn_rc c (a_calls a)),
   App (a_calls a ++ [c]) (a_ar a) (a_slots a) (a_io a) (a_events a) (a_alarm_allowed a)
     (a_alarm_arg a) (a_demo a) (a_payload a) (a_button1 a) (a_button2 a) (a_button2_prev a)
     (a_buttons_tick a) (a_data_tick a)).

Definition set_ar (l : list app_ar) : M app unit := modify (λ a,
  App (a_calls a) l (a_slots a) (a_io a) (a_events a) (a_alarm_allowed a)
    (a_alarm_arg a) (a_demo a) (a_payload a) (a_button1 a) (a_button2 a) (a_button2_prev a)
    (a_buttons_tick a) (a_data_tick a)).

Definition set_slots (l : list app_slot) : M app unit := modify (λ a,
  App (a_calls a) (a_ar a) l (a_io a) (a_events a) (a_alarm_allowed a)
    (a_alarm_arg a) (a_demo a) (a_payload a) (a_button1 a) (a_button2 a) (a_button2_prev a)
    (a_buttons_tick a) (a_data_tick a)).

Definition set_io (d : app_io) : M app unit := modify (λ a,
  App (a_calls a) (a_ar a) (a_slots a) d (a_events a) (a_alarm_allowed a)
    (a_alarm_arg a) (a_demo a) (a_payload a) (a_button1 a) (a_button2 a) (a_button2_prev a)
    (a_buttons_tick a) (a_data_tick a)).

Definition set_events (e : Z) : M app unit := modify (λ a,
  App (a_calls a) (a_ar a) (a_slots a) (a_io a) e (a_alarm_allowed a)
    (a_alarm_arg a) (a_demo a) (a_payload a) (a_button1 a) (a_button2 a) (a_button2_prev a)
    (a_buttons_tick a) (a_data_tick a)).

Definition set_alarm (allowed : bool) (arg : Z) (demo : app_demo_state) (payload : Z) : M app unit :=
  modify (λ a, App (a_calls a) (a_ar a) (a_slots a) (a_io a) (a_events a) allowed arg demo payload
    (a_button1 a) (a_button2 a) (a_button2_prev a) (a_buttons_tick a) (a_data_tick a)).

Definition set_buttons (b1 b2 prev : bool) (tick : Z) : M app unit := modify (λ a,
  App (a_calls a) (a_ar a) (a_slots a) (a_io a) (a_events a) (a_alarm_allowed a)
    (a_alarm_arg a) (a_demo a) (a_payload a) b1 b2 prev tick (a_data_tick a)).

Definition set_data_tick (t : Z) : M app unit := modify (λ a,
  App (a_calls a) (a_ar a) (a_slots a) (a_io a) (a_events a) (a_alarm_allowed a)
    (a_alarm_arg a) (a_demo a) (a_payload a) (a_button1 a) (a_button2 a) (a_button2_prev a)
    (a_buttons_tick a) t).

Definition os_event_set (e : Z) : M app unit := let* v := gets a_events in set_events (Z.lor v e).
Definition os_event_clr (e : Z) : M app unit := let* v := gets a_events in set_events (Z.ldiff v e).

(** app_init(): the state before the stack is started. *)
Definition app_init : app :=
  App [] (replicate PNET_MAX_AR (AppAr UINT32_MAX 0)) init_slots app_io_init 0 true 0 ALARM_SEND 0
    false false false 0 0.

Definition app_is_connected_to_controller (a : app) : bool :=
  match a_ar a !! 0%nat with Some e => bool_decide (ar_arep e ≠ UINT32_MAX) | None => false end.

Definition app_set_outputs_default_value : M app unit :=
  let* d := gets a_io in set_io (app_data_set_default_outputs d).

Definition app_event_set (arep event : Z) (add_arep : bool) : M app unit :=
  let* l := gets a_ar in
  set_ar (event_set_ar l arep event add_arep) ;;;
  os_event_set event.

(** ** Callbacks *)

(** Callbacks that only log. *)
Definition app_connect_ind (arep : Z) : M app Z := ret 0.
Definition app_dcontrol_ind (arep command : Z) : M app Z := ret 0.
Definition app_ccontrol_cnf (arep : Z) : M app Z := ret 0.
Definition app_reset_ind (should_reset_application : bool) (reset_mode : Z) : M app Z := ret 0.
Definition app_alarm_ack_cnf (arep res : Z) : M app Z := ret 0.

Definition APP_DATA_LED_ID : Z := 1.
Definition APP_PROFINET_SIGNAL_LED_ID : Z := 2.

Definition app_signal_led_ind (led_state : bool) : M app Z :=
  let* _ := call (SetLed APP_PROFINET_SIGNAL_LED_ID led_state) in ret 0.

Definition app_release_ind : M app Z := app_set_outputs_default_value ;;; ret 0.

Definition app_sm_released_ind (arep : Z) : M app Z :=
  app_event_set arep APP_EVENT_SM_RELEASED false ;;; ret 0.

Definition write_error : pnio_status :=
  PnioStatus PNET_ERROR_CODE_WRITE PNET_ERROR_DECODE_PNIORW PNET_ERROR_CODE_1_APP_WRITE_ERROR 0.

Definition read_error : pnio_status :=
  PnioStatus PNET_ERROR_CODE_READ PNET_ERROR_DECODE_PNIORW PNET_ERROR_CODE_1_APP_READ_ERROR 0.

(** The result, and what is assigned to p_result->pnio_status if anything. *)
Definition app_write_ind (slot_nbr : nat) (subslot_nbr idx : Z) (data : list Z) (write_length : Z)
    : M app (Z * option pnio_status) :=
  let* slots := gets a_slots in
  match app_utils_subslot_get slots slot_nbr subslot_nbr with
  | None => ret (-1, Some write_error)
  | Some (_, p) =>
      let* d := gets a_io in
      let '(result, d) := app_data_write_parameter (sub_submodule_id p) idx data write_length d in
      set_io d ;;;
      ret (result, if decide (result ≠ 0) then Some write_error else None)
  end.

(** The result, the data and the length, and the status. *)
Definition app_read_ind (slot_nbr : nat) (subslot_nbr idx room : Z)
    : M app (Z * option (list Z) * Z * option pnio_status) :=
  let* slots := gets a_slots in
  match app_utils_subslot_get slots slot_nbr subslot_nbr with
  | None => ret (-1, None, room, Some read_error)
  | Some (_, p) =>
      let* (result, data, len) := gets (λ a, app_data_read_parameter (sub_submodule_id p) idx room (a_io a)) in
      ret (result, data, len, if decide (result ≠ 0) then Some read_error else None)
  end.

(** One subslot of app_set_initial_data_and_ioxs(). *)
Definition set_initial_one (p : app_subslot) : M app unit :=
  if negb (sub_plugged p) then ret tt
  else
    let cfg := sub_data_cfg p in
    (if bool_decide (0 < insize cfg) || bool_decide (data_dir cfg = PNET_DIR_NO_IO) then
       let* (data, iops) :=
         (if bool_decide (sub_slot_nbr p ≠ PNET_SLOT_DAP_IDENT) && bool_decide (0 < insize cfg) then
            let* b1 := gets a_button1 in
            let* d := gets a_io in
            let '(r, d) := app_data_get_input_data (sub_submodule_id p) b1 d in
            set_io d ;;;
            ret (match r with Some (v, iops) => (Some v, iops) | None => (None, PNET_IOXS_BAD) end)
          else if decide (sub_slot_nbr p = PNET_SLOT_DAP_IDENT) then ret (None, PNET_IOXS_GOOD)
          else ret (None, PNET_IOXS_BAD)) in
       let* _ := call (InputSet (sub_slot_nbr p) (sub_subslot_nbr p) data iops) in ret tt
     else ret tt) ;;;
    if decide (0 < outsize cfg) then
      let* _ := call (OutputSetIocs (sub_slot_nbr p) (sub_subslot_nbr p) PNET_IOXS_GOOD) in ret tt
    else ret tt.

Definition app_set_initial_data_and_ioxs : M app Z :=
  let* slots := gets a_slots in
  foreach (concat (slot_subslots <$> slots)) set_initial_one ;;;
  ret 0.

Inductive pnet_event :=
| PNET_EVENT_ABORT | PNET_EVENT_STARTUP | PNET_EVENT_PRMEND | PNET_EVENT_APPLRDY | PNET_EVENT_DATA.

Definition app_state_ind (arep : Z) (event : pnet_event) : M app Z :=
  match event with
  | PNET_EVENT_ABORT =>
      app_set_outputs_default_value ;;;
      app_event_set arep APP_EVENT_ABORT false ;;;
      ret 0
  | PNET_EVENT_PRMEND =>
      let* _ := app_set_initial_data_and_ioxs in
      let* _ := call (ProviderState true) in
      app_event_set arep APP_EVENT_READY_FOR_DATA true ;;;
      ret 0
  | _ => ret 0
  end.

Definition app_exp_module_ind (slot : nat) (module_ident : Z) : M app Z :=
  if decide (PNET_MAX_SLOTS ≤ slot)%nat then ret (-1)
  else
    let name := match app_gsdml_get_module_cfg module_ident with
                | None => "unknown" | Some m => gm_name m end in
    let* result := call (PullModule slot) in
    (if decide (result = 0) then
       let* slots := gets a_slots in set_slots (app_utils_pull_module slots slot).2
     else ret tt) ;;;
    let* rc := call (PlugModule slot module_ident) in
    (if decide (rc = 0) then
       let* slots := gets a_slots in set_slots (app_utils_plug_module slots slot module_ident name).2
     else ret tt) ;;;
    ret rc.

Definition app_exp_submodule_ind (slot : nat) (subslot module_id submodule_id : Z)
    (p_exp_data : pnet_data_cfg) : M app Z :=
  let '(cfg, name, callback) :=
    match app_gsdml_get_submodule_cfg submodule_id with
    | Some s => (DataCfg (gs_data_dir s) (gs_insize s) (gs_outsize s), gs_name s,
                 bool_decide (0 < gs_insize s) || bool_decide (0 < gs_outsize s))
    | None => (p_exp_data, "Unsupported", false)
    end in
  let* result := call (PullSubmodule slot subslot) in
  (if decide (result = 0) then
     let* slots := gets a_slots in set_slots (app_utils_pull_submodule slots slot subslot).2
   else ret tt) ;;;
  let* rc := call (PlugSubmodule slot subslot module_id submodule_id cfg) in
  (if decide (rc = 0) then
     let* slots := gets a_slots in
     set_slots (app_utils_plug_submodule slots slot subslot submodule_id (Some cfg) name callback).2
   else ret tt) ;;;
  ret rc.

Definition app_new_data_status_ind (data_status : Z) : M app Z :=
  let is_running := Z.testbit data_status PNET_DATA_STATUS_BIT_PROVIDER_STATE in
  let is_valid := Z.testbit data_status PNET_DATA_STATUS_BIT_DATA_VALID in
  (if negb is_running || negb is_valid then app_set_outputs_default_value else ret tt) ;;;
  ret 0.

Definition app_alarm_ind (arep arg : Z) : M app Z :=
  let* a := get in
  set_alarm (a_alarm_allowed a) arg (a_demo a) (a_payload a) ;;;
  app_event_set arep APP_EVENT_ALARM false ;;;
  ret 0.

Definition app_alarm_cnf : M app Z :=
  let* a := get in
  set_alarm true (a_alarm_arg a) (a_demo a) (a_payload a) ;;;
  ret 0.

Definition dap_cfg : pnet_data_cfg := DataCfg PNET_DIR_NO_IO 0 0.

Definition app_plug_dap (number_of_ports : nat) : M app unit :=
  let* _ := app_exp_module_ind PNET_SLOT_DAP_IDENT PNET_MOD_DAP_IDENT in
  let* _ := app_exp_submodule_ind PNET_SLOT_DAP_IDENT PNET_SUBSLOT_DAP_IDENT PNET_MOD_DAP_IDENT
              PNET_SUBMOD_DAP_IDENT dap_cfg in
  let* _ := app_exp_submodule_ind PNET_SLOT_DAP_IDENT PNET_SUBSLOT_DAP_INTERFACE_1_IDENT PNET_MOD_DAP_IDENT
              PNET_SUBMOD_DAP_INTERFACE_1_IDENT dap_cfg in
  foreach (seq 1 number_of_ports) (λ i,
    let* _ := app_exp_submodule_ind PNET_SLOT_DAP_IDENT (0x8000 + Z.of_nat i) PNET_MOD_DAP_IDENT
                (0x8000 + Z.of_nat i) dap_cfg in ret tt).

(** ** Cyclic data *)

Definition outdata_buf_size : Z := 20.

Definition set_iops (p : app_subslot) (iops : Z) : app_subslot :=
  AppSubslot (sub_used p) (sub_plugged p) (sub_slot_nbr p) (sub_subslot_nbr p) (sub_submodule_id p)
    (sub_name p) (sub_data_cfg p) (sub_indata_iocs p) iops (sub_callback p).

Definition set_iocs (p : app_subslot) (iocs : Z) : app_subslot :=
  AppSubslot (sub_used p) (sub_plugged p) (sub_slot_nbr p) (sub_subslot_nbr p) (sub_submodule_id p)
    (sub_name p) (sub_data_cfg p) iocs (sub_outdata_iops p) (sub_callback p).

(** app_cyclic_data_callback(): the subslot as it is afterwards. *)
Definition app_cyclic_data_callback (p : app_subslot) : M app app_subslot :=
  let cfg := sub_data_cfg p in
  let* p :=
    (if bool_decide (sub_slot_nbr p ≠ PNET_SLOT_DAP_IDENT) && bool_decide (0 < outsize cfg) then
       if decide (outdata_buf_size ≤ outsize cfg) then crash
       else
         let* (data, len, iops) := gets (λ a, pn_output (sub_slot_nbr p) (sub_subslot_nbr p) (a_calls a)) in
         let* _ := call (OutputGet (sub_slot_nbr p) (sub_subslot_nbr p)) in
         (if decide (len ≠ outsize cfg) then app_set_outputs_default_value
          else if decide (iops = PNET_IOXS_GOOD) then
            let* d := gets a_io in
            set_io (app_data_set_output_data (sub_submodule_id p) (Some data) len d).2
          else app_set_outputs_default_value) ;;;
         ret (set_iops p iops)
     else ret p) in
  if bool_decide (sub_slot_nbr p ≠ PNET_SLOT_DAP_IDENT) && bool_decide (0 < insize cfg) then
    let* b1 := gets a_button1 in
    let* d := gets a_io in
    let '(r, d) := app_data_get_input_data (sub_submodule_id p) b1 d in
    set_io d ;;;
    let '(data, iops) := match r with Some (v, iops) => (Some v, iops) | None => (None, PNET_IOXS_BAD) end in
    let* _ := call (InputSet (sub_slot_nbr p) (sub_subslot_nbr p) data iops) in
    let* iocs := gets (λ a, pn_iocs (sub_slot_nbr p) (sub_subslot_nbr p) (a_calls a)) in
    let* _ := call (InputGetIocs (sub_slot_nbr p) (sub_subslot_nbr p)) in
    ret (set_iocs p iocs)
  else ret p.

(** The subslots of one slot, in order. *)
Fixpoint poll_subslots (l : list app_subslot) : M app (list app_subslot) :=
  match l with
  | [] => ret []
  | p :: l' =>
      let* p := (if sub_plugged p && sub_callback p then app_cyclic_data_callback p else ret p) in
      let* l' := poll_subslots l' in
      ret (p :: l')
  end.

Fixpoint poll_slots (l : list app_slot) : M app (list app_slot) :=
  match l with
  | [] => ret []
  | s :: l' =>
      let* subs := poll_subslots (slot_subslots s) in
      let* l' := poll_slots l' in
      ret (set_subslots subs s :: l')
  end.

(** app_utils_cyclic_data_poll() *)
Definition app_utils_cyclic_data_poll : M app unit :=
  let* slots := gets a_slots in
  let* slots := poll_slots slots in
  set_slots slots.

Definition app_handle_cyclic_data : M app unit :=
  let* t := gets a_data_tick in
  let t := u32 (t + 1) in
  if decide (t < APP_TICKS_UPDATE_DATA) then set_data_tick t
  else set_data_tick 0 ;;; app_utils_cyclic_data_poll.

(** ** Alarm demo *)

Definition is_digital_in (p : app_subslot) : bool :=
  app_utils_subslot_is_input (Some p)
  && ((sub_submodule_id p =? APP_GSDML_SUBMOD_ID_DIGITAL_IN)
      || (sub_submodule_id p =? APP_GSDML_SUBMOD_ID_DIGITAL_IN_OUT)).

(** The first digital input subslot: its slot number and content. *)
Fixpoint find_input (slot : nat) (l : list app_slot) : option (nat * app_subslot) :=
  match l with
  | [] => None
  | s :: l' =>
      match List.find is_digital_in (slot_subslots s) with
      | Some p => Some (slot, p)
      | None => find_input (S slot) l'
      end
  end.

Definition demo_next (s : app_demo_state) : app_demo_state :=
  match s with
  | ALARM_SEND => CYCLIC_REDUNDANT
  | CYCLIC_REDUNDANT => CYCLIC_NORMAL
  | CYCLIC_NORMAL => DIAG_STD_ADD
  | DIAG_STD_ADD => DIAG_STD_UPDATE
  | DIAG_STD_UPDATE => DIAG_USI_ADD
  | DIAG_USI_ADD => DIAG_USI_UPDATE
  | DIAG_USI_UPDATE => DIAG_USI_REMOVE
  | DIAG_USI_REMOVE => DIAG_STD_REMOVE
  | DIAG_STD_REMOVE => LOGBOOK_ENTRY
  | LOGBOOK_ENTRY => ABORT_AR
  | ABORT_AR => ALARM_SEND
  end.

Definition first_arep (a : app) : Z :=
  match a_ar a !! 0%nat with Some e => ar_arep e | None => UINT32_MAX end.

(** The last cases of the first switch of app_handle_demo_pnet_api(). *)
Definition demo_logbook (a : app) : M app unit :=
  if app_is_connected_to_controller a
  then let* _ := call (LogBookEntry (first_arep a)) in ret tt else ret tt.

Definition demo_abort (a : app) : M app unit :=
  if app_is_connected_to_controller a
  then let* _ := call (ArAbort (first_arep a)) in ret tt else ret tt.

(** The first switch of app_handle_demo_pnet_api(). *)
Definition demo_action (slot : nat) (nbr : Z) : M app unit :=
  let* a := get in
  match a_demo a with
  | ALARM_SEND =>
      if a_alarm_allowed a && app_is_connected_to_controller a then
        let payload := u8 (a_payload a + 1) in
        let* _ := call (ProcessAlarm (first_arep a) slot nbr payload) in
        set_alarm false (a_alarm_arg a) (a_demo a) payload
      else ret tt
  | CYCLIC_REDUNDANT =>
      let* _ := call (PrimaryState false) in
      let* _ := call (RedundancyState true) in ret tt
  | CYCLIC_NORMAL =>
      let* _ := call (PrimaryState true) in
      let* _ := call (RedundancyState false) in ret tt
  | DIAG_STD_ADD => let* _ := call (DiagStdAdd slot nbr) in ret tt
  | DIAG_STD_UPDATE => let* _ := call (DiagStdUpdate slot nbr) in ret tt
  | DIAG_STD_REMOVE => let* _ := call (DiagStdRemove slot nbr) in ret tt
  | DIAG_USI_ADD => let* _ := call (DiagUsiAdd slot nbr) in ret tt
  | DIAG_USI_UPDATE => let* _ := call (DiagUsiUpdate slot nbr) in ret tt
  | DIAG_USI_REMOVE => let* _ := call (DiagUsiRemove slot nbr) in ret tt
  | LOGBOOK_ENTRY => demo_logbook a
  | ABORT_AR => demo_abort a
  end.

Definition app_handle_demo_pnet_api : M app unit :=
  let* slots := gets a_slots in
  match find_input 0 slots with
  | None => ret tt
  | Some (slot, p) =>
      demo_action slot (sub_subslot_nbr p) ;;;
      let* a := get in
      set_alarm (a_alarm_allowed a) (a_alarm_arg a) (demo_next (a_demo a)) (a_payload a)
  end.

(** ** Callbacks as the stack calls them *)

Inductive pnet_callback :=
| CbState (arep : Z) (event : pnet_event)
| CbRelease
| CbSmReleased (arep : Z)
| CbWrite (slot : nat) (subslot idx : Z) (data : list Z) (len : Z)
| CbRead (slot : nat) (subslot idx room : Z)
| CbModule (slot : nat) (id : Z)
| CbSubmodule (slot : nat) (subslot module_id submodule_id : Z) (cfg : pnet_data_cfg)
| CbDataStatus (data_status : Z)
| CbAlarm (arep arg : Z)
| CbAlarmCnf
| CbConnect (arep : Z)
| CbDcontrol (arep command : Z)
| CbCcontrol (arep : Z)
| CbReset (should_reset_application : bool) (reset_mode : Z)
| CbSignalLed (led_state : bool)
| CbAlarmAck (arep res : Z).

(** The callbacks app_pnet_cfg_init_default() registers. *)
Definition run_callback (c : pnet_callback) : M app unit :=
  match c with
  | CbState arep event => let* _ := app_state_ind arep event in ret tt
  | CbRelease => let* _ := app_release_ind in ret tt
  | CbSmReleased arep => let* _ := app_sm_released_ind arep in ret tt
  | CbWrite slot subslot idx data len => let* _ := app_write_ind slot subslot idx data len in ret tt
  | CbRead slot subslot idx room => let* _ := app_read_ind slot subslot idx room in ret tt
  | CbModule slot id => let* _ := app_exp_module_ind slot id in ret tt
  | CbSubmodule slot subslot mid sid cfg => let* _ := app_exp_submodule_ind slot subslot mid sid cfg in ret tt
  | CbDataStatus st => let* _ := app_new_data_status_ind st in ret tt
  | CbAlarm arep arg => let* _ := app_alarm_ind arep arg in ret tt
  | CbAlarmCnf => let* _ := app_alarm_cnf in ret tt
  | CbConnect arep => let* _ := app_connect_ind arep in ret tt
  | CbDcontrol arep command => let* _ := app_dcontrol_ind arep command in ret tt
  | CbCcontrol arep => let* _ := app_ccontrol_cnf arep in ret tt
  | CbReset b mode => let* _ := app_reset_ind b mode in ret tt
  | CbSignalLed st => let* _ := app_signal_led_ind st in ret tt
  | CbAlarmAck arep res => let* _ := app_alarm_ack_cnf arep res in ret tt
  end.

(** ** The main loop *)

(** [hw1], [hw2] are what app_get_button() would return. *)
Definition update_button_states (hw1 hw2 : bool) : M app unit :=
  let* a := get in
  let t := u32 (a_buttons_tick a + 1) in
  if decide (APP_TICKS_READ_BUTTONS < t) then set_buttons hw1 hw2 (a_button2_prev a) 0
  else set_buttons (a_button1 a) (a_button2 a) (a_button2_prev a) t.

(** [cbs] are the callbacks the stack calls from pnet_handle_periodic(). *)
Definition app_handle_event_timer (hw1 hw2 : bool) (cbs : list pnet_callback) : M app unit :=
  os_event_clr APP_EVENT_TIMER ;;;
  update_button_states hw1 hw2 ;;;
  let* a := get in
  (if app_is_connected_to_controller a then app_handle_cyclic_data else ret tt) ;;;
  let* a := get in
  (if a_button2 a && negb (a_button2_prev a) then app_handle_demo_pnet_api else ret tt) ;;;
  let* a := get in
  set_buttons (a_button1 a) (a_button2 a) (a_button2 a) (a_buttons_tick a) ;;;
  let* _ := call HandlePeriodic in
  foreach cbs run_callback.

(** A handler as a function on the state: the AR array is not touched by the
    handlers of the program. *)
Definition run_handler (h : Z → M app Z) (a : app) (arep : Z) : bool * app :=
  match h arep a with
  | (Ret rc, a') => (bool_decide (rc ≠ 0), a')
  | (_, a') => (false, a')
  end.

Definition app_handle_event_ar (event : Z) (handler : Z → M app Z) : M app unit :=
  os_event_clr event ;;;
  let* a := get in
  let '(l, a') := handle_event_ar (a_ar a) a event (run_handler handler) in
  put a' ;;; set_ar l.

Definition app_ar_ready_for_data_handler (arep : Z) : M app Z :=
  let* _ := call (ApplicationReady arep) in ret 0.

Definition app_ar_alarm_handler (arep : Z) : M app Z :=
  let* arg := gets a_alarm_arg in
  let* _ := call (AlarmSendAck arep arg) in ret 0.

Definition app_ar_sm_released_handler (arep : Z) : M app Z :=
  let* _ := app_set_initial_data_and_ioxs in
  let* _ := call (SmReleasedCnf arep) in ret 0.

Definition app_ar_abort_handler (arep : Z) : M app Z := ret 1.

Definition flag (flags event : Z) : bool := negb (Z.land flags event =? 0).

(** One iteration of the for loop of app_loop_forever(). *)
Definition app_loop_body (flags : Z) (hw1 hw2 : bool) (cbs : list pnet_callback) : M app unit :=
  (if flag flags APP_EVENT_READY_FOR_DATA
   then app_handle_event_ar APP_EVENT_READY_FOR_DATA app_ar_ready_for_data_handler else ret tt) ;;;
  (if flag flags APP_EVENT_ALARM
   then app_handle_event_ar APP_EVENT_ALARM app_ar_alarm_handler else ret tt) ;;;
  (if flag flags APP_EVENT_TIMER then app_handle_event_timer hw1 hw2 cbs else ret tt) ;;;
  (if flag flags APP_EVENT_SM_RELEASED
   then app_handle_event_ar APP_EVENT_SM_RELEASED app_ar_sm_released_handler else ret tt) ;;;
  if flag flags APP_EVENT_ABORT then
    app_handle_event_ar APP_EVENT_ABORT app_ar_abort_handler ;;;
    let* a := get in
    set_alarm true (a_alarm_arg a) (a_demo a) (a_payload a)
  else ret tt.

(** The loop body with the flags os_event_wait() returns. *)
Definition app_loop_once (hw1 hw2 : bool) (cbs : list pnet_callback) : M app unit :=
  let* ev := gets a_events in
  app_loop_body (Z.land ev (1 + 2 + 4 + 8 + 32768)) hw1 hw2 cbs.

(** ** Steps of the application *)

(** A callback (the stack also calls some from its other functions), the
    expiry of the timer, an iteration of the main loop. *)
Inductive input :=
| InCall (c : pnet_callback)
| InTimer
| InLoop (hw1 hw2 : bool) (cbs : list pnet_callback).

Definition step (i : input) : M app unit :=
  match i with
  | InCall c => run_callback c
  | InTimer => os_event_set APP_EVENT_TIMER
  | InLoop hw1 hw2 cbs => app_loop_once hw1 hw2 cbs
  end.

Definition app_set_led (state : bool) : M app unit :=
  let* d := gets a_io in
  set_io (AppIo (app_param_1 d) (app_param_2 d) (app_param_echo_gain d) (inputdata d) (outputdata d)
    (counter d) (echo_inputdata d) (echo_outputdata d) (previous_led_state d) (led_log d ++ [state])).

(** app_loop_forever(): the LED is switched off, the DAP is plugged, then the
    steps follow. *)
Definition app_run (ports : nat) (l : list input) : M app unit :=
  app_set_led false ;;; app_plug_dap ports ;;; foreach l step.
End App.
