(* ===== verification/ProfProps.v ===== *)
(** * profeth: invariants of the application *)
From S2P Require Import Prelude ProfAr ProfSlots ProfData ProfApp.

Open Scope Z_scope.

(** ** What every step keeps *)

(** Only submodules of the GSDML tables have a callback: their output fits
    the buffer of app_cyclic_data_callback(). *)
Definition sub_ok (p : app_subslot) : Prop :=
  sub_callback p = true → outsize (sub_data_cfg p) ≤ 8.

Section Inv.
Context `{PnetOpts} `{PnetIds} `{DataHost} `{Pnet}.

Definition slot_ok (s : app_slot) : Prop :=
  length (slot_subslots s) = PNET_MAX_SUBSLOTS ∧ Forall sub_ok (slot_subslots s).

Definition slots_ok (l : list app_slot) : Prop := length l = PNET_MAX_SLOTS ∧ Forall slot_ok l.

Record inv (a : app) : Prop := {
  inv_ar : ar_wf (a_ar a);
  inv_ar_len : length (a_ar a) = PNET_MAX_AR;
  inv_led : led_ok (a_io a);
  inv_slots : slots_ok (a_slots a);
}.

Definition pres {A} (m : M app A) : Prop := ∀ a, inv a → wp m (λ _, inv) a.

(** The stack hands out bytes. *)
Context (Hbytes : ∀ s n h, bytes_ok (pn_output s n h).1.1).

Lemma pres_bind {A B} (m : M app A) (f : A → M app B) : pres m → (∀ x, pres (f x)) → pres (bind m f).
Proof. intros Hm Hf a Ha. apply wp_bind. eapply wp_mono; [by apply Hm|]. intros x a' Ha'. by apply Hf. Qed.

Lemma pres_ret {A} (x : A) : pres (ret x).
Proof. by intros a Ha. Qed.

Lemma pres_gets {A} (f : app → A) : pres (gets f).
Proof. by intros a Ha. Qed.

Lemma pres_get : pres get.
Proof. by intros a Ha. Qed.

Lemma pres_call c : pres (call c).
Proof. by intros a []. Qed.

Lemma pres_events e : pres (set_events e).
Proof. by intros a []. Qed.

Lemma pres_alarm x y z w : pres (set_alarm x y z w).
Proof. by intros a []. Qed.

Lemma pres_buttons x y z w : pres (set_buttons x y z w).
Proof. by intros a []. Qed.

Lemma pres_data_tick t : pres (set_data_tick t).
Proof. by intros a []. Qed.

Lemma pres_if {A} (b : bool) (m1 m2 : M app A) : pres m1 → pres m2 → pres (if b then m1 else m2).
Proof. by destruct b. Qed.

Lemma pres_decide {A} P `{Decision P} (m1 m2 : M app A) : pres m1 → pres m2 → pres (if decide P then m1 else m2).
Proof. by case_decide. Qed.

Lemma pres_foreach {A} (l : list A) body : (∀ x, pres (body x)) → pres (foreach l body).
Proof. intros Hb. induction l; [apply pres_ret|]. apply pres_bind; auto. Qed.

(** Read, change, write back. *)
Lemma pres_slots f : (∀ l, slots_ok l → slots_ok (f l)) → pres (let* l := gets a_slots in set_slots (f l)).
Proof. intros Hf a []. split; simpl; auto. Qed.

Lemma pres_io f : (∀ d, led_ok d → led_ok (f d)) → pres (let* d := gets a_io in set_io (f d)).
Proof. intros Hf a []. split; simpl; auto. Qed.

Lemma pres_event_set arep e add : arep ≠ UINT32_MAX → pres (app_event_set arep e add).
Proof.
  intros Ha a [Hw Hl Hled Hs]. unfold app_event_set.
  destruct (event_set_wf (a_ar a) arep e add) as (Hw' & Hl' & _); [done..|].
  split; simpl; try done. by rewrite Hl'.
Qed.

Lemma spec_handle_inv {S} (I : S → Prop) act (s : S) event handler :
  (∀ s arep, I s → I (handler s arep).2) → I s → I (spec_handle act s event handler).2.
Proof.
  intros Hh. revert s. induction act as [|x act IH]; intros s Hs; simpl; [done|]. case_decide.
  - specialize (Hh s (ar_arep x) Hs). destruct (handler s (ar_arep x)) as [r s1]. simpl in Hh.
    specialize (IH s1 Hh). by destruct (spec_handle act s1 event handler).
  - specialize (IH s Hs). by destruct (spec_handle act s event handler).
Qed.

Lemma pres_handle_event event h : (∀ arep, pres (h arep)) → pres (app_handle_event_ar event h).
Proof.
  intros Hh. unfold app_handle_event_ar. apply pres_bind.
  { apply pres_bind; [apply pres_gets|]. intro. apply pres_events. }
  intros ? a Ha. apply wp_bind. unfold wp at 1. simpl.
  pose proof (handle_event_wf event (run_handler h) (a_ar a) a (inv_ar _ Ha)) as Hw.
  destruct (handle_event_ar (a_ar a) a event (run_handler h)) as [l a'].
  destruct Hw as (Hw & Hl & E).
  assert (Ha' : inv a').
  { replace a' with (spec_handle (active (a_ar a)) a event (run_handler h)).2 by (by rewrite <- E).
    apply (spec_handle_inv inv); [|done]. intros s arep Hs. unfold run_handler.
    specialize (Hh arep s Hs). unfold wp in Hh. by destruct (h arep s) as [[]]. }
  destruct Ha'. split; simpl; try done. rewrite Hl. apply Ha.
Qed.

(** ** The slot tables *)

Lemma slots_ok_alter f n l :
  (∀ s, slot_ok s → slot_ok (f s)) → slots_ok l → slots_ok (alter f n l).
Proof.
  intros Hf [Hl Hs]. split; [by rewrite length_alter|]. apply Forall_alter; [done|].
  intros x Hx _. rewrite Forall_forall in Hs. apply Hf, Hs. by eapply list_elem_of_lookup_2.
Qed.

Lemma slots_ok_pull_module l n : slots_ok l → slots_ok (app_utils_pull_module l n).2.
Proof. intros Hl. unfold app_utils_pull_module. case_decide; [done|]. by apply slots_ok_alter. Qed.

Lemma slots_ok_plug_module l n id name : slots_ok l → slots_ok (app_utils_plug_module l n id name).2.
Proof. intros Hl. unfold app_utils_plug_module. case_decide; [done|]. by apply slots_ok_alter. Qed.

(** Replacing one subslot of slot [n]. *)
Lemma slots_ok_set l n ix p :
  sub_ok p → slots_ok l → slots_ok (alter (set_subslots (<[ix := p]> (subslots_of l n))) n l).
Proof.
  intros Hp [Hl Hs]. split; [by rewrite length_alter|]. apply Forall_alter; [done|].
  intros x Hx [Hlen Hok]. unfold subslots_of. rewrite Hx. split; simpl; [by rewrite length_insert|].
  by apply Forall_insert.
Qed.

Lemma slots_ok_pull_submodule l n nbr : slots_ok l → slots_ok (app_utils_pull_submodule l n nbr).2.
Proof.
  intros Hl. unfold app_utils_pull_submodule. case_decide; [done|].
  destruct (app_utils_subslot_get l n nbr) as [[ix p]|]; [|done]. simpl. by apply slots_ok_set.
Qed.

Lemma slots_ok_plug_submodule l n nbr id cfg name cb :
  (cb = true → outsize cfg ≤ 8) → slots_ok l →
  slots_ok (app_utils_plug_submodule l n nbr id (Some cfg) name cb).2.
Proof.
  intros Hc Hl. unfold app_utils_plug_submodule. case_decide; [done|].
  destruct (list_find _ _) as [[ix p]|]; [|done]. simpl. by apply slots_ok_set.
Qed.

(** The sizes of the tables. *)
Lemma gsdml_outsize id s : app_gsdml_get_submodule_cfg id = Some s → gs_outsize s ≤ 8.
Proof.
  intros E. apply List.find_some in E as [Hin _]. unfold app_gsdml_submodules, dap in Hin.
  repeat (destruct Hin as [<-|Hin]; [vm_compute; done|]). done.
Qed.

(** ** The operations *)

Lemma pres_default : pres app_set_outputs_default_value.
Proof. unfold app_set_outputs_default_value. apply pres_io. intros d Hd. by apply (led_ok_step OpDefault). Qed.

Lemma pres_event_flag e : pres (os_event_set e).
Proof. apply pres_bind; [apply pres_gets|]. intro. apply pres_events. Qed.

Lemma pres_event_clr e : pres (os_event_clr e).
Proof. apply pres_bind; [apply pres_gets|]. intro. apply pres_events. Qed.

(** Input data is read into the process data and something is done with it. *)
Lemma pres_input {A} id b (k : option (list Z * Z) → M app A) :
  (∀ r, pres (k r)) →
  pres (let* d := gets a_io in
        let '(r, d) := app_data_get_input_data id b d in set_io d ;;; k r).
Proof.
  intros Hk a Ha. apply wp_bind, wp_gets.
  pose proof (led_ok_step (OpInput id b) (a_io a) I (inv_led _ Ha)) as Hd. simpl in Hd.
  destruct (app_data_get_input_data id b (a_io a)) as [r d]. simpl in Hd.
  apply wp_bind, wp_modify. apply Hk. destruct Ha. by split.
Qed.
End Inv.

Create HintDb pres discriminated.
#[export] Hint Resolve pres_ret pres_gets pres_get pres_call pres_events pres_alarm pres_buttons
  pres_data_tick pres_default pres_event_flag pres_event_clr pres_event_set : pres.

Ltac pres_step :=
  match goal with
  | Hm : pres ?m |- pres ?m => exact Hm
  | |- pres (bind (gets a_io) _) => first [apply pres_input; intro | apply pres_io; intros ? ?]
  | |- pres (bind (gets a_slots) (λ l, set_slots _)) => apply pres_slots; intros ? ?
  | |- pres (bind _ _) => apply pres_bind; [|intro]
  | |- pres (if decide _ then _ else _) => apply pres_decide
  | |- pres (if ?b then _ else _) => apply pres_if
  | |- pres (match ?x with _ => _ end) => destruct x eqn:?
  | |- pres (foreach _ _) => apply pres_foreach; intro
  | |- pres _ => solve [auto with pres]
  end.
Ltac pres := cbv beta zeta; repeat pres_step.

Section Steps.
Context `{PnetOpts} `{PnetIds} `{DataHost} `{Pnet}.
Context (Hbytes : ∀ s n h, bytes_ok (pn_output s n h).1.1).

Lemma pres_initial_one p : pres (set_initial_one p).
Proof. unfold set_initial_one. pres. Qed.

Lemma pres_initial : pres app_set_initial_data_and_ioxs.
Proof.
  unfold app_set_initial_data_and_ioxs. apply pres_bind; [apply pres_gets|]. intro. pres.
  apply pres_initial_one.
Qed.

Lemma pres_state arep e : arep ≠ UINT32_MAX → pres (app_state_ind arep e).
Proof. intros Ha. unfold app_state_ind. pres. apply pres_initial. Qed.

Lemma pres_module slot id : pres (app_exp_module_ind slot id).
Proof.
  unfold app_exp_module_ind. pres; [by apply slots_ok_pull_module|by apply slots_ok_plug_module].
Qed.

Lemma pres_submodule slot subslot mid sid cfg : pres (app_exp_submodule_ind slot subslot mid sid cfg).
Proof.
  unfold app_exp_submodule_ind. destruct (app_gsdml_get_submodule_cfg sid) as [s|] eqn:E; pres;
    try (by apply slots_ok_pull_submodule); apply slots_ok_plug_submodule; try done.
  intros _. by eapply gsdml_outsize.
Qed.

Lemma pres_write slot subslot idx data len : pres (app_write_ind slot subslot idx data len).
Proof.
  unfold app_write_ind. apply pres_bind; [apply pres_gets|]. intros slots.
  destruct (app_utils_subslot_get slots slot subslot) as [[ix p]|]; [|apply pres_ret].
  intros a Ha. apply wp_bind, wp_gets.
  pose proof (led_ok_step (OpWrite (sub_submodule_id p) idx data len) (a_io a) I (inv_led _ Ha)) as Hd.
  simpl in Hd. destruct (app_data_write_parameter _ _ _ _ _) as [rc d]. destruct Ha. by split.
Qed.

Lemma pres_read slot subslot idx room : pres (app_read_ind slot subslot idx room).
Proof.
  unfold app_read_ind. apply pres_bind; [apply pres_gets|]. intros slots.
  destruct (app_utils_subslot_get slots slot subslot) as [[ix p]|]; pres.
Qed.

(** The callback keeps the invariant and returns a subslot that is fine; in
    particular its assertion holds. *)
Lemma wp_cyclic p a :
  sub_ok p → sub_callback p = true → inv a →
  wp (app_cyclic_data_callback p) (λ p' a', inv a' ∧ sub_ok p') a.
Proof.
  intros Hp Hcb Ha. specialize (Hp Hcb). unfold app_cyclic_data_callback. apply wp_bind.
  eapply (wp_mono _ (λ p' a', inv a' ∧ sub_data_cfg p' = sub_data_cfg p)).
  { destruct (_ && _) eqn:Ec; [|by apply wp_ret].
    rewrite decide_False by (unfold outdata_buf_size; lia).
    apply wp_bind, wp_gets. specialize (Hbytes (sub_slot_nbr p) (sub_subslot_nbr p) (a_calls a)).
    destruct (pn_output _ _ _) as [[data len] iops]. simpl in Hbytes.
    apply wp_bind. eapply wp_mono; [by apply pres_call|]. intros ? a1 Ha1. apply wp_bind.
    eapply (wp_mono _ (λ _, inv)); [|intros ? a2 Ha2; by apply wp_ret].
    destruct (decide (len ≠ _)); [by apply pres_default|].
    destruct (decide (iops = _)); [|by apply pres_default].
    apply (pres_io (λ d, (app_data_set_output_data (sub_submodule_id p) (Some data) len d).2)); [|done].
    intros d Hd. by apply (led_ok_step (OpOutput (sub_submodule_id p) (Some data) len)). }
  intros p' a1 [Ha1 Ecfg].
  assert (Hp' : sub_ok p') by (intros _; rewrite Ecfg; lia).
  destruct (_ && _); [|by apply wp_ret].
  apply wp_bind, wp_gets.
  pose proof (led_ok_step (OpInput (sub_submodule_id p') (a_button1 a1)) (a_io a1) I (inv_led _ Ha1)) as Hd.
  apply wp_bind, wp_gets. simpl in Hd.
  destruct (app_data_get_input_data _ _ _) as [r d]. simpl in Hd. apply wp_bind, wp_modify.
  assert (Ha2 : inv (App (a_calls a1) (a_ar a1) (a_slots a1) d (a_events a1) (a_alarm_allowed a1)
    (a_alarm_arg a1) (a_demo a1) (a_payload a1) (a_button1 a1) (a_button2 a1) (a_button2_prev a1)
    (a_buttons_tick a1) (a_data_tick a1))) by (destruct Ha1; by split).
  destruct (match r with Some _ => _ | None => _ end) as [data iops].
  apply wp_bind. eapply wp_mono; [by apply pres_call|]. intros ? a3 Ha3.
  apply wp_bind, wp_gets. apply wp_bind. eapply wp_mono; [by apply pres_call|]. intros ? a4 Ha4.
  apply wp_ret. done.
Qed.

Lemma wp_poll_subslots l a :
  Forall sub_ok l → inv a →
  wp (poll_subslots l) (λ l' a', inv a' ∧ Forall sub_ok l' ∧ length l' = length l) a.
Proof.
  intros Hl. revert a. induction Hl as [|p l Hp _ IH]; intros a Ha; cbn [poll_subslots].
  { apply wp_ret. by repeat constructor; apply Ha. }
  apply wp_bind. eapply (wp_mono _ (λ p' a', inv a' ∧ sub_ok p')).
  { destruct (sub_plugged p); [|by apply wp_ret]. destruct (sub_callback p) eqn:Ec; [|by apply wp_ret].
    by apply wp_cyclic. }
  intros p' a1 [Ha1 Hp']. apply wp_bind. eapply wp_mono; [by apply IH|].
  intros l' a2 (Ha2 & Hl' & El). apply wp_ret. split; [done|]. split; [by constructor|]. simpl. congruence.
Qed.

Lemma wp_poll_slots l a :
  Forall slot_ok l → inv a →
  wp (poll_slots l) (λ l' a', inv a' ∧ Forall slot_ok l' ∧ length l' = length l) a.
Proof.
  intros Hl. revert a. induction Hl as [|s l [Hlen Hs] _ IH]; intros a Ha; cbn [poll_slots].
  { apply wp_ret. by repeat constructor; apply Ha. }
  apply wp_bind. eapply wp_mono; [by apply wp_poll_subslots|].
  intros subs a1 (Ha1 & Hsub & El). apply wp_bind. eapply wp_mono; [by apply IH|].
  intros l' a2 (Ha2 & Hl' & El'). apply wp_ret. split; [done|]. split; [|simpl; congruence].
  constructor; [|done]. split; [simpl; congruence|done].
Qed.

Lemma pres_poll : pres app_utils_cyclic_data_poll.
Proof.
  intros a Ha. unfold app_utils_cyclic_data_poll. apply wp_bind, wp_gets. apply wp_bind.
  destruct (inv_slots _ Ha) as [Hlen Hs]. eapply wp_mono; [by apply wp_poll_slots|].
  intros l' a' (Ha' & Hl' & El). apply wp_modify. destruct Ha'. split; simpl; try done.
  split; [congruence|done].
Qed.

Lemma pres_demo : pres app_handle_demo_pnet_api.
Proof.
  unfold app_handle_demo_pnet_api, demo_action, demo_logbook, demo_abort. apply pres_bind; [apply pres_gets|]. intro. pres.
Qed.

(** The stack never indicates an event for arep UINT32_MAX. *)
Definition cb_ok (c : pnet_callback) : Prop :=
  match c with
  | CbState arep _ | CbSmReleased arep | CbAlarm arep _ => arep ≠ UINT32_MAX
  | _ => True
  end.

Definition in_ok (i : input) : Prop :=
  match i with InCall c => cb_ok c | InTimer => True | InLoop _ _ cbs => Forall cb_ok cbs end.

Lemma pres_callback c : cb_ok c → pres (run_callback c).
Proof.
  intros Hc. destruct c; simpl in *;
    unfold app_release_ind, app_sm_released_ind, app_new_data_status_ind, app_alarm_ind, app_alarm_cnf,
      app_connect_ind, app_dcontrol_ind, app_ccontrol_cnf, app_reset_ind, app_signal_led_ind, app_alarm_ack_cnf;
    pres; first [by apply pres_state|apply pres_write|apply pres_read|apply pres_module|apply pres_submodule].
Qed.

Lemma pres_callbacks cbs : Forall cb_ok cbs → pres (foreach cbs run_callback).
Proof.
  induction 1 as [|c l Hc _ IH]; [apply pres_ret|]. apply pres_bind; [by apply pres_callback|]. by intros _.
Qed.

Lemma pres_timer hw1 hw2 cbs : Forall cb_ok cbs → pres (app_handle_event_timer hw1 hw2 cbs).
Proof.
  intros Hc. pose proof (pres_callbacks cbs Hc) as Hcbs.
  unfold app_handle_event_timer, update_button_states, app_handle_cyclic_data.
  pres; [apply pres_poll|apply pres_demo].
Qed.

Lemma pres_loop hw1 hw2 cbs : Forall cb_ok cbs → pres (app_loop_once hw1 hw2 cbs).
Proof.
  intros Hc. unfold app_loop_once, app_loop_body. pres;
    try (apply pres_handle_event; intros arep); try (by apply pres_timer);
    unfold app_ar_ready_for_data_handler, app_ar_alarm_handler, app_ar_sm_released_handler, app_ar_abort_handler;
    pres. apply pres_initial.
Qed.

Lemma pres_step_in i : in_ok i → pres (step i).
Proof. intros Hi. destruct i; simpl in *; pres; first [by apply pres_callback|by apply pres_loop]. Qed.

Lemma inv_init : inv app_init.
Proof.
  split; simpl.
  - exists (replicate PNET_MAX_AR (AppAr UINT32_MAX 0)).
    assert (Hf : Forall ar_free (replicate PNET_MAX_AR (AppAr UINT32_MAX 0))) by (by apply Forall_replicate).
    rewrite (active_free _ Hf). split; [done|]. split; [done|]. apply NoDup_nil_2.
  - apply length_replicate.
  - done.
  - split; [apply length_replicate|]. apply Forall_replicate. split; [apply length_replicate|].
    by apply Forall_replicate.
Qed.

Lemma inv_start : wp (app_set_led false) (λ _, inv) app_init.
Proof. pose proof inv_init as [Ha Hl _ Hs]. by split. Qed.

Lemma pres_plug_dap ports : pres (app_plug_dap ports).
Proof. unfold app_plug_dap. pres; try apply pres_module; apply pres_submodule. Qed.

Lemma pres_inputs l : Forall in_ok l → pres (foreach l step).
Proof.
  induction 1 as [|i l Hi _ IH]; [apply pres_ret|]. apply pres_bind; [by apply pres_step_in|]. by intros _.
Qed.

(** (C4) The application runs safely: from its initial state, whatever the
    stack indicates and however callbacks and iterations of the main loop are
    interleaved, every step returns (no assertion fails, in particular the
    output data fits its buffer), the AR array stays well formed, the tables
    keep their sizes, and the LED shows the output. *)
Theorem app_runs_safely ports l :
  Forall in_ok l → ∃ a, app_run ports l app_init = (Ret tt, a) ∧ inv a.
Proof.
  intros Hl. destruct (wp_run (app_run ports l) (λ _, inv) app_init) as ([] & a & E & Ha); [|eauto].
  unfold app_run. apply wp_bind. eapply wp_mono; [apply inv_start|]. intros x0 a0 Ha0.
  apply wp_bind. eapply wp_mono; [by apply pres_plug_dap|].
  intros x1 a1 Ha1. by apply pres_inputs.
Qed.
End Steps.
