(* ===== verification/ProfAlarm.v ===== *)
(** * profeth: process alarms are acknowledged, connections get ready *)
From S2P Require Import Prelude ProfAr ProfSlots ProfData ProfApp ProfProps.

Open Scope Z_scope.

(** ** Relations every step respects *)

Section Rel.
Context (R : app → app → Prop) `{!PreOrder R}.

Lemma handle_loop_rel fuel it l (a : app) event handler :
  (∀ a arep, R a (handler a arep).2) → R a (handle_event_loop fuel it l a event handler).2.
Proof.
  intros Hh. revert it l a. induction fuel as [|fuel IH]; intros it l a; [reflexivity|].
  cbn [handle_event_loop]. destruct (app_ar_iterator_next it l) as [[more it'] l'].
  destruct more; [|reflexivity]. destruct (used_at l' _) as [ar|]; [|reflexivity].
  destruct (app_ar_event_clr ar event) as [pending ar']. destruct pending; [|apply IH].
  specialize (Hh a (app_ar_arep ar')). destruct (handler a (app_ar_arep ar')) as [remove a1].
  destruct (if remove then _ else _). etrans; [exact Hh|apply IH].
Qed.
End Rel.

(** ** Process alarms *)

Definition is_alarm (c : pcall) : bool := match c with ProcessAlarm _ _ _ _ => true | _ => false end.

Definition alarms (a : app) : nat := length (List.filter is_alarm (a_calls a)).

Definition abort_pending (a : app) : bool := Z.testbit (a_events a) 15.

(** Alarms sent, one more if another one may be sent, one more if an abort
    waits to be handled. *)
Definition credit (a : app) : nat :=
  (alarms a + (if a_alarm_allowed a then 1 else 0) + (if abort_pending a then 1 else 0))%nat.

(** The credit does not grow and no abort gets lost or appears. *)
Definition steady (a a' : app) : Prop :=
  (credit a' ≤ credit a)%nat ∧ abort_pending a' = abort_pending a.

#[export] Instance steady_preorder : PreOrder steady.
Proof. split; [by intros a|]. intros a b c [H1 H2] [H3 H4]. split; [lia|congruence]. Qed.

Section Alarm.
Context `{PnetOpts} `{PnetIds} `{DataHost} `{Pnet}.

(** Steps that leave the calls' alarms, the permission and the events alone. *)
Lemma steady_same a a' :
  alarms a' = alarms a → a_alarm_allowed a' = a_alarm_allowed a → abort_pending a' = abort_pending a → steady a a'.
Proof. unfold steady, credit. intros -> -> ->. done. Qed.

Lemma steady_call c : is_alarm c = false → stable steady (call c).
Proof.
  intros Hc a. apply steady_same; try done. unfold alarms. simpl.
  by rewrite List.filter_app, length_app, <- (Nat.add_0_r (length _)); simpl; rewrite Hc.
Qed.

Lemma steady_ar l : stable steady (set_ar l).
Proof. intros a. by apply steady_same. Qed.

Lemma steady_slots l : stable steady (set_slots l).
Proof. intros a. by apply steady_same. Qed.

Lemma steady_io d : stable steady (set_io d).
Proof. intros a. by apply steady_same. Qed.

Lemma steady_buttons x y z w : stable steady (set_buttons x y z w).
Proof. intros a. by apply steady_same. Qed.

Lemma steady_data_tick t : stable steady (set_data_tick t).
Proof. intros a. by apply steady_same. Qed.

Lemma steady_event_set e : Z.testbit e 15 = false → stable steady (os_event_set e).
Proof.
  intros He a. apply steady_same; try done. change (Z.testbit (Z.lor (a_events a) e) 15 = Z.testbit (a_events a) 15).
  by rewrite Z.lor_spec, He, orb_false_r.
Qed.

Lemma steady_event_clr e : Z.testbit e 15 = false → stable steady (os_event_clr e).
Proof.
  intros He a. apply steady_same; try done. change (Z.testbit (Z.ldiff (a_events a) e) 15 = Z.testbit (a_events a) 15).
  by rewrite Z.ldiff_spec, He, andb_true_r.
Qed.

Lemma steady_keep_alarm (arg : app → Z) (demo : app → app_demo_state) (payload : app → Z) :
  stable steady (let* a := get in set_alarm (a_alarm_allowed a) (arg a) (demo a) (payload a)).
Proof. intros a. by apply steady_same. Qed.
End Alarm.

Create HintDb steady discriminated.
#[export] Hint Resolve stable_ret stable_crash stable_gets stable_get steady_ar steady_slots steady_io steady_buttons
  steady_data_tick : steady.
#[export] Hint Extern 1 (stable steady (call _)) => apply steady_call; reflexivity : steady.
#[export] Hint Extern 1 (stable steady (os_event_set _)) => apply steady_event_set; reflexivity : steady.
#[export] Hint Extern 1 (stable steady (os_event_clr _)) => apply steady_event_clr; reflexivity : steady.

Ltac steady_step :=
  match goal with
  | |- stable _ (bind get (λ a, set_alarm (a_alarm_allowed a) _ _ _)) => apply steady_keep_alarm
  | |- stable _ _ => stable_step
  | |- stable _ _ => solve [auto with steady typeclass_instances]
  end.
Ltac steady := cbv beta zeta; repeat steady_step.

Section AlarmSteps.
Context `{PnetOpts} `{PnetIds} `{DataHost} `{Pnet}.

Lemma steady_default : stable steady app_set_outputs_default_value.
Proof. unfold app_set_outputs_default_value. steady. Qed.

Lemma steady_initial : stable steady app_set_initial_data_and_ioxs.
Proof. unfold app_set_initial_data_and_ioxs, set_initial_one. steady. Qed.

Lemma steady_cyclic p : stable steady (app_cyclic_data_callback p).
Proof. unfold app_cyclic_data_callback. steady; apply steady_default. Qed.

Lemma steady_poll : stable steady app_utils_cyclic_data_poll.
Proof.
  unfold app_utils_cyclic_data_poll. steady.
  match goal with |- stable _ (poll_slots ?l) => induction l as [|s l IH]; cbn [poll_slots]; [steady|] end.
  apply (stable_bind _); [|intros subs; steady].
  generalize (slot_subslots s). intros l'. induction l' as [|p l' IH']; cbn [poll_subslots]; steady.
  apply steady_cyclic.
Qed.

(** Sending an alarm spends the permission. *)
Lemma steady_demo : stable steady app_handle_demo_pnet_api.
Proof.
  unfold app_handle_demo_pnet_api. apply (stable_bind _); [apply (stable_gets _)|]. intros slots.
  destruct (find_input 0 slots) as [[slot p]|]; [|apply (stable_ret _)].
  apply (stable_bind _); [|intros _; apply steady_keep_alarm].
  intros a. unfold demo_action, demo_logbook, demo_abort. unfold bind at 1. unfold get.
  destruct (a_demo a);
    try (match goal with |- steady a (?m a).2 => assert (Hm : stable steady m) by steady; exact (Hm a) end).
  destruct (a_alarm_allowed a) eqn:Eal; simpl; [|reflexivity].
  destruct (app_is_connected_to_controller a); simpl; [|reflexivity].
  split; [|done]. unfold credit, alarms, abort_pending. simpl.
  rewrite List.filter_app, length_app, Eal. simpl. lia.
Qed.

(** app_handle_event_ar() after the event was cleared. *)
Definition handle_rest (event : Z) (h : Z → M app Z) : M app unit :=
  let* a := get in
  let '(l, a') := handle_event_ar (a_ar a) a event (run_handler h) in
  put a' ;;; set_ar l.

Lemma rel_handle_rest R `{!PreOrder R} event h :
  (∀ arep, stable R (h arep)) → (∀ l, stable R (set_ar l)) → stable R (handle_rest event h).
Proof.
  intros Hh Hl a. unfold handle_rest. unfold bind at 1. simpl. unfold handle_event_ar.
  pose proof (handle_loop_rel R (S (length (a_ar a))) app_ar_iterator_init (a_ar a) a event (run_handler h)) as Hr.
  destruct (handle_event_loop _ _ _ _ _ _) as [l a']. simpl in Hr. etrans; [|apply (Hl l a')]. apply Hr.
  intros s arep. unfold run_handler. specialize (Hh arep s). by destruct (h arep s) as [[]].
Qed.

Lemma rel_handle_event R `{!PreOrder R} event h :
  (∀ arep, stable R (h arep)) → (∀ l, stable R (set_ar l)) → stable R (os_event_clr event) →
  stable R (app_handle_event_ar event h).
Proof.
  intros Hh Hl He. apply (stable_bind _); [done|]. intros _. by apply (rel_handle_rest _).
Qed.

End AlarmSteps.

(** ** Every alarm but the first is paid for *)

Definition is_reply (c : pnet_callback) : bool :=
  match c with CbAlarmCnf => true | CbState _ PNET_EVENT_ABORT => true | _ => false end.

Definition count_replies (l : list pnet_callback) : nat := length (List.filter is_reply l).

(** The callbacks of a run, in order. *)
Definition callbacks_of (i : input) : list pnet_callback :=
  match i with InCall c => [c] | InTimer => [] | InLoop _ _ cbs => cbs end.

Definition replies (l : list input) : nat := count_replies (concat (callbacks_of <$> l)).

Lemma count_replies_app l1 l2 : count_replies (l1 ++ l2) = (count_replies l1 + count_replies l2)%nat.
Proof. unfold count_replies. by rewrite List.filter_app, length_app. Qed.

(** The credit grows by at most [n], and no pending abort gets lost. *)
Definition earn (n : nat) (a a' : app) : Prop :=
  (credit a' ≤ credit a + n)%nat ∧ (abort_pending a = true → abort_pending a' = true).

Lemma steady_earn a a' : steady a a' → earn 0 a a'.
Proof. intros [? E]. split; [lia|]. by rewrite E. Qed.

Section Count.
Context `{PnetOpts} `{PnetIds} `{DataHost} `{Pnet}.

Lemma earn_bind {A B} n k (m : M app A) (f : A → M app B) :
  stable (earn n) m → (∀ x, stable (earn k) (f x)) → stable (earn (n + k)) (bind m f).
Proof.
  intros Hm Hf a. unfold bind. destruct (Hm a) as [Hc Hp]. destruct (m a) as [[x|c|] a1]; simpl in *.
  - destruct (Hf x a1) as [Hc' Hp']. split; [lia|auto].
  - split; [lia|auto].
  - split; [lia|auto].
Qed.

Lemma earn_steady_bind {A B} n (m : M app A) (f : A → M app B) :
  stable steady m → (∀ x, stable (earn n) (f x)) → stable (earn n) (bind m f).
Proof. intros Hm. apply (earn_bind 0 n). intros a. apply steady_earn, Hm. Qed.

Lemma steady_alarm_ind arep arg : stable steady (app_alarm_ind arep arg).
Proof.
  intros a. unfold app_alarm_ind. unfold bind at 1. unfold get. unfold bind at 1.
  set (a1 := (set_alarm (a_alarm_allowed a) arg (a_demo a) (a_payload a) a).2). transitivity a1; [by apply steady_same|].
  change (steady a1 ((app_event_set arep APP_EVENT_ALARM false ;;; ret 0) a1).2).
  assert (Hr : stable steady (app_event_set arep APP_EVENT_ALARM false ;;; ret 0)) by (unfold app_event_set; steady).
  apply Hr.
Qed.

(** The end of an iteration: with an abort pending, handling it turns the
    pending abort into a permission. *)
Lemma credit_abort_part flags a :
  (flag flags APP_EVENT_ABORT = true → abort_pending a = true) →
  (credit ((if flag flags APP_EVENT_ABORT then
    app_handle_event_ar APP_EVENT_ABORT app_ar_abort_handler ;;;
    let* a := get in set_alarm true (a_alarm_arg a) (a_demo a) (a_payload a)
  else ret tt) a).2 ≤ credit a)%nat.
Proof.
  intros Hp. destruct (flag flags APP_EVENT_ABORT); [|done]. specialize (Hp eq_refl).
  set (R := λ b b' : app, alarms b' = alarms b ∧ abort_pending b' = abort_pending b).
  assert (HR : PreOrder R) by (split; [done|]; intros x y z [? ?] [? ?]; split; congruence).
  assert (Hrest : stable R (handle_rest APP_EVENT_ABORT app_ar_abort_handler)) by (by apply (rel_handle_rest R)).
  set (b := (os_event_clr APP_EVENT_ABORT a).2). specialize (Hrest b).
  assert (Hb : abort_pending b = false).
  { change (Z.testbit (Z.ldiff (a_events a) APP_EVENT_ABORT) 15 = false).
    rewrite Z.ldiff_spec. by rewrite andb_false_r. }
  change (credit (bind (λ _, handle_rest APP_EVENT_ABORT app_ar_abort_handler b) (λ _ : unit,
    let* a := get in set_alarm true (a_alarm_arg a) (a_demo a) (a_payload a)) a).2 ≤ credit a)%nat.
  unfold bind at 1. unfold handle_rest in *. unfold bind at 1. unfold bind in Hrest at 1. unfold get in *.
  destruct (handle_event_ar _ _ _ _) as [l b']. destruct Hrest as [Hal Hab].
  unfold credit. rewrite Hp.
  change ((alarms b' + 1 + (if abort_pending b' then 1 else 0) ≤ alarms a + (if a_alarm_allowed a then 1 else 0) + 1)%nat).
  change (abort_pending b' = abort_pending b) in Hab. change (alarms b' = alarms a) in Hal.
  rewrite Hal, Hab, Hb. lia.
Qed.

Lemma flag_abort ev : flag (Z.land ev (1 + 2 + 4 + 8 + 32768)) APP_EVENT_ABORT = Z.testbit ev 15.
Proof.
  unfold flag. assert (E : Z.land (Z.land ev (1 + 2 + 4 + 8 + 32768)) APP_EVENT_ABORT =
    if Z.testbit ev 15 then 2 ^ 15 else 0).
  { rewrite <- Z.land_assoc. change (Z.land (1 + 2 + 4 + 8 + 32768) APP_EVENT_ABORT) with (2 ^ 15).
    apply Z.bits_inj'. intros i Hi. rewrite Z.land_spec.
    destruct (decide (i = 15)) as [->|Hne].
    - rewrite Z.pow2_bits_true by lia. rewrite andb_true_r. by destruct (Z.testbit ev 15).
    - rewrite Z.pow2_bits_false by lia. rewrite andb_false_r.
      destruct (Z.testbit ev 15); [by rewrite Z.pow2_bits_false by lia|by rewrite Z.bits_0]. }
  rewrite E. by destruct (Z.testbit ev 15).
Qed.

Lemma credit_abort a a' :
  alarms a' = alarms a → a_alarm_allowed a' = a_alarm_allowed a → (credit a' ≤ credit a + 1)%nat.
Proof. unfold credit. intros -> ->. destruct (abort_pending a), (abort_pending a'); lia. Qed.

Lemma credit_confirm a a' :
  alarms a' = alarms a → abort_pending a' = abort_pending a → (credit a' ≤ credit a + 1)%nat.
Proof. unfold credit. intros -> ->. destruct (a_alarm_allowed a), (a_alarm_allowed a'); lia. Qed.

Lemma abort_sets a arep : abort_pending (run_callback (CbState arep PNET_EVENT_ABORT) a).2 = true.
Proof.
  change (Z.testbit (Z.lor (a_events a) APP_EVENT_ABORT) 15 = true).
  rewrite Z.lor_spec. apply orb_true_r.
Qed.

(** A callback earns at most what it gives. *)
Lemma earn_callback c : stable (earn (count_replies [c])) (run_callback c).
Proof.
  destruct c as [arep e| | | | | | | | | | | | | | |]; try destruct e; unfold count_replies; cbn [List.filter is_reply length];
    try (intros a; apply steady_earn; revert a;
         match goal with |- ∀ a, steady a (?m a).2 => change (stable steady m) end;
         cbn [run_callback];
         unfold app_state_ind, app_release_ind, app_sm_released_ind, app_write_ind, app_read_ind,
           app_exp_module_ind, app_exp_submodule_ind, app_new_data_status_ind, app_event_set, app_connect_ind,
           app_dcontrol_ind, app_ccontrol_cnf, app_reset_ind, app_signal_led_ind, app_alarm_ack_cnf;
         steady; first [apply steady_default|apply steady_initial|apply steady_alarm_ind]).
  - (* abort *) intros a. split; [by apply credit_abort|]. intros _. apply abort_sets.
  - (* confirmation *) intros a. split; [by apply credit_confirm|done].
Qed.

Lemma earn_callbacks cbs : stable (earn (count_replies cbs)) (foreach cbs run_callback).
Proof.
  induction cbs as [|c cbs IH]; [intros a; by apply steady_earn|].
  change (c :: cbs) with ([c] ++ cbs) at 1. rewrite count_replies_app. apply earn_bind; [apply earn_callback|]. by intros _.
Qed.

Lemma earn_timer hw1 hw2 cbs : stable (earn (count_replies cbs)) (app_handle_event_timer hw1 hw2 cbs).
Proof.
  unfold app_handle_event_timer, update_button_states, app_handle_cyclic_data.
  repeat (apply earn_steady_bind; [steady; try apply steady_poll; apply steady_demo|intro]).
  apply earn_callbacks.
Qed.

Lemma steady_handle event h :
  (∀ arep, stable steady (h arep)) → Z.testbit event 15 = false → stable steady (app_handle_event_ar event h).
Proof. intros Hh He. apply (rel_handle_event _); [done|intros; steady|by apply steady_event_clr]. Qed.

(** The iteration up to the handling of aborts. *)
Lemma earn_loop_front flags hw1 hw2 cbs :
  stable (earn (count_replies cbs)) (
  (if flag flags APP_EVENT_READY_FOR_DATA
   then app_handle_event_ar APP_EVENT_READY_FOR_DATA app_ar_ready_for_data_handler else ret tt) ;;;
  (if flag flags APP_EVENT_ALARM
   then app_handle_event_ar APP_EVENT_ALARM app_ar_alarm_handler else ret tt) ;;;
  (if flag flags APP_EVENT_TIMER then app_handle_event_timer hw1 hw2 cbs else ret tt) ;;;
  (if flag flags APP_EVENT_SM_RELEASED
   then app_handle_event_ar APP_EVENT_SM_RELEASED app_ar_sm_released_handler else ret tt)).
Proof.
  do 2 (apply earn_steady_bind;
    [steady; apply steady_handle; [intros; unfold app_ar_ready_for_data_handler, app_ar_alarm_handler; steady|done]|
     intro]).
  rewrite <- (Nat.add_0_r (count_replies cbs)). apply earn_bind.
  - destruct (flag flags APP_EVENT_TIMER); [apply earn_timer|]. intros a. split; [simpl; lia|done].
  - intros _ a. apply steady_earn. revert a. destruct (flag _ _); [|by intros a].
    apply steady_handle; [|done]. intros arep. unfold app_ar_sm_released_handler. steady. apply steady_initial.
Qed.

Lemma credit_loop hw1 hw2 cbs a :
  (credit (app_loop_once hw1 hw2 cbs a).2 ≤ credit a + count_replies cbs)%nat.
Proof.
  unfold app_loop_once. unfold bind at 1. unfold gets.
  set (flags := Z.land (a_events a) _).
  assert (Hf : flag flags APP_EVENT_ABORT = abort_pending a) by apply flag_abort.
  unfold app_loop_body.
  pose proof (earn_loop_front flags hw1 hw2 cbs a) as Hfront. unfold bind in Hfront |- *.
  repeat match goal with
  | |- context [match ?m ?s with _ => _ end] =>
      match type of (m s) with
      | (outcome unit * app)%type => destruct (m s) as [[[]|?|] ?] eqn:?; simpl in Hfront; [|by apply Hfront..]
      end
  end.
  all: simpl in Hfront.
  match goal with |- (credit (?k ?s).2 ≤ _)%nat => etrans; [apply (credit_abort_part flags s)|apply Hfront] end.
  rewrite Hf. apply Hfront.
Qed.

(** One step earns at most what its callbacks give. *)
Lemma credit_step i a : (credit (step i a).2 ≤ credit a + count_replies (callbacks_of i))%nat.
Proof.
  destruct i as [c| |hw1 hw2 cbs]; cbn [step callbacks_of]; [apply earn_callback| |apply credit_loop].
  assert (Hs : stable steady (os_event_set APP_EVENT_TIMER)) by steady. destruct (Hs a). simpl in *. lia.
Qed.

Lemma credit_inputs l a : (credit (foreach l step a).2 ≤ credit a + replies l)%nat.
Proof.
  revert a. induction l as [|i l IH]; intros a; [cbn; lia|]. cbn [foreach]. unfold bind.
  assert (Er : replies (i :: l) = (count_replies (callbacks_of i) + replies l)%nat) by apply count_replies_app.
  pose proof (credit_step i a) as Hs. destruct (step i a) as [[[]|?|] a1]; simpl in Hs |- *; [|lia..].
  specialize (IH a1). lia.
Qed.

Lemma steady_dap ports : stable steady (app_set_led false ;;; app_plug_dap ports).
Proof. unfold app_set_led, app_plug_dap, app_exp_module_ind, app_exp_submodule_ind. steady. Qed.

(** (C21) At most one process alarm is outstanding: in any run, the number of
    process alarms sent exceeds by at most one the number of alarm
    confirmations and aborts the application was told of. *)
Theorem alarms_are_acknowledged ports l :
  (alarms (app_run ports l app_init).2 ≤ 1 + replies l)%nat.
Proof.
  assert (Hc : (credit (app_run ports l app_init).2 ≤ 1 + replies l)%nat).
  { unfold app_run. pose proof (steady_dap ports app_init) as [Hd _]. change (credit app_init) with 1%nat in Hd.
    unfold bind in Hd |- *. destruct (app_set_led false app_init) as [[[]|?|] a0]; simpl in Hd |- *; [|lia..].
    destruct (app_plug_dap ports a0) as [[[]|?|] a]; simpl in Hd |- *; [|lia..].
    pose proof (credit_inputs l a). lia. }
  unfold credit in Hc. lia.
Qed.

End Count.

(** ** From PrmEnd to application ready *)

(** Calls of the stack only get more, and nothing else touches the AR array. *)
Definition more_calls (a a' : app) : Prop := a_calls a `prefix_of` a_calls a'.

#[export] Instance more_calls_preorder : PreOrder more_calls.
Proof.
  split; [intros a; exists []; by rewrite app_nil_r|].
  intros a b c E1 E2. unfold more_calls in *. by etrans.
Qed.

Definition same_ar (a a' : app) : Prop := a_ar a' = a_ar a.

#[export] Instance same_ar_preorder : PreOrder same_ar.
Proof. split; [by intros a|]. intros a b c E1 E2. unfold same_ar in *. congruence. Qed.

Lemma more_calls_prim {A} (m : M app A) : (∀ a, a_calls (m a).2 = a_calls a) → stable more_calls m.
Proof. intros E a. unfold more_calls. by rewrite E. Qed.

Lemma more_calls_call `{Pnet} c : stable more_calls (call c).
Proof. intros a. by exists [c]. Qed.

Ltac rels :=
  cbv beta zeta; repeat
  match goal with
  | |- stable _ _ => stable_step
  | |- stable _ (ret _) => apply (stable_ret _)
  | |- stable _ crash => apply (stable_crash _)
  | |- stable _ (gets _) => apply (stable_gets _)
  | |- stable _ get => apply (stable_get _)
  | |- stable more_calls (call _) => apply more_calls_call
  | |- stable more_calls (set_ar _) => by apply more_calls_prim
  | |- stable more_calls (set_slots _) => by apply more_calls_prim
  | |- stable more_calls (set_io _) => by apply more_calls_prim
  | |- stable more_calls (set_alarm _ _ _ _) => by apply more_calls_prim
  | |- stable more_calls (set_buttons _ _ _ _) => by apply more_calls_prim
  | |- stable more_calls (set_data_tick _) => by apply more_calls_prim
  | |- stable more_calls (os_event_set _) => by apply more_calls_prim
  | |- stable more_calls (os_event_clr _) => by apply more_calls_prim
  | |- stable same_ar (call _) => by intros ?
  | |- stable same_ar (set_io _) => by intros ?
  end.

Section Ready.
Context `{PnetOpts} `{PnetIds} `{DataHost} `{Pnet}.

Lemma same_ar_initial : stable same_ar app_set_initial_data_and_ioxs.
Proof. unfold app_set_initial_data_and_ioxs, set_initial_one. rels. Qed.

Lemma more_calls_initial : stable more_calls app_set_initial_data_and_ioxs.
Proof. unfold app_set_initial_data_and_ioxs, set_initial_one. rels. Qed.

Lemma more_calls_poll : stable more_calls app_utils_cyclic_data_poll.
Proof.
  unfold app_utils_cyclic_data_poll. rels.
  match goal with |- stable _ (poll_slots ?l) => induction l as [|s l IH]; cbn [poll_slots]; [rels|] end.
  apply (stable_bind _); [|intros subs; rels; done].
  generalize (slot_subslots s). intros l'. induction l' as [|p l' IH']; cbn [poll_subslots]; rels; try done.
  unfold app_cyclic_data_callback, app_set_outputs_default_value. rels.
Qed.

Lemma more_calls_callback c : stable more_calls (run_callback c).
Proof.
  destruct c; cbn [run_callback];
    unfold app_state_ind, app_release_ind, app_sm_released_ind, app_write_ind, app_read_ind, app_alarm_cnf,
      app_exp_module_ind, app_exp_submodule_ind, app_new_data_status_ind, app_alarm_ind, app_event_set,
      app_set_outputs_default_value, app_connect_ind, app_dcontrol_ind, app_ccontrol_cnf, app_reset_ind,
      app_signal_led_ind, app_alarm_ack_cnf; rels; apply more_calls_initial.
Qed.

Lemma more_calls_timer hw1 hw2 cbs : stable more_calls (app_handle_event_timer hw1 hw2 cbs).
Proof.
  unfold app_handle_event_timer, update_button_states, app_handle_cyclic_data, app_handle_demo_pnet_api, demo_action, demo_logbook, demo_abort.
  rels; first [apply more_calls_poll|apply more_calls_callback].
Qed.

Lemma more_calls_handle event h : (∀ arep, stable more_calls (h arep)) → stable more_calls (app_handle_event_ar event h).
Proof. intros Hh. apply (rel_handle_event _); [done|intros l; rels|rels]. Qed.

(** The iteration after the ready-for-data events. *)
Lemma more_calls_tail flags hw1 hw2 cbs : stable more_calls (
  (if flag flags APP_EVENT_ALARM
   then app_handle_event_ar APP_EVENT_ALARM app_ar_alarm_handler else ret tt) ;;;
  (if flag flags APP_EVENT_TIMER then app_handle_event_timer hw1 hw2 cbs else ret tt) ;;;
  (if flag flags APP_EVENT_SM_RELEASED
   then app_handle_event_ar APP_EVENT_SM_RELEASED app_ar_sm_released_handler else ret tt) ;;;
  if flag flags APP_EVENT_ABORT then
    app_handle_event_ar APP_EVENT_ABORT app_ar_abort_handler ;;;
    let* a := get in
    set_alarm true (a_alarm_arg a) (a_demo a) (a_payload a)
  else ret tt).
Proof.
  rels; try apply more_calls_timer; apply more_calls_handle; intros arep;
    unfold app_ar_alarm_handler, app_ar_sm_released_handler, app_ar_abort_handler; rels.
  apply more_calls_initial.
Qed.

(** An AR whose connection was made, or that finds a free entry, has the event. *)
Lemma spec_set_pending max act arep event :
  event ≠ 0 → (arep ∈ ar_arep <$> act) ∨ (length act < max)%nat →
  ∃ x, x ∈ spec_set max act arep event true ∧ ar_arep x = arep ∧ Z.land (ar_events x) event ≠ 0.
Proof.
  intros He Hor. unfold spec_set. case_decide as Hin.
  - apply list_elem_of_fmap in Hin as (x & -> & Hx). exists (app_ar_event_set x event). split; [|split; [done|]].
    + apply list_elem_of_fmap. exists x. by rewrite decide_True.
    + simpl. rewrite Z.land_lor_distr_l, Z.land_diag. intros E.
      apply He. apply Z.bits_inj'. intros i Hi. apply (f_equal (λ z, Z.testbit z i)) in E.
      rewrite Z.lor_spec, Z.bits_0 in E. apply orb_false_iff in E as [_ ->]. by rewrite Z.bits_0.
  - destruct Hor as [|Hlt]; [done|]. rewrite bool_decide_true by done. exists (AppAr arep event).
    split; [apply elem_of_app; right; by apply list_elem_of_singleton|]. simpl. by rewrite Z.land_diag.
Qed.

Lemma ready_handler_call act a event x :
  x ∈ act → Z.land (ar_events x) event ≠ 0 →
  ApplicationReady (ar_arep x) ∈ a_calls (spec_handle act a event (run_handler app_ar_ready_for_data_handler)).2.
Proof.
  intros Hx Hev. revert a. induction act as [|y act IH]; intros a; [by apply elem_of_nil in Hx|].
  cbn [spec_handle]. apply elem_of_cons in Hx as [<-|Hx].
  - rewrite decide_True by done. simpl.
    set (a1 := App (a_calls a ++ _) _ _ _ _ _ _ _ _ _ _ _ _ _).
    pose proof (spec_handle_inv (λ s, ApplicationReady (ar_arep x) ∈ a_calls s) act a1 event
      (run_handler app_ar_ready_for_data_handler)) as Hi.
    destruct (spec_handle act a1 event _) as [r s]. apply Hi.
    + intros s' arep Hs'. simpl. apply elem_of_app. by left.
    + simpl. apply elem_of_app. right. by apply list_elem_of_singleton.
  - case_decide; simpl.
    + match goal with |- context [spec_handle act ?s event ?h] => specialize (IH Hx s); by destruct (spec_handle act s event h) end.
    + specialize (IH Hx a). by destruct (spec_handle act a event _).
Qed.

(** The state after app_state_ind() for PNET_EVENT_PRMEND. *)
Lemma prmend_state a arep :
  inv a → arep ≠ UINT32_MAX →
  ∃ a1, app_state_ind arep PNET_EVENT_PRMEND a = (Ret 0, a1) ∧
    a_ar a1 = event_set_ar (a_ar a) arep APP_EVENT_READY_FOR_DATA true ∧
    flag (Z.land (a_events a1) (1 + 2 + 4 + 8 + 32768)) APP_EVENT_READY_FOR_DATA = true.
Proof.
  intros Ha Harep. destruct (wp_run _ _ _ (pres_initial a Ha)) as (rc & b & E & _).
  pose proof (same_ar_initial a) as Hb. rewrite E in Hb. unfold same_ar in Hb. simpl in Hb.
  unfold app_state_ind. unfold bind at 1. rewrite E. eexists. split; [reflexivity|]. simpl.
  rewrite Hb. split; [done|]. unfold flag.
  rewrite Z.land_lor_distr_l, Z.land_lor_distr_l.
  set (x := Z.land (Z.land (a_events b) _) _). change (Z.land (Z.land APP_EVENT_READY_FOR_DATA 32783) APP_EVENT_READY_FOR_DATA) with APP_EVENT_READY_FOR_DATA.
  apply negb_true_iff, Z.eqb_neq. intros E0. apply (f_equal (λ z, Z.testbit z 0)) in E0.
  rewrite Z.lor_spec in E0. change (Z.testbit APP_EVENT_READY_FOR_DATA 0) with true in E0.
  by rewrite orb_true_r in E0.
Qed.

Lemma handle_ready_call a x :
  ar_wf (a_ar a) → x ∈ active (a_ar a) → Z.land (ar_events x) APP_EVENT_READY_FOR_DATA ≠ 0 →
  wp (app_handle_event_ar APP_EVENT_READY_FOR_DATA app_ar_ready_for_data_handler)
    (λ _ a', ApplicationReady (ar_arep x) ∈ a_calls a') a.
Proof.
  intros Hw Hx Hev. apply wp_bind. unfold wp at 1. simpl. apply wp_bind. unfold wp at 1. simpl.
  match goal with |- context [handle_event_ar _ ?b _ _] => set (a1 := b) end.
  pose proof (handle_event_wf APP_EVENT_READY_FOR_DATA (run_handler app_ar_ready_for_data_handler) (a_ar a) a1 Hw) as Hh.
  pose proof (ready_handler_call (active (a_ar a)) a1 APP_EVENT_READY_FOR_DATA x Hx Hev) as Hc.
  destruct (handle_event_ar _ _ _ _) as [l a2]. destruct Hh as (_ & _ & E).
  rewrite <- E in Hc. exact Hc.
Qed.

(** (C22) A connection gets ready: when the stack reports the end of the
    parameters of an AR that the application knows or for which it has a free
    entry, the next iteration of the main loop tells the controller that the
    application is ready on that AR. *)
Theorem prmend_then_ready a arep hw1 hw2 cbs :
  inv a → arep ≠ UINT32_MAX →
  (arep ∈ ar_arep <$> active (a_ar a)) ∨ (length (active (a_ar a)) < PNET_MAX_AR)%nat →
  ApplicationReady arep ∈
    a_calls ((let* _ := app_state_ind arep PNET_EVENT_PRMEND in app_loop_once hw1 hw2 cbs) a).2.
Proof.
  intros Ha Harep Hroom. destruct (prmend_state a arep Ha Harep) as (a1 & E & Ear & Hflag).
  destruct (event_set_wf (a_ar a) arep APP_EVENT_READY_FOR_DATA true (inv_ar _ Ha) Harep) as (Hwf & _ & Hact).
  rewrite (inv_ar_len _ Ha) in Hact.
  destruct (spec_set_pending PNET_MAX_AR (active (a_ar a)) arep APP_EVENT_READY_FOR_DATA) as (x & Hx & Ex & Hev);
    [done..|].
  rewrite <- Hact, <- Ear in Hx. rewrite <- Ear in Hwf.
  unfold bind at 1. rewrite E. unfold app_loop_once. unfold bind at 1, gets. unfold app_loop_body.
  rewrite Hflag. unfold bind at 1.
  destruct (wp_run _ _ _ (handle_ready_call a1 x Hwf Hx Hev)) as ([] & a2 & -> & Hc). rewrite Ex in Hc.
  pose proof (more_calls_tail (Z.land (a_events a1) (1 + 2 + 4 + 8 + 32768)) hw1 hw2 cbs a2) as [l El].
  rewrite El. apply elem_of_app. by left.
Qed.
End Ready.
