(* ===== verification/ProfDemo.v ===== *)
(** * profeth: the application on concrete runs *)
From S2P Require Import Prelude ProfAr ProfSlots ProfData ProfApp ProfProps ProfAlarm.

Open Scope Z_scope.

Module AppDemo.
#[local] Instance opts : PnetOpts := {|
  PNET_MAX_AR := 2; PNET_MAX_SLOTS := 5; PNET_MAX_SUBSLOTS := 3; PNET_MAX_PHYSICAL_PORTS := 1;
  PNET_IOXS_BAD := 0; PNET_IOXS_GOOD := 128; PNET_SLOT_DAP_IDENT := 0;
|}.
#[local] Instance ids : PnetIds := {|
  PNET_MOD_DAP_IDENT := 1; PNET_SUBMOD_DAP_IDENT := 1; PNET_SUBMOD_DAP_INTERFACE_1_IDENT := 0x8000;
  PNET_SUBMOD_DAP_INTERFACE_1_PORT_1_IDENT := 0x8001; PNET_SUBMOD_DAP_INTERFACE_1_PORT_2_IDENT := 0x8002;
  PNET_SUBMOD_DAP_INTERFACE_1_PORT_3_IDENT := 0x8003; PNET_SUBMOD_DAP_INTERFACE_1_PORT_4_IDENT := 0x8004;
  PNET_SUBSLOT_DAP_IDENT := 1; PNET_SUBSLOT_DAP_INTERFACE_1_IDENT := 0x8000;
|}.
#[local] Instance host : DataHost := {| host_le := true; f32_mul_u32 f g := f |}.

(** A stack that accepts every call and hands out the output byte 0x80. *)
#[local] Instance stack : Pnet := {|
  pn_rc _ _ := 0; pn_output _ _ _ := ([128], 1, 128); pn_iocs _ _ _ := 128;
  PNET_DATA_STATUS_BIT_PROVIDER_STATE := 4; PNET_DATA_STATUS_BIT_DATA_VALID := 2;
  PNET_ERROR_CODE_WRITE := 223; PNET_ERROR_CODE_READ := 222; PNET_ERROR_DECODE_PNIORW := 128;
  PNET_ERROR_CODE_1_APP_WRITE_ERROR := 161; PNET_ERROR_CODE_1_APP_READ_ERROR := 160;
|}.

Definition inout : pnet_data_cfg := DataCfg PNET_DIR_IO 1 1.

(** The module with 8 inputs and outputs is plugged in slot 1, the controller
    connects as AR 7, and button 2 is held while the timer ticks. *)
Definition ticks (n : nat) : list input := concat (replicate n [InTimer; InLoop false true []]).

Definition session : list input :=
  [InCall (CbModule 1 APP_GSDML_MOD_ID_8_8_DIGITAL_IN_OUT);
   InCall (CbSubmodule 1 1 APP_GSDML_MOD_ID_8_8_DIGITAL_IN_OUT APP_GSDML_SUBMOD_ID_DIGITAL_IN_OUT inout);
   InTimer; InLoop false false [CbState 7 PNET_EVENT_PRMEND]; InLoop false false []] ++ ticks 12.

Lemma session_ok : Forall in_ok session.
Proof. vm_compute. repeat constructor; done. Qed.

Lemma stack_bytes : ∀ s n h, bytes_ok (pn_output s n h).1.1.
Proof. intros s n h. unfold bytes_ok. simpl. rewrite Forall_cons. split; [lia|constructor]. Qed.

Lemma app_runs_safely_witness : ∃ a, app_run 1 session app_init = (Ret tt, a) ∧ inv a.
Proof. apply (app_runs_safely stack_bytes 1 session). exact session_ok. Defined.

Lemma prmend_then_ready_witness :
  ApplicationReady 7 ∈
    a_calls ((let* _ := app_state_ind 7 PNET_EVENT_PRMEND in app_loop_once false false []) app_init).2.
Proof.
  apply (prmend_then_ready app_init 7 false false []); [apply inv_init|done|]. right. vm_compute. lia.
Defined.

(** The press of the button sends exactly one process alarm. *)
Example session_alarm : alarms (app_run 1 session app_init).2 = 1%nat.
Proof. vm_compute. reflexivity. Qed.
End AppDemo.
