(* ===== verification/ProfMain.v ===== *)
(** * profeth/src/profeth.c: the command line, the board and the start

    The sizes of the buffers come from the p-net headers: the class
    [PathOpts].  Options arrive as getopt() reports them.  A strcpy() that
    does not fit its buffer is a [Crash]. *)
From S2P Require Import Prelude CString.

Open Scope Z_scope.

Class PathOpts := {
  FULLPATH_SIZE : nat;          (* PNET_MAX_FILE_FULLPATH_SIZE *)
  DIRECTORYPATH_SIZE : nat;     (* PNET_MAX_DIRECTORYPATH_SIZE *)
  STATION_SIZE : nat;           (* PNET_STATION_NAME_MAX_SIZE *)
  INTERFACES_SIZE : nat;        (* sizeof (eth_interfaces) *)
  DRIVER_ENABLE : bool;         (* PNET_OPTION_DRIVER_ENABLE *)
  PORTS : nat;                  (* PNET_MAX_PHYSICAL_PORTS *)
}.

Definition APP_GSDML_DEFAULT_STATION_NAME : string := "infix".

Definition APP_DEFAULT_ETHERNET_INTERFACE `{PathOpts} : string :=
  if decide (PORTS = 1%nat) then "eth0" else "br0,eth0,eth1".

Inductive app_mode := MODE_HW_OFFLOAD_NONE | MODE_HW_OFFLOAD_CPU | MODE_HW_OFFLOAD_FULL.

Record app_args := AppArgs {
  path_button1 : string; path_button2 : string; path_storage_directory : string;
  station_name : string; eth_interfaces : string;
  verbosity : Z; show : Z; factory_reset : bool; remove_files : bool; mode : app_mode;
}.

Definition EXIT_SUCCESS : Z := 0.
Definition EXIT_FAILURE : Z := 1.

Section Args.
Context `{PathOpts}.

Definition strcpy (size : nat) (s : string) : M unit string :=
  if decide (String.length s + 1 ≤ size)%nat then ret s else crash.

(** strlen (optarg) + 1 > limit *)
Definition too_long (limit : nat) (s : string) : bool := bool_decide (limit < String.length s + 1)%nat.

Definition with_paths (a : app_args) (b1 b2 dir st eth : string) : app_args :=
  AppArgs b1 b2 dir st eth (verbosity a) (show a) (factory_reset a) (remove_files a) (mode a).

Definition set_mode (a : app_args) (optarg : string) : M unit app_args :=
  let to m := ret (AppArgs (path_button1 a) (path_button2 a) (path_storage_directory a) (station_name a)
                     (eth_interfaces a) (verbosity a) (show a) (factory_reset a) (remove_files a) m) in
  if streq "none" optarg then to MODE_HW_OFFLOAD_NONE
  else if streq "cpu" optarg then to MODE_HW_OFFLOAD_CPU
  else if streq "full" optarg then to MODE_HW_OFFLOAD_FULL
  else exit EXIT_FAILURE.

(** One option with its argument. *)
Definition parse_option (a : app_args) (o : ascii * string) : M unit app_args :=
  let '(option, optarg) := o in
  let '(AppArgs b1 b2 dir st eth v s f r m) := a in
  if decide (option = "v"%char) then ret (AppArgs b1 b2 dir st eth (v + 1) s f r m)
  else if decide (option = "g"%char) then ret (AppArgs b1 b2 dir st eth v (s + 1) f r m)
  else if decide (option = "f"%char) then ret (AppArgs b1 b2 dir st eth v s true r m)
  else if decide (option = "r"%char) then ret (AppArgs b1 b2 dir st eth v s f true m)
  else if decide (option = "i"%char) then
    if too_long INTERFACES_SIZE optarg then exit EXIT_FAILURE
    else let* eth := strcpy INTERFACES_SIZE optarg in ret (with_paths a b1 b2 dir st eth)
  else if decide (option = "s"%char) then
    let* st := strcpy STATION_SIZE optarg in ret (with_paths a b1 b2 dir st eth)
  else if decide (option = "b"%char) then
    if too_long FULLPATH_SIZE optarg then exit EXIT_FAILURE
    else let* b1 := strcpy FULLPATH_SIZE optarg in ret (with_paths a b1 b2 dir st eth)
  else if decide (option = "d"%char) then
    if too_long FULLPATH_SIZE optarg then exit EXIT_FAILURE
    else let* b2 := strcpy FULLPATH_SIZE optarg in ret (with_paths a b1 b2 dir st eth)
  else if decide (option = "p"%char) then
    if too_long FULLPATH_SIZE optarg then exit EXIT_FAILURE
    else let* dir := strcpy DIRECTORYPATH_SIZE optarg in ret (with_paths a b1 b2 dir st eth)
  else if decide (option = "m"%char ∧ DRIVER_ENABLE = true) then set_mode a optarg
  else exit EXIT_FAILURE.

(** [arg1] is argv[1], [getcwd] the current directory where it fits. *)
Definition parse_commandline_arguments (arg1 : option string) (opts : list (ascii * string)) (getcwd : nat → option string)
    : M unit app_args :=
  if decide (arg1 = Some "--help") then exit EXIT_FAILURE
  else
    let* st := strcpy STATION_SIZE APP_GSDML_DEFAULT_STATION_NAME in
    let* eth := strcpy INTERFACES_SIZE APP_DEFAULT_ETHERNET_INTERFACE in
    let* a := foldM parse_option
                (AppArgs EmptyString EmptyString EmptyString st eth 0 0 false false MODE_HW_OFFLOAD_NONE) opts in
    if decide (path_storage_directory a = EmptyString) then
      match getcwd DIRECTORYPATH_SIZE with
      | None => exit EXIT_FAILURE
      | Some d => ret (with_paths a (path_button1 a) (path_button2 a) d (station_name a) (eth_interfaces a))
      end
    else ret a.

(** ** Buttons and LEDs *)

(** [file] gives the content of a file that can be opened. *)
Definition read_bool_from_file (file : string → option string) (filepath : string) : bool :=
  match file filepath with
  | Some (String ch _) => bool_decide (ch = "1"%char)
  | _ => false
  end.

Definition app_get_button (file : string → option string) (a : app_args) (id : Z) : bool :=
  if decide (id = 0) then
    if decide (path_button1 a = EmptyString) then false else read_bool_from_file file (path_button1 a)
  else if decide (id = 1) then
    if decide (path_button2 a = EmptyString) then false else read_bool_from_file file (path_button2 a)
  else false.

(** The script app_set_led() runs. *)
Definition led_argv (id : Z) (led_state : bool) : list string :=
  ["set_profinet_leds"; fmt_d id; if led_state then "1" else "0"].

(** ** Start *)

Definition app_pnet_cfg_init_storage (exists_ : string → bool) (a : app_args) : Z * string :=
  let dir := path_storage_directory a in
  (if negb (exists_ dir) then -1
   else if bool_decide (path_button1 a ≠ EmptyString) && negb (exists_ (path_button1 a)) then -1
   else if bool_decide (path_button2 a ≠ EmptyString) && negb (exists_ (path_button2 a)) then -1
   else 0, dir).

(** What main() asks of the stack. *)
Inductive stack_call :=
| RemoveFiles (dir : string) | Init | FactoryReset | Show (level : Z) | SetSocket (path : string) | Start.

Record start_env := StartEnv {
  e_netifs : string → Z;      (* app_utils_pnet_cfg_init_netifs() *)
  e_exists : string → bool;   (* pnal_does_file_exist() *)
  e_init : bool;              (* app_init() gives an instance *)
  e_start : Z;                (* app_start() *)
}.

Definition log_level (a : app_args) : Z := if decide (verbosity a ≤ 4) then 4 - verbosity a else 0.

Definition call (c : stack_call) : M (list stack_call) unit := modify (λ l, l ++ [c]).

(** main() after the arguments are parsed; a normal return is the endless
    loop that keeps the process alive. *)
Definition run_main (e : start_env) (a : app_args) : M (list stack_call) unit :=
  if decide (e_netifs e (eth_interfaces a) ≠ 0) then exit EXIT_FAILURE
  else
    let '(rc, dir) := app_pnet_cfg_init_storage (e_exists e) a in
    if decide (rc ≠ 0) then exit EXIT_FAILURE
    else if remove_files a then call (RemoveFiles dir) ;;; exit EXIT_SUCCESS
    else
      call Init ;;;
      if negb (e_init e) then exit EXIT_FAILURE
      else if factory_reset a then call FactoryReset ;;; exit EXIT_SUCCESS
      else if decide (0 < show a) then
        call (Show (if decide (show a = 1) then 0x2010 else 0xFFFF)) ;;; exit EXIT_SUCCESS
      else
        call (SetSocket "/var/run/agentx/master") ;;;
        call Start ;;;
        if decide (e_start e ≠ 0) then exit EXIT_FAILURE else ret tt.

(** ** What holds of the arguments *)

Definition fits (a : app_args) : Prop :=
  (String.length (path_button1 a) < FULLPATH_SIZE)%nat ∧ (String.length (path_button2 a) < FULLPATH_SIZE)%nat ∧
  (String.length (path_storage_directory a) < DIRECTORYPATH_SIZE)%nat ∧
  (String.length (station_name a) < STATION_SIZE)%nat ∧ (String.length (eth_interfaces a) < INTERFACES_SIZE)%nat.

(** The arguments of -s and -p, which are not checked against their buffers. *)
Definition short (o : ascii * string) : Prop :=
  (o.1 = "s"%char → (String.length o.2 < STATION_SIZE)%nat) ∧
  (o.1 = "p"%char → (String.length o.2 < DIRECTORYPATH_SIZE)%nat).

(** [m] returns a value with [P] or exits with status 1. *)
Definition ends {A} (P : A → Prop) (m : M unit A) : Prop :=
  match (m tt).1 with Ret a => P a | Exit c => c = EXIT_FAILURE | Crash => False end.

Lemma ends_bind {A B} (P : A → Prop) (Q : B → Prop) (m : M unit A) (f : A → M unit B) :
  ends P m → (∀ a, P a → ends Q (f a)) → ends Q (bind m f).
Proof. unfold ends, bind. intros Hm Hf. destruct (m tt) as [[a|c|] []]; [by apply Hf|done|done]. Qed.

Lemma ends_strcpy size s : (String.length s < size)%nat → ends (λ t, t = s) (strcpy size s).
Proof. intros Hs. unfold strcpy. by rewrite decide_True by lia. Qed.

Lemma ends_checked {A} limit s (P : A → Prop) (f : string → M unit A) :
  ((String.length s < limit)%nat → ends P (f s)) →
  ends P (if too_long limit s then exit EXIT_FAILURE else let* t := strcpy limit s in f t).
Proof.
  intros Hf. unfold too_long. case_bool_decide as Hl; [done|].
  eapply ends_bind; [apply ends_strcpy; lia|]. intros t ->. apply Hf. lia.
Qed.

Lemma ends_option a o : fits a → short o → ends fits (parse_option a o).
Proof.
  intros Hfit Hs. destruct a as [b1 b2 dir st eth v s f r m], o as [c arg]. unfold parse_option.
  destruct Hfit as (F1 & F2 & F3 & F4 & F5), Hs as [Hss Hsp]. simpl in *.
  destruct (decide (c = "v"%char)); [by split_and!|]. destruct (decide (c = "g"%char)); [by split_and!|].
  destruct (decide (c = "f"%char)); [by split_and!|]. destruct (decide (c = "r"%char)); [by split_and!|].
  destruct (decide (c = "i"%char)); [apply ends_checked; intros; by split_and!|].
  destruct (decide (c = "s"%char)) as [->|].
  { eapply ends_bind; [by apply ends_strcpy, Hss|]. intros t ->. split_and!; try done. by apply Hss. }
  destruct (decide (c = "b"%char)); [apply ends_checked; intros; by split_and!|].
  destruct (decide (c = "d"%char)); [apply ends_checked; intros; by split_and!|].
  destruct (decide (c = "p"%char)) as [->|].
  { case_match; [done|]. eapply ends_bind; [by apply ends_strcpy, Hsp|]. intros t ->. split_and!; try done. by apply Hsp. }
  case_decide; [|done]. unfold set_mode. repeat case_match; by try split_and!.
Qed.

(** (C38) The arguments fit their buffers: whatever the options are, parsing ends
    with arguments that fit or with status 1, provided the station name and
    the storage directory are short, and so are the defaults. *)
Theorem arguments_fit_buffers arg1 opts getcwd :
  (0 < FULLPATH_SIZE)%nat → (0 < DIRECTORYPATH_SIZE)%nat →
  (String.length APP_GSDML_DEFAULT_STATION_NAME < STATION_SIZE)%nat → (String.length APP_DEFAULT_ETHERNET_INTERFACE < INTERFACES_SIZE)%nat →
  (∀ n d, getcwd n = Some d → (String.length d < n)%nat) →
  Forall short opts →
  ends fits (parse_commandline_arguments arg1 opts getcwd).
Proof.
  intros Hf Hd Hs Hi Hcwd Ho. unfold parse_commandline_arguments. case_decide; [done|].
  eapply ends_bind; [by apply ends_strcpy|]. intros st ->. eapply ends_bind; [by apply ends_strcpy|]. intros eth ->.
  apply (ends_bind fits).
  - assert (Hinit : fits (AppArgs EmptyString EmptyString EmptyString APP_GSDML_DEFAULT_STATION_NAME APP_DEFAULT_ETHERNET_INTERFACE 0 0 false false
      MODE_HW_OFFLOAD_NONE)) by by split_and!.
    revert Hinit. generalize (AppArgs EmptyString EmptyString EmptyString APP_GSDML_DEFAULT_STATION_NAME APP_DEFAULT_ETHERNET_INTERFACE 0 0 false
      false MODE_HW_OFFLOAD_NONE). induction Ho as [|o opts Hshort _ IH]; intros a Ha; [done|].
    simpl. eapply ends_bind; [by apply ends_option|]. exact IH.
  - intros a (F1 & F2 & F3 & F4 & F5). case_decide; [|by split_and!].
    destruct (getcwd DIRECTORYPATH_SIZE) as [d|] eqn:Ed; [|done]. split_and!; try done. by apply Hcwd.
Qed.

(** A defect: the argument of -s is copied unchecked, and the one of -p is
    checked against the size of another, larger buffer. *)
Lemma unchecked_arguments a c arg u :
  (c = "s"%char ∧ (STATION_SIZE ≤ String.length arg)%nat) ∨
  (c = "p"%char ∧ (DIRECTORYPATH_SIZE ≤ String.length arg < FULLPATH_SIZE)%nat) →
  (parse_option a (c, arg) u).1 = Crash.
Proof.
  destruct a. intros [[-> Hl]|[-> Hl]]; unfold parse_option; rewrite !decide_False, decide_True by done.
  - unfold bind, strcpy. by rewrite decide_False by lia.
  - unfold too_long. rewrite bool_decide_false by lia. unfold bind, strcpy. by rewrite decide_False by lia.
Qed.

(** The modes exclude each other: with -r the stack is never initialised,
    with -f or -g it is initialised but not started. *)
Lemma modes_exclusive e a l :
  (remove_files a = true → Forall (λ c, ∃ d, c = RemoveFiles d) (drop (length l) (run_main e a l).2)) ∧
  (factory_reset a = true ∨ 0 < show a → (Start ∉ drop (length l) (run_main e a l).2)).
Proof.
  unfold run_main, app_pnet_cfg_init_storage, call, bind, modify, exit, ret.
  repeat case_match; simplify_eq/=; rewrite ?drop_all, <- ?app_assoc, ?drop_app_length; simpl;
    (split; [intros ?; repeat constructor; try done; try by eexists|intros ?; rewrite ?not_elem_of_cons; set_solver by lia]).
Qed.
End Args.

Module MainDemo.
#[local] Instance demo_paths : PathOpts := {|
  FULLPATH_SIZE := 280; DIRECTORYPATH_SIZE := 240; STATION_SIZE := 241; INTERFACES_SIZE := 33;
  DRIVER_ENABLE := false; PORTS := 1;
|}.

Definition demo_opts : list (ascii * string) :=
  [("v"%char, EmptyString); ("i"%char, "eth1"); ("s"%char, "press-4"); ("b"%char, "/sys/class/gpio/gpio1/value")].

Lemma arguments_fit_buffers_witness :
  ∃ a, parse_commandline_arguments None demo_opts (λ _, Some "/var/lib/profinet") tt = (Ret a, tt) ∧ fits a ∧
    station_name a = "press-4".
Proof.
  assert (He : ends fits (parse_commandline_arguments None demo_opts (λ n, if decide (17 < n)%nat then Some "/var/lib/profinet" else None))).
  { apply (arguments_fit_buffers None demo_opts); try (vm_compute; lia).
    - intros n d. case_decide; [|done]. intros [= <-]. simpl. lia.
    - repeat constructor; vm_compute; intros; try discriminate; lia. }
  eexists. split; [vm_compute; reflexivity|]. split; [exact He|reflexivity].
Defined.
End MainDemo.
