(* ===== verification/ProfCfg.v ===== *)
(** * profeth: network configuration, addresses as text, scripts

    app_utils_pnet_cfg_init_netifs() and the texts of app_utils.c, and
    pnal_filetools.c.  The kernel (addresses, readlink, fork) is given by
    functions; the sizes come from the p-net headers. *)
From S2P Require Import Prelude CString Os Systemv Net ProfSlots ProfNetif Tools.

Open Scope Z_scope.

(** ** Texts *)

Definition hex_digit (d : Z) : ascii := chr (if d <? 10 then 48 + d else 55 + d).

(** [%02X] of a byte *)
Definition fmt_02X (b : Z) : string :=
  String (hex_digit (Z.shiftr b 4)) (String (hex_digit (Z.land b 15)) EmptyString).

Fixpoint join (sep : string) (l : list string) : string :=
  match l with
  | [] => EmptyString
  | [s] => s
  | s :: l' => s +:+ sep +:+ join sep l'
  end.

(** [size] is PNAL_ETH_ADDRSTR_SIZE; snprintf() cuts the text to fit. *)
Definition app_utils_mac_to_string (size : nat) (mac : list Z) : string := strlcpy size (join ":" (fmt_02X <$> mac)).

Definition app_utils_submod_dir_to_string (d : pnet_submodule_dir) : string :=
  match d with
  | PNET_DIR_NO_IO => "NO_IO" | PNET_DIR_INPUT => "INPUT" | PNET_DIR_OUTPUT => "OUTPUT" | PNET_DIR_IO => "INPUT_OUTPUT"
  end.

Definition app_utils_ioxs_to_string `{PnetOpts} (ioxs : Z) : string :=
  if decide (ioxs = PNET_IOXS_BAD) then "IOXS_BAD"
  else if decide (ioxs = PNET_IOXS_GOOD) then "IOXS_GOOD" else "<error>".

(** ** Interfaces *)

Record if_cfg := IfCfg {
  main_netif_name : string; physical_ports : list string;
  c_ip : pnet_cfg_ip_addr; c_gateway : pnet_cfg_ip_addr; c_mask : pnet_cfg_ip_addr;
}.

Section Netifs.
Context `{NetifOpts}.
(** pnal_get_ipmask() and pnal_get_gateway() *)
Context (get_ipmask : string → option (Z * Z)) (get_gateway : string → Z).

(** The result and the configuration; [None] is undefined behaviour: when the
    address cannot be read, its variables are used without a value. *)
Definition app_utils_pnet_cfg_init_netifs (netif_list_str : string) : option (Z * option if_cfg) :=
  match app_utils_get_netif_namelist netif_list_str MAX_PORTS with
  | None => None
  | Some (ret, netif, number_of_ports) =>
      if decide (ret ≠ 0) then Some (ret, None)
      else
        match netif !! 0%nat with
        | None => None
        | Some main =>
            match get_ipmask main with
            | None => None
            | Some (ip, netmask) =>
                Some (0, Some (IfCfg main (take (Z.to_nat number_of_ports) (drop 1 netif))
                  (app_utils_copy_ip_to_struct ip) (app_utils_copy_ip_to_struct (get_gateway main))
                  (app_utils_copy_ip_to_struct netmask)))
            end
        end
  end.
End Netifs.

(** ** Scripts *)

Definition PNAL_DEFAULT_SEARCHPATH : string := "/bin:/usr/bin".

Section Scripts.
(** readlink ("/proc/self/exe"), stat() *)
Context (exe : option string) (file_exists : string → bool).

Definition pnal_does_file_exist (filepath : string) : bool := file_exists filepath.

(** The buffers have [size] bytes, cleared before; readlink() fills at most
    all of them. *)
Definition pnal_get_directory_of_binary (size : nat) : option string :=
  match exe with
  | None => None
  | Some p =>
      let tempstring := str_take size p in
      if negb (pnal_does_file_exist tempstring) then None else Some (strlcpy size (dirname tempstring))
  end.

(** The return value and the path. *)
Definition pnal_create_searchpath (bufsize size : nat) : Z * string :=
  match pnal_get_directory_of_binary bufsize with
  | None => (-1, EmptyString)
  | Some dir =>
      let text := PNAL_DEFAULT_SEARCHPATH +:+ ":" +:+ dir in
      (if decide (size ≤ String.length text)%nat then -1 else 0, strlcpy size text)
  end.

(** [fork]: [None] when it fails, else the wait status of the child for a
    search path and its arguments. *)
Definition pnal_execute_script (bufsize size : nat) (fork : option (string → list string → Z)) (argv : list string) : Z :=
  match argv with
  | [] => -1
  | _ =>
      let '(rc, path) := pnal_create_searchpath bufsize size in
      if decide (rc ≠ 0) then -1
      else
        match fork with
        | None => -1
        | Some child => if decide (WEXITSTATUS (child path argv) = 0) then 0 else -1
        end
  end.

(** A search path that is used is never cut: it names the directory of the
    program, unless the path of the program did not fit. *)
Lemma searchpath_complete bufsize size p :
  exe = Some p → (String.length p < bufsize)%nat → file_exists p = true → strchr p "/"%char ≠ None →
  (pnal_create_searchpath bufsize size).1 = 0 →
  (pnal_create_searchpath bufsize size).2 = "/bin:/usr/bin:" +:+ dirname p.
Proof.
  intros Ep Hp He Hslash Hrc. unfold pnal_create_searchpath, pnal_get_directory_of_binary in *. rewrite Ep in *.
  rewrite (str_take_all bufsize p) in * by lia. unfold pnal_does_file_exist in *. rewrite He in *. cbn [negb fst snd] in *.
  assert (Hd : (String.length (dirname p) ≤ String.length p ∨ String.length (dirname p) ≤ 1)%nat).
  { unfold dirname. destruct (rindex p "/"%char) as [r|]; [left|right; done].
    apply str_take_le. }
  assert (Hne : (String.length (dirname p) ≤ bufsize - 1)%nat).
  { destruct p as [|c p]; [done|]. simpl in Hp, Hd. lia. }
  assert (Es : strlcpy bufsize (dirname p) = dirname p) by (by apply str_take_all). rewrite Es in *.
  case_decide as Hs; [done|]. unfold strlcpy. rewrite str_take_all by lia. reflexivity.
Qed.

(** A defect: a script ended by a signal counts as a success, because only
    the exit status is looked at. *)
Lemma killed_script_succeeds bufsize size argv child sig :
  (pnal_create_searchpath bufsize size).1 = 0 → argv ≠ [] → 1 ≤ sig ≤ 126 → (∀ path a, child path a = sig) →
  pnal_execute_script bufsize size (Some child) argv = 0.
Proof.
  intros Hp Ha Hs Hc. unfold pnal_execute_script. destruct argv as [|x l]; [done|].
  destruct (pnal_create_searchpath bufsize size) as [rc path]. simpl in Hp. subst rc.
  rewrite decide_False by (intros Hn; by apply Hn). rewrite Hc. rewrite decide_True; [done|].
  unfold WEXITSTATUS. rewrite Z.shiftr_land. replace (Z.shiftr sig 8) with 0; [done|].
  rewrite Z.shiftr_div_pow2 by lia. symmetry. apply Z.div_small. lia.
Qed.
End Scripts.

(** ** Facts *)

Lemma fmt_02X_length b : String.length (fmt_02X b) = 2%nat.
Proof. done. Qed.

Lemma join_length l : Forall (λ s, String.length s = 2%nat) l →
  (String.length (join ":" l) = 3 * length l - 1)%nat.
Proof.
  induction 1 as [|s l Hs Hl IH]; [done|]. destruct l as [|s2 l]; [done|].
  change (join ":" (s :: s2 :: l)) with (s +:+ ":" +:+ join ":" (s2 :: l)).
  rewrite !length_app_s, IH, Hs. simpl. lia.
Qed.

(** The text of an Ethernet address has 17 characters and fits its buffer. *)
Lemma mac_string_fits size mac :
  length mac = 6%nat → (18 ≤ size)%nat → app_utils_mac_to_string size mac = join ":" (fmt_02X <$> mac).
Proof.
  intros Hm Hs. unfold app_utils_mac_to_string, strlcpy.
  assert (Hl : String.length (join ":" (fmt_02X <$> mac)) = 17%nat).
  { rewrite join_length; [by rewrite length_fmap, Hm|]. apply Forall_fmap, Forall_true. apply fmt_02X_length. }
  apply str_take_all. lia.
Qed.
