(* ===== verification/ProfLog.v ===== *)
(** * profeth: the log and the texts that are logged

    app_log.c and the functions of app_utils.c that describe errors, commands
    and events or print the network configuration.  The state is the level
    and what was written to stdout.  The codes of the p-net headers are the
    class [PnetCodes], addresses and host name of the kernel are given by
    functions. *)
From S2P Require Import Prelude CString ProfSlots ProfNetif ProfCfg ProfMain.

Open Scope Z_scope.

Definition APP_LOG_LEVEL_DEBUG : Z := 0.
Definition APP_LOG_LEVEL_INFO : Z := 1.
Definition APP_LOG_LEVEL_WARNING : Z := 2.
Definition APP_LOG_LEVEL_ERROR : Z := 3.
Definition APP_LOG_LEVEL_FATAL : Z := 4.

Record console := Console { co_level : Z; co_out : string }.

(** The static log_level of app_log.c. *)
Definition console_init : console := Console APP_LOG_LEVEL_FATAL EmptyString.

Definition printf (text : string) : M console unit := modify (λ c, Console (co_level c) (co_out c +:+ text)).

Definition app_log_set_log_level (level : Z) : M console unit := modify (λ c, Console level (co_out c)).

(** [text] is the formatted message. *)
Definition app_log (level : Z) (text : string) : M console unit :=
  let* l := gets co_level in
  if decide (l ≤ level) then printf text else ret tt.

Definition app_log_print_bytes (level : Z) (bytes : list Z) : M console unit :=
  let* l := gets co_level in
  if decide (l ≤ level) then
    printf "  Bytes: " ;;;
    foreach bytes (λ b, printf (fmt_02X b +:+ " ")) ;;;
    printf nl
  else ret tt.

Definition APP_LOG_DEBUG := app_log APP_LOG_LEVEL_DEBUG.
Definition APP_LOG_INFO := app_log APP_LOG_LEVEL_INFO.
Definition APP_LOG_ERROR := app_log APP_LOG_LEVEL_ERROR.

(** ** Texts *)

Class PnetCodes := {
  RTA_ERR_CLS_PROTOCOL : Z;
  CTLDINA : Z;
  ABORT_AR_CONSUMER_DHT_EXPIRED : Z;
  ABORT_AR_CMI_TIMEOUT : Z;
  ABORT_AR_RELEASE_IND_RECEIVED : Z;
  ABORT_AR_RPC_READ_ERROR : Z;
  ABORT_DCP_STATION_NAME_CHANGED : Z;
  ABORT_DCP_RESET_TO_FACTORY : Z;
  CTLDINA_ARP_MULTIPLE_IP_ADDRESSES : Z;
}.

Section Codes.
Context `{PnetCodes}.

(** A switch whose cases are constants: the first that matches. *)
Definition switch {A} (v : Z) (cases : list (Z * A)) (dflt : A) : A :=
  match List.find (λ c, v =? c.1) cases with Some c => c.2 | None => dflt end.

Definition rta_text (err_code : Z) : string := switch err_code
  [(ABORT_AR_CONSUMER_DHT_EXPIRED, "Device missed cyclic data deadline, device terminated AR");
   (ABORT_AR_CMI_TIMEOUT, "Communication initialization timeout, device terminated AR");
   (ABORT_AR_RELEASE_IND_RECEIVED, "AR release indication received");
   (ABORT_AR_RPC_READ_ERROR, "AR RPC-Read error");
   (ABORT_DCP_STATION_NAME_CHANGED, "DCP station name changed, device terminated AR");
   (ABORT_DCP_RESET_TO_FACTORY, "DCP reset to factory or factory reset, device terminated AR")] "Not decoded".

Definition ctldina_text (err_code : Z) : string := switch err_code
  [(CTLDINA_ARP_MULTIPLE_IP_ADDRESSES, "Multiple users of same IP address")] "Not decoded".

(** The two texts; [cls_ptr], [code_ptr] say whether the pointers are given.
    The first one is tested twice, the second one never. *)
Definition app_utils_get_error_code_strings (err_cls err_code : Z) (cls_ptr code_ptr : bool)
    : M unit (option (string * string)) :=
  if negb cls_ptr || negb cls_ptr then ret None
  else if negb code_ptr then crash
  else ret (Some (switch err_cls
    [(RTA_ERR_CLS_PROTOCOL, ("Real-Time Acyclic Protocol", rta_text err_code));
     (CTLDINA, ("CTLDINA = Name and IP assignment from controller", ctldina_text err_code))]
    ("Not decoded", "Not decoded"))).
End Codes.

Inductive pnet_control_command :=
| PRM_BEGIN | PRM_END | APP_RDY | RELEASE | OtherCommand (z : Z).

Definition app_utils_dcontrol_cmd_to_string (c : pnet_control_command) : string :=
  match c with
  | PRM_BEGIN => "PRM_BEGIN"
  | PRM_END => "PRM_END"
  | APP_RDY => "APP_RDY"
  | RELEASE => "RELEASE"
  | OtherCommand _ => "<error>"
  end.

Inductive pnet_event_value := EvAbort | EvStartup | EvPrmEnd | EvApplRdy | EvData | EvOther (z : Z).

Definition app_utils_event_to_string (e : pnet_event_value) : string :=
  match e with
  | EvAbort => "PNET_EVENT_ABORT"
  | EvStartup => "PNET_EVENT_STARTUP"
  | EvPrmEnd => "PNET_EVENT_PRMEND"
  | EvApplRdy => "PNET_EVENT_APPLRDY"
  | EvData => "PNET_EVENT_DATA"
  | EvOther _ => "<error>"
  end.

(** ** Reports *)
Section Reports.
(** pnal_get_macaddress() and pnal_get_hostname() *)
Context (get_mac : string → option (list Z)) (hostname : option string).

Definition app_utils_print_mac_address (netif_name : string) : M console unit :=
  match get_mac netif_name with
  | Some mac => APP_LOG_INFO (join ":" (fmt_02X <$> mac) +:+ nl)
  | None => APP_LOG_ERROR ("Failed read mac address" +:+ nl)
  end.

Definition ip_text (a : pnet_cfg_ip_addr) : string :=
  join "." [fmt_d (ip_a a); fmt_d (ip_b a); fmt_d (ip_c a); fmt_d (ip_d a)].

(** The loop over the ports: [i] is the number of the first one. *)
Fixpoint print_ports (i : nat) (ports : list string) : M console unit :=
  match ports with
  | [] => ret tt
  | p :: ports' =>
      APP_LOG_INFO ("Physical port [" +:+ fmt_d (Z.of_nat i) +:+ "]:    " +:+ p +:+ " ") ;;;
      app_utils_print_mac_address p ;;;
      print_ports (S i) ports'
  end.

Definition app_utils_print_network_config (c : if_cfg) : M console unit :=
  APP_LOG_INFO ("Management port:      " +:+ main_netif_name c +:+ " ") ;;;
  app_utils_print_mac_address (main_netif_name c) ;;;
  print_ports 1 (physical_ports c) ;;;
  APP_LOG_INFO ("Hostname:             " +:+ default EmptyString hostname +:+ nl) ;;;
  APP_LOG_INFO ("IP address:           " +:+ ip_text (c_ip c) +:+ nl) ;;;
  APP_LOG_INFO ("Netmask:              " +:+ ip_text (c_mask c) +:+ nl) ;;;
  APP_LOG_INFO ("Gateway:              " +:+ ip_text (c_gateway c) +:+ nl).
End Reports.

Definition subslot_text (p : app_subslot) : string :=
  fmt_d (Z.of_nat (sub_slot_nbr p)) +:+ " subslot " +:+ fmt_d (sub_subslot_nbr p) +:+
  " " +:+ String (chr 34) (default EmptyString (sub_name p)) +:+ String (chr 34) EmptyString.

Definition app_utils_print_ioxs_change `{PnetOpts} (p : app_subslot) (ioxs_str : string) (current new : Z)
    : M console unit :=
  if decide (current = new) then ret tt
  else if decide (new = PNET_IOXS_BAD) then
    APP_LOG_DEBUG ("PLC reports " +:+ ioxs_str +:+ " BAD for slot " +:+ subslot_text p +:+ nl)
  else if decide (new = PNET_IOXS_GOOD) then
    APP_LOG_DEBUG ("PLC reports " +:+ ioxs_str +:+ " GOOD for slot " +:+ subslot_text p +:+ "." +:+ nl)
  else
    APP_LOG_DEBUG ("PLC reports " +:+ ioxs_str +:+ " " +:+ fmt_d new +:+ " for slot " +:+ subslot_text p +:+ "." +:+ nl +:+
                   "  Is the PLC in STOP mode?" +:+ nl).

(** ** Theorems *)

(** A defect: with the second pointer NULL the texts are written through it;
    the test that should prevent this looks at the first pointer twice. *)
Lemma missing_code_pointer_crashes `{PnetCodes} err_cls err_code :
  (app_utils_get_error_code_strings err_cls err_code true false tt).1 = Crash.
Proof. done. Qed.

(** A message is written exactly when its level is at or above the level -v
    asks for: every -v adds one level, and all are written from four on. *)
Lemma verbosity_filters a lvl text out :
  0 ≤ verbosity a → 0 ≤ lvl ≤ 4 →
  (app_log_set_log_level (log_level a) ;;; app_log lvl text) (Console APP_LOG_LEVEL_FATAL out) =
  (Ret tt, Console (log_level a) (if decide (4 ≤ lvl + verbosity a) then out +:+ text else out)).
Proof.
  intros Hv Hl. unfold app_log, app_log_set_log_level, bind. simpl. unfold log_level.
  case_decide; case_decide; case_decide; try lia; done.
Qed.

(** The value of a hexadecimal digit. *)
Definition hex_val (c : ascii) : option Z :=
  let n := ord c in
  if decide (48 ≤ n ≤ 57) then Some (n - 48)
  else if decide (65 ≤ n ≤ 70) then Some (n - 55) else None.

(** Reading the bytes back: two digits and a space for each. *)
Fixpoint read_bytes (s : string) : option (list Z) :=
  match s with
  | EmptyString => Some []
  | String h (String l (String sp s')) =>
      match hex_val h, hex_val l, read_bytes s' with
      | Some x, Some y, Some r => if decide (sp = " "%char) then Some (16 * x + y :: r) else None
      | _, _, _ => None
      end
  | _ => None
  end.

Lemma hex_val_digit d : 0 ≤ d < 16 → hex_val (hex_digit d) = Some d.
Proof.
  intros Hd. unfold hex_digit, hex_val.
  assert (Ho : ∀ n, 48 ≤ n ≤ 90 → ord (chr n) = n) by (intros n Hn; apply ord_chr; lia).
  destruct (Z.ltb_spec d 10); rewrite Ho by lia.
  - rewrite decide_True by lia. f_equal. lia.
  - rewrite decide_False, decide_True by lia. f_equal. lia.
Qed.

Lemma byte_digits b : 0 ≤ b < 256 → 16 * Z.shiftr b 4 + Z.land b 15 = b ∧ 0 ≤ Z.shiftr b 4 < 16 ∧ 0 ≤ Z.land b 15 < 16.
Proof.
  intros Hb. rewrite Z.shiftr_div_pow2 by lia. change 15 with (Z.ones 4). rewrite Z.land_ones by lia.
  change (2 ^ 4) with 16. pose proof (Z.div_mod b 16). pose proof (Z.mod_pos_bound b 16).
  assert (b / 16 < 16) by (apply Z.div_lt_upper_bound; lia). assert (0 ≤ b / 16) by (apply Z.div_pos; lia). lia.
Qed.

(** The bytes as they are printed. *)
Fixpoint bytes_text (bytes : list Z) : string :=
  match bytes with [] => EmptyString | b :: l => fmt_02X b +:+ " " +:+ bytes_text l end.

Lemma print_loop bytes c :
  foreach bytes (λ b, printf (fmt_02X b +:+ " ")) c = (Ret tt, Console (co_level c) (co_out c +:+ bytes_text bytes)).
Proof.
  revert c. induction bytes as [|b l IH]; intros [lv out]; simpl; [by rewrite app_nil_r_s|].
  unfold bind, printf, modify. rewrite IH. simpl. by rewrite app_assoc_s.
Qed.

Lemma read_bytes_text bytes : Forall (λ b, 0 ≤ b < 256) bytes → read_bytes (bytes_text bytes) = Some bytes.
Proof.
  induction 1 as [|b l Hb _ IH]; [done|]. destruct (byte_digits b Hb) as (Heq & Hh & Hl).
  change (bytes_text (b :: l)) with
    (String (hex_digit (Z.shiftr b 4)) (String (hex_digit (Z.land b 15)) (String " "%char (bytes_text l)))).
  cbn [read_bytes].
  rewrite (hex_val_digit _ Hh), (hex_val_digit _ Hl), IH. by rewrite Heq.
Qed.

(** Logged process data can be read back: when the level lets them
    through, the bytes are written as one line from which they are recovered
    exactly; otherwise nothing is written. *)
Theorem log_bytes_roundtrip level bytes c :
  Forall (λ b, 0 ≤ b < 256) bytes →
  ∃ t, read_bytes t = Some bytes ∧
    app_log_print_bytes level bytes c =
      (Ret tt, Console (co_level c) (co_out c +:+ if decide (co_level c ≤ level) then "  Bytes: " +:+ t +:+ nl else EmptyString)).
Proof.
  intros Hb. exists (bytes_text bytes). split; [by apply read_bytes_text|].
  unfold app_log_print_bytes. unfold bind at 1. unfold gets. destruct c as [lv out]. cbn [co_level co_out].
  case_decide; [|by rewrite app_nil_r_s].
  rewrite (bind_run _ _ _ tt (Console lv (out +:+ "  Bytes: "))) by done.
  rewrite (bind_run _ _ _ _ _ (print_loop _ _)). unfold printf, modify. cbn [co_level co_out].
  by rewrite !app_assoc_s.
Qed.

Lemma log_bytes_roundtrip_witness :
  ∃ t, read_bytes t = Some [0; 171; 255] ∧
    co_out (app_log_print_bytes APP_LOG_LEVEL_DEBUG [0; 171; 255] (Console 0 EmptyString)).2 = "  Bytes: " +:+ t +:+ nl.
Proof.
  destruct (log_bytes_roundtrip APP_LOG_LEVEL_DEBUG [0; 171; 255] (Console 0 EmptyString)) as (t & Ht & E).
  - repeat constructor; discriminate.
  - exists t. split; [exact Ht|]. rewrite E. reflexivity.
Defined.
