(* ===== verification/ProfStart.v ===== *)
(** * profeth: the configuration handed to the stack, and the start

    app_utils_pnet_cfg_init_default() and app_pnet_cfg_init_default() fill
    pnet_cfg_t from the constants of app_gsdml.h; app_start() creates the
    event, the timer and the task of the application.  Sizes, version and
    the I&M bits of the p-net headers are the class [CfgOpts]. *)
From S2P Require Import Prelude CString ProfNetif ProfCfg ProfMain.

Open Scope Z_scope.

Class CfgOpts := {
  ORDER_ID_SIZE : nat;
  SERIAL_SIZE : nat;
  TAG_FUNCTION_SIZE : nat;
  TAG_LOCATION_SIZE : nat;
  DATE_SIZE : nat;
  DESCRIPTOR_SIZE : nat;
  SIGNATURE_SIZE : nat;
  PRODUCT_NAME_SIZE : nat;
  CFG_STATION_SIZE : nat;
  PNET_VERSION_MAJOR : Z;
  PNET_VERSION_MINOR : Z;
  PNET_VERSION_PATCH : Z;
  PNET_SUPPORTED_IM1 : Z;
  PNET_SUPPORTED_IM2 : Z;
  PNET_SUPPORTED_IM3 : Z;
}.

(** ** app_gsdml.h *)

Definition APP_TICK_INTERVAL_US : Z := 1000.
Definition APP_GSDML_VENDOR_ID : Z := 0x0493.
Definition APP_GSDML_DEVICE_ID : Z := 0x0002.
Definition APP_GSDML_OEM_VENDOR_ID : Z := 0xcafe.
Definition APP_GSDML_OEM_DEVICE_ID : Z := 0xee02.
Definition APP_GSDML_IM_HARDWARE_REVISION : Z := 3.
Definition APP_GSDML_SW_REV_PREFIX : ascii := "V"%char.
Definition APP_GSDML_PROFILE_ID : Z := 0x1234.
Definition APP_GSDML_PROFILE_SPEC_TYPE : Z := 0x5678.
Definition APP_GSDML_IM_REVISION_COUNTER : Z := 0.
Definition APP_GSDML_EXAMPLE_SERIAL_NUMBER : string := "007".
Definition APP_GSDML_TAG_FUNCTION : string := "my function".
Definition APP_GSDML_TAG_LOCATION : string := "my location".
Definition APP_GSDML_IM_DATE : string := "2022-03-01 10:03".
Definition APP_GSDML_DESCRIPTOR : string := "my descriptor".
Definition APP_GSDML_SIGNATURE : string := EmptyString.
Definition APP_GSDML_ORDER_ID : string := "12345 Abcdefghijk".
Definition APP_GSDML_PRODUCT_NAME : string := "Infix Switch 10p".
Definition APP_GSDML_MIN_DEVICE_INTERVAL : Z := 32.

Definition APP_GSDML_IM_SUPPORTED `{CfgOpts} : Z :=
  Z.lor (Z.lor PNET_SUPPORTED_IM1 PNET_SUPPORTED_IM2) PNET_SUPPORTED_IM3.

(** ** pnet_cfg_t *)

Record pnet_im_0 := Im0 {
  im_vendor_id_hi : Z; im_vendor_id_lo : Z;
  im_order_id : string; im_serial_number : string;
  im_hardware_revision : Z; im_sw_revision_prefix : ascii;
  im_sw_revision_functional_enhancement : Z; im_sw_revision_bug_fix : Z; im_sw_revision_internal_change : Z;
  im_revision_counter : Z; im_profile_id : Z; im_profile_specific_type : Z;
  im_version_major : Z; im_version_minor : Z; im_supported : Z;
}.

(** Vendor and device, each as its high and low byte. *)
Record pnet_device_id := DeviceId { vendor_id_hi : Z; vendor_id_lo : Z; device_id_hi : Z; device_id_lo : Z }.

(** The callbacks of sampleapp_common.c. *)
Inductive app_cb :=
| cb_app_state_ind | cb_app_connect_ind | cb_app_release_ind | cb_app_dcontrol_ind | cb_app_ccontrol_cnf
| cb_app_read_ind | cb_app_write_ind | cb_app_exp_module_ind | cb_app_exp_submodule_ind
| cb_app_new_data_status_ind | cb_app_alarm_ind | cb_app_alarm_cnf | cb_app_alarm_ack_cnf
| cb_app_reset_ind | cb_app_signal_led_ind | cb_app_sm_released_ind.

#[export] Instance app_cb_eq_dec : EqDecision app_cb.
Proof. solve_decision. Defined.

(** The function pointers of pnet_cfg_t, NULL is [None]. *)
Record pnet_cbs := PnetCbs {
  state_cb : option app_cb; connect_cb : option app_cb; release_cb : option app_cb;
  dcontrol_cb : option app_cb; ccontrol_cb : option app_cb; read_cb : option app_cb; write_cb : option app_cb;
  exp_module_cb : option app_cb; exp_submodule_cb : option app_cb; new_data_status_cb : option app_cb;
  alarm_ind_cb : option app_cb; alarm_cnf_cb : option app_cb; alarm_ack_cnf_cb : option app_cb;
  reset_cb : option app_cb; signal_led_cb : option app_cb; sm_released_cb : option app_cb;
}.

Definition no_cbs : pnet_cbs :=
  PnetCbs None None None None None None None None None None None None None None None None.

Record pnet_cfg := PnetCfg {
  tick_us : Z;
  im_0_data : pnet_im_0;
  im_tag_function : string; im_tag_location : string; im_date : string; im_descriptor : string; im_signature : string;
  device_id : pnet_device_id; oem_device_id : pnet_device_id;
  product_name : string; send_hello : bool; min_device_interval : Z; num_physical_ports : Z;
  cfg_station_name : string; use_qualified_diagnosis : bool;
  cfg_cbs : pnet_cbs;
}.

Section Config.
Context `{CfgOpts}.

Definition GET_HIGH_BYTE (id : Z) : Z := Z.land (Z.shiftr id 8) 0xFF.
Definition GET_LOW_BYTE (id : Z) : Z := Z.land id 0xFF.

Definition id_bytes (vendor device : Z) : pnet_device_id :=
  DeviceId (GET_HIGH_BYTE vendor) (GET_LOW_BYTE vendor) (GET_HIGH_BYTE device) (GET_LOW_BYTE device).

(** snprintf (buffer, sizeof (buffer), "%s", text) cuts the text to fit. *)
Definition app_utils_pnet_cfg_init_default : Z * pnet_cfg :=
  (0, PnetCfg APP_TICK_INTERVAL_US
    (Im0 (GET_HIGH_BYTE APP_GSDML_VENDOR_ID) (GET_LOW_BYTE APP_GSDML_VENDOR_ID)
       (strlcpy ORDER_ID_SIZE APP_GSDML_ORDER_ID) (strlcpy SERIAL_SIZE APP_GSDML_EXAMPLE_SERIAL_NUMBER)
       APP_GSDML_IM_HARDWARE_REVISION APP_GSDML_SW_REV_PREFIX
       PNET_VERSION_MAJOR PNET_VERSION_MINOR PNET_VERSION_PATCH
       APP_GSDML_IM_REVISION_COUNTER APP_GSDML_PROFILE_ID APP_GSDML_PROFILE_SPEC_TYPE 1 1 APP_GSDML_IM_SUPPORTED)
    (strlcpy TAG_FUNCTION_SIZE APP_GSDML_TAG_FUNCTION) (strlcpy TAG_LOCATION_SIZE APP_GSDML_TAG_LOCATION)
    (strlcpy DATE_SIZE APP_GSDML_IM_DATE) (strlcpy DESCRIPTOR_SIZE APP_GSDML_DESCRIPTOR)
    (strlcpy SIGNATURE_SIZE APP_GSDML_SIGNATURE)
    (id_bytes APP_GSDML_VENDOR_ID APP_GSDML_DEVICE_ID) (id_bytes APP_GSDML_OEM_VENDOR_ID APP_GSDML_OEM_DEVICE_ID)
    (strlcpy PRODUCT_NAME_SIZE APP_GSDML_PRODUCT_NAME) true APP_GSDML_MIN_DEVICE_INTERVAL 1
    (strlcpy CFG_STATION_SIZE APP_GSDML_DEFAULT_STATION_NAME) false no_cbs).

Definition app_cbs : pnet_cbs := PnetCbs
  (Some cb_app_state_ind) (Some cb_app_connect_ind) (Some cb_app_release_ind) (Some cb_app_dcontrol_ind) (Some cb_app_ccontrol_cnf)
  (Some cb_app_read_ind) (Some cb_app_write_ind) (Some cb_app_exp_module_ind) (Some cb_app_exp_submodule_ind)
  (Some cb_app_new_data_status_ind) (Some cb_app_alarm_ind) (Some cb_app_alarm_cnf) (Some cb_app_alarm_ack_cnf)
  (Some cb_app_reset_ind) (Some cb_app_signal_led_ind) (Some cb_app_sm_released_ind).

Definition with_cbs (c : pnet_cfg) (cbs : pnet_cbs) : pnet_cfg :=
  PnetCfg (tick_us c) (im_0_data c) (im_tag_function c) (im_tag_location c) (im_date c) (im_descriptor c)
    (im_signature c) (device_id c) (oem_device_id c) (product_name c) (send_hello c) (min_device_interval c)
    (num_physical_ports c) (cfg_station_name c) (use_qualified_diagnosis c) cbs.

Definition app_pnet_cfg_init_default : pnet_cfg := with_cbs app_utils_pnet_cfg_init_default.2 app_cbs.
End Config.

(** ** Start *)

Inductive osal_call :=
| EventCreate | EventDestroy
| TimerCreate (us : Z) (oneshot : bool)
| ThreadCreate (name : string) (prio stack : Z)
| TimerStart.

#[export] Instance osal_call_eq_dec : EqDecision osal_call.
Proof. solve_decision. Defined.

Inductive run_config := RUN_IN_SEPARATE_THREAD | RUN_IN_MAIN_THREAD.

Definition APP_MAIN_THREAD_PRIORITY : Z := 15.
Definition APP_MAIN_THREAD_STACKSIZE : Z := 4096.

Section Start.
(** os_event_create() and os_timer_create() give an object *)
Context (event_ok timer_ok : bool).

Definition osal (c : osal_call) : M (list osal_call) unit := modify (λ l, l ++ [c]).

(** [app] is false for NULL. *)
Definition app_start (app : bool) (task_config : run_config) : M (list osal_call) Z :=
  if negb app then ret (-1)
  else
    osal EventCreate ;;;
    if negb event_ok then ret (-1)
    else
      osal (TimerCreate APP_TICK_INTERVAL_US false) ;;;
      if negb timer_ok then osal EventDestroy ;;; ret (-1)
      else
        (match task_config with
         | RUN_IN_SEPARATE_THREAD =>
             osal (ThreadCreate "p-net_sample_app" APP_MAIN_THREAD_PRIORITY APP_MAIN_THREAD_STACKSIZE)
         | RUN_IN_MAIN_THREAD => ret tt
         end) ;;;
        osal TimerStart ;;;
        ret 0.
End Start.

(** ** Theorems *)

Definition byte_ok (z : Z) : Prop := 0 ≤ z < 2 ^ 8.
Definition u16_ok (z : Z) : Prop := 0 ≤ z < 2 ^ 16.
Definition u32_ok (z : Z) : Prop := 0 ≤ z < 2 ^ 32.

(** A text and its terminator fit an array of [size] bytes. *)
Definition text_ok (size : nat) (s : string) : Prop := (String.length s < size)%nat.

Definition device_ok (d : pnet_device_id) : Prop :=
  Forall byte_ok [vendor_id_hi d; vendor_id_lo d; device_id_hi d; device_id_lo d].

Definition vendor_of (d : pnet_device_id) : Z := 256 * vendor_id_hi d + vendor_id_lo d.
Definition device_of (d : pnet_device_id) : Z := 256 * device_id_hi d + device_id_lo d.

Definition cb_list (c : pnet_cbs) : list (option app_cb) :=
  [state_cb c; connect_cb c; release_cb c; dcontrol_cb c; ccontrol_cb c; read_cb c; write_cb c; exp_module_cb c;
   exp_submodule_cb c; new_data_status_cb c; alarm_ind_cb c; alarm_cnf_cb c; alarm_ack_cnf_cb c; reset_cb c;
   signal_led_cb c; sm_released_cb c].

Section CfgFacts.
Context `{CfgOpts}.

(** Every field is a value of its C type. *)
Record typed_cfg (c : pnet_cfg) : Prop := {
  ty_tick : u32_ok (tick_us c);
  ty_im0_bytes : Forall byte_ok [im_vendor_id_hi (im_0_data c); im_vendor_id_lo (im_0_data c);
    im_sw_revision_functional_enhancement (im_0_data c); im_sw_revision_bug_fix (im_0_data c);
    im_sw_revision_internal_change (im_0_data c); im_version_major (im_0_data c); im_version_minor (im_0_data c)];
  ty_im0_words : Forall u16_ok [im_hardware_revision (im_0_data c); im_revision_counter (im_0_data c);
    im_profile_id (im_0_data c); im_profile_specific_type (im_0_data c); im_supported (im_0_data c)];
  ty_texts : Forall (λ p, text_ok p.1 p.2)
    [(ORDER_ID_SIZE, im_order_id (im_0_data c)); (SERIAL_SIZE, im_serial_number (im_0_data c));
     (TAG_FUNCTION_SIZE, im_tag_function c); (TAG_LOCATION_SIZE, im_tag_location c); (DATE_SIZE, im_date c);
     (DESCRIPTOR_SIZE, im_descriptor c); (SIGNATURE_SIZE, im_signature c); (PRODUCT_NAME_SIZE, product_name c);
     (CFG_STATION_SIZE, cfg_station_name c)];
  ty_ids : device_ok (device_id c) ∧ device_ok (oem_device_id c);
  ty_rest : u16_ok (min_device_interval c) ∧ u16_ok (num_physical_ports c);
}.

(** The header's own constants are in range and its arrays are not empty. *)
Class CfgOptsOk := {
  opts_version : Forall byte_ok [PNET_VERSION_MAJOR; PNET_VERSION_MINOR; PNET_VERSION_PATCH];
  opts_im : Forall u16_ok [PNET_SUPPORTED_IM1; PNET_SUPPORTED_IM2; PNET_SUPPORTED_IM3];
  opts_sizes : Forall (λ n, 0 < n)%nat [ORDER_ID_SIZE; SERIAL_SIZE; TAG_FUNCTION_SIZE; TAG_LOCATION_SIZE; DATE_SIZE;
    DESCRIPTOR_SIZE; SIGNATURE_SIZE; PRODUCT_NAME_SIZE; CFG_STATION_SIZE];
}.

Lemma id_bytes_ok vendor device :
  u16_ok vendor → u16_ok device →
  device_ok (id_bytes vendor device) ∧ vendor_of (id_bytes vendor device) = vendor ∧
  device_of (id_bytes vendor device) = device.
Proof.
  assert (Hb : ∀ z, u16_ok z → byte_ok (GET_HIGH_BYTE z) ∧ byte_ok (GET_LOW_BYTE z) ∧
                    256 * GET_HIGH_BYTE z + GET_LOW_BYTE z = z).
  { unfold u16_ok, byte_ok, GET_HIGH_BYTE, GET_LOW_BYTE. intros z Hz. change 0xFF with (Z.ones 8).
    rewrite Z.shiftr_div_pow2, !Z.land_ones by lia. change (2 ^ 8) with 256. change (2 ^ 16) with 65536 in Hz.
    pose proof (Z.div_mod z 256). pose proof (Z.mod_pos_bound z 256).
    assert (z / 256 < 256) by (apply Z.div_lt_upper_bound; lia). assert (0 ≤ z / 256) by (apply Z.div_pos; lia).
    rewrite (Z.mod_small (z / 256)) by lia. lia. }
  intros Hv Hd. destruct (Hb vendor Hv) as (V1 & V2 & V3), (Hb device Hd) as (D1 & D2 & D3).
  unfold device_ok, vendor_of, device_of, id_bytes. simpl. split_and!; [|done|done]. repeat (constructor; [done|]). constructor.
Qed.

Lemma lor_u16 a b : u16_ok a → u16_ok b → u16_ok (Z.lor a b).
Proof.
  unfold u16_ok. intros Ha Hb. split; [apply Z.lor_nonneg; lia|].
  destruct (decide (Z.lor a b = 0)) as [->|Hne]; [lia|].
  assert (0 < Z.lor a b) by (pose proof (proj2 (Z.lor_nonneg a b)); lia).
  apply Z.log2_lt_pow2; [done|]. rewrite Z.log2_lor by lia. apply Z.max_lub_lt.
  - destruct (decide (a = 0)) as [->|]; [done|]. apply Z.log2_lt_pow2; lia.
  - destruct (decide (b = 0)) as [->|]; [done|]. apply Z.log2_lt_pow2; lia.
Qed.

Lemma strlcpy_ok n s : (0 < n)%nat → text_ok n (strlcpy n s).
Proof.
  intros Hn. unfold text_ok, strlcpy. assert (Hle : ∀ k t, (String.length (str_take k t) ≤ k)%nat).
  { intros k. induction k as [|k IH]; intros [|c t]; simpl; try lia. specialize (IH t). lia. }
  specialize (Hle (n - 1)%nat s). lia.
Qed.

End CfgFacts.

(** Starting the application leaks nothing: it either creates event,
    timer and, when asked for, the task, and starts the timer last, or
    fails with -1 and has destroyed what it created. *)
Lemma app_start_no_leak event_ok timer_ok app task :
  let '(r, calls) := app_start event_ok timer_ok app task [] in
  r = Ret (if app && event_ok && timer_ok then 0 else -1) ∧
  (r = Ret 0 → last calls = Some TimerStart ∧ EventDestroy ∉ calls) ∧
  (r = Ret (-1) → event_ok = true → app = true → last calls = Some EventDestroy).
Proof.
  destruct app, event_ok, timer_ok, task; simpl; split_and!; try done; intros _; split; try done;
    apply (bool_decide_unpack _); vm_compute; reflexivity.
Qed.

Module StartDemo.

(** Sizes the texts fit into. *)
#[export] Instance opts : CfgOpts := {|
  ORDER_ID_SIZE := 21; SERIAL_SIZE := 17; TAG_FUNCTION_SIZE := 33; TAG_LOCATION_SIZE := 23; DATE_SIZE := 17;
  DESCRIPTOR_SIZE := 55; SIGNATURE_SIZE := 55; PRODUCT_NAME_SIZE := 26; CFG_STATION_SIZE := 241;
  PNET_VERSION_MAJOR := 0; PNET_VERSION_MINOR := 2; PNET_VERSION_PATCH := 0;
  PNET_SUPPORTED_IM1 := 2; PNET_SUPPORTED_IM2 := 4; PNET_SUPPORTED_IM3 := 8;
|}.

#[export] Instance opts_ok : CfgOptsOk.
Proof. split; repeat (constructor; [first [by split|simpl; lia]|]); constructor. Qed.

End StartDemo.
