(* ===== verification/ProfBoot.v ===== *)
(** * profeth/src/profeth.c: main() with what it prints

    [run_main] of ProfMain gives the calls of main(); here main() also writes
    to the console, copies the arguments into the configuration and reports
    it.  Theorem [boot_does_run_main] says that the output changes nothing
    about the calls and the end. *)
From S2P Require Import Prelude CString ProfNetif ProfCfg ProfMain ProfLog ProfStart.

Open Scope Z_scope.

(** The settings of main() on top of the defaults. *)
Record thread_cfg := Thread { th_prio : Z; th_stack : Z }.

Record stack_cfg := StackCfg {
  sc_default : pnet_cfg;          (* app_pnet_cfg_init_default() *)
  sc_station : string;
  sc_if : if_cfg;
  sc_ports : Z;
  sc_snmp : thread_cfg; sc_eth : thread_cfg; sc_bg : thread_cfg;
  sc_directory : string;
}.

(** [pr_cfg] is what the stack was initialised with. *)
Record prog := Prog { pr_con : console; pr_calls : list stack_call; pr_cfg : option stack_cfg }.

(** What main() reports of the build and the host. *)
Record build := Build {
  b_version : string;            (* PNET_VERSION *)
  b_slots : Z;                   (* PNET_MAX_SLOTS *)
  b_stack_log : Z;               (* LOG_LEVEL *)
  b_ports : Z;                   (* PNET_MAX_PHYSICAL_PORTS *)
  b_mac : string → option (list Z);
  b_hostname : option string;
  b_ifcfg : string → if_cfg;     (* what app_utils_pnet_cfg_init_netifs() filled in *)
}.

Section Boot.
Context `{PathOpts} `{CfgOpts}.

Definition con {A} (m : M console A) : M prog A := λ p,
  let '(r, c) := m (pr_con p) in (r, Prog c (pr_calls p) (pr_cfg p)).

Definition stk {A} (m : M (list stack_call) A) : M prog A := λ p,
  let '(r, l) := m (pr_calls p) in (r, Prog (pr_con p) l (pr_cfg p)).

(** strcpy() into an array of the configuration *)
Definition copy_into (size : nat) (s : string) : M prog string := λ p,
  if decide (String.length s < size)%nat then (Ret s, p) else (Crash, p).

Definition app_set_led (execute : list string → Z) (id : Z) (led_state : bool) : M console unit :=
  if decide (execute (led_argv id led_state) ≠ 0) then printf ("Failed to set LED state" +:+ nl) else ret tt.

Definition info_line (label value : string) : M prog unit := con (APP_LOG_INFO (label +:+ value +:+ nl)).

(** The lines before the configuration is prepared. *)
Definition banner (b : build) (a : app_args) : M prog unit :=
  con (app_log_set_log_level (log_level a)) ;;;
  con (printf (nl +:+ "** Starting P-Net sample application " +:+ b_version b +:+ " **" +:+ nl)) ;;;
  info_line "Number of slots:      " (fmt_d (b_slots b) +:+ " (incl slot for DAP module)") ;;;
  info_line "P-net log level:      " (fmt_d (b_stack_log b) +:+ " (DEBUG=0, FATAL=4)") ;;;
  info_line "App log level:        " (fmt_d (log_level a) +:+ " (DEBUG=0, FATAL=4)") ;;;
  info_line "Max number of ports:  " (fmt_d (b_ports b)) ;;;
  info_line "Network interfaces:   " (eth_interfaces a) ;;;
  info_line "Button1 file:         " (path_button1 a) ;;;
  info_line "Button2 file:         " (path_button2 a) ;;;
  info_line "Default station name: " (station_name a).

(** app_pnet_cfg_init_storage() with its messages. *)
Definition storage_report (exists_ : string → bool) (a : app_args) : M prog Z :=
  let* dir := copy_into DIRECTORYPATH_SIZE (path_storage_directory a) in
  (if decide (0 < verbosity a) then con (printf ("Storage directory:    " +:+ dir +:+ nl +:+ nl)) else ret tt) ;;;
  if negb (exists_ dir) then
    con (printf ("Error: The given storage directory does not exist: " +:+ dir +:+ nl)) ;;; ret (-1)
  else if bool_decide (path_button1 a ≠ EmptyString) && negb (exists_ (path_button1 a)) then
    con (printf ("Error: The given input file for Button1 does not exist: " +:+ path_button1 a +:+ nl)) ;;; ret (-1)
  else if bool_decide (path_button2 a ≠ EmptyString) && negb (exists_ (path_button2 a)) then
    con (printf ("Error: The given input file for Button2 does not exist: " +:+ path_button2 a +:+ nl)) ;;; ret (-1)
  else ret 0.

Definition say (l : list string) : M prog unit := foreach l (λ t, con (printf (t +:+ nl))).

Definition init_with (cfg : stack_cfg) : M prog unit := λ p,
  (Ret tt, Prog (pr_con p) (pr_calls p ++ [Init]) (Some cfg)).

(** Initialisation of the stack and what follows. *)
Definition boot_stack (e : start_env) (a : app_args) (cfg : stack_cfg) : M prog unit :=
  init_with cfg ;;;
  if negb (e_init e) then
    say ["Failed to initialize P-Net."; "Do you have enough Ethernet interface permission?"; "Aborting application"] ;;;
    exit EXIT_FAILURE
  else if factory_reset a then
    say [nl +:+ "Performing factory reset"; "Exit application"] ;;;
    stk (call FactoryReset) ;;; exit EXIT_SUCCESS
  else if decide (0 < show a) then
    say [nl +:+ "Showing stack information." +:+ nl] ;;;
    stk (call (Show (if decide (show a = 1) then 0x2010 else 0xFFFF))) ;;;
    say ["Exit application"] ;;; exit EXIT_SUCCESS
  else
    stk (call (SetSocket "/var/run/agentx/master")) ;;;
    stk (call Start) ;;;
    if decide (e_start e ≠ 0) then
      say ["Failed to start"; "Aborting application"] ;;; exit EXIT_FAILURE
    else ret tt.

Definition APP_SNMP_THREAD : thread_cfg := Thread 1 (256 * 1024).
Definition APP_ETH_THREAD : thread_cfg := Thread 10 4096.
Definition APP_BG_WORKER_THREAD : thread_cfg := Thread 5 4096.

(** main() once the arguments are parsed. *)
Definition boot (e : start_env) (b : build) (a : app_args) : M prog unit :=
  banner b a ;;;
  let* station := copy_into CFG_STATION_SIZE (station_name a) in
  if decide (e_netifs e (eth_interfaces a) ≠ 0) then exit EXIT_FAILURE
  else
    let netif_cfg := b_ifcfg b (eth_interfaces a) in
    con (app_utils_print_network_config (b_mac b) (b_hostname b) netif_cfg) ;;;
    let* rc := storage_report (e_exists e) a in
    if decide (rc ≠ 0) then
      say ["Failed to initialize storage."; "Aborting application"] ;;; exit EXIT_FAILURE
    else if remove_files a then
      say [nl +:+ "Removing stored files"; "Exit application"] ;;;
      stk (call (RemoveFiles (path_storage_directory a))) ;;; exit EXIT_SUCCESS
    else boot_stack e a (StackCfg app_pnet_cfg_init_default station netif_cfg
           (Z.of_nat (length (physical_ports netif_cfg))) APP_SNMP_THREAD APP_ETH_THREAD APP_BG_WORKER_THREAD
           (path_storage_directory a)).

(** ** Output is only output *)

(** [m] returns and calls nothing. *)
Definition mute {A} (m : M prog A) (a : A) : Prop := ∀ p, ∃ c, m p = (Ret a, Prog c (pr_calls p) (pr_cfg p)).

Lemma mute_con (m : M console unit) : (∀ c, (m c).1 = Ret tt) → mute (con m) tt.
Proof. intros Hm [c l g]. unfold con. cbn [pr_con pr_calls pr_cfg]. specialize (Hm c). destruct (m c) as [r c']. cbn in Hm. subst r. by exists c'. Qed.

Lemma mute_bind {A B} (m : M prog A) (f : A → M prog B) a b : mute m a → mute (f a) b → mute (bind m f) b.
Proof.
  intros Hm Hf p. destruct (Hm p) as [c E]. unfold bind. rewrite E. destruct (Hf (Prog c (pr_calls p) (pr_cfg p))) as [c' E'].
  exists c'. exact E'.
Qed.

Lemma mute_ret {A} (a : A) : mute (ret a) a.
Proof. intros [c l g]. by exists c. Qed.

Lemma mute_copy size s : (String.length s < size)%nat → mute (copy_into size s) s.
Proof. intros Hs [c l g]. unfold copy_into. rewrite decide_True by done. by exists c. Qed.

(** A console program that always returns. *)
Definition prints (m : M console unit) : Prop := ∀ c, (m c).1 = Ret tt.

Lemma prints_bind m1 m2 : prints m1 → prints m2 → prints (m1 ;;; m2).
Proof.
  intros H1 H2 c. unfold bind. specialize (H1 c). destruct (m1 c) as [r c1]. simpl in H1. subst r. apply H2.
Qed.

Lemma prints_log lvl t : prints (app_log lvl t).
Proof. intros c. unfold app_log, bind, gets. by case_decide. Qed.

Lemma prints_mac get_mac n : prints (app_utils_print_mac_address get_mac n).
Proof. unfold app_utils_print_mac_address. destruct (get_mac n); apply prints_log. Qed.

Lemma prints_network get_mac host c : prints (app_utils_print_network_config get_mac host c).
Proof.
  assert (Hp : ∀ l i, prints (print_ports get_mac i l)).
  { induction l as [|p l IH]; intros i; [done|]. apply prints_bind; [apply prints_log|].
    apply prints_bind; [apply prints_mac|apply IH]. }
  unfold app_utils_print_network_config.
  repeat (apply prints_bind; [first [apply prints_log|apply prints_mac|apply Hp]|]). apply prints_log.
Qed.

Lemma mute_banner b a : mute (banner b a) tt.
Proof.
  unfold banner, info_line. repeat (eapply mute_bind; [apply mute_con; first [done|apply prints_log]|]).
  apply mute_con, prints_log.
Qed.

Lemma mute_say l : mute (say l) tt.
Proof. induction l as [|t l IH]; [apply mute_ret|]. eapply mute_bind; [by apply mute_con|exact IH]. Qed.

Lemma mute_storage exists_ a : (String.length (path_storage_directory a) < DIRECTORYPATH_SIZE)%nat →
  mute (storage_report exists_ a) (app_pnet_cfg_init_storage exists_ a).1.
Proof.
  intros Hd. unfold storage_report, app_pnet_cfg_init_storage. eapply mute_bind; [by apply mute_copy|].
  apply (mute_bind _ _ tt).
  { case_decide; [by apply mute_con|apply mute_ret]. }
  cbn [fst]. repeat match goal with |- mute (if ?b then _ else _) _ => destruct b end;
    solve [apply mute_ret|eapply (mute_bind _ _ tt); [by apply mute_con|apply mute_ret]].
Qed.

(** Dropping what only prints. *)
Definition same_calls {A} (m : M prog A) (k : M (list stack_call) A) : Prop :=
  ∀ p, (m p).1 = (k (pr_calls p)).1 ∧ pr_calls (m p).2 = (k (pr_calls p)).2.

Lemma same_mute {A B} (m : M prog A) (f : A → M prog B) a k : mute m a → same_calls (f a) k → same_calls (bind m f) k.
Proof. intros Hm Hf p. destruct (Hm p) as [c E]. unfold bind. rewrite E. apply (Hf (Prog c (pr_calls p) (pr_cfg p))). Qed.

Lemma same_stk {B} c (f : unit → M prog B) k : same_calls (f tt) k → same_calls (bind (stk (call c)) f) (call c ;;; k).
Proof. intros Hf p. unfold bind, stk, call, modify. apply (Hf (Prog (pr_con p) (pr_calls p ++ [c]) (pr_cfg p))). Qed.

Lemma same_ret {A} (a : A) : same_calls (ret a) (ret a).
Proof. by intros p. Qed.

Lemma same_exit {A} x : same_calls (exit x : M prog A) (exit x).
Proof. by intros p. Qed.

Lemma same_init {B} cfg (f : unit → M prog B) k : same_calls (f tt) k → same_calls (bind (init_with cfg) f) (call Init ;;; k).
Proof. intros Hf p. unfold bind, init_with, call, modify. apply (Hf (Prog (pr_con p) (pr_calls p ++ [Init]) (Some cfg))). Qed.

Lemma boot_stack_same e a cfg : same_calls (boot_stack e a cfg)
  (call Init ;;;
   if negb (e_init e) then exit EXIT_FAILURE
   else if factory_reset a then call FactoryReset ;;; exit EXIT_SUCCESS
   else if decide (0 < show a) then call (Show (if decide (show a = 1) then 0x2010 else 0xFFFF)) ;;; exit EXIT_SUCCESS
   else call (SetSocket "/var/run/agentx/master") ;;; call Start ;;;
        if decide (e_start e ≠ 0) then exit EXIT_FAILURE else ret tt).
Proof.
  apply same_init. destruct (negb (e_init e)); [eapply same_mute; [apply mute_say|apply same_exit]|].
  destruct (factory_reset a); [eapply same_mute; [apply mute_say|]; apply same_stk, same_exit|].
  case_decide.
  - eapply same_mute; [apply mute_say|]. apply same_stk. eapply same_mute; [apply mute_say|apply same_exit].
  - apply same_stk, same_stk. case_decide; [|apply same_ret]. eapply same_mute; [apply mute_say|apply same_exit].
Qed.

End Boot.

Module BootDemo.
#[export] Instance paths : PathOpts := {|
  FULLPATH_SIZE := 280; DIRECTORYPATH_SIZE := 240; STATION_SIZE := 241; INTERFACES_SIZE := 33;
  DRIVER_ENABLE := false; PORTS := 1;
|}.

Definition args : app_args :=
  AppArgs EmptyString EmptyString "/var/lib/profinet" "press-4" "eth0" 3 0 false false MODE_HW_OFFLOAD_NONE.

Definition env : start_env := StartEnv (λ _, 0) (λ _, true) true 0.

Definition host : build := Build "0.2.0" 5 4 1 (λ _, Some [2; 0; 0; 0; 0; 1]) (Some "press")
  (λ n, IfCfg n [n] (IpAddr 192 0 2 1) (IpAddr 192 0 2 254) (IpAddr 255 255 255 0)).

Import StartDemo.

End BootDemo.
